(** * OpenIDM download engine: segments, scheduler, worker, task, manager

    A shallow embedding of the engine's C++ sources
    (include/openidm/engine/*.h, src/engine/*.cpp) and the properties of the
    engine's specification checked against it, followed by further
    properties of the scheduler, the worker, the task and the manager that
    the code itself shows (X1 to X24).

    Conventions of the embedding.
    - [ByteOffset]/[ByteCount] ([int64_t]) and [size_t] values are [Z]; the
      places where the source converts between them, or where an atomic
      counter wraps, apply [to_int64], [to_uint64] or [to_uint32].  Plain
      signed arithmetic on offsets is arithmetic of [Z]: signed overflow is
      undefined in the source and offsets are file positions.
    - A [Segment*] is the index of the segment in the scheduler's
      [m_segments] vector (segments are only appended, or all dropped), a
      [SegmentWorker*] is a number.  The segments themselves live in the
      scheduler state: whoever holds a handle mutates that one store.
    - [std::set] and [std::map] over pointers are [gset] and [gmap];
      [std::deque] and [std::vector] are lists.  A set of pointers is walked
      in the order of the addresses.  Where the allocator puts a segment is
      not the engine's doing: the scheduler state carries the address of each
      handle ([m_address]) and the loops over [m_activeSegments] follow it
      ([in_address_order]).  A handle keeps its address when the segments
      are made anew.  The map of the tasks, whose order decides which of two
      tasks is found first, is a list in key order.
    - Qt signals are appended to a log in emission order.
    - Throughput figures ([double]) and wall-clock times are not tracked, and
      with them the rebalancing by throughput and the timers; the CRC of a
      segment is not tracked either.  Segment.cpp is not among the sources:
      the constructor of a segment and [Segment::split] follow the
      specification and say so, [Segment::restore] and with it
      [restoreSegments] are left out. *)

From stdpp Require Import base list gmap strings sorting pretty.
From Stdlib Require Import ZArith Lia.

Local Open Scope Z_scope.

(* ===================================================================== *)
(** * Types.h *)
(* ===================================================================== *)

Definition to_int64 (z : Z) : Z := (z + 2 ^ 63) mod 2 ^ 64 - 2 ^ 63.
Definition to_uint64 (z : Z) : Z := z mod 2 ^ 64.
Definition to_uint32 (z : Z) : Z := z mod 2 ^ 32.

(** [std::clamp(v, lo, hi)] *)
Definition clamp (v lo hi : Z) : Z :=
  if v <? lo then lo else if hi <? v then hi else v.

Module DownloadState.
Inductive t :=
  Queued | Probing | Downloading | Paused | Merging | Verifying | Completed | Failed.
#[global] Instance eq_dec : EqDecision t.
Proof. solve_decision. Defined.
End DownloadState.

Module SegmentState.
Inductive t := Pending | Active | Paused | Completed | Failed | Stolen.
#[global] Instance eq_dec : EqDecision t.
Proof. solve_decision. Defined.
End SegmentState.

Module Priority.
Inductive t := Low | Normal | High | Urgent.
Definition rank (p : t) : Z :=
  match p with Low => 0 | Normal => 1 | High => 2 | Urgent => 3 end.
End Priority.

Module ErrorCategory.
Inductive t :=
  None | Network | ServerError | ClientError | FileSystem | Checksum
| Cancelled | Timeout | SSLError | Unknown.
#[global] Instance eq_dec : EqDecision t.
Proof. solve_decision. Defined.
End ErrorCategory.

Module Constants.
Definition MAX_SEGMENTS : Z := 32.
Definition MIN_SEGMENTS : Z := 1.
Definition DEFAULT_SEGMENTS : Z := 8.
Definition MIN_SEGMENT_SIZE : Z := 1 * 1024 * 1024.
Definition MIN_STEAL_SIZE : Z := 512 * 1024.
Definition MAX_RETRIES : Z := 5.
Definition FILE_BUFFER_SIZE : Z := 256 * 1024.
End Constants.

Arguments Constants.FILE_BUFFER_SIZE : simpl never.

(** libcurl's result codes, as far as the worker tells them apart. *)
Inductive CURLcode :=
  | CURLE_OK
  | CURLE_COULDNT_RESOLVE_HOST
  | CURLE_COULDNT_CONNECT
  | CURLE_OPERATION_TIMEDOUT
  | CURLE_RECV_ERROR
  | CURLE_SEND_ERROR
  | CURLE_SSL_CONNECT_ERROR
  | CURLE_SSL_CERTPROBLEM
  | CURLE_SSL_CIPHER
  | CURLE_PEER_FAILED_VERIFICATION
  | CURLE_HTTP_RETURNED_ERROR
  | CURLE_ABORTED_BY_CALLBACK
  | CURLE_WRITE_ERROR
  | CURLE_other (code : Z).

#[global] Instance CURLcode_eq_dec : EqDecision CURLcode.
Proof. solve_decision. Defined.

(** The codes as integers, the values of libcurl's header. *)
Definition CURLcode_value (c : CURLcode) : Z :=
  match c with
  | CURLE_OK => 0
  | CURLE_COULDNT_RESOLVE_HOST => 6
  | CURLE_COULDNT_CONNECT => 7
  | CURLE_OPERATION_TIMEDOUT => 28
  | CURLE_RECV_ERROR => 56
  | CURLE_SEND_ERROR => 55
  | CURLE_SSL_CONNECT_ERROR => 35
  | CURLE_SSL_CERTPROBLEM => 58
  | CURLE_SSL_CIPHER => 59
  | CURLE_PEER_FAILED_VERIFICATION => 60
  | CURLE_HTTP_RETURNED_ERROR => 22
  | CURLE_ABORTED_BY_CALLBACK => 42
  | CURLE_WRITE_ERROR => 23
  | CURLE_other code => code
  end.

(** The texts of [QString] messages, kept symbolic: the arguments of the
    constructors are the [%1] arguments of the source's format strings. *)
Inductive Message :=
  | NoMessage
  | NetworkErrorMsg (code : CURLcode)       (* "Network error: %1" *)
  | SSLErrorMsg (code : CURLcode)           (* "SSL error: %1" *)
  | HttpErrorMsg (httpCode : Z)             (* "HTTP error %1" *)
  | DownloadErrorMsg (code : CURLcode)      (* "Download error: %1" *)
  | IncompleteDownloadMsg                   (* "Incomplete download" *)
  | TempFileOpenMsg (path : string)         (* "Failed to open temp file: %1" *)
  | MergeFailedMsg                          (* "Failed to merge segment files" *)
  | CancelledMsg.                           (* "Download cancelled by user" *)

Record DownloadError := mkDownloadError {
  category : ErrorCategory.t;
  errorCode : Z;
  message : Message;
  retryCount : Z
}.

Definition DownloadError_default : DownloadError :=
  mkDownloadError ErrorCategory.None 0 NoMessage 0.

Definition isRecoverable (e : DownloadError) : bool :=
  bool_decide (category e = ErrorCategory.Network)
  || bool_decide (category e = ErrorCategory.Timeout)
  || bool_decide (category e = ErrorCategory.ServerError).

Record ServerCapabilities := mkCaps {
  supportsRanges : bool;
  contentLength : Z;
  caps_fileName : string;            (* fileName *)
  httpStatusCode : Z
}.

Definition ServerCapabilities_default : ServerCapabilities := mkCaps false (-1) "" 0.

Definition caps_isValid (c : ServerCapabilities) : bool :=
  (200 <=? httpStatusCode c) && (httpStatusCode c <? 400).

(* ===================================================================== *)
(** * Segment.h *)
(* ===================================================================== *)

Record Segment := mkSegment {
  m_id : Z;                      (* SegmentId, uint32_t *)
  m_startByte : Z;
  m_endByte : Z;
  m_currentByte : Z;             (* std::atomic<ByteOffset> *)
  m_state : SegmentState.t;      (* std::atomic<SegmentState> *)
  m_tempFilePath : string;
  m_retryCount : Z;
  m_lastError : Message
}.

(** Modelled from the spec: the constructor [Segment(id, startByte, endByte)]
    is defined in Segment.cpp, which is not among the sources.  The spec has
    [downloaded = current_byte - start] and a new segment has downloaded
    nothing, so [current_byte] starts at [start]; the other members take the
    default member initialisers of Segment.h. *)
Definition Segment_new (id startByte endByte : Z) : Segment :=
  mkSegment id startByte endByte startByte SegmentState.Pending "" 0 NoMessage.

Definition totalSize (s : Segment) : Z := m_endByte s - m_startByte s + 1.
Definition downloadedBytes (s : Segment) : Z := m_currentByte s - m_startByte s.
Definition remainingBytes (s : Segment) : Z := m_endByte s - m_currentByte s + 1.

Definition setCurrentByte (position : Z) (s : Segment) : Segment :=
  mkSegment (m_id s) (m_startByte s) (m_endByte s) position (m_state s)
            (m_tempFilePath s) (m_retryCount s) (m_lastError s).

(** [fetch_add] on the atomic 64-bit position; the new position is the
    result. *)
Definition advanceBy (bytes : Z) (s : Segment) : Segment :=
  setCurrentByte (to_int64 (m_currentByte s + bytes)) s.

Definition setEndByte (newEnd : Z) (s : Segment) : Segment :=
  mkSegment (m_id s) (m_startByte s) newEnd (m_currentByte s) (m_state s)
            (m_tempFilePath s) (m_retryCount s) (m_lastError s).

Definition setState (newState : SegmentState.t) (s : Segment) : Segment :=
  mkSegment (m_id s) (m_startByte s) (m_endByte s) (m_currentByte s) newState
            (m_tempFilePath s) (m_retryCount s) (m_lastError s).

Definition setTempFilePath (path : string) (s : Segment) : Segment :=
  mkSegment (m_id s) (m_startByte s) (m_endByte s) (m_currentByte s) (m_state s)
            path (m_retryCount s) (m_lastError s).

Definition setLastError (msg : Message) (s : Segment) : Segment :=
  mkSegment (m_id s) (m_startByte s) (m_endByte s) (m_currentByte s) (m_state s)
            (m_tempFilePath s) (m_retryCount s) msg.

Definition incrementRetry (s : Segment) : Segment :=
  mkSegment (m_id s) (m_startByte s) (m_endByte s) (m_currentByte s) (m_state s)
            (m_tempFilePath s) (m_retryCount s + 1) (m_lastError s).

Definition canRetry (s : Segment) : bool := m_retryCount s <? Constants.MAX_RETRIES.

Definition isSplittable (minSize : Z) (s : Segment) : bool :=
  minSize * 2 <=? remainingBytes s.

(** Modelled from the spec: the body of [Segment::split] is in Segment.cpp,
    which is not among the sources.  The spec: midpoint = current_byte +
    remaining / 2; the donor's new end is midpoint - 1; the new segment covers
    [midpoint, original_end]; a split on a segment with remaining <
    2 * MIN_STEAL_SIZE returns none and does not mutate state.  The comment
    on the declaration in Segment.h says the same: the remaining work is
    split in half, this segment's end becomes midpoint - 1, the new segment
    covers midpoint to the original end, nothing is returned when the segment
    is not splittable.  The result is the shrunk donor and the new
    segment. *)
Definition split (newId : Z) (s : Segment) : option (Segment * Segment) :=
  if isSplittable Constants.MIN_STEAL_SIZE s then
    let midpoint := m_currentByte s + remainingBytes s `quot` 2 in
    Some (setEndByte (midpoint - 1) s, Segment_new newId midpoint (m_endByte s))
  else None.

(* ===================================================================== *)
(** * SegmentScheduler *)
(* ===================================================================== *)

Inductive SchedulerSignal :=
  | segmentCompleted (id : Z)
  | segmentFailed (id : Z) (error : Message)
  | allSegmentsCompleted
  | segmentAdded (id : Z)
  | rebalanced (splitCount : Z).

Record Scheduler := mkScheduler {
  m_segments : list Segment;             (* vector<unique_ptr<Segment>> *)
  m_pendingQueue : list nat;             (* deque<Segment*> *)
  m_activeSegments : gset nat;           (* set<Segment*> *)
  m_completedSegments : gset nat;
  m_failedSegments : gset nat;
  m_workers : gset nat;                  (* set<SegmentWorker*> *)
  m_workerAssignments : gmap nat nat;    (* map<SegmentWorker*, Segment*> *)
  m_nextSegmentId : Z;                   (* atomic<SegmentId> *)
  m_paused : bool;
  m_cancelled : bool;
  m_signals : list SchedulerSignal;      (* emitted so far, oldest first *)
  m_address : nat → Z                    (* where the allocator put each segment *)
}.

(** The state the constructor leaves.  The segments do not exist yet; where
    they will lie is the allocator's choice, here one block after the other.
    The statements about an arbitrary scheduler hold for every placement. *)
Definition Scheduler_new : Scheduler :=
  mkScheduler [] [] ∅ ∅ ∅ ∅ ∅ 0 false false [] (λ segment, Z.of_nat segment).

Definition with_segments (v : list Segment) (s : Scheduler) : Scheduler :=
  mkScheduler v (m_pendingQueue s) (m_activeSegments s) (m_completedSegments s)
    (m_failedSegments s) (m_workers s) (m_workerAssignments s)
    (m_nextSegmentId s) (m_paused s) (m_cancelled s) (m_signals s) (m_address s).

Definition with_pendingQueue (v : list nat) (s : Scheduler) : Scheduler :=
  mkScheduler (m_segments s) v (m_activeSegments s) (m_completedSegments s)
    (m_failedSegments s) (m_workers s) (m_workerAssignments s)
    (m_nextSegmentId s) (m_paused s) (m_cancelled s) (m_signals s) (m_address s).

Definition with_activeSegments (v : gset nat) (s : Scheduler) : Scheduler :=
  mkScheduler (m_segments s) (m_pendingQueue s) v (m_completedSegments s)
    (m_failedSegments s) (m_workers s) (m_workerAssignments s)
    (m_nextSegmentId s) (m_paused s) (m_cancelled s) (m_signals s) (m_address s).

Definition with_completedSegments (v : gset nat) (s : Scheduler) : Scheduler :=
  mkScheduler (m_segments s) (m_pendingQueue s) (m_activeSegments s) v
    (m_failedSegments s) (m_workers s) (m_workerAssignments s)
    (m_nextSegmentId s) (m_paused s) (m_cancelled s) (m_signals s) (m_address s).

Definition with_failedSegments (v : gset nat) (s : Scheduler) : Scheduler :=
  mkScheduler (m_segments s) (m_pendingQueue s) (m_activeSegments s)
    (m_completedSegments s) v (m_workers s) (m_workerAssignments s)
    (m_nextSegmentId s) (m_paused s) (m_cancelled s) (m_signals s) (m_address s).

Definition with_workers (v : gset nat) (s : Scheduler) : Scheduler :=
  mkScheduler (m_segments s) (m_pendingQueue s) (m_activeSegments s)
    (m_completedSegments s) (m_failedSegments s) v (m_workerAssignments s)
    (m_nextSegmentId s) (m_paused s) (m_cancelled s) (m_signals s) (m_address s).

Definition with_workerAssignments (v : gmap nat nat) (s : Scheduler) : Scheduler :=
  mkScheduler (m_segments s) (m_pendingQueue s) (m_activeSegments s)
    (m_completedSegments s) (m_failedSegments s) (m_workers s) v
    (m_nextSegmentId s) (m_paused s) (m_cancelled s) (m_signals s) (m_address s).

Definition with_nextSegmentId (v : Z) (s : Scheduler) : Scheduler :=
  mkScheduler (m_segments s) (m_pendingQueue s) (m_activeSegments s)
    (m_completedSegments s) (m_failedSegments s) (m_workers s)
    (m_workerAssignments s) v (m_paused s) (m_cancelled s) (m_signals s) (m_address s).

Definition with_paused (v : bool) (s : Scheduler) : Scheduler :=
  mkScheduler (m_segments s) (m_pendingQueue s) (m_activeSegments s)
    (m_completedSegments s) (m_failedSegments s) (m_workers s)
    (m_workerAssignments s) (m_nextSegmentId s) v (m_cancelled s) (m_signals s) (m_address s).

Definition with_cancelled (v : bool) (s : Scheduler) : Scheduler :=
  mkScheduler (m_segments s) (m_pendingQueue s) (m_activeSegments s)
    (m_completedSegments s) (m_failedSegments s) (m_workers s)
    (m_workerAssignments s) (m_nextSegmentId s) (m_paused s) v (m_signals s) (m_address s).

Definition emit (sig : SchedulerSignal) (s : Scheduler) : Scheduler :=
  mkScheduler (m_segments s) (m_pendingQueue s) (m_activeSegments s)
    (m_completedSegments s) (m_failedSegments s) (m_workers s)
    (m_workerAssignments s) (m_nextSegmentId s) (m_paused s) (m_cancelled s)
    (m_signals s ++ [sig]) (m_address s).

(** [segment->f(...)] through a handle. *)
Definition on_segment (h : nat) (f : Segment → Segment) (s : Scheduler) : Scheduler :=
  with_segments (alter f h (m_segments s)) s.

(** [m_nextSegmentId.fetch_add(1)]: the old value, and the counter moved on. *)
Definition nextSegmentId (s : Scheduler) : Z * Scheduler :=
  (m_nextSegmentId s, with_nextSegmentId (to_uint32 (m_nextSegmentId s + 1)) s).

(** The loop of [initializeSegments]: [n] iterations are left, [i] is the
    loop index. *)
Fixpoint init_loop (n : nat) (i segmentCount segmentSize remainder currentStart nextId : Z)
  : list Segment :=
  match n with
  | O => []
  | S n' =>
      let thisSize :=
        if bool_decide (i = segmentCount - 1) then segmentSize + remainder
        else segmentSize in
      let startByte := currentStart in
      let endByte := currentStart + thisSize - 1 in
      Segment_new nextId startByte endByte
        :: init_loop n' (i + 1) segmentCount segmentSize remainder
             (endByte + 1) (to_uint32 (nextId + 1))
  end.

(** [totalSize] is a [ByteCount], [segmentCount] a [size_t]: the quotient and
    the remainder are taken in [size_t] and converted back. *)
Definition initializeSegments (totalSize segmentCount : Z) (s : Scheduler)
  : list nat * Scheduler :=
  let segmentCount := clamp segmentCount Constants.MIN_SEGMENTS Constants.MAX_SEGMENTS in
  let segmentSize := to_int64 (to_uint64 totalSize `div` segmentCount) in
  let remainder := to_int64 (to_uint64 totalSize `mod` segmentCount) in
  let segs := init_loop (Z.to_nat segmentCount) 0 segmentCount segmentSize remainder 0 0 in
  let result := seq 0 (length segs) in
  (result,
   mkScheduler segs result ∅ ∅ ∅ (m_workers s) (m_workerAssignments s)
     (to_uint32 (Z.of_nat (length segs))) (m_paused s) (m_cancelled s) (m_signals s)
     (m_address s)).

Definition calculateOptimalSegmentCount (totalSize : Z) : Z :=
  if totalSize <=? 0 then Constants.MIN_SEGMENTS
  else
    let bySize := to_uint64 (totalSize `quot` Constants.MIN_SEGMENT_SIZE) in
    clamp bySize Constants.MIN_SEGMENTS Constants.MAX_SEGMENTS.

(** A [std::set<Segment*>] is ordered by the pointers: a loop over it meets
    the segments by ascending address. *)
Definition address_le (address : nat → Z) (a b : nat) : Prop :=
  address a ≤ address b.

#[global] Instance address_le_dec address : RelDecision (address_le address) :=
  λ a b, decide (address a ≤ address b).

Definition in_address_order (address : nat → Z) (segments : gset nat) : list nat :=
  merge_sort (address_le address) (elements segments).

(** One iteration of the loop of [findLargestActiveSegment]. *)
Definition largest_step (segs : list Segment) (acc : option nat * Z) (h : nat)
  : option nat * Z :=
  match segs !! h with
  | Some segment =>
      let remaining := remainingBytes segment in
      if (snd acc <? remaining) && isSplittable Constants.MIN_STEAL_SIZE segment
      then (Some h, remaining) else acc
  | None => acc
  end.

Definition findLargestActiveSegment (s : Scheduler) : option nat :=
  fst (foldl (largest_step (m_segments s)) (None, 0)
         (in_address_order (m_address s) (m_activeSegments s))).

Definition stealWork (worker : nat) (s : Scheduler) : option nat * Scheduler :=
  if m_paused s || m_cancelled s then (None, s)
  else
    match findLargestActiveSegment s with
    | None => (None, s)
    | Some largest =>
        match m_segments s !! largest with
        | None => (None, s)
        | Some donor =>
            if negb (isSplittable Constants.MIN_STEAL_SIZE donor) then (None, s)
            else
              let '(newId, s1) := nextSegmentId s in
              match split newId donor with
              | None => (None, s1)
              | Some (donor', newSegment) =>
                  let ptr := length (m_segments s1) in
                  let segs :=
                    <[largest := donor']> (m_segments s1)
                      ++ [setState SegmentState.Active newSegment] in
                  let s2 := with_segments segs s1 in
                  let s3 := with_activeSegments ({[ptr]} ∪ m_activeSegments s2) s2 in
                  let s4 := with_workerAssignments (<[worker := ptr]> (m_workerAssignments s3)) s3 in
                  (Some ptr, emit (segmentAdded newId) s4)
              end
        end
    end.

Definition acquireSegment (worker : nat) (s : Scheduler) : option nat * Scheduler :=
  if m_paused s || m_cancelled s then (None, s)
  else
    match m_pendingQueue s with
    | segment :: rest =>
        let s1 := with_pendingQueue rest s in
        let s2 := on_segment segment (setState SegmentState.Active) s1 in
        let s3 := with_activeSegments ({[segment]} ∪ m_activeSegments s2) s2 in
        let s4 := with_workerAssignments (<[worker := segment]> (m_workerAssignments s3)) s3 in
        (Some segment, s4)
    | [] => stealWork worker s
    end.

Definition isAllComplete (s : Scheduler) : bool :=
  bool_decide (m_pendingQueue s = [])
  && bool_decide (m_activeSegments s = ∅)
  && bool_decide (m_failedSegments s = ∅).

Definition hasFailed (s : Scheduler) : bool :=
  negb (bool_decide (m_failedSegments s = ∅)).

Definition checkAllComplete (s : Scheduler) : Scheduler :=
  if isAllComplete s then emit allSegmentsCompleted s else s.

(** [segment] is [None] for the null pointer.  A handle that is no segment of
    this scheduler cannot be passed in the source; the model leaves the queues
    alone for it after the two erasures. *)
Definition releaseSegment (worker : nat) (segment : option nat) (s : Scheduler) : Scheduler :=
  match segment with
  | None => s
  | Some seg =>
      let s1 := with_activeSegments (m_activeSegments s ∖ {[seg]}) s in
      let s2 := with_workerAssignments (delete worker (m_workerAssignments s1)) s1 in
      match m_segments s2 !! seg with
      | None => s2
      | Some sg =>
          match m_state sg with
          | SegmentState.Completed =>
              let s3 := with_completedSegments ({[seg]} ∪ m_completedSegments s2) s2 in
              checkAllComplete (emit (segmentCompleted (m_id sg)) s3)
          | SegmentState.Failed =>
              if canRetry sg then
                let s3 := on_segment seg (setState SegmentState.Pending) s2 in
                with_pendingQueue (m_pendingQueue s3 ++ [seg]) s3
              else
                let s3 := with_failedSegments ({[seg]} ∪ m_failedSegments s2) s2 in
                emit (segmentFailed (m_id sg) (m_lastError sg)) s3
          | SegmentState.Paused =>
              with_pendingQueue (seg :: m_pendingQueue s2) s2
          | _ =>
              let s3 := on_segment seg (setState SegmentState.Pending) s2 in
              with_pendingQueue (m_pendingQueue s3 ++ [seg]) s3
          end
      end
  end.

Definition markCompleted (segment : option nat) (s : Scheduler) : Scheduler :=
  match segment with
  | None => s
  | Some seg =>
      let s1 := on_segment seg (setState SegmentState.Completed) s in
      let s2 := with_activeSegments (m_activeSegments s1 ∖ {[seg]}) s1 in
      let s3 := with_completedSegments ({[seg]} ∪ m_completedSegments s2) s2 in
      let id := default 0 (m_id <$> m_segments s3 !! seg) in
      checkAllComplete (emit (segmentCompleted id) s3)
  end.

Definition markFailed (segment : option nat) (error : Message) (s : Scheduler) : Scheduler :=
  match segment with
  | None => s
  | Some seg =>
      let s1 := on_segment seg (λ sg, incrementRetry (setLastError error sg)) s in
      let s2 := with_activeSegments (m_activeSegments s1 ∖ {[seg]}) s1 in
      if default false (canRetry <$> m_segments s2 !! seg) then
        let s3 := on_segment seg (setState SegmentState.Pending) s2 in
        with_pendingQueue (m_pendingQueue s3 ++ [seg]) s3
      else
        let s3 := on_segment seg (setState SegmentState.Failed) s2 in
        let s4 := with_failedSegments ({[seg]} ∪ m_failedSegments s3) s3 in
        let id := default 0 (m_id <$> m_segments s4 !! seg) in
        emit (segmentFailed id error) s4
  end.

Definition registerWorker (worker : nat) (s : Scheduler) : Scheduler :=
  with_workers ({[worker]} ∪ m_workers s) s.

Definition unregisterWorker (worker : nat) (s : Scheduler) : Scheduler :=
  with_workerAssignments (delete worker (m_workerAssignments s))
    (with_workers (m_workers s ∖ {[worker]}) s).

(** [waitForWork] with nobody else touching the scheduler while the caller
    waits: work is there at once, or the wait ends with the value of its
    predicate at the timeout. *)
Definition waitForWork (s : Scheduler) : bool :=
  if negb (bool_decide (m_pendingQueue s = []))
     || negb (bool_decide (m_activeSegments s = ∅))
  then true
  else negb (bool_decide (m_pendingQueue s = [])) || m_cancelled s || m_paused s.

Definition totalDownloadedBytes (s : Scheduler) : Z :=
  foldl (λ total seg, total + downloadedBytes seg) 0 (m_segments s).

Definition pauseAll (s : Scheduler) : Scheduler :=
  let s1 := with_paused true s in
  let s2 :=
    foldl (λ acc segment,
             with_pendingQueue (segment :: m_pendingQueue acc)
               (on_segment segment (setState SegmentState.Paused) acc))
          s1 (in_address_order (m_address s1) (m_activeSegments s1)) in
  with_workerAssignments ∅ (with_activeSegments ∅ s2).

Definition resume_state (sg : Segment) : Segment :=
  if bool_decide (m_state sg = SegmentState.Paused)
  then setState SegmentState.Pending sg else sg.

Definition resumeAll (s : Scheduler) : Scheduler :=
  with_segments (resume_state <$> m_segments s) (with_paused false s).

Definition cancelAll (s : Scheduler) : Scheduler :=
  let s1 := with_paused false (with_cancelled true s) in
  with_workerAssignments ∅ (with_activeSegments ∅ (with_pendingQueue [] s1)).

Definition reset (s : Scheduler) : Scheduler :=
  mkScheduler [] [] ∅ ∅ ∅ (m_workers s) ∅ 0 false false (m_signals s) (m_address s).

(* ===================================================================== *)
(** * Files (QFile) *)
(* ===================================================================== *)

Abbreviation bytes := (list Byte.byte).

(** What the engine can observe of the disk: the files and their contents,
    how many more bytes the device takes before a write comes back short, the
    paths that cannot be opened, and for a damaged file the offset from which
    reading it fails. *)
Record FileSystem := mkFileSystem {
  fs_files : gmap string bytes;
  fs_room : Z;
  fs_denied : gset string;
  fs_bad_from : gmap string nat
}.

Definition with_files (v : gmap string bytes) (fs : FileSystem) : FileSystem :=
  mkFileSystem v (fs_room fs) (fs_denied fs) (fs_bad_from fs).

(** [QFile::open(WriteOnly)], with [Append] or truncating. *)
Definition QFile_open_write (path : string) (append : bool) (fs : FileSystem)
  : option FileSystem :=
  if bool_decide (path ∈ fs_denied fs) then None
  else
    let old := default [] (fs_files fs !! path) in
    Some (with_files (<[path := if append then old else []]> (fs_files fs)) fs).

(** [QFile::write(ptr, n)]: the number of bytes that went out. *)
Definition QFile_write (path : string) (data : bytes) (fs : FileSystem) : Z * FileSystem :=
  let n := Z.min (Z.of_nat (length data)) (Z.max 0 (fs_room fs)) in
  let old := default [] (fs_files fs !! path) in
  (n, mkFileSystem (<[path := old ++ take (Z.to_nat n) data]> (fs_files fs))
        (fs_room fs - n) (fs_denied fs) (fs_bad_from fs)).

(** [QFile::open(ReadOnly)]: the bytes that reading will deliver before
    [atEnd()] holds or [read] returns nothing. *)
Definition QFile_open_read (path : string) (fs : FileSystem) : option bytes :=
  if bool_decide (path ∈ fs_denied fs) then None
  else
    match fs_files fs !! path with
    | None => None
    | Some content =>
        match fs_bad_from fs !! path with
        | Some k => Some (take k content)
        | None => Some content
        end
    end.

Definition QFile_exists (path : string) (fs : FileSystem) : bool :=
  bool_decide (is_Some (fs_files fs !! path)).

Definition QFile_remove (path : string) (fs : FileSystem) : FileSystem :=
  with_files (delete path (fs_files fs)) fs.

(* ===================================================================== *)
(** * SegmentWorker *)
(* ===================================================================== *)

Module WorkerState.
Inductive t := Idle | Downloading | Paused | Stopping | Error.
End WorkerState.

Inductive WorkerSignal :=
  | w_segmentCompleted (segment : nat)
  | w_errorOccurred (segment : nat) (error : DownloadError)
  | w_stateChanged (newState : WorkerState.t)
  | w_finished.

Record SegmentWorker := mkWorker {
  worker_this : nat;                     (* the worker's own address *)
  m_filePath_dir : string;               (* QFileInfo(m_task->filePath()).path() *)
  m_filePath_name : string;              (* QFileInfo(m_task->filePath()).fileName() *)
  m_currentSegment : option nat;
  m_curl : bool;                         (* the handle is there *)
  m_tempFile : option string;            (* the open temp file, if any *)
  m_shouldStop : bool;
  m_isPaused : bool;
  worker_state : WorkerState.t;
  m_totalBytesDownloaded : Z;
  m_segmentBytesDownloaded : Z;
  worker_signals : list WorkerSignal
}.

Definition SegmentWorker_new (this : nat) (dir name : string) : SegmentWorker :=
  mkWorker this dir name None false None false false WorkerState.Idle 0 0 [].

Definition w_with_currentSegment (v : option nat) (w : SegmentWorker) : SegmentWorker :=
  mkWorker (worker_this w) (m_filePath_dir w) (m_filePath_name w) v (m_curl w)
    (m_tempFile w) (m_shouldStop w) (m_isPaused w) (worker_state w)
    (m_totalBytesDownloaded w) (m_segmentBytesDownloaded w) (worker_signals w).

Definition w_with_curl (v : bool) (w : SegmentWorker) : SegmentWorker :=
  mkWorker (worker_this w) (m_filePath_dir w) (m_filePath_name w) (m_currentSegment w) v
    (m_tempFile w) (m_shouldStop w) (m_isPaused w) (worker_state w)
    (m_totalBytesDownloaded w) (m_segmentBytesDownloaded w) (worker_signals w).

Definition w_with_tempFile (v : option string) (w : SegmentWorker) : SegmentWorker :=
  mkWorker (worker_this w) (m_filePath_dir w) (m_filePath_name w) (m_currentSegment w)
    (m_curl w) v (m_shouldStop w) (m_isPaused w) (worker_state w)
    (m_totalBytesDownloaded w) (m_segmentBytesDownloaded w) (worker_signals w).

Definition w_with_shouldStop (v : bool) (w : SegmentWorker) : SegmentWorker :=
  mkWorker (worker_this w) (m_filePath_dir w) (m_filePath_name w) (m_currentSegment w)
    (m_curl w) (m_tempFile w) v (m_isPaused w) (worker_state w)
    (m_totalBytesDownloaded w) (m_segmentBytesDownloaded w) (worker_signals w).

Definition w_with_isPaused (v : bool) (w : SegmentWorker) : SegmentWorker :=
  mkWorker (worker_this w) (m_filePath_dir w) (m_filePath_name w) (m_currentSegment w)
    (m_curl w) (m_tempFile w) (m_shouldStop w) v (worker_state w)
    (m_totalBytesDownloaded w) (m_segmentBytesDownloaded w) (worker_signals w).

Definition w_with_state (v : WorkerState.t) (w : SegmentWorker) : SegmentWorker :=
  mkWorker (worker_this w) (m_filePath_dir w) (m_filePath_name w) (m_currentSegment w)
    (m_curl w) (m_tempFile w) (m_shouldStop w) (m_isPaused w) v
    (m_totalBytesDownloaded w) (m_segmentBytesDownloaded w) (worker_signals w).

Definition w_with_counters (total segment : Z) (w : SegmentWorker) : SegmentWorker :=
  mkWorker (worker_this w) (m_filePath_dir w) (m_filePath_name w) (m_currentSegment w)
    (m_curl w) (m_tempFile w) (m_shouldStop w) (m_isPaused w) (worker_state w)
    total segment (worker_signals w).

Definition w_emit (sig : WorkerSignal) (w : SegmentWorker) : SegmentWorker :=
  mkWorker (worker_this w) (m_filePath_dir w) (m_filePath_name w) (m_currentSegment w)
    (m_curl w) (m_tempFile w) (m_shouldStop w) (m_isPaused w) (worker_state w)
    (m_totalBytesDownloaded w) (m_segmentBytesDownloaded w) (worker_signals w ++ [sig]).

Definition shouldContinue (w : SegmentWorker) : bool := negb (m_shouldStop w).

(** [stop()], [pause()] and [resume()], called from the task's thread. *)
Definition worker_stop (w : SegmentWorker) : SegmentWorker :=
  w_with_isPaused false (w_with_shouldStop true w).

Definition worker_pause (w : SegmentWorker) : SegmentWorker :=
  w_emit (w_stateChanged WorkerState.Paused)
    (w_with_state WorkerState.Paused (w_with_isPaused true w)).

Definition worker_resume (w : SegmentWorker) : SegmentWorker :=
  w_emit (w_stateChanged WorkerState.Downloading)
    (w_with_state WorkerState.Downloading (w_with_isPaused false w)).

(** The data-receive callback.  [data] is the buffer libcurl hands over
    ([ptr], with [size * nmemb] bytes in it); the result is the callback's
    return value with the worker, the segments and the disk after it. *)
Definition writeCallback (data : bytes) (w : SegmentWorker) (sch : Scheduler) (fs : FileSystem)
  : Z * SegmentWorker * Scheduler * FileSystem :=
  let totalSize := to_uint64 (Z.of_nat (length data)) in
  match m_tempFile w with
  | None => (0, w, sch, fs)
  | Some file =>
      let '(written, fs1) := QFile_write file data fs in
      if bool_decide (written ≠ to_int64 totalSize) then (0, w, sch, fs1)
      else
        let sch1 :=
          match m_currentSegment w with
          | Some segment => on_segment segment (advanceBy (to_int64 totalSize)) sch
          | None => sch
          end in
        let w1 :=
          w_with_counters (to_int64 (m_totalBytesDownloaded w + to_int64 totalSize))
                          (to_int64 (m_segmentBytesDownloaded w + to_int64 totalSize)) w in
        (totalSize, w1, sch1, fs1)
  end.

(** The transfer-info callback: non-zero aborts the transfer. *)
Definition progressCallback (w : SegmentWorker) : Z :=
  if m_shouldStop w then 1 else if m_isPaused w then 1 else 0.

Definition handleCurlError (code : CURLcode) (httpCode : Z) (segment : Segment)
  : DownloadError :=
  match code with
  | CURLE_COULDNT_RESOLVE_HOST | CURLE_COULDNT_CONNECT | CURLE_OPERATION_TIMEDOUT
  | CURLE_RECV_ERROR | CURLE_SEND_ERROR =>
      mkDownloadError ErrorCategory.Network (CURLcode_value code) (NetworkErrorMsg code)
        (m_retryCount segment)
  | CURLE_SSL_CONNECT_ERROR | CURLE_SSL_CERTPROBLEM | CURLE_SSL_CIPHER
  | CURLE_PEER_FAILED_VERIFICATION =>
      mkDownloadError ErrorCategory.SSLError (CURLcode_value code) (SSLErrorMsg code)
        (m_retryCount segment)
  | CURLE_HTTP_RETURNED_ERROR =>
      mkDownloadError ErrorCategory.ServerError httpCode (HttpErrorMsg httpCode)
        (m_retryCount segment)
  | _ =>
      mkDownloadError ErrorCategory.Unknown (CURLcode_value code) (DownloadErrorMsg code)
        (m_retryCount segment)
  end.

(** What one [curl_easy_perform] meets: the buffers the server's answer
    arrives in, interleaved with the task's thread asking the worker to stop
    or to pause, then the result libcurl reports when no callback ended the
    transfer, and the HTTP status of the response. *)
Inductive TransferEvent :=
  | Recv (data : bytes)
  | StopRequested
  | PauseRequested.

Record Transfer := mkTransfer {
  tr_events : list TransferEvent;
  tr_result : CURLcode;
  tr_httpCode : Z
}.

(** libcurl's side of the transfer: before a buffer is delivered the
    transfer-info callback is asked, a non-zero answer ends the transfer with
    [CURLE_ABORTED_BY_CALLBACK]; a write callback that returns another number
    than the size of the buffer ends it with [CURLE_WRITE_ERROR]. *)
Fixpoint curl_easy_perform (events : list TransferEvent) (final : CURLcode)
    (w : SegmentWorker) (sch : Scheduler) (fs : FileSystem)
  : CURLcode * SegmentWorker * Scheduler * FileSystem :=
  match events with
  | [] =>
      if bool_decide (progressCallback w = 0) then (final, w, sch, fs)
      else (CURLE_ABORTED_BY_CALLBACK, w, sch, fs)
  | StopRequested :: rest => curl_easy_perform rest final (worker_stop w) sch fs
  | PauseRequested :: rest => curl_easy_perform rest final (worker_pause w) sch fs
  | Recv data :: rest =>
      if bool_decide (progressCallback w = 0) then
        let '(ret, w1, sch1, fs1) := writeCallback data w sch fs in
        if bool_decide (ret = Z.of_nat (length data))
        then curl_easy_perform rest final w1 sch1 fs1
        else (CURLE_WRITE_ERROR, w1, sch1, fs1)
      else (CURLE_ABORTED_BY_CALLBACK, w, sch, fs)
  end.

(** The path "%1/.%2.part%3" of a segment's temp file. *)
Definition temp_path (dir name : string) (id : Z) : string :=
  dir +:+ "/." +:+ name +:+ ".part" +:+ pretty id.

Definition openTempFile (segment : nat) (w : SegmentWorker) (sch : Scheduler) (fs : FileSystem)
  : bool * SegmentWorker * Scheduler * FileSystem :=
  match m_segments sch !! segment with
  | None => (false, w, sch, fs)
  | Some sg =>
      let tempPath :=
        if bool_decide (m_tempFilePath sg = "")
        then temp_path (m_filePath_dir w) (m_filePath_name w) (m_id sg)
        else m_tempFilePath sg in
      let sch1 :=
        if bool_decide (m_tempFilePath sg = "")
        then on_segment segment (setTempFilePath tempPath) sch else sch in
      match QFile_open_write tempPath (0 <? downloadedBytes sg) fs with
      | None => (false, w_with_tempFile None w, sch1, fs)
      | Some fs1 => (true, w_with_tempFile (Some tempPath) w, sch1, fs1)
      end
  end.

Definition closeTempFile (w : SegmentWorker) : SegmentWorker := w_with_tempFile None w.

Definition downloadSegment (segment : nat) (tr : Transfer)
    (w : SegmentWorker) (sch : Scheduler) (fs : FileSystem)
  : bool * SegmentWorker * Scheduler * FileSystem :=
  if negb (m_curl w) then (false, w, sch, fs)
  else
    let '(opened, w1, sch1, fs1) := openTempFile segment w sch fs in
    if negb opened then
      let path := default "" (m_tempFilePath <$> m_segments sch1 !! segment) in
      let error := mkDownloadError ErrorCategory.FileSystem 0 (TempFileOpenMsg path) 0 in
      (false, w_emit (w_errorOccurred segment error) w1, sch1, fs1)
    else
      let '(result, w2, sch2, fs2) :=
        curl_easy_perform (tr_events tr) (tr_result tr) w1 sch1 fs1 in
      let w3 := closeTempFile w2 in
      if bool_decide (result ≠ CURLE_OK) then
        if bool_decide (result = CURLE_ABORTED_BY_CALLBACK) && m_shouldStop w3 then
          (false, w3, sch2, fs2)
        else if bool_decide (result = CURLE_ABORTED_BY_CALLBACK) && m_isPaused w3 then
          (false, w3, on_segment segment (setState SegmentState.Paused) sch2, fs2)
        else
          match m_segments sch2 !! segment with
          | None => (false, w3, sch2, fs2)
          | Some sg =>
              let error := handleCurlError result (tr_httpCode tr) sg in
              let sch3 :=
                on_segment segment
                  (λ x, setState SegmentState.Failed (setLastError (message error) x)) sch2 in
              (false, w_emit (w_errorOccurred segment error) w3, sch3, fs2)
          end
      else
        match m_segments sch2 !! segment with
        | None => (false, w3, sch2, fs2)
        | Some sg =>
            let expected := m_endByte sg - m_startByte sg + 1 in
            let actual := downloadedBytes sg in
            if actual <? expected then
              let sch3 :=
                on_segment segment
                  (λ x, setState SegmentState.Failed (setLastError IncompleteDownloadMsg x))
                  sch2 in
              (false, w3, sch3, fs2)
            else (true, w3, sch2, fs2)
        end.

(** How [run] ends: the loop was left and the worker unregistered; or the
    worker sits in [waitWhilePaused] and nobody resumes it; or the script of
    transfers or the bound on the iterations is used up. *)
Inductive RunResult :=
  | Finished (w : SegmentWorker) (sch : Scheduler) (fs : FileSystem)
  | BlockedOnPause (w : SegmentWorker) (sch : Scheduler) (fs : FileSystem)
  | OutOfScript (w : SegmentWorker) (sch : Scheduler) (fs : FileSystem).

Definition run_cleanup (w : SegmentWorker) (sch : Scheduler) (fs : FileSystem) : RunResult :=
  Finished (w_emit w_finished (w_with_curl false w))
           (unregisterWorker (worker_this w) sch) fs.

(** The main loop, with nobody else touching the scheduler: [fuel] bounds the
    iterations, [transfers] are the transfers the successive downloads
    meet. *)
Fixpoint run_loop (fuel : nat) (transfers : list Transfer)
    (w : SegmentWorker) (sch : Scheduler) (fs : FileSystem) : RunResult :=
  match fuel with
  | O => OutOfScript w sch fs
  | S fuel' =>
      if negb (shouldContinue w) then run_cleanup w sch fs
      else if m_isPaused w then BlockedOnPause w sch fs
      else
        match acquireSegment (worker_this w) sch with
        | (None, sch1) =>
            if negb (waitForWork sch1) then
              if isAllComplete sch1 then run_cleanup w sch1 fs
              else run_loop fuel' transfers w sch1 fs
            else run_loop fuel' transfers w sch1 fs
        | (Some segment, sch1) =>
            match transfers with
            | [] => OutOfScript w sch1 fs
            | tr :: transfers' =>
                let w1 :=
                  w_emit (w_stateChanged WorkerState.Downloading)
                    (w_with_state WorkerState.Downloading w) in
                let w2 :=
                  w_with_counters (m_totalBytesDownloaded w1) 0
                    (w_with_currentSegment (Some segment) w1) in
                let '(success, w3, sch2, fs2) := downloadSegment segment tr w2 sch1 fs in
                let w4 := w_with_currentSegment None w3 in
                let sch3 :=
                  if success
                  then on_segment segment (setState SegmentState.Completed) sch2 else sch2 in
                let w5 := if success then w_emit (w_segmentCompleted segment) w4 else w4 in
                let sch4 := releaseSegment (worker_this w5) (Some segment) sch3 in
                if negb success && negb (shouldContinue w5) then run_cleanup w5 sch4 fs2
                else
                  run_loop fuel' transfers'
                    (w_emit (w_stateChanged WorkerState.Idle)
                       (w_with_state WorkerState.Idle w5)) sch4 fs2
            end
        end
  end.

(** [run()]: [curlInit] tells whether [curl_easy_init] gives a handle. *)
Definition run (curlInit : bool) (fuel : nat) (transfers : list Transfer)
    (w : SegmentWorker) (sch : Scheduler) (fs : FileSystem) : RunResult :=
  if negb curlInit then
    Finished (w_emit w_finished (w_with_state WorkerState.Error w)) sch fs
  else
    run_loop fuel transfers (w_with_curl true w) (registerWorker (worker_this w) sch) fs.

(** The options that [initCurl] and [configureCurl] set on the worker's
    handle (the values play no part here; [CURLOPT_SSL_OPTIONS] is set on
    Windows only), and [CURLOPT_FAILONERROR], which no function of the engine
    sets. *)
Inductive CURLoption :=
  | CURLOPT_FOLLOWLOCATION
  | CURLOPT_MAXREDIRS
  | CURLOPT_NOSIGNAL
  | CURLOPT_ACCEPT_ENCODING
  | CURLOPT_CONNECTTIMEOUT_MS
  | CURLOPT_LOW_SPEED_LIMIT
  | CURLOPT_LOW_SPEED_TIME
  | CURLOPT_SSL_VERIFYPEER
  | CURLOPT_SSL_VERIFYHOST
  | CURLOPT_SSL_OPTIONS
  | CURLOPT_URL
  | CURLOPT_RANGE
  | CURLOPT_WRITEFUNCTION
  | CURLOPT_WRITEDATA
  | CURLOPT_XFERINFOFUNCTION
  | CURLOPT_XFERINFODATA
  | CURLOPT_NOPROGRESS
  | CURLOPT_HEADERFUNCTION
  | CURLOPT_HEADERDATA
  | CURLOPT_USERAGENT
  | CURLOPT_FAILONERROR.

#[global] Instance CURLoption_eq_dec : EqDecision CURLoption.
Proof. solve_decision. Defined.

Definition initCurl_options : list CURLoption :=
  [CURLOPT_FOLLOWLOCATION; CURLOPT_MAXREDIRS; CURLOPT_NOSIGNAL; CURLOPT_ACCEPT_ENCODING;
   CURLOPT_CONNECTTIMEOUT_MS; CURLOPT_LOW_SPEED_LIMIT; CURLOPT_LOW_SPEED_TIME;
   CURLOPT_SSL_VERIFYPEER; CURLOPT_SSL_VERIFYHOST; CURLOPT_SSL_OPTIONS].

Definition configureCurl_options : list CURLoption :=
  [CURLOPT_URL; CURLOPT_RANGE; CURLOPT_WRITEFUNCTION; CURLOPT_WRITEDATA;
   CURLOPT_XFERINFOFUNCTION; CURLOPT_XFERINFODATA; CURLOPT_NOPROGRESS;
   CURLOPT_HEADERFUNCTION; CURLOPT_HEADERDATA; CURLOPT_USERAGENT].

(** libcurl's side of an HTTP answer that arrives whole, with the status
    [httpCode] and the body in the buffers [body].  libcurl hands the body of
    any answer to the write callback and reports [CURLE_OK], whatever the
    status; only on a handle with [CURLOPT_FAILONERROR] does it fail an
    answer with a status of 400 or more, with [CURLE_HTTP_RETURNED_ERROR] and
    without handing over the body. *)
Definition http_answer (options : list CURLoption) (httpCode : Z) (body : list bytes)
  : Transfer :=
  if bool_decide (CURLOPT_FAILONERROR ∈ options) && (400 <=? httpCode)
  then mkTransfer [] CURLE_HTTP_RETURNED_ERROR httpCode
  else mkTransfer (Recv <$> body) CURLE_OK httpCode.

(* ===================================================================== *)
(** * DownloadTask *)
(* ===================================================================== *)

(** A [QUrl]: its text, and whether Qt takes it for a valid URL. *)
Record QUrl := mkQUrl {
  url_text : string;
  url_isValid : bool
}.

#[global] Instance QUrl_eq_dec : EqDecision QUrl.
Proof. solve_decision. Defined.

Inductive TaskSignal :=
  | stateChanged (newState : DownloadState.t)
  | progressChanged
  | speedChanged
  | fileNameChanged
  | filePathChanged
  | totalSizeChanged
  | completed
  | failed (error : DownloadError)
  | errorChanged
  | needsPersistence.

Record DownloadTask := mkTask {
  task_id : Z;   (* m_id, a QUuid: 128 bits *)
  m_url : QUrl;
  m_fileName : string;
  m_destDir : string;
  m_filePath : string;
  m_capabilities : ServerCapabilities;
  task_state : DownloadState.t;   (* m_state *)
  m_totalSize : Z;
  m_downloadedBytes : Z;
  task_lastError : DownloadError;   (* m_lastError *)
  m_priority : Priority.t;
  m_scheduler : Scheduler;
  task_workers : list SegmentWorker;   (* m_workers *)
  m_threadPool_maxThreadCount : Z;   (* m_threadPool->maxThreadCount() *)
  m_progressTimer : bool;   (* the timer runs *)
  m_lastPersistedBytes : Z;
  task_signals : list TaskSignal   (* emitted so far, oldest first *)
}.

Definition t_with_fileName (v : string) (t : DownloadTask) : DownloadTask :=
  mkTask (task_id t) (m_url t) v (m_destDir t) (m_filePath t) (m_capabilities t)
    (task_state t) (m_totalSize t) (m_downloadedBytes t) (task_lastError t)
    (m_priority t) (m_scheduler t) (task_workers t) (m_threadPool_maxThreadCount t)
    (m_progressTimer t) (m_lastPersistedBytes t) (task_signals t).

Definition t_with_filePath (v : string) (t : DownloadTask) : DownloadTask :=
  mkTask (task_id t) (m_url t) (m_fileName t) (m_destDir t) v (m_capabilities t)
    (task_state t) (m_totalSize t) (m_downloadedBytes t) (task_lastError t)
    (m_priority t) (m_scheduler t) (task_workers t) (m_threadPool_maxThreadCount t)
    (m_progressTimer t) (m_lastPersistedBytes t) (task_signals t).

Definition t_with_capabilities (v : ServerCapabilities) (t : DownloadTask) : DownloadTask :=
  mkTask (task_id t) (m_url t) (m_fileName t) (m_destDir t) (m_filePath t) v
    (task_state t) (m_totalSize t) (m_downloadedBytes t) (task_lastError t)
    (m_priority t) (m_scheduler t) (task_workers t) (m_threadPool_maxThreadCount t)
    (m_progressTimer t) (m_lastPersistedBytes t) (task_signals t).

Definition t_with_state (v : DownloadState.t) (t : DownloadTask) : DownloadTask :=
  mkTask (task_id t) (m_url t) (m_fileName t) (m_destDir t) (m_filePath t)
    (m_capabilities t) v (m_totalSize t) (m_downloadedBytes t) (task_lastError t)
    (m_priority t) (m_scheduler t) (task_workers t) (m_threadPool_maxThreadCount t)
    (m_progressTimer t) (m_lastPersistedBytes t) (task_signals t).

Definition t_with_totalSize (v : Z) (t : DownloadTask) : DownloadTask :=
  mkTask (task_id t) (m_url t) (m_fileName t) (m_destDir t) (m_filePath t)
    (m_capabilities t) (task_state t) v (m_downloadedBytes t) (task_lastError t)
    (m_priority t) (m_scheduler t) (task_workers t) (m_threadPool_maxThreadCount t)
    (m_progressTimer t) (m_lastPersistedBytes t) (task_signals t).

Definition t_with_downloadedBytes (v : Z) (t : DownloadTask) : DownloadTask :=
  mkTask (task_id t) (m_url t) (m_fileName t) (m_destDir t) (m_filePath t)
    (m_capabilities t) (task_state t) (m_totalSize t) v (task_lastError t)
    (m_priority t) (m_scheduler t) (task_workers t) (m_threadPool_maxThreadCount t)
    (m_progressTimer t) (m_lastPersistedBytes t) (task_signals t).

Definition t_with_lastError (v : DownloadError) (t : DownloadTask) : DownloadTask :=
  mkTask (task_id t) (m_url t) (m_fileName t) (m_destDir t) (m_filePath t)
    (m_capabilities t) (task_state t) (m_totalSize t) (m_downloadedBytes t) v
    (m_priority t) (m_scheduler t) (task_workers t) (m_threadPool_maxThreadCount t)
    (m_progressTimer t) (m_lastPersistedBytes t) (task_signals t).

Definition t_with_priority (v : Priority.t) (t : DownloadTask) : DownloadTask :=
  mkTask (task_id t) (m_url t) (m_fileName t) (m_destDir t) (m_filePath t)
    (m_capabilities t) (task_state t) (m_totalSize t) (m_downloadedBytes t)
    (task_lastError t) v (m_scheduler t) (task_workers t)
    (m_threadPool_maxThreadCount t) (m_progressTimer t) (m_lastPersistedBytes t)
    (task_signals t).

Definition t_with_scheduler (v : Scheduler) (t : DownloadTask) : DownloadTask :=
  mkTask (task_id t) (m_url t) (m_fileName t) (m_destDir t) (m_filePath t)
    (m_capabilities t) (task_state t) (m_totalSize t) (m_downloadedBytes t)
    (task_lastError t) (m_priority t) v (task_workers t) (m_threadPool_maxThreadCount t)
    (m_progressTimer t) (m_lastPersistedBytes t) (task_signals t).

Definition t_with_workers (v : list SegmentWorker) (t : DownloadTask) : DownloadTask :=
  mkTask (task_id t) (m_url t) (m_fileName t) (m_destDir t) (m_filePath t)
    (m_capabilities t) (task_state t) (m_totalSize t) (m_downloadedBytes t)
    (task_lastError t) (m_priority t) (m_scheduler t) v (m_threadPool_maxThreadCount t)
    (m_progressTimer t) (m_lastPersistedBytes t) (task_signals t).

Definition t_with_progressTimer (v : bool) (t : DownloadTask) : DownloadTask :=
  mkTask (task_id t) (m_url t) (m_fileName t) (m_destDir t) (m_filePath t)
    (m_capabilities t) (task_state t) (m_totalSize t) (m_downloadedBytes t)
    (task_lastError t) (m_priority t) (m_scheduler t) (task_workers t)
    (m_threadPool_maxThreadCount t) v (m_lastPersistedBytes t) (task_signals t).

Definition t_with_lastPersistedBytes (v : Z) (t : DownloadTask) : DownloadTask :=
  mkTask (task_id t) (m_url t) (m_fileName t) (m_destDir t) (m_filePath t)
    (m_capabilities t) (task_state t) (m_totalSize t) (m_downloadedBytes t)
    (task_lastError t) (m_priority t) (m_scheduler t) (task_workers t)
    (m_threadPool_maxThreadCount t) (m_progressTimer t) v (task_signals t).

Definition t_emit (sig : TaskSignal) (t : DownloadTask) : DownloadTask :=
  mkTask (task_id t) (m_url t) (m_fileName t) (m_destDir t) (m_filePath t)
    (m_capabilities t) (task_state t) (m_totalSize t) (m_downloadedBytes t)
    (task_lastError t) (m_priority t) (m_scheduler t) (task_workers t)
    (m_threadPool_maxThreadCount t) (m_progressTimer t) (m_lastPersistedBytes t)
    (task_signals t ++ [sig]).

(** The constructor.  [destDir] and [fileName] are what it derives from the
    URL and the destination path with [QUrl::fileName] and [QFileInfo];
    [maxThreadCount] is the limit of the global thread pool. *)
Definition DownloadTask_new (id : Z) (url : QUrl) (destDir fileName : string)
    (maxThreadCount : Z) : DownloadTask :=
  mkTask id url fileName destDir (destDir +:+ "/" +:+ fileName)
    ServerCapabilities_default DownloadState.Queued (-1) 0 DownloadError_default
    Priority.Normal Scheduler_new [] maxThreadCount false 0 [].

Definition task_isActive (t : DownloadTask) : bool :=
  bool_decide (task_state t = DownloadState.Downloading).

Definition downloadedSize (t : DownloadTask) : Z := m_downloadedBytes t.

(** [setState]: the signal goes out when the state changes. *)
Definition task_setState (newState : DownloadState.t) (t : DownloadTask) : DownloadTask :=
  let oldState := task_state t in
  let t1 := t_with_state newState t in
  if bool_decide (oldState ≠ newState) then t_emit (stateChanged newState) t1 else t1.

Definition setError (error : DownloadError) (t : DownloadTask) : DownloadTask :=
  t_emit errorChanged (t_with_lastError error t).

Definition updateStatistics (t : DownloadTask) : DownloadTask :=
  t_with_downloadedBytes (totalDownloadedBytes (m_scheduler t)) t.

Definition task_initializeSegments (t : DownloadTask) : DownloadTask :=
  let fileSize := m_totalSize t in
  let segmentCount :=
    if negb (supportsRanges (m_capabilities t)) || (fileSize <=? 0) then 1
    else calculateOptimalSegmentCount fileSize in
  t_with_scheduler (snd (initializeSegments fileSize segmentCount (m_scheduler t))) t.

(** [startWorkers]: the workers are made and handed to the thread pool; they
    run on their own from there. *)
Definition startWorkers (t : DownloadTask) : DownloadTask :=
  let t1 := task_setState DownloadState.Downloading t in
  let segmentCount := Z.of_nat (length (m_segments (m_scheduler t1))) in
  let workerCount := Z.min segmentCount (to_uint64 (m_threadPool_maxThreadCount t1)) in
  let workerCount := Z.min workerCount Constants.MAX_SEGMENTS in
  let workers :=
    (λ i, SegmentWorker_new i (m_destDir t1) (m_fileName t1))
      <$> seq 0 (Z.to_nat workerCount) in
  t_with_progressTimer true (t_with_workers workers t1).

Definition stopWorkers (t : DownloadTask) : DownloadTask := t_with_workers [] t.

Definition probeServer (t : DownloadTask) : DownloadTask :=
  task_setState DownloadState.Probing t.

Definition start (t : DownloadTask) : DownloadTask :=
  if bool_decide (task_state t = DownloadState.Downloading) then t
  else if bool_decide (task_state t = DownloadState.Completed) then t
  else if caps_isValid (m_capabilities t) then startWorkers (task_initializeSegments t)
  else probeServer t.

Definition onProbeCompleted (caps : ServerCapabilities) (t : DownloadTask) : DownloadTask :=
  let t1 := t_with_capabilities caps t in
  let t2 :=
    if negb (bool_decide (caps_fileName caps = "")) then
      t_emit filePathChanged
        (t_emit fileNameChanged
           (t_with_filePath (m_destDir t1 +:+ "/" +:+ caps_fileName caps)
              (t_with_fileName (caps_fileName caps) t1)))
    else t1 in
  let t3 :=
    if 0 <? contentLength caps
    then t_emit totalSizeChanged (t_with_totalSize (contentLength caps) t2) else t2 in
  startWorkers (task_initializeSegments t3).

Definition onProbeFailed (error : DownloadError) (t : DownloadTask) : DownloadTask :=
  t_emit (failed error) (task_setState DownloadState.Failed (setError error t)).

(** [std::sort] with [a->startByte() < b->startByte()], as a merge sort. *)
Definition start_le (a b : Segment) : Prop := m_startByte a ≤ m_startByte b.

#[global] Instance start_le_dec : RelDecision start_le.
Proof. intros a b. unfold start_le. apply _. Defined.

Definition sort_by_start (segments : list Segment) : list Segment :=
  merge_sort start_le segments.

(** The copy loop of [mergeSegments] over what reading the temp file
    delivers, [FILE_BUFFER_SIZE] bytes at a time; every round takes at least
    one byte, so [length input] rounds are enough. *)
Fixpoint copy_loop (fuel : nat) (input : bytes) (output : string) (fs : FileSystem)
  : bool * FileSystem :=
  match fuel with
  | O => (true, fs)
  | S fuel' =>
      match input with
      | [] => (true, fs)
      | _ =>
          let buffer := take (Z.to_nat Constants.FILE_BUFFER_SIZE) input in
          let read := Z.of_nat (length buffer) in
          let '(written, fs1) := QFile_write output buffer fs in
          if bool_decide (written ≠ read) then (false, fs1)
          else copy_loop fuel' (drop (Z.to_nat Constants.FILE_BUFFER_SIZE) input) output fs1
      end
  end.

Fixpoint merge_loop (segments : list Segment) (output : string) (fs : FileSystem)
  : bool * FileSystem :=
  match segments with
  | [] => (true, fs)
  | segment :: rest =>
      match QFile_open_read (m_tempFilePath segment) fs with
      | None => (false, QFile_remove output fs)
      | Some input =>
          let '(ok, fs1) := copy_loop (length input) input output fs in
          if ok then merge_loop rest output fs1
          else (false, QFile_remove output fs1)
      end
  end.

Definition mergeSegments (t : DownloadTask) (fs : FileSystem) : bool * FileSystem :=
  match QFile_open_write (m_filePath t) false fs with
  | None => (false, fs)
  | Some fs1 => merge_loop (sort_by_start (m_segments (m_scheduler t))) (m_filePath t) fs1
  end.

Definition verifyFile (t : DownloadTask) (fs : FileSystem) : bool :=
  match fs_files fs !! m_filePath t with
  | None => false
  | Some content =>
      let expectedSize := m_totalSize t in
      negb ((0 <? expectedSize) && negb (Z.of_nat (length content) =? expectedSize))
  end.

Definition cleanupTempFiles (t : DownloadTask) (fs : FileSystem) : FileSystem :=
  foldl (λ acc segment,
           let tempPath := m_tempFilePath segment in
           if negb (bool_decide (tempPath = "")) && QFile_exists tempPath acc
           then QFile_remove tempPath acc else acc)
        fs (m_segments (m_scheduler t)).

Definition onSegmentCompleted (id : Z) (t : DownloadTask) : DownloadTask :=
  t_emit needsPersistence (t_emit progressChanged (updateStatistics t)).

Definition onSegmentFailed (id : Z) (error : Message) (t : DownloadTask) : DownloadTask :=
  if hasFailed (m_scheduler t) then
    let err := mkDownloadError ErrorCategory.Network 0 error 0 in
    t_emit (failed err) (task_setState DownloadState.Failed (setError err t))
  else t.

Definition onAllSegmentsCompleted (t : DownloadTask) (fs : FileSystem)
  : DownloadTask * FileSystem :=
  let t1 := t_with_progressTimer false (task_setState DownloadState.Merging t) in
  let '(merged, fs1) := mergeSegments t1 fs in
  if negb merged then
    let error := mkDownloadError ErrorCategory.FileSystem 0 MergeFailedMsg 0 in
    (t_emit (failed error) (task_setState DownloadState.Failed (setError error t1)), fs1)
  else
    (* verifyFile: a failed check is logged and nothing else *)
    let t2 := task_setState DownloadState.Verifying t1 in
    let fs2 := cleanupTempFiles t2 fs1 in
    let t3 := task_setState DownloadState.Completed t2 in
    (t_emit needsPersistence (t_emit completed t3), fs2).

Definition task_pause (t : DownloadTask) : DownloadTask :=
  if bool_decide (task_state t ≠ DownloadState.Downloading) then t
  else
    let t1 := task_setState DownloadState.Paused t in
    let t2 := t_with_workers (worker_pause <$> task_workers t1) t1 in
    let t3 := t_with_scheduler (pauseAll (m_scheduler t2)) t2 in
    t_emit needsPersistence (t_with_progressTimer false t3).

Definition task_resume (t : DownloadTask) : DownloadTask :=
  if bool_decide (task_state t ≠ DownloadState.Paused) then t
  else
    let t1 := task_setState DownloadState.Downloading t in
    let t2 := t_with_scheduler (resumeAll (m_scheduler t1)) t1 in
    let t3 := t_with_workers (worker_resume <$> task_workers t2) t2 in
    t_with_progressTimer true t3.

Definition task_cancel (t : DownloadTask) (fs : FileSystem) : DownloadTask * FileSystem :=
  let t1 := task_setState DownloadState.Failed t in
  let t2 :=
    t_with_lastError
      (mkDownloadError ErrorCategory.Cancelled (errorCode (task_lastError t1)) CancelledMsg
         (retryCount (task_lastError t1))) t1 in
  let t3 := stopWorkers t2 in
  let t4 := t_with_progressTimer false (t_with_scheduler (cancelAll (m_scheduler t3)) t3) in
  (t_emit errorChanged t4, cleanupTempFiles t4 fs).

Definition task_retry (t : DownloadTask) : DownloadTask :=
  if bool_decide (task_state t ≠ DownloadState.Failed) then t
  else
    let t1 := t_with_lastError DownloadError_default t in
    let t2 := t_with_scheduler (reset (m_scheduler t1)) t1 in
    start (task_setState DownloadState.Queued t2).

(* ===================================================================== *)
(** * DownloadManager *)
(* ===================================================================== *)

(** A row of the [downloads] table.  [td_url] is the stored text as [QUrl]
    reads it back. *)
Record TaskData := mkTaskData {
  td_id : Z;
  td_url : QUrl;
  td_filePath : string;
  td_fileName : string;
  td_totalSize : Z;
  td_downloadedSize : Z;
  td_state : DownloadState.t
}.

Inductive WriteRequest :=
  | SaveTask (data : TaskData) (segments : list Segment)
  | DeleteTask (id : Z).

Inductive ManagerSignal :=
  | downloadAdded (id : Z)
  | downloadRemoved (id : Z)
  | downloadCompleted (id : Z)
  | downloadFailed (id : Z) (msg : Message)
  | totalCountChanged
  | queueCountChanged
  | activeCountChanged
  | completedCountChanged
  | globalSpeedChanged.

Record DownloadManager := mkManager {
  m_tasks : list (Z * DownloadTask);       (* std::map<TaskId, ...>, in key order *)
  m_persistence : option (list WriteRequest);  (* the write queue, if there is a store *)
  m_defaultDir : string;
  m_maxConcurrent : Z;
  m_activeCount : Z;
  m_queuedCount : Z;
  m_completedCount : Z;
  m_sessionBytes : Z;
  manager_signals : list ManagerSignal
}.

Definition DownloadManager_new (defaultDir : string) : DownloadManager :=
  mkManager [] (Some []) defaultDir 3 0 0 0 0 [].

Definition mgr_with_tasks (v : list (Z * DownloadTask)) (m : DownloadManager) : DownloadManager :=
  mkManager v (m_persistence m) (m_defaultDir m) (m_maxConcurrent m) (m_activeCount m)
    (m_queuedCount m) (m_completedCount m) (m_sessionBytes m) (manager_signals m).

Definition mgr_with_persistence (v : option (list WriteRequest)) (m : DownloadManager)
  : DownloadManager :=
  mkManager (m_tasks m) v (m_defaultDir m) (m_maxConcurrent m) (m_activeCount m)
    (m_queuedCount m) (m_completedCount m) (m_sessionBytes m) (manager_signals m).

Definition mgr_with_counts (active queued finished : Z) (m : DownloadManager)
  : DownloadManager :=
  mkManager (m_tasks m) (m_persistence m) (m_defaultDir m) (m_maxConcurrent m) active
    queued finished (m_sessionBytes m) (manager_signals m).

Definition mgr_with_sessionBytes (v : Z) (m : DownloadManager) : DownloadManager :=
  mkManager (m_tasks m) (m_persistence m) (m_defaultDir m) (m_maxConcurrent m)
    (m_activeCount m) (m_queuedCount m) (m_completedCount m) v (manager_signals m).

Definition mgr_emit (sig : ManagerSignal) (m : DownloadManager) : DownloadManager :=
  mkManager (m_tasks m) (m_persistence m) (m_defaultDir m) (m_maxConcurrent m)
    (m_activeCount m) (m_queuedCount m) (m_completedCount m) (m_sessionBytes m)
    (manager_signals m ++ [sig]).

(** [m_tasks.find(id)] and [m_tasks[id] = task] on the map in key order. *)
Fixpoint tasks_find (id : Z) (tasks : list (Z * DownloadTask)) : option DownloadTask :=
  match tasks with
  | [] => None
  | (k, t) :: rest => if bool_decide (k = id) then Some t else tasks_find id rest
  end.

Fixpoint tasks_assign (id : Z) (task : DownloadTask) (tasks : list (Z * DownloadTask))
  : list (Z * DownloadTask) :=
  match tasks with
  | [] => [(id, task)]
  | (k, t) :: rest =>
      if bool_decide (k = id) then (id, task) :: rest
      else if id <? k then (id, task) :: (k, t) :: rest
      else (k, t) :: tasks_assign id task rest
  end.

Definition task (id : Z) (m : DownloadManager) : option DownloadTask :=
  tasks_find id (m_tasks m).

Fixpoint findByUrl_loop (url : QUrl) (tasks : list (Z * DownloadTask)) : option Z :=
  match tasks with
  | [] => None
  | (id, t) :: rest =>
      if bool_decide (m_url t = url) then Some id else findByUrl_loop url rest
  end.

Definition findByUrl (url : QUrl) (m : DownloadManager) : option Z :=
  findByUrl_loop url (m_tasks m).

Definition count_step (acc : Z * Z * Z) (entry : Z * DownloadTask) : Z * Z * Z :=
  let '(active, queued, finished) := acc in
  match task_state (snd entry) with
  | DownloadState.Downloading | DownloadState.Probing
  | DownloadState.Merging | DownloadState.Verifying => (active + 1, queued, finished)
  | DownloadState.Queued => (active, queued + 1, finished)
  | DownloadState.Completed => (active, queued, finished + 1)
  | _ => acc
  end.

Definition updateCounts (m : DownloadManager) : DownloadManager :=
  let '(active, queued, finished) := foldl count_step (0, 0, 0) (m_tasks m) in
  mgr_with_counts active queued finished m.

Definition canStartMore (m : DownloadManager) : bool := m_activeCount m <? m_maxConcurrent m.

Definition make_TaskData (t : DownloadTask) : TaskData :=
  mkTaskData (task_id t) (m_url t) (m_filePath t) (m_fileName t) (m_totalSize t)
    (downloadedSize t) (task_state t).

(** [m_persistence->saveTask(task)]: the request joins the write queue. *)
Definition saveTask (t : DownloadTask) (m : DownloadManager) : DownloadManager :=
  match m_persistence m with
  | None => m
  | Some queue =>
      mgr_with_persistence
        (Some (queue ++ [SaveTask (make_TaskData t) (m_segments (m_scheduler t))])) m
  end.

(** The slots the manager connects to a task's signals, without the look at
    the queue that [onTaskStateChanged] adds for Paused, Completed and
    Failed. *)
Definition state_change_signals (newState : DownloadState.t) (m : DownloadManager)
  : DownloadManager :=
  match newState with
  | DownloadState.Downloading | DownloadState.Paused | DownloadState.Failed =>
      mgr_emit activeCountChanged m
  | DownloadState.Completed =>
      mgr_emit completedCountChanged (mgr_emit activeCountChanged m)
  | _ => m
  end.

Definition slot_without_queue (id : Z) (t : DownloadTask) (m : DownloadManager)
    (sig : TaskSignal) : DownloadManager :=
  match sig with
  | stateChanged newState => state_change_signals newState (updateCounts m)
  | completed => mgr_emit (downloadCompleted id) m
  | failed error => mgr_emit (downloadFailed id (message error)) m
  | needsPersistence => saveTask t m
  | _ => m
  end.

(** [task->start()] for the task registered under [id], with the manager's
    slots run on what the task emits.  [start] moves a task to Probing or to
    Downloading only, and for these [onTaskStateChanged] does not look at the
    queue. *)
Definition start_task (id : Z) (m : DownloadManager) : DownloadManager :=
  match tasks_find id (m_tasks m) with
  | None => m
  | Some t =>
      let t' := start t in
      let emitted := drop (length (task_signals t)) (task_signals t') in
      let m1 := mgr_with_tasks (tasks_assign id t' (m_tasks m)) m in
      foldl (slot_without_queue id t') m1 emitted
  end.

Definition priority_ge (a b : Z * DownloadTask) : Prop :=
  Priority.rank (m_priority (snd b)) ≤ Priority.rank (m_priority (snd a)).

#[global] Instance priority_ge_dec : RelDecision priority_ge.
Proof. intros a b. unfold priority_ge. apply _. Defined.

Definition tasksInState (state : DownloadState.t) (m : DownloadManager)
  : list (Z * DownloadTask) :=
  filter (λ e, task_state (snd e) = state) (m_tasks m).

Definition processQueue (m : DownloadManager) : DownloadManager :=
  if negb (canStartMore m) then m
  else
    let queued := merge_sort priority_ge (tasksInState DownloadState.Queued m) in
    foldl (λ acc e, if negb (canStartMore acc) then acc else start_task (fst e) acc)
          m queued.

Definition onTaskStateChanged (newState : DownloadState.t) (m : DownloadManager)
  : DownloadManager :=
  let m1 := state_change_signals newState (updateCounts m) in
  match newState with
  | DownloadState.Paused | DownloadState.Completed | DownloadState.Failed => processQueue m1
  | _ => m1
  end.

(** [addDownload].  [newId] is the UUID the task's constructor draws,
    [destDir] and [fileName] what it derives from the URL and from the
    destination ([destPath], or [m_defaultDir] when that is empty),
    [maxThreadCount] the limit of the thread pool; the null [TaskId] is 0. *)
Definition addDownload (url : QUrl) (destPath : string) (startImmediately : bool)
    (newId : Z) (destDir fileName : string) (maxThreadCount : Z) (m : DownloadManager)
  : Z * DownloadManager :=
  if negb (url_isValid url) then (0, m)
  else
    match findByUrl url m with
    | Some existing => (existing, m)
    | None =>
        let task := DownloadTask_new newId url destDir fileName maxThreadCount in
        let id := task_id task in
        let m1 := mgr_with_tasks (tasks_assign id task (m_tasks m)) m in
        let m2 := updateCounts m1 in
        let m3 :=
          mgr_emit queueCountChanged (mgr_emit totalCountChanged (mgr_emit (downloadAdded id) m2)) in
        let m4 := saveTask task m3 in
        let m5 := if startImmediately && canStartMore m4 then start_task id m4 else m4 in
        (id, m5)
    end.

(** [onSpeedUpdateTimer], the byte count of it. *)
Definition onSpeedUpdateTimer (m : DownloadManager) : DownloadManager :=
  let sessionBytes :=
    foldl (λ acc e, acc + downloadedSize (snd e)) 0 (m_tasks m) in
  mgr_with_sessionBytes sessionBytes m.

Definition sessionBytesDownloaded (m : DownloadManager) : Z := m_sessionBytes m.

(** [loadState]: [savedTasks] is what [loadAllTasks] reads from the store,
    each row with the directory and the file name the constructor derives
    from the row's file path.  A task is rebuilt by its constructor from the
    row's id, URL and file path; nothing else of the row is restored. *)
Definition loadState (savedTasks : list (TaskData * (string * string)))
    (maxThreadCount : Z) (m : DownloadManager) : DownloadManager :=
  match m_persistence m with
  | None => m
  | Some _ =>
      updateCounts
        (foldl (λ acc row,
                  let taskData := fst row in
                  let task :=
                    DownloadTask_new (td_id taskData) (td_url taskData)
                      (fst (snd row)) (snd (snd row)) maxThreadCount in
                  mgr_with_tasks (tasks_assign (td_id taskData) task (m_tasks acc)) acc)
               m savedTasks)
  end.

(** ** More of the scheduler, of the task and of the manager *)

(** [SegmentScheduler::segment(id)]: the first segment of the vector with
    this id, or the null pointer. *)
Definition scheduler_segment (id : Z) (s : Scheduler) : option nat :=
  fst <$> list_find (λ sg, m_id sg = id) (m_segments s).

(** [m_tasks.erase(it)] for the iterator that [find(id)] gave. *)
Fixpoint tasks_erase (id : Z) (tasks : list (Z * DownloadTask)) : list (Z * DownloadTask) :=
  match tasks with
  | [] => []
  | (k, t) :: rest => if bool_decide (k = id) then rest else (k, t) :: tasks_erase id rest
  end.

(** [m_persistence->deleteTask(id)]: the request joins the write queue. *)
Definition deleteTask (id : Z) (m : DownloadManager) : DownloadManager :=
  match m_persistence m with
  | None => m
  | Some queue => mgr_with_persistence (Some (queue ++ [DeleteTask id])) m
  end.

(** [~DownloadTask]. *)
Definition DownloadTask_destroy (t : DownloadTask) (fs : FileSystem) : FileSystem :=
  cleanupTempFiles (stopWorkers t) fs.

(** [removeDownload].  The task leaves the map first.  An active task is
    Downloading, so its [cancel] emits [stateChanged(Failed)], on which the
    manager's slot runs, the look at the queue included; [errorChanged] has
    no slot in the manager.  The task is destroyed when the function
    returns. *)
Definition removeDownload (id : Z) (deleteFile : bool) (m : DownloadManager)
    (fs : FileSystem) : DownloadManager * FileSystem :=
  match tasks_find id (m_tasks m) with
  | None => (m, fs)
  | Some task =>
      let m1 := mgr_with_tasks (tasks_erase id (m_tasks m)) m in
      let '(task1, m2, fs1) :=
        if task_isActive task then
          let '(cancelled, fs') := task_cancel task fs in
          (cancelled, onTaskStateChanged DownloadState.Failed m1, fs')
        else (task, m1, fs) in
      let fs2 :=
        if deleteFile && negb (bool_decide (m_filePath task1 = ""))
        then QFile_remove (m_filePath task1) fs1 else fs1 in
      let m3 := deleteTask id m2 in
      let m4 :=
        mgr_emit totalCountChanged (mgr_emit (downloadRemoved id) (updateCounts m3)) in
      (m4, DownloadTask_destroy task1 fs2)
  end.

Definition clearCompleted (m : DownloadManager) (fs : FileSystem)
  : DownloadManager * FileSystem :=
  let completedIds :=
    fst <$> filter (λ e, task_state (snd e) = DownloadState.Completed) (m_tasks m) in
  foldl (λ acc id, removeDownload id false (fst acc) (snd acc)) (m, fs) completedIds.

(** [~DownloadManager]: [m_tasks.clear()] destroys the tasks, here in key
    order; the order makes no difference to the disk. *)
Definition DownloadManager_destroy (m : DownloadManager) (fs : FileSystem) : FileSystem :=
  foldl (λ acc e, DownloadTask_destroy (snd e) acc) fs (m_tasks m).

(* ===================================================================== *)
(** * The properties, as predicates on the model *)
(* ===================================================================== *)

(** Byte [b] lies in the range of [s]. *)
Definition holds (b : Z) (s : Segment) : bool :=
  (m_startByte s <=? b) && (b <=? m_endByte s).

(** The number of segments whose range holds byte [b]. *)
Fixpoint coverage (b : Z) (segs : list Segment) : nat :=
  match segs with
  | [] => 0%nat
  | s :: rest => ((if holds b s then 1 else 0) + coverage b rest)%nat
  end.

(** The sum of [end - start + 1]. *)
Fixpoint total_length (segs : list Segment) : Z :=
  match segs with
  | [] => 0
  | s :: rest => totalSize s + total_length rest
  end.

(** The segments tile [[0, total)]: every byte of it lies in exactly one
    segment, no other byte lies in any, and the lengths add up. *)
Definition partitions (total : Z) (segs : list Segment) : Prop :=
  (∀ b, coverage b segs = if bool_decide (0 ≤ b < total) then 1%nat else 0%nat)
  ∧ total_length segs = total.

(** The segments follow one another from [lo] in the order of the list. *)
Fixpoint contiguous_from (lo : Z) (segs : list Segment) : Prop :=
  match segs with
  | [] => True
  | s :: rest => m_startByte s = lo ∧ contiguous_from (m_endByte s + 1) rest
  end.

(** Where a contiguous run of segments ends. *)
Fixpoint chain_end (lo : Z) (segs : list Segment) : Z :=
  match segs with
  | [] => lo
  | s :: rest => chain_end (m_endByte s + 1) rest
  end.

(** [start <= current_byte] and [current_byte <= end + 1]. *)
Definition lower_bound (s : Segment) : Prop := m_startByte s ≤ m_currentByte s.
Definition upper_bound (s : Segment) : Prop := m_currentByte s ≤ m_endByte s + 1.
Definition position_inv (s : Segment) : Prop := lower_bound s ∧ upper_bound s.

(** What can happen to the segments of a running download: a segment is
    split (by [stealWork], or by the rebalancing, which leaves the new
    segment Pending) and the new segment joins the vector, or the worker of a
    segment moves its position forward. *)
Inductive segments_step : list Segment → list Segment → Prop :=
  | step_split segs i newId st donor donor' newSegment :
      segs !! i = Some donor →
      split newId donor = Some (donor', newSegment) →
      segments_step segs (<[i := donor']> segs ++ [setState st newSegment])
  | step_advance segs i sg position :
      segs !! i = Some sg →
      m_currentByte sg ≤ position →
      segments_step segs (<[i := setCurrentByte position sg]> segs).


(** What reading the temp file of a segment delivers, and the temp files of
    a task one after the other in ascending order of the segments' starts. *)
Definition readable (fs : FileSystem) (segment : Segment) : bytes :=
  default [] (QFile_open_read (m_tempFilePath segment) fs).

Definition merged_content (t : DownloadTask) (fs : FileSystem) : bytes :=
  concat (readable fs <$> sort_by_start (m_segments (m_scheduler t))).

(** The sum of [downloaded_size] over the tasks of the map. *)
Fixpoint total_downloaded (tasks : list (Z * DownloadTask)) : Z :=
  match tasks with
  | [] => 0
  | (_, t) :: rest => downloadedSize t + total_downloaded rest
  end.

Definition is_completed (e : Z * DownloadTask) : Prop :=
  task_state (snd e) = DownloadState.Completed.

#[global] Instance is_completed_dec e : Decision (is_completed e).
Proof. unfold is_completed. apply _. Defined.

(** The handles the scheduler keeps are segments of its vector. *)
Definition handles_valid (s : Scheduler) : Prop :=
  (∀ h, h ∈ m_pendingQueue s → is_Some (m_segments s !! h))
  ∧ (∀ h, h ∈ m_activeSegments s → is_Some (m_segments s !! h))
  ∧ (∀ h, h ∈ m_failedSegments s → is_Some (m_segments s !! h)).

(** The retry counts of the segments, in the order of the vector. *)
Definition retry_counts (s : Scheduler) : list Z := m_retryCount <$> m_segments s.

(** [s'] has the retry counts of [s], and count 0 for the segments that have
    joined since. *)
Definition retries_kept (s s' : Scheduler) : Prop :=
  ∃ k, retry_counts s' = retry_counts s ++ replicate k 0.

Definition result_scheduler (r : RunResult) : Scheduler :=
  match r with
  | Finished _ s _ | BlockedOnPause _ s _ | OutOfScript _ s _ => s
  end.

(** No segment is handed out while the scheduler is paused or cancelled. *)
Definition flags_inv (s : Scheduler) : Prop :=
  m_paused s || m_cancelled s = true → m_activeSegments s = ∅.

(** The ids of the segments are below the counter of the scheduler. *)
Definition ids_below (s : Scheduler) : Prop :=
  Forall (λ sg, m_id sg < m_nextSegmentId s) (m_segments s).

(** The task map holds valid URLs only, as [addDownload] leaves it. *)
Definition urls_valid (m : DownloadManager) : Prop :=
  Forall (λ e, url_isValid (m_url (snd e)) = true) (m_tasks m).

(** ** Invariants, and what a transfer and the queue do *)

Definition accounted (s : Scheduler) : Prop :=
  NoDup (m_pendingQueue s)
  ∧ (∀ h, h ∈ m_pendingQueue s →
          (h ∉ m_activeSegments s) ∧ (h ∉ m_completedSegments s)
          ∧ (h ∉ m_failedSegments s))
  ∧ m_activeSegments s ## m_completedSegments s
  ∧ m_activeSegments s ## m_failedSegments s
  ∧ m_completedSegments s ## m_failedSegments s
  ∧ (∀ h, (h < length (m_segments s))%nat
          ↔ h ∈ m_pendingQueue s ∨ h ∈ m_activeSegments s
            ∨ h ∈ m_completedSegments s ∨ h ∈ m_failedSegments s).

Definition completed_done (s : Scheduler) : Prop :=
  ∀ h sg, h ∈ m_completedSegments s → m_segments s !! h = Some sg →
          m_state sg = SegmentState.Completed ∧ remainingBytes sg ≤ 0.

Definition kept_or_stopped (st st' : SegmentState.t) : Prop :=
  st' = st ∨ st' = SegmentState.Paused ∨ st' = SegmentState.Failed.

(** Between [s] and [s'] only the segment behind [h] was worked on: the
    collections and the flags are the same, the other segments too, and the
    state of the segment is as it was, or Paused or Failed. *)
Definition segment_worked (h : nat) (s s' : Scheduler) : Prop :=
  m_pendingQueue s' = m_pendingQueue s
  ∧ m_activeSegments s' = m_activeSegments s
  ∧ m_completedSegments s' = m_completedSegments s
  ∧ m_failedSegments s' = m_failedSegments s
  ∧ m_paused s' = m_paused s ∧ m_cancelled s' = m_cancelled s
  ∧ ∃ f, m_segments s' = alter f h (m_segments s)
         ∧ ∀ x, kept_or_stopped (m_state x) (m_state (f x)).

(** The ids of the segments are pairwise different. *)
Definition ids_distinct (s : Scheduler) : Prop := NoDup (m_id <$> m_segments s).

(** A segment has no temp file yet, or the one that [openTempFile] derives
    from its id for the task's directory and file name. *)
Definition paths_from_ids (dir name : string) (s : Scheduler) : Prop :=
  Forall (λ sg, m_tempFilePath sg = ""
                ∨ m_tempFilePath sg = temp_path dir name (m_id sg)) (m_segments s).

Definition own_temp_files (dir name : string) (s : Scheduler) : Prop :=
  0 ≤ m_nextSegmentId s ∧ ids_below s ∧ ids_distinct s ∧ paths_from_ids dir name s.

(** The bytes that the buffers of a transfer hold, in the order of their
    arrival. *)
Fixpoint received (events : list TransferEvent) : bytes :=
  match events with
  | [] => []
  | Recv data :: rest => data ++ received rest
  | _ :: rest => received rest
  end.

Definition is_Recv (ev : TransferEvent) : Prop :=
  match ev with Recv _ => True | _ => False end.

(** [w'] is [w] but for the byte counters and the open temp file. *)
Definition counters_apart (w w' : SegmentWorker) : Prop :=
  w' = w_with_tempFile (m_tempFile w')
         (w_with_counters (m_totalBytesDownloaded w') (m_segmentBytesDownloaded w') w).

(** The path of the temp file that [openTempFile] opens for a segment. *)
Definition temp_file_of (w : SegmentWorker) (sg : Segment) : string :=
  if bool_decide (m_tempFilePath sg = "")
  then temp_path (m_filePath_dir w) (m_filePath_name w) (m_id sg)
  else m_tempFilePath sg.

(** The segment after a transfer that delivered [n] bytes and that libcurl
    reports as a success. *)
Definition after_transfer (w : SegmentWorker) (n : Z) (sg : Segment) : Segment :=
  let sg1 := setCurrentByte (m_currentByte sg + n) (setTempFilePath (temp_file_of w sg) sg) in
  if m_endByte sg <? m_currentByte sg + n then sg1
  else setState SegmentState.Failed (setLastError IncompleteDownloadMsg sg1).

(** The segment after a transfer that was aborted with [n] bytes
    delivered. *)
Definition after_abort (w : SegmentWorker) (n : Z) (sg : Segment) : Segment :=
  setCurrentByte (m_currentByte sg + n) (setTempFilePath (temp_file_of w sg) sg).

(** The keys of a [std::map] ascend. *)
Definition keys_sorted (m : DownloadManager) : Prop :=
  StronglySorted Z.lt (fst <$> m_tasks m).

(** The states [updateCounts] counts as active. *)
Definition counted_active (e : Z * DownloadTask) : Prop :=
  task_state (snd e) = DownloadState.Downloading
  ∨ task_state (snd e) = DownloadState.Probing
  ∨ task_state (snd e) = DownloadState.Merging
  ∨ task_state (snd e) = DownloadState.Verifying.

#[global] Instance counted_active_dec e : Decision (counted_active e).
Proof. unfold counted_active. apply _. Defined.

Definition is_queued (e : Z * DownloadTask) : Prop :=
  task_state (snd e) = DownloadState.Queued.

#[global] Instance is_queued_dec e : Decision (is_queued e).
Proof. unfold is_queued. apply _. Defined.

(** The counters are what [updateCounts] would make them. *)
Definition counts_current (m : DownloadManager) : Prop :=
  m_activeCount m = Z.of_nat (length (filter counted_active (m_tasks m)))
  ∧ m_queuedCount m = Z.of_nat (length (filter is_queued (m_tasks m)))
  ∧ m_completedCount m = Z.of_nat (length (filter is_completed (m_tasks m))).

(** The map after [start] has been called on the tasks with a key in [ids]. *)
Definition started_tasks (ids : list Z) (tasks : list (Z * DownloadTask))
  : list (Z * DownloadTask) :=
  (λ e, if bool_decide (fst e ∈ ids) then (fst e, start (snd e)) else e) <$> tasks.

(** The temp file paths that the segments of the tasks carry. *)
Definition temp_paths (tasks : list (Z * DownloadTask)) : list string :=
  e ← tasks; m_tempFilePath <$> m_segments (m_scheduler (snd e)).

(** [tr] is a transfer that nothing interrupts, that libcurl reports as a
    success and that delivers at least the bytes that [sg] still lacks. *)
Definition completes (tr : Transfer) (sg : Segment) : Prop :=
  Forall is_Recv (tr_events tr) ∧ tr_result tr = CURLE_OK
  ∧ 0 ≤ m_currentByte sg
  ∧ m_endByte sg < m_currentByte sg + Z.of_nat (length (received (tr_events tr))) < 2 ^ 63.

Definition total_received (transfers : list Transfer) : Z :=
  foldr (λ tr acc, Z.of_nat (length (received (tr_events tr))) + acc) 0 transfers.

(** The segment after its download has succeeded with [n] more bytes. *)
Definition after_success (w : SegmentWorker) (n : Z) (sg : Segment) : Segment :=
  setState SegmentState.Completed
    (setCurrentByte (m_currentByte sg + n) (setTempFilePath (temp_file_of w sg) sg)).

(* ===================================================================== *)
(** * Concrete states for the examples *)
(* ===================================================================== *)

Definition part0 : string := "/dl/.f.bin.part0".

(** The segment [[0, 9]] with 8 bytes fetched, held by worker 0. *)
Definition segment_0_9_at_8 : Segment :=
  mkSegment 0 0 9 8 SegmentState.Active part0 0 NoMessage.

Definition scheduler_0_9 : Scheduler :=
  mkScheduler [segment_0_9_at_8] [] {[0%nat]} ∅ ∅ {[0%nat]} {[0%nat := 0%nat]}
    1 false false [] (λ segment, Z.of_nat segment).

Definition worker_0 : SegmentWorker :=
  mkWorker 0 "/dl" "f.bin" (Some 0%nat) true (Some part0) false false
    WorkerState.Downloading 8 8 [].

Definition eight_bytes : bytes := replicate 8 Byte.x78.
Definition five_bytes : bytes := [Byte.x61; Byte.x62; Byte.x63; Byte.x64; Byte.x65].

Definition disk_0_9 : FileSystem := mkFileSystem {[part0 := eight_bytes]} 1000 ∅ ∅.

(** A 2 MiB download in one segment: worker 0 holds it and has fetched the
    first 1000000 bytes when worker 1 steals the upper half of the rest; the
    server goes on sending worker 0 what it was asked for. *)
Definition worker_0_fresh : SegmentWorker :=
  mkWorker 0 "/dl" "f.bin" (Some 0%nat) true (Some part0) false false
    WorkerState.Downloading 0 0 [].

Definition disk_empty_part : FileSystem := mkFileSystem {[part0 := []]} 100000000 ∅ ∅.

Definition scheduler_2MiB : Scheduler :=
  snd (acquireSegment 0 (snd (initializeSegments 2097152 1 Scheduler_new))).

Definition first_megabyte
  : Z * SegmentWorker * Scheduler * FileSystem :=
  writeCallback (replicate (Z.to_nat 1000000) Byte.x78)
    worker_0_fresh scheduler_2MiB disk_empty_part.

Definition after_steal : Scheduler := snd (stealWork 1 (snd (fst first_megabyte))).

Definition after_more_data : Z * SegmentWorker * Scheduler * FileSystem :=
  writeCallback (replicate (Z.to_nat 600000) Byte.x78)
    (snd (fst (fst first_megabyte))) after_steal (snd first_megabyte).

(** A 4 MiB download in two segments, each held by a worker. *)
Definition scheduler_two_active : Scheduler :=
  snd (acquireSegment 1 (snd (acquireSegment 0
         (snd (initializeSegments 4194304 2 Scheduler_new))))).

(** A 10-byte download in one segment, its worker, and a server whose
    connection is reset before any byte arrives. *)
Definition ten_byte_download : Scheduler := snd (initializeSegments 10 1 Scheduler_new).

Definition empty_disk : FileSystem := mkFileSystem ∅ 1000 ∅ ∅.

Definition connection_reset : Transfer := mkTransfer [] CURLE_RECV_ERROR 0.

Definition six_failures : RunResult :=
  run true 6 (replicate 6 connection_reset) (SegmentWorker_new 0 "/dl" "f.bin")
    ten_byte_download empty_disk.

(** The same failures reported through [markFailed]. *)
Definition fail_once (s : Scheduler) : Scheduler :=
  markFailed (Some 0%nat) (NetworkErrorMsg CURLE_RECV_ERROR) (snd (acquireSegment 0 s)).

Definition five_marked_failures : Scheduler :=
  fail_once (fail_once (fail_once (fail_once (fail_once ten_byte_download)))).

(** A finished 10-byte download in two segments; the temp file of the first
    segment is damaged, reading it fails from offset 2 on. *)
Definition part1 : string := "/dl/.f.bin.part1".

Definition damaged_task : DownloadTask :=
  mkTask 7 (mkQUrl "http://host/f.bin" true) "f.bin" "/dl" "/dl/f.bin"
    (mkCaps true 10 "" 200) DownloadState.Downloading 10 10 DownloadError_default
    Priority.Normal
    (mkScheduler
       [mkSegment 0 0 4 5 SegmentState.Completed part0 0 NoMessage;
        mkSegment 1 5 9 10 SegmentState.Completed part1 0 NoMessage]
       [] ∅ {[0%nat; 1%nat]} ∅ ∅ ∅ 2 false false [] (λ segment, Z.of_nat segment))
    [] 4 true 0 [].

Definition damaged_disk : FileSystem :=
  mkFileSystem
    {[part0 := [Byte.x61; Byte.x62; Byte.x63; Byte.x64; Byte.x65];
      part1 := [Byte.x66; Byte.x67; Byte.x68; Byte.x69; Byte.x6a]]}
    1000 ∅ {[part0 := 2%nat]}.

Definition healthy_disk : FileSystem :=
  mkFileSystem (fs_files damaged_disk) 1000 ∅ ∅.

Definition url1 : QUrl := mkQUrl "http://host/a.iso" true.

(** The row of a download that was completed, 1000 bytes long, in an earlier
    run of the program. *)
Definition completed_row : TaskData * (string * string) :=
  (mkTaskData 7 url1 "/dl/a.iso" "a.iso" 1000 1000 DownloadState.Completed,
   ("/dl", "a.iso")).

Definition after_start_up : DownloadManager :=
  onSpeedUpdateTimer (loadState [completed_row] 4 (DownloadManager_new "/dl")).

(** A manager with one task that is Completed, all of its 1000 bytes
    fetched, and one that is Downloading with 300 bytes so far. *)
Definition task_done : DownloadTask :=
  mkTask 7 url1 "a.iso" "/dl" "/dl/a.iso" (mkCaps true 1000 "" 200)
    DownloadState.Completed 1000 1000 DownloadError_default Priority.Normal
    Scheduler_new [] 4 false 0 [].

Definition task_running : DownloadTask :=
  mkTask 9 (mkQUrl "http://host/b.iso" true) "b.iso" "/dl" "/dl/b.iso"
    (mkCaps true 5000 "" 200) DownloadState.Downloading 5000 300 DownloadError_default
    Priority.Normal Scheduler_new [] 4 true 0 [].

Definition manager_two : DownloadManager :=
  mkManager [(7, task_done); (9, task_running)] (Some []) "/dl" 3 1 0 1 0 [].

(** A server that answers the request for the 10 bytes of the only segment
    with these bytes, in one buffer. *)
Definition ten_bytes_sent : Transfer :=
  mkTransfer [Recv (replicate 10 Byte.x78)] CURLE_OK 206.

(** The pages a server sends with the status 404: "Not Found" (9 bytes) and
    "404 Not Found" (13 bytes). *)
Definition not_found_page : bytes :=
  [Byte.x4e; Byte.x6f; Byte.x74; Byte.x20; Byte.x46; Byte.x6f; Byte.x75; Byte.x6e; Byte.x64].

Definition not_found_404_page : bytes :=
  [Byte.x34; Byte.x30; Byte.x34; Byte.x20] ++ not_found_page.

(** Worker 0 of the 10-byte download, in its loop with a curl handle, and
    the scheduler after this worker has acquired the only segment. *)
Definition worker_0_ready : SegmentWorker :=
  mkWorker 0 "/dl" "f.bin" (Some 0%nat) true None false false WorkerState.Downloading 0 0 [].

Definition ten_byte_acquired : Scheduler := snd (acquireSegment 0 ten_byte_download).

(** A task as its constructor leaves it: the size is not known. *)
Definition task_of_unknown_size : DownloadTask := DownloadTask_new 7 url1 "/dl" "a.iso" 4.

(** The server has sent 4 of the 10 bytes when the task stops, or pauses,
    the worker. *)
Definition stopped_after_four : Transfer :=
  mkTransfer [Recv (replicate 4 Byte.x78); StopRequested; Recv (replicate 6 Byte.x78)]
    CURLE_OK 206.

Definition paused_after_four : Transfer :=
  mkTransfer [Recv (replicate 4 Byte.x78); PauseRequested; Recv (replicate 6 Byte.x78)]
    CURLE_OK 206.

Definition worker_0_in_loop : SegmentWorker :=
  w_with_curl true (SegmentWorker_new 0 "/dl" "f.bin").

(** A 4 MiB download after its probe, and the same with worker 0 at work on
    the first segment. *)
Definition task_probed : DownloadTask :=
  onProbeCompleted (mkCaps true (4 * 1024 * 1024) "" 200)
    (DownloadTask_new 9 (mkQUrl "http://host/b.iso" true) "/dl" "b.iso" 4).

Definition task_at_work : DownloadTask :=
  t_with_scheduler (snd (acquireSegment 0 (m_scheduler task_probed))) task_probed.

(** The same task with a second worker at work on the next segment. *)
Definition task_two_at_work : DownloadTask :=
  t_with_scheduler (snd (acquireSegment 1 (m_scheduler task_at_work))) task_at_work.

(** Four downloads, one of them running, and room for two at a time. *)
Definition queued_task (id : Z) (priority : Priority.t) : DownloadTask :=
  t_with_priority priority
    (DownloadTask_new id (mkQUrl ("http://host/" +:+ pretty id) true) "/dl" (pretty id) 4).

Definition manager_backlog : DownloadManager :=
  mkManager
    [(1, queued_task 1 Priority.Low); (2, queued_task 2 Priority.High);
     (3, task_setState DownloadState.Downloading (queued_task 3 Priority.Normal));
     (4, queued_task 4 Priority.Normal)]
    (Some []) "/dl" 2 1 3 0 0 [].

Definition url2 : QUrl := mkQUrl "http://host/c.iso" true.

(** The disk while the download of [task_running] is under way, with the
    temp files of two segments and a file of another program. *)
Definition task_running_segments : DownloadTask :=
  t_with_scheduler
    (mkScheduler
       [mkSegment 0 0 2499 300 SegmentState.Active "/dl/.b.iso.part0" 0 NoMessage;
        mkSegment 1 2500 4999 2500 SegmentState.Pending "" 0 NoMessage]
       [1%nat] {[0%nat]} ∅ ∅ ∅ ∅ 2 false false [] (λ segment, Z.of_nat segment))
    task_running.

Definition manager_at_work : DownloadManager :=
  mkManager [(7, task_done); (9, task_running_segments)] (Some []) "/dl" 3 1 0 1 0 [].

Definition disk_at_work : FileSystem :=
  mkFileSystem {[ "/dl/.b.iso.part0" := replicate 300 Byte.x78;
                  "/dl/a.iso" := replicate 1000 Byte.x78;
                  "/home/notes.txt" := [Byte.x61] ]} 100000 ∅ ∅.

Definition twenty_byte_download : Scheduler := snd (initializeSegments 20 2 Scheduler_new).

(** The 4 MiB download after the user has cancelled it. *)
Definition task_cancelled : DownloadTask := fst (task_cancel task_at_work empty_disk).

(* ===================================================================== *)
(** * Integer conversions *)
(* ===================================================================== *)

Lemma to_int64_small z : - 2 ^ 63 ≤ z < 2 ^ 63 → to_int64 z = z.
Proof.
  intros Hz. unfold to_int64.
  rewrite Z.mod_small by lia. lia.
Qed.

Lemma to_uint64_small z : 0 ≤ z < 2 ^ 64 → to_uint64 z = z.
Proof. intros Hz. unfold to_uint64. by rewrite Z.mod_small. Qed.

Lemma to_uint32_small z : 0 ≤ z < 2 ^ 32 → to_uint32 z = z.
Proof. intros Hz. unfold to_uint32. by rewrite Z.mod_small. Qed.

Lemma clamp_range v lo hi : lo ≤ hi → lo ≤ clamp v lo hi ≤ hi.
Proof.
  intros Hle. unfold clamp.
  destruct (Z.ltb_spec v lo); [lia|].
  destruct (Z.ltb_spec hi v); lia.
Qed.

Lemma clamp_id v lo hi : lo ≤ v ≤ hi → clamp v lo hi = v.
Proof.
  intros Hv. unfold clamp.
  destruct (Z.ltb_spec v lo); [lia|].
  destruct (Z.ltb_spec hi v); lia.
Qed.

(* ===================================================================== *)
(** * Tilings of the byte range *)
(* ===================================================================== *)





Lemma chain_end_ge lo segs :
  Forall (λ s, m_startByte s ≤ m_endByte s + 1) segs →
  contiguous_from lo segs → lo ≤ chain_end lo segs.
Proof.
  intros Hsz. revert lo. induction Hsz as [|s segs Hs _ IH]; intros lo; simpl; [lia|].
  intros [Hlo Hrest]. specialize (IH _ Hrest). lia.
Qed.

Lemma contiguous_coverage lo segs b :
  Forall (λ s, m_startByte s ≤ m_endByte s + 1) segs →
  contiguous_from lo segs →
  coverage b segs = if bool_decide (lo ≤ b < chain_end lo segs) then 1%nat else 0%nat.
Proof.
  intros Hsz. revert lo. induction Hsz as [|s segs Hs Hsz IH]; intros lo; simpl.
  - intros _. case_bool_decide; [lia|done].
  - intros [Hlo Hrest]. rewrite (IH _ Hrest).
    pose proof (chain_end_ge _ _ Hsz Hrest) as Hge.
    unfold holds.
    destruct (Z.leb_spec (m_startByte s) b), (Z.leb_spec b (m_endByte s));
      simpl; repeat case_bool_decide; lia.
Qed.

Lemma contiguous_total_length lo segs :
  contiguous_from lo segs → total_length segs = chain_end lo segs - lo.
Proof.
  revert lo. induction segs as [|s segs IH]; intros lo; simpl; [lia|].
  intros [Hlo Hrest]. rewrite (IH _ Hrest). unfold totalSize. lia.
Qed.

Lemma contiguous_partitions total segs :
  Forall (λ s, m_startByte s ≤ m_endByte s + 1) segs →
  contiguous_from 0 segs → chain_end 0 segs = total →
  partitions total segs.
Proof.
  intros Hsz Hc Hend. split.
  - intros b. rewrite (contiguous_coverage 0) by done. by rewrite Hend.
  - rewrite (contiguous_total_length 0) by done. lia.
Qed.

(* ===================================================================== *)
(** * initializeSegments *)
(* ===================================================================== *)

Lemma init_loop_length n i c size rem start id :
  length (init_loop n i c size rem start id) = n.
Proof.
  revert i start id. induction n as [|n IH]; intros i start id; simpl; [done|].
  by rewrite IH.
Qed.

Lemma init_loop_lookup n i c size rem start id k sg :
  init_loop n i c size rem start id !! k = Some sg →
  totalSize sg = (if bool_decide (i + Z.of_nat k = c - 1) then size + rem else size)
  ∧ m_currentByte sg = m_startByte sg
  ∧ m_state sg = SegmentState.Pending
  ∧ m_retryCount sg = 0.
Proof.
  revert i start id k sg. induction n as [|n IH]; intros i start id k sg; simpl; [done|].
  destruct k as [|k]; simpl.
  - intros [= <-]. unfold totalSize. simpl.
    replace (i + Z.of_nat 0) with i by lia.
    repeat split; try done. repeat case_bool_decide; lia.
  - intros Hk. destruct (IH _ _ _ _ _ Hk) as (Hsz & Hrest).
    split; [|done]. rewrite Hsz.
    replace (i + 1 + Z.of_nat k) with (i + Z.of_nat (S k)) by lia. done.
Qed.

Lemma init_loop_chain n i c size rem start id :
  0 ≤ size → 0 ≤ rem → i + Z.of_nat n = c →
  let segs := init_loop n i c size rem start id in
  Forall (λ s, m_startByte s ≤ m_endByte s + 1) segs
  ∧ Forall lower_bound segs
  ∧ contiguous_from start segs
  ∧ chain_end start segs
    = start + size * Z.of_nat n + (if bool_decide (n = 0%nat) then 0 else rem).
Proof.
  intros Hsize Hrem. revert i start id.
  induction n as [|n IH]; intros i start id Hc; simpl.
  - repeat split; try constructor. lia.
  - destruct (IH (i + 1) (start + (if bool_decide (i = c - 1)
                                    then size + rem else size) - 1 + 1)
                 (to_uint32 (id + 1))) as (Hsz & Hlow & Hcont & Hend); [lia|].
    repeat split.
    + constructor; [|done]. simpl. case_bool_decide; lia.
    + constructor; [|done]. unfold lower_bound. simpl. lia.
    + done.
    + rewrite Hend. repeat case_bool_decide; lia.
Qed.

Lemma unsigned_quotient total c :
  0 ≤ total < 2 ^ 63 → 1 ≤ c →
  to_int64 (to_uint64 total `div` c) = total `div` c
  ∧ to_int64 (to_uint64 total `mod` c) = total `mod` c.
Proof.
  intros Ht Hc. rewrite to_uint64_small by lia.
  assert (0 ≤ total `div` c ≤ total).
  { split; [apply Z.div_pos; lia|]. apply Z.div_le_upper_bound; nia. }
  pose proof (Z.mod_pos_bound total c ltac:(lia)).
  assert (total `mod` c ≤ total) by (apply Z.mod_le; lia).
  split; apply to_int64_small; lia.
Qed.

Lemma initializeSegments_segments total count sch :
  m_segments (snd (initializeSegments total count sch))
  = let c := clamp count Constants.MIN_SEGMENTS Constants.MAX_SEGMENTS in
    init_loop (Z.to_nat c) 0 c (to_int64 (to_uint64 total `div` c))
      (to_int64 (to_uint64 total `mod` c)) 0 0.
Proof. done. Qed.

Lemma initializeSegments_tiles total count sch :
  0 ≤ total < 2 ^ 63 →
  let segs := m_segments (snd (initializeSegments total count sch)) in
  Z.of_nat (length segs) = clamp count Constants.MIN_SEGMENTS Constants.MAX_SEGMENTS
  ∧ contiguous_from 0 segs
  ∧ partitions total segs
  ∧ Forall lower_bound segs.
Proof.
  intros Ht. rewrite initializeSegments_segments. cbv zeta.
  pose proof (clamp_range count Constants.MIN_SEGMENTS Constants.MAX_SEGMENTS) as Hc.
  unfold Constants.MIN_SEGMENTS, Constants.MAX_SEGMENTS in *.
  set (c := clamp count 1 32) in *. specialize (Hc ltac:(lia)).
  destruct (unsigned_quotient total c) as [-> ->]; [done|lia|].
  assert (0 ≤ total `div` c) by (apply Z.div_pos; lia).
  pose proof (Z.mod_pos_bound total c ltac:(lia)).
  destruct (init_loop_chain (Z.to_nat c) 0 c (total `div` c) (total `mod` c) 0 0)
    as (Hsz & Hlow & Hcont & Hend); [lia..|].
  rewrite init_loop_length. split; [lia|]. split; [done|]. split; [|done].
  apply contiguous_partitions; [done..|].
  rewrite Hend. case_bool_decide; [lia|].
  rewrite Z2Nat.id by lia. pose proof (Z.div_mod total c). lia.
Qed.

Lemma initializeSegments_sizes total count sch k sg :
  0 ≤ total < 2 ^ 63 →
  m_segments (snd (initializeSegments total count sch)) !! k = Some sg →
  let c := clamp count Constants.MIN_SEGMENTS Constants.MAX_SEGMENTS in
  totalSize sg
  = if bool_decide (Z.of_nat k = c - 1) then total `div` c + total `mod` c
    else total `div` c.
Proof.
  intros Ht. rewrite initializeSegments_segments. cbv zeta.
  pose proof (clamp_range count Constants.MIN_SEGMENTS Constants.MAX_SEGMENTS) as Hc.
  unfold Constants.MIN_SEGMENTS, Constants.MAX_SEGMENTS in *.
  set (c := clamp count 1 32) in *. specialize (Hc ltac:(lia)).
  destruct (unsigned_quotient total c) as [-> ->]; [done|lia|].
  intros Hk. by destruct (init_loop_lookup _ _ _ _ _ _ _ _ _ Hk) as (-> & _).
Qed.

Lemma to_int64_to_uint64 z : - 2 ^ 63 ≤ z < 2 ^ 63 → to_int64 (to_uint64 z) = z.
Proof.
  intros Hz. unfold to_int64, to_uint64.
  destruct (Z.le_gt_cases 0 z).
  - rewrite (Z.mod_small z) by lia. rewrite Z.mod_small by lia. lia.
  - replace (z `mod` 2 ^ 64) with (z + 2 ^ 64).
    + replace (z + 2 ^ 64 + 2 ^ 63) with (z + 2 ^ 63 + 1 * 2 ^ 64) by lia.
      rewrite Z.mod_add by lia. rewrite Z.mod_small by lia. lia.
    + apply Z.mod_unique with (-1); lia.
Qed.

Lemma single_segment_partitions total id :
  partitions total [Segment_new id 0 (total - 1)].
Proof.
  split.
  - intros b. simpl. unfold holds. simpl.
    destruct (Z.leb_spec 0 b), (Z.leb_spec b (total - 1));
      simpl; case_bool_decide; lia.
  - simpl. unfold totalSize. simpl. lia.
Qed.

(** The task asks for one segment when the server takes no ranges or the size
    is not known, and the scheduler then makes the one segment
    [[0, total_size - 1]]. *)
Lemma task_initializeSegments_single t :
  - 2 ^ 63 ≤ m_totalSize t < 2 ^ 63 →
  supportsRanges (m_capabilities t) = false ∨ m_totalSize t ≤ 0 →
  m_segments (m_scheduler (task_initializeSegments t))
  = [Segment_new 0 0 (m_totalSize t - 1)].
Proof.
  intros Hrange Hone. unfold task_initializeSegments.
  assert (negb (supportsRanges (m_capabilities t)) || (m_totalSize t <=? 0) = true)
    as ->.
  { destruct Hone as [-> | Hle]; [done|].
    apply orb_true_iff. right. by apply Z.leb_le. }
  unfold t_with_scheduler. cbn [m_scheduler]. rewrite initializeSegments_segments.
  change (clamp 1 Constants.MIN_SEGMENTS Constants.MAX_SEGMENTS) with 1.
  cbv zeta. rewrite Z.div_1_r, Z.mod_1_r, to_int64_to_uint64 by done.
  change (to_int64 0) with 0. change (Z.to_nat 1) with 1%nat. cbn [init_loop].
  rewrite bool_decide_eq_true_2 by done.
  do 2 f_equal. lia.
Qed.

(** With ranges and a known size the task asks for the count that
    [calculateOptimalSegmentCount] gives. *)
Lemma task_initializeSegments_many t :
  supportsRanges (m_capabilities t) = true → 0 < m_totalSize t →
  m_segments (m_scheduler (task_initializeSegments t))
  = m_segments (snd (initializeSegments (m_totalSize t)
                       (calculateOptimalSegmentCount (m_totalSize t)) (m_scheduler t))).
Proof.
  intros Hranges Hsize. unfold task_initializeSegments. rewrite Hranges.
  by rewrite (proj2 (Z.leb_gt _ _)) by done.
Qed.

Lemma task_initializeSegments_cases t :
  (supportsRanges (m_capabilities t) = false ∨ m_totalSize t ≤ 0)
  ∨ (supportsRanges (m_capabilities t) = true ∧ 0 < m_totalSize t).
Proof. destruct (supportsRanges (m_capabilities t)); [|by left; left]. lia. Qed.

(** The positions of the segments [initializeSegments] makes for a size that
    is known. *)
Lemma initializeSegments_position total count sch k sg :
  0 ≤ total < 2 ^ 63 →
  m_segments (snd (initializeSegments total count sch)) !! k = Some sg →
  position_inv sg.
Proof.
  intros Ht Hk.
  destruct (initializeSegments_tiles total count sch Ht) as (_ & _ & _ & Hall).
  rewrite Forall_lookup in Hall. split; [by eapply Hall|].
  pose proof (initializeSegments_sizes total count sch k sg Ht Hk) as Hsz.
  cbv zeta in Hsz. rewrite initializeSegments_segments in Hk. cbv zeta in Hk.
  destruct (init_loop_lookup _ _ _ _ _ _ _ _ _ Hk) as (_ & Hcur & _).
  pose proof (clamp_range count Constants.MIN_SEGMENTS Constants.MAX_SEGMENTS) as Hc.
  unfold Constants.MIN_SEGMENTS, Constants.MAX_SEGMENTS in *.
  specialize (Hc ltac:(lia)).
  assert (0 ≤ total `div` clamp count 1 32) by (apply Z.div_pos; lia).
  pose proof (Z.mod_pos_bound total (clamp count 1 32) ltac:(lia)).
  unfold upper_bound, totalSize in *. case_bool_decide; lia.
Qed.

(** The segments a task starts with tile [[0, total_size)], whatever the
    size and the server. *)
Lemma task_initializeSegments_tiles t :
  - 2 ^ 63 ≤ m_totalSize t < 2 ^ 63 →
  let segs := m_segments (m_scheduler (task_initializeSegments t)) in
  Constants.MIN_SEGMENTS ≤ Z.of_nat (length segs) ≤ Constants.MAX_SEGMENTS
  ∧ contiguous_from 0 segs
  ∧ partitions (m_totalSize t) segs
  ∧ Forall lower_bound segs.
Proof.
  intros Hrange. cbv zeta.
  destruct (task_initializeSegments_cases t) as [Hone | [Hranges Hsize]].
  - rewrite task_initializeSegments_single by done.
    split; [by vm_compute|]. split; [done|].
    split; [apply single_segment_partitions|].
    constructor; [|done]. unfold lower_bound. simpl. lia.
  - rewrite task_initializeSegments_many by done.
    destruct (initializeSegments_tiles (m_totalSize t)
                (calculateOptimalSegmentCount (m_totalSize t)) (m_scheduler t))
      as (Hlen & Hcont & Hpart & Hlow); [lia|].
    split; [|done]. rewrite Hlen. by apply clamp_range.
Qed.

(* ===================================================================== *)
(** * Segment::split *)
(* ===================================================================== *)

Lemma split_Some newId s donor' newSegment :
  split newId s = Some (donor', newSegment) →
  let midpoint := m_currentByte s + remainingBytes s `div` 2 in
  2 * Constants.MIN_STEAL_SIZE ≤ remainingBytes s
  ∧ donor' = setEndByte (midpoint - 1) s
  ∧ newSegment = Segment_new newId midpoint (m_endByte s)
  ∧ m_currentByte s < midpoint ≤ m_endByte s.
Proof.
  unfold split, isSplittable. case_match eqn:Hsp; [|done].
  apply Z.leb_le in Hsp. intros [= <- <-].
  assert (0 ≤ remainingBytes s) by (unfold Constants.MIN_STEAL_SIZE in Hsp; lia).
  rewrite Z.quot_div_nonneg by lia. cbv zeta.
  unfold Constants.MIN_STEAL_SIZE in *. unfold remainingBytes in *.
  repeat split; try done; try lia.
  - Z.to_euclidean_division_equations. lia.
  - Z.to_euclidean_division_equations. lia.
Qed.

Lemma split_None newId s :
  split newId s = None ↔ remainingBytes s < 2 * Constants.MIN_STEAL_SIZE.
Proof.
  unfold split, isSplittable.
  destruct (Z.leb_spec (Constants.MIN_STEAL_SIZE * 2) (remainingBytes s)).
  - split; [done|lia].
  - split; [lia|done].
Qed.

Lemma isSplittable_true s :
  isSplittable Constants.MIN_STEAL_SIZE s = true
  ↔ 2 * Constants.MIN_STEAL_SIZE ≤ remainingBytes s.
Proof. unfold isSplittable. rewrite Z.leb_le. lia. Qed.

(** Splitting a segment whose position is not before its start leaves the
    bytes each covered by the same number of segments, and the total
    length as it was. *)
Lemma split_coverage newId st s donor' newSegment b :
  lower_bound s →
  split newId s = Some (donor', newSegment) →
  ((if holds b donor' then 1 else 0) + (if holds b (setState st newSegment) then 1 else 0)
   = if holds b s then 1 else 0)%nat
  ∧ totalSize donor' + totalSize (setState st newSegment) = totalSize s
  ∧ lower_bound donor' ∧ lower_bound (setState st newSegment)
  ∧ upper_bound donor' ∧ upper_bound (setState st newSegment).
Proof.
  intros Hlow Hsplit.
  destruct (split_Some _ _ _ _ Hsplit) as (_ & -> & -> & Hmid).
  unfold lower_bound, upper_bound, holds, totalSize in *. simpl.
  repeat split; try lia.
  destruct (Z.leb_spec (m_startByte s) b),
    (Z.leb_spec b (m_currentByte s + remainingBytes s `div` 2 - 1)),
    (Z.leb_spec (m_currentByte s + remainingBytes s `div` 2) b),
    (Z.leb_spec b (m_endByte s)); simpl; lia.
Qed.



(* ===================================================================== *)
(** * findLargestActiveSegment and stealWork *)
(* ===================================================================== *)

#[global] Instance address_le_transitive address : Transitive (address_le address).
Proof. unfold address_le. intros a b c. lia. Qed.

#[global] Instance address_le_total address : Total (address_le address).
Proof. unfold address_le. intros a b. lia. Qed.

Lemma elem_of_in_address_order address (X : gset nat) h :
  h ∈ in_address_order address X ↔ h ∈ X.
Proof.
  unfold in_address_order. rewrite merge_sort_Permutation. apply elem_of_elements.
Qed.

Lemma in_address_order_Permutation address (X : gset nat) :
  in_address_order address X ≡ₚ elements X.
Proof. apply merge_sort_Permutation. Qed.

Lemma in_address_order_singleton address (h : nat) :
  in_address_order address {[h]} = [h].
Proof. unfold in_address_order. by rewrite elements_singleton. Qed.

Lemma in_address_order_sorted address (X : gset nat) :
  StronglySorted (address_le address) (in_address_order address X).
Proof. apply StronglySorted_merge_sort; apply _. Qed.

Lemma largest_fold segs (l : list nat) :
  match foldl (largest_step segs) (None, 0) l with
  | (None, maxRemaining) =>
      maxRemaining = 0
      ∧ ∀ h sg, h ∈ l → segs !! h = Some sg →
                isSplittable Constants.MIN_STEAL_SIZE sg = false
  | (Some d, maxRemaining) =>
      d ∈ l
      ∧ ∃ donor, segs !! d = Some donor
                 ∧ isSplittable Constants.MIN_STEAL_SIZE donor = true
                 ∧ maxRemaining = remainingBytes donor
                 ∧ ∀ h sg, h ∈ l → segs !! h = Some sg →
                           remainingBytes sg ≤ maxRemaining
  end.
Proof.
  induction l as [|x l IH] using rev_ind; simpl.
  - split; [done|]. intros h sg Hh. by apply elem_of_nil in Hh.
  - rewrite foldl_app. simpl.
    destruct (foldl (largest_step segs) (None, 0) l) as [[d|] mx].
    + destruct IH as (Hd & donor & Hdonor & Hsp & Hmx & Hmax).
      unfold largest_step at 1. simpl.
      destruct (segs !! x) as [sx|] eqn:Hx.
      * destruct (Z.ltb_spec mx (remainingBytes sx)); simpl.
        -- destruct (isSplittable Constants.MIN_STEAL_SIZE sx) eqn:Hsx.
           ++ split; [set_solver|]. exists sx. repeat split; try done.
              intros h sg [Hh | ->%list_elem_of_singleton]%elem_of_app Hsg.
              ** specialize (Hmax _ _ Hh Hsg). lia.
              ** simplify_eq. lia.
           ++ split; [set_solver|]. exists donor. repeat split; try done.
              intros h sg [Hh | ->%list_elem_of_singleton]%elem_of_app Hsg.
              ** by eapply Hmax.
              ** simplify_eq. apply isSplittable_true in Hsp.
                 apply Z.leb_gt in Hsx. lia.
        -- split; [set_solver|]. exists donor. repeat split; try done.
           intros h sg [Hh | ->%list_elem_of_singleton]%elem_of_app Hsg.
           ** by eapply Hmax.
           ** simplify_eq. lia.
      * split; [set_solver|]. exists donor. repeat split; try done.
        intros h sg [Hh | ->%list_elem_of_singleton]%elem_of_app Hsg.
        -- by eapply Hmax.
        -- simplify_eq.
    + destruct IH as (-> & Hnone).
      unfold largest_step at 1. simpl.
      destruct (segs !! x) as [sx|] eqn:Hx.
      * destruct (Z.ltb_spec 0 (remainingBytes sx)); simpl.
        -- destruct (isSplittable Constants.MIN_STEAL_SIZE sx) eqn:Hsx.
           ++ split; [set_solver|]. exists sx. repeat split; try done.
              intros h sg [Hh | ->%list_elem_of_singleton]%elem_of_app Hsg.
              ** specialize (Hnone _ _ Hh Hsg). apply Z.leb_gt in Hnone.
                 apply isSplittable_true in Hsx. lia.
              ** simplify_eq. lia.
           ++ split; [done|].
              intros h sg [Hh | ->%list_elem_of_singleton]%elem_of_app Hsg.
              ** by eapply Hnone.
              ** by simplify_eq.
        -- split; [done|].
           intros h sg [Hh | ->%list_elem_of_singleton]%elem_of_app Hsg.
           ** by eapply Hnone.
           ** simplify_eq. apply Z.leb_gt. unfold Constants.MIN_STEAL_SIZE. lia.
      * split; [done|].
        intros h sg [Hh | ->%list_elem_of_singleton]%elem_of_app Hsg.
        -- by eapply Hnone.
        -- simplify_eq.
Qed.

Lemma findLargestActiveSegment_None s :
  findLargestActiveSegment s = None →
  ∀ h sg, h ∈ m_activeSegments s → m_segments s !! h = Some sg →
          remainingBytes sg < 2 * Constants.MIN_STEAL_SIZE.
Proof.
  unfold findLargestActiveSegment.
  pose proof (largest_fold (m_segments s)
                (in_address_order (m_address s) (m_activeSegments s))) as H.
  destruct (foldl _ _ _) as [[d|] mx]; [done|]. intros _ h sg Hh Hsg.
  destruct H as [_ H]. apply (elem_of_in_address_order (m_address s)) in Hh.
  specialize (H _ _ Hh Hsg). apply Z.leb_gt in H. lia.
Qed.

Lemma findLargestActiveSegment_Some s d :
  findLargestActiveSegment s = Some d →
  d ∈ m_activeSegments s
  ∧ ∃ donor, m_segments s !! d = Some donor
             ∧ 2 * Constants.MIN_STEAL_SIZE ≤ remainingBytes donor
             ∧ ∀ h sg, h ∈ m_activeSegments s → m_segments s !! h = Some sg →
                       remainingBytes sg ≤ remainingBytes donor.
Proof.
  unfold findLargestActiveSegment.
  pose proof (largest_fold (m_segments s)
                (in_address_order (m_address s) (m_activeSegments s))) as H.
  destruct (foldl _ _ _) as [[d'|] mx]; [|done]. simpl. intros [= ->].
  destruct H as (Hd & donor & Hdonor & Hsp & -> & Hmax).
  split; [by apply (elem_of_in_address_order (m_address s))|]. exists donor.
  split; [done|]. split; [by apply isSplittable_true|].
  intros h sg Hh Hsg. eapply Hmax; [|done].
  by apply (elem_of_in_address_order (m_address s)).
Qed.

(** The loop keeps the segment it holds unless it meets one with more bytes
    left: the segment it ends with is the first of the largest. *)
Lemma largest_fold_first segs (l : list nat) d mx :
  foldl (largest_step segs) (None, 0) l = (Some d, mx) →
  ∃ l1 l2, l = l1 ++ d :: l2
           ∧ ∀ h sg, h ∈ l1 → segs !! h = Some sg → remainingBytes sg < mx.
Proof.
  revert d mx. induction l as [|x l IH] using rev_ind; intros d mx Hf; [done|].
  rewrite foldl_app in Hf. cbn [foldl] in Hf.
  pose proof (largest_fold segs l) as Hl.
  destruct (foldl (largest_step segs) (None, 0) l) as [[d0|] mx0] eqn:Hacc.
  - destruct Hl as (_ & donor & _ & _ & Hmx & Hmax).
    assert ((Some d0, mx0) = (Some d, mx) → ∃ l1 l2, l ++ [x] = l1 ++ d :: l2
              ∧ ∀ h sg, h ∈ l1 → segs !! h = Some sg → remainingBytes sg < mx) as Hkeep.
    { intros [= <- <-]. destruct (IH d0 mx0 eq_refl) as (l1 & l2 & -> & Hbefore).
      exists l1, (l2 ++ [x]). by rewrite <- app_assoc. }
    unfold largest_step in Hf. cbn [snd] in Hf.
    destruct (segs !! x) as [sx|] eqn:Hx; [|by apply Hkeep].
    destruct ((mx0 <? remainingBytes sx) && isSplittable Constants.MIN_STEAL_SIZE sx)
      eqn:Hc; [|by apply Hkeep].
    injection Hf as <- <-. exists l, []. split; [done|]. intros h sg Hh Hsg.
    apply andb_true_iff in Hc as [Hc _]. apply Z.ltb_lt in Hc.
    specialize (Hmax _ _ Hh Hsg). lia.
  - destruct Hl as [-> Hsmall].
    unfold largest_step in Hf. cbn [snd] in Hf.
    destruct (segs !! x) as [sx|] eqn:Hx; [|done].
    destruct ((0 <? remainingBytes sx) && isSplittable Constants.MIN_STEAL_SIZE sx)
      eqn:Hc; [|done].
    injection Hf as <- <-. exists l, []. split; [done|]. intros h sg Hh Hsg.
    apply andb_true_iff in Hc as [_ Hc]. apply isSplittable_true in Hc.
    specialize (Hsmall _ _ Hh Hsg). apply Z.leb_gt in Hsmall. lia.
Qed.

(** Of the segments with the most bytes left, [findLargestActiveSegment]
    gives the one at the lowest address. *)
Lemma findLargestActiveSegment_first s d donor :
  findLargestActiveSegment s = Some d → m_segments s !! d = Some donor →
  ∀ h sg, h ∈ m_activeSegments s → m_segments s !! h = Some sg →
          remainingBytes sg = remainingBytes donor →
          m_address s d ≤ m_address s h.
Proof.
  unfold findLargestActiveSegment. intros Hd Hdonor h sg Hh Hsg Hsame.
  pose proof (largest_fold (m_segments s)
                (in_address_order (m_address s) (m_activeSegments s))) as Hl.
  pose proof (in_address_order_sorted (m_address s) (m_activeSegments s)) as Hsorted.
  apply (elem_of_in_address_order (m_address s)) in Hh.
  destruct (foldl _ _ _) as [[d'|] mx] eqn:Hfold; [|done].
  cbn [fst] in Hd. injection Hd as ->.
  destruct Hl as (_ & donor' & Hdonor' & _ & Hmx & _).
  assert (donor' = donor) as -> by congruence.
  destruct (largest_fold_first _ _ _ _ Hfold) as (l1 & l2 & Hsplit & Hbefore).
  rewrite Hsplit in Hh, Hsorted.
  apply StronglySorted_app in Hsorted as (_ & _ & Hsorted).
  apply elem_of_app in Hh as [Hh | Hh].
  { specialize (Hbefore _ _ Hh Hsg). lia. }
  apply elem_of_cons in Hh as [-> | Hh]; [lia|].
  apply StronglySorted_inv in Hsorted as [_ Hall].
  rewrite Forall_forall in Hall. exact (Hall _ Hh).
Qed.

Lemma stealWork_none worker s :
  (∀ h sg, h ∈ m_activeSegments s → m_segments s !! h = Some sg →
           remainingBytes sg < 2 * Constants.MIN_STEAL_SIZE) →
  stealWork worker s = (None, s).
Proof.
  intros Hsmall. unfold stealWork.
  destruct (m_paused s || m_cancelled s); [done|].
  destruct (findLargestActiveSegment s) as [d|] eqn:Hd; [|done].
  apply findLargestActiveSegment_Some in Hd as (Hin & donor & Hdonor & Hsp & _).
  specialize (Hsmall _ _ Hin Hdonor). lia.
Qed.

Lemma stealWork_split worker s d donor :
  m_paused s || m_cancelled s = false →
  findLargestActiveSegment s = Some d →
  m_segments s !! d = Some donor →
  let midpoint := m_currentByte donor + remainingBytes donor `div` 2 in
  let newId := m_nextSegmentId s in
  let ptr := length (m_segments s) in
  stealWork worker s
  = (Some ptr,
     mkScheduler
       (<[d := setEndByte (midpoint - 1) donor]> (m_segments s)
          ++ [setState SegmentState.Active (Segment_new newId midpoint (m_endByte donor))])
       (m_pendingQueue s) ({[ptr]} ∪ m_activeSegments s) (m_completedSegments s)
       (m_failedSegments s) (m_workers s) (<[worker := ptr]> (m_workerAssignments s))
       (to_uint32 (newId + 1)) (m_paused s) (m_cancelled s)
       (m_signals s ++ [segmentAdded newId]) (m_address s)).
Proof.
  intros Hflags Hd Hdonor. cbv zeta. unfold stealWork. rewrite Hflags, Hd, Hdonor.
  apply findLargestActiveSegment_Some in Hd as (_ & donor' & Hdonor' & Hsp & _).
  assert (donor' = donor) as -> by congruence.
  rewrite (proj2 (isSplittable_true donor)) by done. simpl.
  destruct (split (m_nextSegmentId s) donor) as [[donor' new]|] eqn:Hsplit.
  - destruct (split_Some _ _ _ _ Hsplit) as (_ & -> & -> & _). done.
  - apply split_None in Hsplit. lia.
Qed.

(** A steal is a split step on the vector of segments, or leaves it alone. *)
Lemma stealWork_step worker s :
  m_segments (snd (stealWork worker s)) = m_segments s
  ∨ segments_step (m_segments s) (m_segments (snd (stealWork worker s))).
Proof.
  destruct (m_paused s || m_cancelled s) eqn:Hflags.
  { left. unfold stealWork. by rewrite Hflags. }
  destruct (findLargestActiveSegment s) as [d|] eqn:Hd.
  - destruct (findLargestActiveSegment_Some _ _ Hd) as (_ & donor & Hdonor & Hsp & _).
    right. rewrite (stealWork_split worker s d donor) by done. simpl.
    destruct (split (m_nextSegmentId s) donor) as [[donor' new]|] eqn:Hsplit.
    + destruct (split_Some _ _ _ _ Hsplit) as (_ & Hd' & Hnew & _).
      rewrite <- Hd', <- Hnew. by eapply step_split.
    + apply split_None in Hsplit. lia.
  - left. unfold stealWork. by rewrite Hflags, Hd.
Qed.

(* ===================================================================== *)
(** * The flags and the active set *)
(* ===================================================================== *)

Lemma flags_inv_new : flags_inv Scheduler_new.
Proof. done. Qed.

Lemma flags_inv_initializeSegments total count s :
  flags_inv (snd (initializeSegments total count s)).
Proof. done. Qed.

Lemma flags_inv_stealWork worker s : flags_inv s → flags_inv (snd (stealWork worker s)).
Proof.
  intros Hinv. destruct (m_paused s || m_cancelled s) eqn:Hflags.
  { unfold stealWork. by rewrite Hflags. }
  destruct (findLargestActiveSegment s) as [d|] eqn:Hd.
  - destruct (findLargestActiveSegment_Some _ _ Hd) as (_ & donor & Hdonor & _).
    rewrite (stealWork_split worker s d donor) by done.
    unfold flags_inv. simpl. by rewrite Hflags.
  - unfold stealWork. by rewrite Hflags, Hd.
Qed.

Lemma flags_inv_acquireSegment worker s :
  flags_inv s → flags_inv (snd (acquireSegment worker s)).
Proof.
  intros Hinv. unfold acquireSegment.
  destruct (m_paused s || m_cancelled s) eqn:Hflags; [done|].
  destruct (m_pendingQueue s); [by apply flags_inv_stealWork|].
  unfold flags_inv. simpl. by rewrite Hflags.
Qed.

Lemma flags_inv_releaseSegment worker segment s :
  flags_inv s → flags_inv (releaseSegment worker segment s).
Proof.
  intros Hinv. unfold flags_inv in *. destruct segment as [seg|]; [|done]. simpl.
  assert (∀ s', m_paused s' = m_paused s → m_cancelled s' = m_cancelled s →
                m_activeSegments s' = m_activeSegments s ∖ {[seg]} →
                m_paused s' || m_cancelled s' = true → m_activeSegments s' = ∅) as Hgen.
  { intros s' -> -> -> Hf. rewrite (Hinv Hf).
    apply empty_difference_L. }
  repeat case_match; try (apply Hgen; done).
  unfold checkAllComplete. destruct (isAllComplete _); by apply Hgen.
Qed.

Lemma flags_inv_pauseAll s : flags_inv (pauseAll s).
Proof. done. Qed.

Lemma flags_inv_cancelAll s : flags_inv (cancelAll s).
Proof. done. Qed.

Lemma flags_inv_reset s : flags_inv (reset s).
Proof. done. Qed.

Lemma flags_inv_resumeAll s : flags_inv s → flags_inv (resumeAll s).
Proof.
  unfold flags_inv. simpl. intros Hinv Hc. apply Hinv. rewrite Hc. apply orb_true_r.
Qed.

Lemma flags_inv_markCompleted segment s : flags_inv s → flags_inv (markCompleted segment s).
Proof.
  intros Hinv. destruct segment as [h|]; [|done]. unfold markCompleted, checkAllComplete.
  assert (∀ s', m_paused s' = m_paused s → m_cancelled s' = m_cancelled s →
                m_activeSegments s' = m_activeSegments s ∖ {[h]} → flags_inv s') as Hgen.
  { intros s' Hp Hc Ha Hf. rewrite Hp, Hc in Hf. rewrite Ha, (Hinv Hf).
    apply empty_difference_L. }
  destruct (isAllComplete _); by apply Hgen.
Qed.

Lemma flags_inv_markFailed segment error s :
  flags_inv s → flags_inv (markFailed segment error s).
Proof.
  intros Hinv. destruct segment as [h|]; [|done]. unfold markFailed.
  assert (∀ s', m_paused s' = m_paused s → m_cancelled s' = m_cancelled s →
                m_activeSegments s' = m_activeSegments s ∖ {[h]} → flags_inv s') as Hgen.
  { intros s' Hp Hc Ha Hf. rewrite Hp, Hc in Hf. rewrite Ha, (Hinv Hf).
    apply empty_difference_L. }
  destruct (default false _); by apply Hgen.
Qed.

Lemma flags_inv_on_segment h f s : flags_inv s → flags_inv (on_segment h f s).
Proof. done. Qed.

Lemma flags_inv_registerWorker worker s : flags_inv s → flags_inv (registerWorker worker s).
Proof. done. Qed.

Lemma flags_inv_unregisterWorker worker s :
  flags_inv s → flags_inv (unregisterWorker worker s).
Proof. done. Qed.

(* ===================================================================== *)
(** * Claims on the partition of the byte range and on work stealing *)
(* ===================================================================== *)



(** C5.  When some segment of the active set has [remaining >= 2 *
    MIN_STEAL_SIZE], [stealWork] picks a segment of the active set that has
    the greatest remaining bytes of them all (of several such, the one at the
    lowest address: the first the loop over the set meets), shrinks its end
    to [midpoint - 1] with [midpoint = current_byte + remaining / 2], and
    hands the caller the new segment [[midpoint, original_end]], Active,
    under the id drawn from the scheduler's counter (an id no segment has
    yet, as long as the ids are below the counter); the new segment joins
    the vector and the active set and is assigned to the caller.  Read off
    the two segments after the split: the donor has its old id, start,
    position and state and the end [midpoint - 1]; the new segment starts
    and stands at [midpoint] and ends at the donor's old end; together they
    have the bytes left that the donor had; every other segment is as it
    was.  When no segment of the active set has [remaining >= 2 *
    MIN_STEAL_SIZE], [stealWork] returns none and the scheduler is as it
    was. *)
Theorem C5_stealWork_splits_largest (worker : nat) (s : Scheduler) :
  flags_inv s →
  ((∀ h sg, h ∈ m_activeSegments s → m_segments s !! h = Some sg →
            remainingBytes sg < 2 * Constants.MIN_STEAL_SIZE) →
   stealWork worker s = (None, s))
  ∧ (∀ h sg, h ∈ m_activeSegments s → m_segments s !! h = Some sg →
       2 * Constants.MIN_STEAL_SIZE ≤ remainingBytes sg →
       ∃ d donor s',
         d ∈ m_activeSegments s ∧ m_segments s !! d = Some donor
         ∧ 2 * Constants.MIN_STEAL_SIZE ≤ remainingBytes donor
         ∧ (∀ h' sg', h' ∈ m_activeSegments s → m_segments s !! h' = Some sg' →
                      remainingBytes sg' ≤ remainingBytes donor)
         ∧ (∀ h' sg', h' ∈ m_activeSegments s → m_segments s !! h' = Some sg' →
                      remainingBytes sg' = remainingBytes donor →
                      m_address s d ≤ m_address s h')
         ∧ stealWork worker s = (Some (length (m_segments s)), s')
         ∧ m_segments s'
           = <[d := setEndByte (m_currentByte donor + remainingBytes donor `div` 2 - 1)
                      donor]> (m_segments s)
             ++ [mkSegment (m_nextSegmentId s)
                   (m_currentByte donor + remainingBytes donor `div` 2) (m_endByte donor)
                   (m_currentByte donor + remainingBytes donor `div` 2)
                   SegmentState.Active "" 0 NoMessage]
         ∧ (∃ donor' newSegment,
              m_segments s' !! d = Some donor'
              ∧ m_segments s' !! length (m_segments s) = Some newSegment
              ∧ length (m_segments s') = S (length (m_segments s))
              ∧ m_endByte donor' = m_currentByte donor + remainingBytes donor `div` 2 - 1
              ∧ m_startByte donor' = m_startByte donor
              ∧ m_currentByte donor' = m_currentByte donor
              ∧ m_id donor' = m_id donor
              ∧ m_state donor' = m_state donor
              ∧ m_id newSegment = m_nextSegmentId s
              ∧ m_startByte newSegment = m_currentByte donor + remainingBytes donor `div` 2
              ∧ m_currentByte newSegment = m_currentByte donor + remainingBytes donor `div` 2
              ∧ m_endByte newSegment = m_endByte donor
              ∧ m_state newSegment = SegmentState.Active
              ∧ remainingBytes donor' + remainingBytes newSegment = remainingBytes donor
              ∧ Constants.MIN_STEAL_SIZE ≤ remainingBytes donor'
              ∧ Constants.MIN_STEAL_SIZE ≤ remainingBytes newSegment)
         ∧ (∀ h', h' ≠ d → (h' < length (m_segments s))%nat →
                  m_segments s' !! h' = m_segments s !! h')
         ∧ (ids_below s → Forall (λ x, m_id x ≠ m_nextSegmentId s) (m_segments s))
         ∧ m_nextSegmentId s' = to_uint32 (m_nextSegmentId s + 1)
         ∧ m_activeSegments s' = {[length (m_segments s)]} ∪ m_activeSegments s
         ∧ m_workerAssignments s' = <[worker := length (m_segments s)]> (m_workerAssignments s)
         ∧ m_pendingQueue s' = m_pendingQueue s
         ∧ m_completedSegments s' = m_completedSegments s
         ∧ m_failedSegments s' = m_failedSegments s).
Proof.
  intros Hinv. split; [apply stealWork_none|].
  intros h sg Hh Hsg Hsp.
  destruct (m_paused s || m_cancelled s) eqn:Hflags.
  { rewrite (Hinv Hflags) in Hh. set_solver. }
  destruct (findLargestActiveSegment s) as [d|] eqn:Hd.
  - destruct (findLargestActiveSegment_Some _ _ Hd) as (Hin & donor & Hdonor & Hdsp & Hmax).
    assert (d < length (m_segments s))%nat as Hlt by (by eapply lookup_lt_Some).
    eexists d, donor, _. split; [done|]. split; [done|]. split; [done|].
    split; [done|]. split; [by apply (findLargestActiveSegment_first s d donor)|].
    split; [by apply stealWork_split|]. cbn [m_segments].
    split; [done|]. split.
    { eexists _, _. split.
      { rewrite lookup_app_l by (by rewrite length_insert).
        by apply list_lookup_insert_eq. }
      split.
      { rewrite lookup_app_r by (by rewrite length_insert).
        rewrite length_insert, Nat.sub_diag. done. }
      split.
      { rewrite length_app, length_insert. cbn [length]. lia. }
      unfold remainingBytes in *. cbn.
      unfold Constants.MIN_STEAL_SIZE in *.
      pose proof (Z.div_mod (m_endByte donor - m_currentByte donor + 1) 2 ltac:(lia)).
      pose proof (Z.mod_pos_bound (m_endByte donor - m_currentByte donor + 1) 2 ltac:(lia)).
      repeat split; lia. }
    split.
    { intros h' Hne Hlt'. rewrite lookup_app_l by (by rewrite length_insert).
      by rewrite list_lookup_insert_ne. }
    cbn.
    repeat split; try done.
    intros Hids. eapply Forall_impl; [exact Hids|]. simpl. intros x Hx. lia.
  - pose proof (findLargestActiveSegment_None _ Hd _ _ Hh Hsg). lia.
Qed.

Lemma C5_stealWork_witness :
  ∃ s',
    stealWork 2 scheduler_two_active = (Some 2%nat, s')
    ∧ m_startByte <$> m_segments scheduler_two_active = [0; 2097152]
    ∧ m_endByte <$> m_segments scheduler_two_active = [2097151; 4194303]
    ∧ m_startByte <$> m_segments s' = [0; 2097152; 1048576]
    ∧ m_endByte <$> m_segments s' = [1048575; 4194303; 2097151]
    ∧ m_id <$> m_segments s' = [0; 1; 2]
    ∧ m_nextSegmentId s' = 3.
Proof.
  assert (flags_inv scheduler_two_active) as Hflags
    by (intros H; vm_compute in H; discriminate H).
  assert (0%nat ∈ m_activeSegments scheduler_two_active) as Hin
    by (apply (bool_decide_unpack _); vm_compute; exact I).
  assert (m_segments scheduler_two_active
          = [mkSegment 0 0 2097151 0 SegmentState.Active "" 0 NoMessage;
             mkSegment 1 2097152 4194303 2097152 SegmentState.Active "" 0 NoMessage])
    as Hsegs by (vm_compute; reflexivity).
  assert (m_segments scheduler_two_active !! 0%nat
          = Some (mkSegment 0 0 2097151 0 SegmentState.Active "" 0 NoMessage)) as Hlook
    by (rewrite Hsegs; reflexivity).
  assert (2 * Constants.MIN_STEAL_SIZE
          ≤ remainingBytes (mkSegment 0 0 2097151 0 SegmentState.Active "" 0 NoMessage))
    as Hrem by (vm_compute; discriminate).
  destruct (proj2 (C5_stealWork_splits_largest 2 scheduler_two_active Hflags)
              0%nat _ Hin Hlook Hrem)
    as (d & donor & s' & Hd & Hdonor & _ & Hmax & Hfirst & Hsteal & Hnew & _ & _ & _
        & Hnext & _).
  assert (remainingBytes (mkSegment 0 0 2097151 0 SegmentState.Active "" 0 NoMessage)
          = remainingBytes donor) as Hsame.
  { apply Z.le_antisymm; [exact (Hmax _ _ Hin Hlook)|].
    rewrite Hsegs in Hdonor.
    destruct d as [|[|d]]; cbn in Hdonor; [| |discriminate Hdonor];
      injection Hdonor as <-; vm_compute; discriminate. }
  pose proof (Hfirst _ _ Hin Hlook Hsame) as Hlow.
  change (m_address scheduler_two_active) with (λ segment : nat, Z.of_nat segment) in Hlow.
  cbv beta in Hlow.
  assert (d = 0%nat) as -> by lia.
  rewrite Hlook in Hdonor. injection Hdonor as <-.
  exists s'. split; [exact Hsteal|].
  rewrite Hnew, Hnext, Hsegs. vm_compute. repeat split; reflexivity.
Defined.

(* ===================================================================== *)
(** * The write callback and the position of a segment *)
(* ===================================================================== *)

Lemma QFile_write_all file (data : bytes) fs :
  Z.of_nat (length data) ≤ fs_room fs →
  QFile_write file data fs
  = (Z.of_nat (length data),
     mkFileSystem (<[file := default [] (fs_files fs !! file) ++ data]> (fs_files fs))
       (fs_room fs - Z.of_nat (length data)) (fs_denied fs) (fs_bad_from fs)).
Proof.
  intros Hroom. unfold QFile_write.
  rewrite Z.max_r by lia. rewrite Z.min_l by lia.
  rewrite Nat2Z.id, firstn_all. done.
Qed.

Lemma QFile_write_short file (data : bytes) fs :
  Z.max 0 (fs_room fs) < Z.of_nat (length data) →
  fst (QFile_write file data fs) < Z.of_nat (length data).
Proof. intros Hroom. unfold QFile_write. cbn [fst]. lia. Qed.

Lemma buffer_size (data : bytes) :
  Z.of_nat (length data) < 2 ^ 63 →
  to_uint64 (Z.of_nat (length data)) = Z.of_nat (length data)
  ∧ to_int64 (to_uint64 (Z.of_nat (length data))) = Z.of_nat (length data).
Proof.
  intros Hlen. rewrite to_uint64_small by lia. split; [done|].
  apply to_int64_small. lia.
Qed.

Lemma writeCallback_ok (data : bytes) w sch fs file :
  m_tempFile w = Some file →
  Z.of_nat (length data) < 2 ^ 63 →
  Z.of_nat (length data) ≤ fs_room fs →
  writeCallback data w sch fs
  = (Z.of_nat (length data),
     w_with_counters
       (to_int64 (m_totalBytesDownloaded w + Z.of_nat (length data)))
       (to_int64 (m_segmentBytesDownloaded w + Z.of_nat (length data))) w,
     match m_currentSegment w with
     | Some segment => on_segment segment (advanceBy (Z.of_nat (length data))) sch
     | None => sch
     end,
     mkFileSystem (<[file := default [] (fs_files fs !! file) ++ data]> (fs_files fs))
       (fs_room fs - Z.of_nat (length data)) (fs_denied fs) (fs_bad_from fs)).
Proof.
  intros Hfile Hlen Hroom. unfold writeCallback. rewrite Hfile.
  rewrite QFile_write_all by done.
  destruct (buffer_size data Hlen) as [-> ->].
  by rewrite bool_decide_eq_false_2 by (intros H; by apply H).
Qed.

Lemma writeCallback_short (data : bytes) w sch fs file :
  m_tempFile w = Some file →
  Z.of_nat (length data) < 2 ^ 63 →
  Z.max 0 (fs_room fs) < Z.of_nat (length data) →
  fst (fst (fst (writeCallback data w sch fs))) = 0
  ∧ snd (fst (writeCallback data w sch fs)) = sch.
Proof.
  intros Hfile Hlen Hroom. unfold writeCallback. rewrite Hfile.
  pose proof (QFile_write_short file data fs Hroom) as Hshort.
  destruct (QFile_write file data fs) as [written fs1]. simpl in Hshort.
  destruct (buffer_size data Hlen) as [_ ->].
  by rewrite bool_decide_eq_true_2 by lia.
Qed.

(** C1, as stated: the segment [[0, 9]] stands at byte 8 and a buffer of 5
    bytes comes in.  Writing it all exceeds the end, and yet the callback
    returns 5, all that was offered, the temp file has taken all 5 bytes and
    not the 2 up to [end + 1], and the position is 13. *)
Lemma C1_write_past_end_not_truncated :
  let '(ret, _, sch, fs) := writeCallback five_bytes worker_0 scheduler_0_9 disk_0_9 in
  ¬ ret < 5
  ∧ fs_files fs !! part0 ≠ Some (eight_bytes ++ take 2 five_bytes)
  ∧ ret = 5
  ∧ fs_files fs !! part0 = Some (eight_bytes ++ five_bytes)
  ∧ m_currentByte <$> m_segments sch !! 0%nat = Some 13
  ∧ m_endByte <$> m_segments sch !! 0%nat = Some 9.
Proof. vm_compute. repeat split; try done; intros H; discriminate H. Qed.

(** C1, amended.  In the data-receive callback, with the temp file open: when
    the disk takes the buffer, the whole buffer is appended to the temp file,
    the position of the worker's segment moves on by the size of the buffer,
    and the callback returns that size, all that was offered; when the write
    comes back short the callback returns 0 and the position stays.  The end
    of the segment plays no part: with any other end in its place the
    callback returns the same, writes the same and leaves the same
    position. *)
Theorem C1_writeCallback_writes_whole_buffer
    (data : bytes) (w : SegmentWorker) (sch : Scheduler) (fs : FileSystem)
    (file : string) (h : nat) :
  m_tempFile w = Some file →
  m_currentSegment w = Some h →
  Z.of_nat (length data) < 2 ^ 63 →
  (Z.of_nat (length data) ≤ fs_room fs →
     fst (fst (fst (writeCallback data w sch fs))) = Z.of_nat (length data)
     ∧ fs_files (snd (writeCallback data w sch fs)) !! file
       = Some (default [] (fs_files fs !! file) ++ data)
     ∧ m_segments (snd (fst (writeCallback data w sch fs)))
       = alter (advanceBy (Z.of_nat (length data))) h (m_segments sch))
  ∧ (Z.max 0 (fs_room fs) < Z.of_nat (length data) →
     fst (fst (fst (writeCallback data w sch fs))) = 0
     ∧ snd (fst (writeCallback data w sch fs)) = sch)
  ∧ (∀ newEnd,
       let r := writeCallback data w sch fs in
       let r' := writeCallback data w (on_segment h (setEndByte newEnd) sch) fs in
       fst (fst (fst r')) = fst (fst (fst r))
       ∧ snd r' = snd r
       ∧ m_segments (snd (fst r')) = alter (setEndByte newEnd) h (m_segments (snd (fst r)))).
Proof.
  intros Hfile Hseg Hlen. split; [|split].
  - intros Hroom. rewrite (writeCallback_ok data w sch fs file) by done.
    rewrite Hseg. simpl. by rewrite lookup_insert_eq.
  - intros Hroom. by apply (writeCallback_short data w sch fs file).
  - intros newEnd. cbv zeta. unfold writeCallback. rewrite Hfile, Hseg.
    destruct (QFile_write file data fs) as [written fs1].
    case_bool_decide; simpl.
    + done.
    + split; [done|]. split; [done|].
      rewrite !list_alter_alter_eq. by apply list_alter_ext.
Qed.

Lemma C1_writeCallback_witness :
  fst (fst (fst (writeCallback five_bytes worker_0 scheduler_0_9 disk_0_9))) = 5.
Proof.
  assert (m_tempFile worker_0 = Some part0) as Hfile by reflexivity.
  assert (m_currentSegment worker_0 = Some 0%nat) as Hseg by reflexivity.
  assert (Z.of_nat (length five_bytes) < 2 ^ 63) as Hlen by (vm_compute; reflexivity).
  assert (Z.of_nat (length five_bytes) ≤ fs_room disk_0_9) as Hroom
    by (vm_compute; discriminate).
  exact (proj1 (proj1 (C1_writeCallback_writes_whole_buffer five_bytes worker_0
                         scheduler_0_9 disk_0_9 part0 0 Hfile Hseg Hlen) Hroom)).
Defined.

(** C2, as stated: worker 0 holds the only segment of a 2 MiB download and has
    fetched 1000000 bytes when worker 1 steals; the split shrinks the end of
    worker 0's segment to 1548575.  The next 600000 bytes the server sends
    worker 0 move its position to 1600000, beyond [end + 1].  The same on the
    segment [[0, 9]] at byte 8 that receives 5 bytes. *)
Lemma C2_position_exceeds_end_after_split :
  (∃ sg, m_segments after_steal !! 0%nat = Some sg
         ∧ position_inv sg ∧ m_endByte sg = 1548575)
  ∧ (∃ sg, m_segments (snd (fst after_more_data)) !! 0%nat = Some sg
           ∧ m_endByte sg = 1548575 ∧ m_currentByte sg = 1600000
           ∧ ¬ position_inv sg)
  ∧ (∃ sg, m_segments
             (snd (fst (writeCallback five_bytes worker_0 scheduler_0_9 disk_0_9)))
             !! 0%nat = Some sg
           ∧ position_inv segment_0_9_at_8 ∧ ¬ position_inv sg).
Proof.
  split; [|split].
  - exists (mkSegment 0 0 1548575 1000000 SegmentState.Active "" 0 NoMessage).
    split; [by vm_compute|]. unfold position_inv, lower_bound, upper_bound. simpl. lia.
  - exists (mkSegment 0 0 1548575 1600000 SegmentState.Active "" 0 NoMessage).
    split; [by vm_compute|]. unfold position_inv, lower_bound, upper_bound. simpl. lia.
  - exists (mkSegment 0 0 9 13 SegmentState.Active part0 0 NoMessage).
    split; [by vm_compute|]. unfold position_inv, lower_bound, upper_bound. simpl. lia.
Qed.

(** C2, amended.  The segments [initializeSegments] makes for a size that is
    known ([0 <= total_size]) have [start <= current_byte <= end + 1], and a
    split keeps both bounds for the donor and for the new segment.  The
    segments a task starts with all have [start <= current_byte]; they all
    have [current_byte <= end + 1] exactly when the size of the task is
    known: a task of unknown size (a negative [total_size], the -1 of a new
    task) starts with the one segment [[0, total_size - 1]], whose position
    0 is beyond [end + 1].  An advance of the position by the write callback
    keeps [start <= current_byte]; it keeps [current_byte <= end + 1]
    exactly when the buffer is no longer than the bytes that remain in the
    segment. *)
Theorem C2_position_bounds
    (data : bytes) (w : SegmentWorker) (sch : Scheduler) (fs : FileSystem)
    (file : string) (h : nat) (sg : Segment) :
  m_tempFile w = Some file →
  m_currentSegment w = Some h →
  m_segments sch !! h = Some sg →
  Z.of_nat (length data) ≤ fs_room fs →
  position_inv sg →
  0 ≤ m_startByte sg →
  m_currentByte sg + Z.of_nat (length data) < 2 ^ 63 →
  (∃ sg', m_segments (snd (fst (writeCallback data w sch fs))) !! h = Some sg'
          ∧ m_startByte sg' = m_startByte sg ∧ m_endByte sg' = m_endByte sg
          ∧ m_currentByte sg' = m_currentByte sg + Z.of_nat (length data)
          ∧ lower_bound sg'
          ∧ (upper_bound sg' ↔ Z.of_nat (length data) ≤ remainingBytes sg))
  ∧ (∀ newId x donor' newSegment,
       position_inv x → split newId x = Some (donor', newSegment) →
       position_inv donor' ∧ position_inv newSegment)
  ∧ (∀ total count s0 k x,
       0 ≤ total < 2 ^ 63 →
       m_segments (snd (initializeSegments total count s0)) !! k = Some x →
       position_inv x)
  ∧ (∀ t : DownloadTask,
       - 2 ^ 63 ≤ m_totalSize t < 2 ^ 63 →
       let made := m_segments (m_scheduler (task_initializeSegments t)) in
       Forall lower_bound made
       ∧ (Forall upper_bound made ↔ 0 ≤ m_totalSize t)
       ∧ (m_totalSize t < 0 →
            made = [Segment_new 0 0 (m_totalSize t - 1)]
            ∧ ¬ position_inv (Segment_new 0 0 (m_totalSize t - 1))))
  ∧ (∀ id url destDir fileName maxThreadCount,
       m_totalSize (DownloadTask_new id url destDir fileName maxThreadCount) = -1).
Proof.
  intros Hfile Hseg Hsg Hroom [Hlow Hup] Hstart Hlen. unfold lower_bound, upper_bound in *.
  split; [|split; [|split; [|split; [|done]]]].
  - rewrite (writeCallback_ok data w sch fs file) by (done || lia).
    rewrite Hseg. simpl. rewrite list_lookup_alter_eq, Hsg. simpl.
    eexists. split; [done|]. unfold lower_bound, upper_bound, remainingBytes. simpl.
    rewrite to_int64_small by lia. repeat split; lia.
  - intros newId x donor' new [Hxl Hxu] Hsplit.
    destruct (split_coverage newId SegmentState.Pending _ _ _ 0 Hxl Hsplit)
      as (_ & _ & ? & Hnl & ? & Hnu).
    by repeat split.
  - intros total count s0 k x Ht Hk. by eapply initializeSegments_position.
  - intros t Hrange. cbv zeta.
    destruct (task_initializeSegments_tiles t Hrange) as (_ & _ & _ & Hlower).
    split; [exact Hlower|].
    destruct (task_initializeSegments_cases t) as [Hone | [Hranges Hsize]].
    + rewrite task_initializeSegments_single by done.
      split.
      * rewrite Forall_singleton. unfold upper_bound. simpl. lia.
      * intros Hneg. split; [done|]. intros [_ Hupper].
        unfold upper_bound in Hupper. simpl in Hupper. lia.
    + rewrite task_initializeSegments_many by done.
      split; [|lia]. split; [lia|]. intros _. apply Forall_lookup. intros k x Hk.
      eapply (initializeSegments_position (m_totalSize t)); [lia|exact Hk].
Qed.

Lemma C2_position_bounds_witness :
  ∃ sg', m_segments
           (snd (fst (writeCallback [Byte.x61] worker_0 scheduler_0_9 disk_0_9)))
           !! 0%nat = Some sg'
         ∧ m_currentByte sg' = 9
         ∧ upper_bound sg'.
Proof.
  assert (m_tempFile worker_0 = Some part0) as Hfile by reflexivity.
  assert (m_currentSegment worker_0 = Some 0%nat) as Hseg by reflexivity.
  assert (m_segments scheduler_0_9 !! 0%nat = Some segment_0_9_at_8) as Hsg
    by reflexivity.
  assert (Z.of_nat (length [Byte.x61]) ≤ fs_room disk_0_9) as Hroom
    by (vm_compute; discriminate).
  assert (position_inv segment_0_9_at_8) as Hinv
    by (split; vm_compute; discriminate).
  assert (0 ≤ m_startByte segment_0_9_at_8) as Hstart by (vm_compute; discriminate).
  assert (m_currentByte segment_0_9_at_8 + Z.of_nat (length [Byte.x61]) < 2 ^ 63)
    as Hlen by (vm_compute; reflexivity).
  destruct (proj1 (C2_position_bounds [Byte.x61] worker_0 scheduler_0_9 disk_0_9 part0
                     0 segment_0_9_at_8 Hfile Hseg Hsg Hroom Hinv Hstart Hlen))
    as (sg' & Hlook & _ & _ & Hcur & _ & Hiff).
  exists sg'. split; [exact Hlook|]. split; [exact Hcur|].
  apply Hiff. vm_compute. discriminate.
Defined.


(* ===================================================================== *)
(** * Failures, retries and the classification of errors *)
(* ===================================================================== *)

(** Where [releaseSegment] puts a Failed segment: back to the end of the
    pending queue as Pending while [retry_count < MAX_RETRIES], into the
    failed set with a [segmentFailed] signal otherwise. *)
Lemma releaseSegment_failed worker h sg s :
  m_segments s !! h = Some sg →
  m_state sg = SegmentState.Failed →
  let s' := releaseSegment worker (Some h) s in
  (m_retryCount sg < Constants.MAX_RETRIES →
     m_segments s' !! h = Some (setState SegmentState.Pending sg)
     ∧ m_pendingQueue s' = m_pendingQueue s ++ [h]
     ∧ m_failedSegments s' = m_failedSegments s
     ∧ m_signals s' = m_signals s)
  ∧ (Constants.MAX_RETRIES ≤ m_retryCount sg →
     m_segments s' = m_segments s
     ∧ m_pendingQueue s' = m_pendingQueue s
     ∧ m_failedSegments s' = {[h]} ∪ m_failedSegments s
     ∧ m_signals s' = m_signals s ++ [segmentFailed (m_id sg) (m_lastError sg)]
     ∧ hasFailed s' = true).
Proof.
  intros Hsg Hst. cbv zeta. unfold releaseSegment. simpl. rewrite Hsg, Hst.
  unfold canRetry. split; intros Hretry.
  - rewrite (proj2 (Z.ltb_lt _ _)) by done. simpl.
    rewrite list_lookup_alter_eq, Hsg. done.
  - rewrite (proj2 (Z.ltb_ge _ _)) by done. simpl.
    repeat split; try done. unfold hasFailed. simpl.
    rewrite bool_decide_eq_false_2; [done|]. set_solver.
Qed.

(** The task fails when the scheduler has a failed segment. *)
Lemma onSegmentFailed_fails_task id error t :
  hasFailed (m_scheduler t) = true →
  task_state (onSegmentFailed id error t) = DownloadState.Failed
  ∧ category (task_lastError (onSegmentFailed id error t)) = ErrorCategory.Network.
Proof.
  intros Hf. unfold onSegmentFailed. rewrite Hf. unfold task_setState.
  by case_bool_decide.
Qed.

(** ** The retry counts along a worker's run *)

Lemma retries_kept_refl s : retries_kept s s.
Proof. exists 0%nat. by rewrite app_nil_r. Qed.

Lemma retries_kept_trans s1 s2 s3 :
  retries_kept s1 s2 → retries_kept s2 s3 → retries_kept s1 s3.
Proof.
  intros [k1 H1] [k2 H2]. exists (k1 + k2)%nat.
  by rewrite H2, H1, <- app_assoc, replicate_add.
Qed.

Lemma retries_kept_eq s s' : m_segments s' = m_segments s → retries_kept s s'.
Proof. intros H. exists 0%nat. unfold retry_counts. by rewrite H, app_nil_r. Qed.

Lemma retries_kept_on_segment h f s :
  (∀ x, m_retryCount (f x) = m_retryCount x) →
  retries_kept s (on_segment h f s).
Proof.
  intros Hf. exists 0%nat. unfold retry_counts, on_segment. cbn [m_segments with_segments].
  rewrite app_nil_r. rewrite (list_fmap_alter m_retryCount f id).
  - by rewrite list_alter_id.
  - apply Forall_forall. intros x _. by rewrite Hf.
Qed.

Lemma retries_kept_stealWork worker s : retries_kept s (snd (stealWork worker s)).
Proof.
  destruct (m_paused s || m_cancelled s) eqn:Hflags.
  { unfold stealWork. rewrite Hflags. apply retries_kept_refl. }
  destruct (findLargestActiveSegment s) as [d|] eqn:Hd.
  - destruct (findLargestActiveSegment_Some _ _ Hd) as (_ & donor & Hdonor & _).
    rewrite (stealWork_split worker s d donor) by done.
    exists 1%nat. unfold retry_counts. cbn [snd m_segments].
    rewrite fmap_app, list_fmap_insert. cbn.
    by rewrite (list_insert_id _ _ (m_retryCount donor)) by (by rewrite list_lookup_fmap, Hdonor).
  - unfold stealWork. rewrite Hflags, Hd. apply retries_kept_refl.
Qed.

Lemma retries_kept_acquireSegment worker s :
  retries_kept s (snd (acquireSegment worker s)).
Proof.
  unfold acquireSegment. destruct (m_paused s || m_cancelled s); [apply retries_kept_refl|].
  destruct (m_pendingQueue s) as [|h q]; [apply retries_kept_stealWork|].
  cbn [snd]. eapply retries_kept_trans; [|by apply retries_kept_eq].
  eapply retries_kept_trans; [|by apply (retries_kept_on_segment h)].
  by apply retries_kept_eq.
Qed.

Lemma retries_kept_checkAllComplete s : retries_kept s (checkAllComplete s).
Proof. unfold checkAllComplete. destruct (isAllComplete s); by apply retries_kept_eq. Qed.

Lemma retries_kept_releaseSegment worker segment s :
  retries_kept s (releaseSegment worker segment s).
Proof.
  destruct segment as [h|]; [|apply retries_kept_refl]. unfold releaseSegment.
  set (s2 := with_workerAssignments _ _).
  assert (retries_kept s s2) as H2 by (by apply retries_kept_eq).
  eapply retries_kept_trans; [exact H2|].
  destruct (m_segments s2 !! h) as [sg|]; [|apply retries_kept_refl].
  destruct (m_state sg).
  - eapply retries_kept_trans; [|by apply retries_kept_eq].
    eapply retries_kept_trans; [|by apply (retries_kept_on_segment h)].
    apply retries_kept_refl.
  - eapply retries_kept_trans; [|by apply retries_kept_eq].
    eapply retries_kept_trans; [|by apply (retries_kept_on_segment h)].
    apply retries_kept_refl.
  - by apply retries_kept_eq.
  - eapply retries_kept_trans; [|apply retries_kept_checkAllComplete].
    by apply retries_kept_eq.
  - destruct (canRetry sg).
    + eapply retries_kept_trans; [|by apply retries_kept_eq].
      eapply retries_kept_trans; [|by apply (retries_kept_on_segment h)].
      apply retries_kept_refl.
    + by apply retries_kept_eq.
  - eapply retries_kept_trans; [|by apply retries_kept_eq].
    eapply retries_kept_trans; [|by apply (retries_kept_on_segment h)].
    apply retries_kept_refl.
Qed.

Lemma retries_kept_writeCallback data w s fs :
  retries_kept s (snd (fst (writeCallback data w s fs))).
Proof.
  unfold writeCallback. destruct (m_tempFile w); [|apply retries_kept_refl].
  destruct (QFile_write _ _ _) as [written fs1].
  case_bool_decide; [apply retries_kept_refl|]. cbn [fst snd].
  destruct (m_currentSegment w); [|apply retries_kept_refl].
  by apply retries_kept_on_segment.
Qed.

Lemma retries_kept_curl_easy_perform events final w s fs :
  retries_kept s (snd (fst (curl_easy_perform events final w s fs))).
Proof.
  revert w s fs. induction events as [|ev events IH]; intros w s fs; cbn [curl_easy_perform].
  - case_bool_decide; apply retries_kept_refl.
  - destruct ev as [data| |]; [|apply IH..].
    case_bool_decide; [|apply retries_kept_refl].
    pose proof (retries_kept_writeCallback data w s fs) as Hw.
    destruct (writeCallback data w s fs) as [[[ret w1] s1] fs1]. cbn [fst snd] in Hw.
    case_bool_decide; [|done].
    eapply retries_kept_trans; [exact Hw|apply IH].
Qed.

Lemma retries_kept_openTempFile h w s fs :
  retries_kept s (snd (fst (openTempFile h w s fs))).
Proof.
  unfold openTempFile. destruct (m_segments s !! h) as [sg|]; [|apply retries_kept_refl].
  assert (retries_kept s
            (if bool_decide (m_tempFilePath sg = "")
             then on_segment h
                    (setTempFilePath
                       (if bool_decide (m_tempFilePath sg = "")
                        then temp_path (m_filePath_dir w) (m_filePath_name w) (m_id sg)
                        else m_tempFilePath sg)) s
             else s)) as H.
  { case_bool_decide; [by apply retries_kept_on_segment|apply retries_kept_refl]. }
  by destruct (QFile_open_write _ _ _).
Qed.

Lemma retries_kept_downloadSegment h tr w s fs :
  retries_kept s (snd (fst (downloadSegment h tr w s fs))).
Proof.
  unfold downloadSegment. destruct (m_curl w); [|apply retries_kept_refl]. cbn [negb].
  pose proof (retries_kept_openTempFile h w s fs) as Hopen.
  destruct (openTempFile h w s fs) as [[[opened w1] s1] fs1]. cbn [fst snd] in Hopen.
  destruct opened; cbn [negb]; [|done].
  pose proof (retries_kept_curl_easy_perform (tr_events tr) (tr_result tr) w1 s1 fs1) as Hc.
  destruct (curl_easy_perform _ _ w1 s1 fs1) as [[[result w2] s2] fs2]. cbn [fst snd] in Hc.
  assert (retries_kept s s2) as H2 by (by eapply retries_kept_trans).
  case_bool_decide.
  - destruct (bool_decide (result = CURLE_ABORTED_BY_CALLBACK) && m_shouldStop _); [done|].
    destruct (bool_decide (result = CURLE_ABORTED_BY_CALLBACK) && m_isPaused _).
    + cbn [fst snd]. eapply retries_kept_trans; [exact H2|].
      by apply retries_kept_on_segment.
    + destruct (m_segments s2 !! h); [|done]. cbn [fst snd].
      eapply retries_kept_trans; [exact H2|]. by apply retries_kept_on_segment.
  - destruct (m_segments s2 !! h) as [sg|]; [|done].
    destruct (_ <? _); [|done]. cbn [fst snd].
    eapply retries_kept_trans; [exact H2|]. by apply retries_kept_on_segment.
Qed.

(** Whatever the transfers do, a worker's run leaves every retry count as it
    was: no failure is ever counted on this path. *)
Lemma run_loop_retries_kept fuel transfers w s fs :
  retries_kept s (result_scheduler (run_loop fuel transfers w s fs)).
Proof.
  revert transfers w s fs. induction fuel as [|fuel IH]; intros transfers w s fs;
    cbn [run_loop]; [apply retries_kept_refl|].
  destruct (shouldContinue w); cbn [negb]; [|by apply retries_kept_eq].
  destruct (m_isPaused w); [apply retries_kept_refl|].
  pose proof (retries_kept_acquireSegment (worker_this w) s) as Hacq.
  destruct (acquireSegment (worker_this w) s) as [[h|] s1]; cbn [snd] in Hacq.
  - destruct transfers as [|tr transfers]; [done|].
    set (w2 := w_with_counters _ _ _).
    pose proof (retries_kept_downloadSegment h tr w2 s1 fs) as Hdl.
    destruct (downloadSegment h tr w2 s1 fs) as [[[success w3] s2] fs2].
    cbn [fst snd] in Hdl.
    set (s3 := if success then _ else s2).
    assert (retries_kept s2 s3) as H3.
    { subst s3. destruct success; [by apply retries_kept_on_segment|apply retries_kept_refl]. }
    set (w5 := if success then _ else _).
    pose proof (retries_kept_releaseSegment (worker_this w5) (Some h) s3) as Hrel.
    assert (retries_kept s (releaseSegment (worker_this w5) (Some h) s3)) as Hall.
    { eapply retries_kept_trans; [exact Hacq|]. eapply retries_kept_trans; [exact Hdl|].
      eapply retries_kept_trans; [exact H3|exact Hrel]. }
    destruct (negb success && negb (shouldContinue w5)).
    + eapply retries_kept_trans; [exact Hall|]. by apply retries_kept_eq.
    + eapply retries_kept_trans; [exact Hall|apply IH].
  - destruct (waitForWork s1); cbn [negb].
    + eapply retries_kept_trans; [exact Hacq|apply IH].
    + destruct (isAllComplete s1).
      * eapply retries_kept_trans; [exact Hacq|]. by apply retries_kept_eq.
      * eapply retries_kept_trans; [exact Hacq|apply IH].
Qed.

Lemma run_retries_kept curlInit fuel transfers w s fs :
  retries_kept s (result_scheduler (run curlInit fuel transfers w s fs)).
Proof.
  unfold run. destruct curlInit; cbn [negb]; [|apply retries_kept_refl].
  eapply retries_kept_trans; [|apply run_loop_retries_kept]. by apply retries_kept_eq.
Qed.

(** C4, the code at the failing input: the transfer of the only segment of a
    10-byte download fails six times in a row with a receive error.  Through
    [run], that is [downloadSegment] and [releaseSegment], the segment is
    back in the pending queue after the sixth failure as well, its
    [retry_count] still 0, the failed set empty and no [segmentFailed]
    emitted.  Reported through [markFailed], the sibling that counts, the
    fifth failure is the last: [retry_count] is 5, the segment is in the
    failed set and [segmentFailed] is out.  And in general a worker's run,
    whatever its transfers do, leaves every retry count as it was. *)
Theorem C4_worker_failures_never_counted
    (curlInit : bool) (fuel : nat) (transfers : list Transfer)
    (w0 : SegmentWorker) (s0 : Scheduler) (fs0 : FileSystem) :
  retries_kept s0 (result_scheduler (run curlInit fuel transfers w0 s0 fs0))
  ∧ (∃ w s fs,
     six_failures = OutOfScript w s fs
     ∧ m_segments s
       = [mkSegment 0 0 9 0 SegmentState.Pending part0 0 (NetworkErrorMsg CURLE_RECV_ERROR)]
     ∧ m_pendingQueue s = [0%nat]
     ∧ m_failedSegments s = ∅
     ∧ m_signals s = [])
  ∧ m_segments five_marked_failures
    = [mkSegment 0 0 9 0 SegmentState.Failed "" 5 (NetworkErrorMsg CURLE_RECV_ERROR)]
  ∧ m_pendingQueue five_marked_failures = []
  ∧ m_failedSegments five_marked_failures = {[0%nat]}
  ∧ m_signals five_marked_failures
    = [segmentFailed 0 (NetworkErrorMsg CURLE_RECV_ERROR)].
Proof.
  split; [apply run_retries_kept|]. split.
  - destruct six_failures as [w s fs | w s fs | w s fs] eqn:Hrun;
      try (vm_compute in Hrun; discriminate Hrun).
    exists w, s, fs. split; [done|].
    vm_compute in Hrun. injection Hrun as <- <- <-. by vm_compute.
  - by vm_compute.
Qed.

(* ===================================================================== *)
(** * Merging the temp files *)
(* ===================================================================== *)

#[global] Instance start_le_total : Total start_le.
Proof. intros a b. unfold start_le. lia. Qed.

#[global] Instance start_le_trans : Transitive start_le.
Proof. intros a b c. unfold start_le. lia. Qed.

Lemma sort_by_start_sorted segments :
  StronglySorted start_le (sort_by_start segments)
  ∧ sort_by_start segments ≡ₚ segments.
Proof.
  split; [apply StronglySorted_merge_sort; apply _ | apply merge_sort_Permutation].
Qed.

Lemma buffer_positive : (0 < Z.to_nat Constants.FILE_BUFFER_SIZE)%nat.
Proof. unfold Constants.FILE_BUFFER_SIZE. lia. Qed.

Lemma copy_loop_frame fuel (input : bytes) output fs :
  let fs' := snd (copy_loop fuel input output fs) in
  (∀ p, p ≠ output → fs_files fs' !! p = fs_files fs !! p)
  ∧ fs_denied fs' = fs_denied fs ∧ fs_bad_from fs' = fs_bad_from fs.
Proof.
  revert input fs. induction fuel as [|fuel IH]; intros input fs; [done|].
  destruct input as [|b input]; [done|].
  cbn [copy_loop].
  set (buffer := take _ (b :: input)). set (rest := drop _ (b :: input)).
  unfold QFile_write. case_bool_decide.
  - cbn [snd fs_files fs_denied fs_bad_from].
    split; [|done]. intros p Hp. by rewrite lookup_insert_ne.
  - destruct (IH rest
      (mkFileSystem (<[output := default [] (fs_files fs !! output)
                                 ++ take (Z.to_nat (Z.of_nat (length buffer)
                                                     `min` (0 `max` fs_room fs))) buffer]>
                       (fs_files fs))
         (fs_room fs - Z.of_nat (length buffer) `min` (0 `max` fs_room fs))
         (fs_denied fs) (fs_bad_from fs))) as (Hfiles & Hden & Hbad).
    split; [|done]. intros p Hp. rewrite (Hfiles p Hp).
    cbn [fs_files]. by rewrite lookup_insert_ne.
Qed.

Lemma copy_loop_ok fuel (input : bytes) output fs old :
  fs_files fs !! output = Some old →
  (length input ≤ fuel)%nat →
  Z.of_nat (length input) ≤ Z.max 0 (fs_room fs) →
  ∃ fs', copy_loop fuel input output fs = (true, fs')
         ∧ fs_files fs' !! output = Some (old ++ input)
         ∧ fs_room fs' = fs_room fs - Z.of_nat (length input).
Proof.
  revert input fs old. induction fuel as [|fuel IH]; intros input fs old Hold Hfuel Hroom.
  { destruct input; [|cbn [length] in Hfuel; lia]. exists fs. cbn [copy_loop length].
    rewrite app_nil_r. split; [done|]. split; [done|]. lia. }
  destruct input as [|b input].
  { exists fs. cbn [copy_loop length]. rewrite app_nil_r.
    split; [done|]. split; [done|]. lia. }
  cbn [copy_loop].
  set (buffer := take (Z.to_nat Constants.FILE_BUFFER_SIZE) (b :: input)).
  set (rest := drop (Z.to_nat Constants.FILE_BUFFER_SIZE) (b :: input)).
  assert (buffer ++ rest = b :: input) as Hsplit by apply take_drop.
  assert (0 < length buffer)%nat as Hpos.
  { subst buffer. rewrite length_take. pose proof buffer_positive.
    cbn [length]. lia. }
  assert (length buffer + length rest = length (b :: input))%nat as Hlen.
  { by rewrite <- length_app, Hsplit. }
  assert (Z.of_nat (length buffer) ≤ fs_room fs) as Hfit by lia.
  rewrite QFile_write_all by done.
  rewrite bool_decide_eq_false_2 by (intros H; by apply H).
  rewrite Hold. cbn [default].
  destruct (IH rest
      (mkFileSystem (<[output := old ++ buffer]> (fs_files fs))
         (fs_room fs - Z.of_nat (length buffer)) (fs_denied fs) (fs_bad_from fs))
      (old ++ buffer)) as (fs' & Hcopy & Hout & Hroom').
  - cbn [fs_files]. by rewrite lookup_insert_eq.
  - lia.
  - cbn [fs_room]. lia.
  - exists fs'. split; [done|]. split.
    + by rewrite Hout, <- app_assoc, Hsplit.
    + rewrite Hroom'. cbn [fs_room]. lia.
Qed.

Lemma copy_loop_short fuel (input : bytes) output fs :
  (length input ≤ fuel)%nat →
  Z.max 0 (fs_room fs) < Z.of_nat (length input) →
  fst (copy_loop fuel input output fs) = false.
Proof.
  revert input fs. induction fuel as [|fuel IH]; intros input fs Hfuel Hroom.
  { destruct input; cbn [length] in *; lia. }
  destruct input as [|b input]; [cbn [length] in Hroom; lia|].
  cbn [copy_loop].
  set (buffer := take (Z.to_nat Constants.FILE_BUFFER_SIZE) (b :: input)).
  set (rest := drop (Z.to_nat Constants.FILE_BUFFER_SIZE) (b :: input)).
  assert (buffer ++ rest = b :: input) as Hsplit by apply take_drop.
  assert (0 < length buffer)%nat as Hpos.
  { subst buffer. rewrite length_take. pose proof buffer_positive.
    cbn [length]. lia. }
  assert (length buffer + length rest = length (b :: input))%nat as Hlen.
  { by rewrite <- length_app, Hsplit. }
  destruct (Z.le_gt_cases (Z.of_nat (length buffer)) (fs_room fs)) as [Hfit | Hshort].
  - rewrite QFile_write_all by done.
    rewrite bool_decide_eq_false_2 by (intros H; by apply H).
    apply IH; [lia|]. cbn [fs_room]. lia.
  - pose proof (QFile_write_short output buffer fs ltac:(lia)) as Hw.
    destruct (QFile_write output buffer fs) as [written fs1]. cbn [fst] in Hw.
    by rewrite bool_decide_eq_true_2 by lia.
Qed.

Lemma QFile_open_read_frame p fs fs' :
  fs_files fs' !! p = fs_files fs !! p →
  fs_denied fs' = fs_denied fs → fs_bad_from fs' = fs_bad_from fs →
  QFile_open_read p fs' = QFile_open_read p fs.
Proof. intros Hf Hd Hb. unfold QFile_open_read. by rewrite Hf, Hd, Hb. Qed.

Lemma copy_loop_read_frame fuel (input : bytes) output fs p :
  p ≠ output →
  QFile_open_read p (snd (copy_loop fuel input output fs)) = QFile_open_read p fs.
Proof.
  intros Hp. destruct (copy_loop_frame fuel input output fs) as (Hf & Hd & Hb).
  apply QFile_open_read_frame; auto.
Qed.

(** A merge loop that gives up has removed the output file. *)
Lemma merge_loop_false_removed segments output fs :
  fst (merge_loop segments output fs) = false →
  fs_files (snd (merge_loop segments output fs)) !! output = None.
Proof.
  revert fs. induction segments as [|segment rest IH]; intros fs; cbn [merge_loop].
  - done.
  - destruct (QFile_open_read (m_tempFilePath segment) fs) as [input|].
    + destruct (copy_loop (length input) input output fs) as [[] fs1].
      * apply IH.
      * intros _. cbn [snd QFile_remove with_files fs_files]. apply lookup_delete_eq.
    + intros _. cbn [snd QFile_remove with_files fs_files]. apply lookup_delete_eq.
Qed.

Lemma merge_loop_unopenable segments output fs :
  Forall (λ segment, m_tempFilePath segment ≠ output) segments →
  Exists (λ segment, QFile_open_read (m_tempFilePath segment) fs = None) segments →
  fst (merge_loop segments output fs) = false.
Proof.
  intros Hne. revert fs. induction Hne as [|segment rest Hseg Hne IH]; intros fs Hex.
  - by apply Exists_nil in Hex.
  - cbn [merge_loop].
    destruct (QFile_open_read (m_tempFilePath segment) fs) as [input|] eqn:Hopen; [|done].
    pose proof (λ p, copy_loop_read_frame (length input) input output fs p) as Hframe.
    destruct (copy_loop (length input) input output fs) as [[] fs1]; [|done].
    cbn [snd] in *. apply IH.
    apply Exists_cons in Hex as [Hhead | Htail]; [congruence|].
    apply Exists_exists in Htail as (x & Hx & Hnone).
    apply Exists_exists. exists x. split; [done|].
    rewrite Forall_forall in Hne. by rewrite Hframe by (by apply Hne).
Qed.

Lemma readable_frame fs fs' segments output :
  Forall (λ segment, m_tempFilePath segment ≠ output) segments →
  (∀ p, p ≠ output → QFile_open_read p fs' = QFile_open_read p fs) →
  readable fs' <$> segments = readable fs <$> segments.
Proof.
  intros Hne Hframe. apply Forall_fmap_ext. eapply Forall_impl; [exact Hne|].
  cbn beta. intros x Hx. unfold readable. by rewrite Hframe.
Qed.

Lemma merge_loop_ok segments output fs acc :
  fs_files fs !! output = Some acc →
  Forall (λ segment, m_tempFilePath segment ≠ output) segments →
  Forall (λ segment, is_Some (QFile_open_read (m_tempFilePath segment) fs)) segments →
  Z.of_nat (length (concat (readable fs <$> segments))) ≤ Z.max 0 (fs_room fs) →
  ∃ fs', merge_loop segments output fs = (true, fs')
         ∧ fs_files fs' !! output = Some (acc ++ concat (readable fs <$> segments)).
Proof.
  intros Hout Hne. revert fs acc Hout.
  induction Hne as [|segment rest Hseg Hne IH]; intros fs acc Hout Hopen Hroom.
  - exists fs. cbn [merge_loop fmap list_fmap concat]. by rewrite app_nil_r.
  - apply Forall_cons in Hopen as [[input Hinput] Hopen].
    cbn [merge_loop]. rewrite Hinput.
    assert (readable fs segment = input) as Hread by (unfold readable; by rewrite Hinput).
    rewrite fmap_cons in Hroom |- *. cbn [concat] in Hroom |- *.
    rewrite Hread in Hroom |- *. rewrite length_app in Hroom.
    destruct (copy_loop_ok (length input) input output fs acc Hout ltac:(lia) ltac:(lia))
      as (fs1 & Hcopy & Hout1 & Hroom1).
    pose proof (λ p, copy_loop_read_frame (length input) input output fs p) as Hframe.
    rewrite Hcopy in Hframe |- *. cbn [snd] in Hframe.
    rewrite <- (readable_frame fs fs1 rest output Hne Hframe) in Hroom |- *.
    destruct (IH fs1 (acc ++ input) Hout1) as (fs' & Hmerge & Hout').
    + rewrite Forall_forall in Hopen, Hne |- *. intros x Hx.
      rewrite Hframe by (by apply Hne). by apply Hopen.
    + rewrite Hroom1. lia.
    + exists fs'. split; [done|]. by rewrite Hout', <- app_assoc.
Qed.

Lemma merge_loop_no_room segments output fs :
  is_Some (fs_files fs !! output) →
  Forall (λ segment, m_tempFilePath segment ≠ output) segments →
  Z.max 0 (fs_room fs) < Z.of_nat (length (concat (readable fs <$> segments))) →
  fst (merge_loop segments output fs) = false.
Proof.
  intros Hout Hne. revert fs Hout.
  induction Hne as [|segment rest Hseg Hne IH]; intros fs [acc Hout] Hroom.
  - cbn [fmap list_fmap concat length] in Hroom. lia.
  - cbn [merge_loop].
    destruct (QFile_open_read (m_tempFilePath segment) fs) as [input|] eqn:Hinput; [|done].
    assert (readable fs segment = input) as Hread by (unfold readable; by rewrite Hinput).
    rewrite fmap_cons in Hroom. cbn [concat] in Hroom.
    rewrite Hread, length_app in Hroom.
    pose proof (λ p, copy_loop_read_frame (length input) input output fs p) as Hframe.
    destruct (Z.le_gt_cases (Z.of_nat (length input)) (Z.max 0 (fs_room fs)))
      as [Hfit | Hshort].
    + destruct (copy_loop_ok (length input) input output fs acc Hout ltac:(lia) Hfit)
        as (fs1 & Hcopy & Hout1 & Hroom1).
      rewrite Hcopy in Hframe |- *. cbn [snd] in Hframe. apply IH; [by eexists|].
      rewrite (readable_frame fs fs1 rest output Hne Hframe). lia.
    + pose proof (copy_loop_short (length input) input output fs ltac:(lia) Hshort) as Hc.
      destruct (copy_loop (length input) input output fs) as [ok fs1]. cbn [fst] in Hc.
      by rewrite Hc.
Qed.

(** Opening the output for writing leaves an empty file there and the other
    files as they were. *)
Lemma QFile_open_write_truncate output fs :
  output ∉ fs_denied fs →
  ∃ fs1, QFile_open_write output false fs = Some fs1
         ∧ fs_files fs1 !! output = Some []
         ∧ fs_room fs1 = fs_room fs
         ∧ ∀ p, p ≠ output → QFile_open_read p fs1 = QFile_open_read p fs.
Proof.
  intros Hok. unfold QFile_open_write. rewrite bool_decide_eq_false_2 by done.
  eexists. split; [done|]. cbn [with_files fs_files fs_room].
  split; [by rewrite lookup_insert_eq|]. split; [done|].
  intros p Hp. apply QFile_open_read_frame; [|done..].
  cbn [with_files fs_files]. by rewrite lookup_insert_ne.
Qed.

Lemma mergeSegments_denied t fs :
  m_filePath t ∈ fs_denied fs → mergeSegments t fs = (false, fs).
Proof.
  intros Hden. unfold mergeSegments, QFile_open_write.
  by rewrite bool_decide_eq_true_2.
Qed.

Lemma sorted_paths t :
  Forall (λ segment, m_tempFilePath segment ≠ m_filePath t) (m_segments (m_scheduler t)) →
  Forall (λ segment, m_tempFilePath segment ≠ m_filePath t)
         (sort_by_start (m_segments (m_scheduler t))).
Proof.
  intros H. by rewrite (proj2 (sort_by_start_sorted _)).
Qed.

Lemma mergeSegments_ok t fs :
  m_filePath t ∉ fs_denied fs →
  Forall (λ segment, m_tempFilePath segment ≠ m_filePath t) (m_segments (m_scheduler t)) →
  Forall (λ segment, is_Some (QFile_open_read (m_tempFilePath segment) fs))
         (m_segments (m_scheduler t)) →
  Z.of_nat (length (merged_content t fs)) ≤ Z.max 0 (fs_room fs) →
  ∃ fs', mergeSegments t fs = (true, fs')
         ∧ fs_files fs' !! m_filePath t = Some (merged_content t fs).
Proof.
  intros Hden Hne Hopen Hroom. unfold mergeSegments, merged_content in *.
  destruct (QFile_open_write_truncate _ _ Hden) as (fs1 & -> & Hout & Hroom1 & Hframe).
  apply sorted_paths in Hne.
  rewrite <- (readable_frame fs fs1 _ _ Hne Hframe) in Hroom |- *.
  destruct (merge_loop_ok (sort_by_start (m_segments (m_scheduler t))) (m_filePath t)
              fs1 [] Hout Hne) as (fs' & Hmerge & Hout').
  - rewrite Forall_forall in Hne |- *. intros x Hx.
    rewrite Hframe by (by apply Hne).
    rewrite Forall_forall in Hopen. apply Hopen.
    by rewrite <- (proj2 (sort_by_start_sorted _)).
  - by rewrite Hroom1.
  - exists fs'. split; [done|]. by rewrite Hout'.
Qed.

Lemma mergeSegments_unopenable t fs :
  m_filePath t ∉ fs_denied fs →
  Forall (λ segment, m_tempFilePath segment ≠ m_filePath t) (m_segments (m_scheduler t)) →
  Exists (λ segment, QFile_open_read (m_tempFilePath segment) fs = None)
         (m_segments (m_scheduler t)) →
  fst (mergeSegments t fs) = false.
Proof.
  intros Hden Hne Hex. unfold mergeSegments.
  destruct (QFile_open_write_truncate _ _ Hden) as (fs1 & -> & Hout & Hroom1 & Hframe).
  apply merge_loop_unopenable; [by apply sorted_paths|].
  apply Exists_exists in Hex as (x & Hx & Hnone).
  apply Exists_exists. exists x. split.
  - by rewrite (proj2 (sort_by_start_sorted _)).
  - rewrite Forall_forall in Hne. by rewrite Hframe by (by apply Hne).
Qed.

Lemma mergeSegments_no_room t fs :
  m_filePath t ∉ fs_denied fs →
  Forall (λ segment, m_tempFilePath segment ≠ m_filePath t) (m_segments (m_scheduler t)) →
  Z.max 0 (fs_room fs) < Z.of_nat (length (merged_content t fs)) →
  fst (mergeSegments t fs) = false.
Proof.
  intros Hden Hne Hroom. unfold mergeSegments, merged_content in *.
  destruct (QFile_open_write_truncate _ _ Hden) as (fs1 & -> & Hout & Hroom1 & Hframe).
  apply sorted_paths in Hne.
  apply merge_loop_no_room; [by eexists|done|].
  rewrite (readable_frame fs fs1 _ _ Hne Hframe). by rewrite Hroom1.
Qed.

(** A merge that fails leaves no output file behind, unless the output could
    not even be opened, and then the disk is as it was. *)
Lemma mergeSegments_false t fs :
  fst (mergeSegments t fs) = false →
  (m_filePath t ∈ fs_denied fs ∧ snd (mergeSegments t fs) = fs)
  ∨ fs_files (snd (mergeSegments t fs)) !! m_filePath t = None.
Proof.
  destruct (decide (m_filePath t ∈ fs_denied fs)) as [Hden | Hden].
  - intros _. left. by rewrite mergeSegments_denied.
  - intros Hfalse. right. unfold mergeSegments in *.
    destruct (QFile_open_write_truncate _ _ Hden) as (fs1 & Hopen & _).
    rewrite Hopen in Hfalse |- *. by apply merge_loop_false_removed.
Qed.

Lemma onAllSegmentsCompleted_state t fs :
  let '(t', fs') := onAllSegmentsCompleted t fs in
  fs' = (if fst (mergeSegments t fs) then cleanupTempFiles t (snd (mergeSegments t fs))
         else snd (mergeSegments t fs))
  ∧ if fst (mergeSegments t fs)
    then task_state t' = DownloadState.Completed
         ∧ task_lastError t' = task_lastError t
    else task_state t' = DownloadState.Failed
         ∧ category (task_lastError t') = ErrorCategory.FileSystem
         ∧ failed (mkDownloadError ErrorCategory.FileSystem 0 MergeFailedMsg 0)
             ∈ task_signals t'.
Proof.
  unfold onAllSegmentsCompleted.
  set (t1 := t_with_progressTimer false (task_setState DownloadState.Merging t)).
  assert (mergeSegments t1 fs = mergeSegments t fs) as ->.
  { unfold mergeSegments, t1, task_setState. by case_bool_decide. }
  assert (task_lastError t1 = task_lastError t) as Herr.
  { unfold t1, task_setState. by case_bool_decide. }
  assert (∀ x, cleanupTempFiles (task_setState DownloadState.Verifying t1) x
               = cleanupTempFiles t x) as Hclean.
  { intros x. unfold cleanupTempFiles, t1, task_setState. by repeat case_bool_decide. }
  destruct (mergeSegments t fs) as [[] fs1]; cbn [negb fst snd].
  - split; [apply Hclean|]. rewrite <- Herr.
    unfold task_setState. by repeat case_bool_decide.
  - split; [done|]. unfold task_setState, setError.
    case_bool_decide; cbn; repeat split; try done; set_solver.
Qed.


Lemma mergeSegments_true_iff t fs :
  Forall (λ segment, m_tempFilePath segment ≠ m_filePath t) (m_segments (m_scheduler t)) →
  (fst (mergeSegments t fs) = true)
  ↔ ((m_filePath t ∉ fs_denied fs)
     ∧ Forall (λ segment, is_Some (QFile_open_read (m_tempFilePath segment) fs))
              (m_segments (m_scheduler t))
     ∧ Z.of_nat (length (merged_content t fs)) ≤ Z.max 0 (fs_room fs)).
Proof.
  intros Hne. split.
  - intros Htrue.
    destruct (decide (m_filePath t ∈ fs_denied fs)) as [Hden | Hden].
    { rewrite mergeSegments_denied in Htrue by done. done. }
    split; [done|].
    destruct (decide (Forall (λ segment,
                is_Some (QFile_open_read (m_tempFilePath segment) fs))
                (m_segments (m_scheduler t)))) as [Hall | Hnot].
    + split; [done|].
      destruct (Z.le_gt_cases (Z.of_nat (length (merged_content t fs)))
                  (Z.max 0 (fs_room fs))) as [Hfit | Hshort]; [done|].
      rewrite mergeSegments_no_room in Htrue by done. done.
    + apply not_Forall_Exists in Hnot; [|apply _].
      rewrite mergeSegments_unopenable in Htrue; [done..|].
      eapply Exists_impl; [exact Hnot|]. cbn beta. intros x Hx.
      by apply eq_None_not_Some.
  - intros (Hden & Hopen & Hroom).
    destruct (mergeSegments_ok t fs Hden Hne Hopen Hroom) as (fs' & -> & _). done.
Qed.

Lemma mergeSegments_content t fs :
  Forall (λ segment, m_tempFilePath segment ≠ m_filePath t) (m_segments (m_scheduler t)) →
  fst (mergeSegments t fs) = true →
  fs_files (snd (mergeSegments t fs)) !! m_filePath t = Some (merged_content t fs).
Proof.
  intros Hne Htrue. apply mergeSegments_true_iff in Htrue as (Hden & Hopen & Hroom); [|done].
  by destruct (mergeSegments_ok t fs Hden Hne Hopen Hroom) as (fs' & -> & ?).
Qed.

(** C7, as stated: reading the temp file of the first segment fails after 2
    of its 5 bytes.  The merge does not abort: it goes on with the second
    segment and reports success, the final file stays, 7 bytes long, and the
    task is Completed, not Failed. *)
Lemma C7_short_read_does_not_abort :
  let '(t', fs') := onAllSegmentsCompleted damaged_task damaged_disk in
  fst (mergeSegments damaged_task damaged_disk) = true
  ∧ readable damaged_disk (mkSegment 0 0 4 5 SegmentState.Completed part0 0 NoMessage)
    = [Byte.x61; Byte.x62]
  ∧ fs_files fs' !! "/dl/f.bin"
    = Some [Byte.x61; Byte.x62; Byte.x66; Byte.x67; Byte.x68; Byte.x69; Byte.x6a]
  ∧ task_state t' = DownloadState.Completed
  ∧ task_state t' ≠ DownloadState.Failed.
Proof. vm_compute. repeat split; try done. Qed.

(** C7, amended.  The merge copies the temp files into the final file in
    ascending order of the segments' starts, each as far as reading it
    delivers bytes.  It succeeds exactly when the final file can be opened,
    every temp file can be opened and the disk takes all the bytes; the final
    file then holds the temp files one after the other and the task goes on
    to Completed.  When a temp file cannot be opened or a write comes back
    short, the merge gives up, the final file is removed and the task is
    Failed with the category FileSystem; when the final file cannot even be
    opened, the task fails the same way and the disk is as it was.  (The temp
    files are other files than the final file.) *)
Theorem C7_merge_in_start_order_or_fail (t : DownloadTask) (fs : FileSystem) :
  Forall (λ segment, m_tempFilePath segment ≠ m_filePath t) (m_segments (m_scheduler t)) →
  let segments := m_segments (m_scheduler t) in
  let merged := fst (mergeSegments t fs) in
  let fs' := snd (mergeSegments t fs) in
  let t' := fst (onAllSegmentsCompleted t fs) in
  (StronglySorted start_le (sort_by_start segments) ∧ sort_by_start segments ≡ₚ segments)
  ∧ ((merged = true)
     ↔ ((m_filePath t ∉ fs_denied fs)
        ∧ Forall (λ segment, is_Some (QFile_open_read (m_tempFilePath segment) fs))
                 segments
        ∧ Z.of_nat (length (merged_content t fs)) ≤ Z.max 0 (fs_room fs)))
  ∧ (merged = true →
       fs_files fs' !! m_filePath t = Some (merged_content t fs)
       ∧ task_state t' = DownloadState.Completed)
  ∧ (merged = false →
       ((m_filePath t ∈ fs_denied fs ∧ fs' = fs) ∨ fs_files fs' !! m_filePath t = None)
       ∧ snd (onAllSegmentsCompleted t fs) = fs'
       ∧ task_state t' = DownloadState.Failed
       ∧ category (task_lastError t') = ErrorCategory.FileSystem).
Proof.
  intros Hne segments merged fs' t'.
  pose proof (onAllSegmentsCompleted_state t fs) as Hstate.
  subst merged fs' t' segments.
  destruct (onAllSegmentsCompleted t fs) as [t1 fs1]. cbn [fst snd].
  destruct Hstate as [Hfs Hst].
  split; [apply sort_by_start_sorted|]. split; [by apply mergeSegments_true_iff|].
  split.
  - intros Htrue. rewrite Htrue in Hst. split; [by apply mergeSegments_content|].
    by destruct Hst.
  - intros Hfalse. rewrite Hfalse in Hst, Hfs.
    split; [by apply mergeSegments_false|]. split; [done|].
    destruct Hst as (? & ? & _). done.
Qed.

Lemma C7_merge_witness :
  fs_files (snd (mergeSegments damaged_task healthy_disk)) !! m_filePath damaged_task
  = Some (merged_content damaged_task healthy_disk)
  ∧ task_state (fst (onAllSegmentsCompleted damaged_task healthy_disk))
    = DownloadState.Completed.
Proof.
  assert (Forall (λ segment, m_tempFilePath segment ≠ m_filePath damaged_task)
            (m_segments (m_scheduler damaged_task))) as Hpaths
    by (apply (bool_decide_unpack _); vm_compute; exact I).
  assert (fst (mergeSegments damaged_task healthy_disk) = true) as Hmerged
    by (vm_compute; reflexivity).
  exact (proj1 (proj2 (proj2 (C7_merge_in_start_order_or_fail damaged_task healthy_disk
                                Hpaths))) Hmerged).
Defined.

(* ===================================================================== *)
(** * Completion of a scheduler without segments *)
(* ===================================================================== *)

Lemma isAllComplete_true s :
  isAllComplete s = true
  ↔ m_pendingQueue s = [] ∧ m_activeSegments s = ∅ ∧ m_failedSegments s = ∅.
Proof.
  unfold isAllComplete. rewrite !andb_true_iff, !bool_decide_eq_true. tauto.
Qed.

Lemma no_segments_no_handles s :
  m_segments s = [] → handles_valid s →
  m_pendingQueue s = [] ∧ m_activeSegments s = ∅ ∧ m_failedSegments s = ∅.
Proof.
  intros Hsegs (Hp & Ha & Hf). rewrite Hsegs in Hp, Ha, Hf.
  split; [|split].
  - destruct (m_pendingQueue s) as [|h q]; [done|].
    destruct (Hp h) as [x Hx]; [set_solver|]. done.
  - apply set_eq. intros h. split; [|set_solver].
    intros Hh. destruct (Ha h Hh) as [x Hx]. done.
  - apply set_eq. intros h. split; [|set_solver].
    intros Hh. destruct (Hf h Hh) as [x Hx]. done.
Qed.

Lemma acquireSegment_nothing worker s :
  m_pendingQueue s = [] → m_activeSegments s = ∅ →
  acquireSegment worker s = (None, s).
Proof.
  intros Hp Ha. unfold acquireSegment. rewrite Hp.
  destruct (m_paused s || m_cancelled s); [done|].
  apply stealWork_none. intros h sg Hh. rewrite Ha in Hh. set_solver.
Qed.

(** C10.  [isAllComplete] holds exactly when the pending queue, the active
    set and the failed set are empty.  So it holds for a scheduler that has
    no segments at all: for the scheduler as constructed, after [reset], and
    after [cancelAll] when no segment had failed.  A worker that runs on such
    a scheduler (neither paused nor cancelled, the worker neither stopped nor
    paused) finds no work, its wait for work times out, it sees
    [isAllComplete] and leaves its loop in the first round: [run] ends, and
    the scheduler has no segment, no downloaded byte and no more completed
    segments than before. *)
Theorem C10_empty_scheduler_is_complete
    (w : SegmentWorker) (s : Scheduler) (fs : FileSystem)
    (fuel : nat) (transfers : list Transfer) :
  m_segments s = [] → handles_valid s →
  (isAllComplete s = true
   ↔ m_pendingQueue s = [] ∧ m_activeSegments s = ∅ ∧ m_failedSegments s = ∅)
  ∧ isAllComplete s = true
  ∧ isAllComplete Scheduler_new = true
  ∧ (∀ s0, isAllComplete (reset s0) = true)
  ∧ (∀ s0, m_failedSegments s0 = ∅ → isAllComplete (cancelAll s0) = true)
  ∧ (m_paused s = false → m_cancelled s = false →
     m_shouldStop w = false → m_isPaused w = false →
     waitForWork (registerWorker (worker_this w) s) = false
     ∧ run true (S fuel) transfers w s fs
       = Finished (w_emit w_finished (w_with_curl false (w_with_curl true w)))
           (unregisterWorker (worker_this w) (registerWorker (worker_this w) s)) fs
     ∧ m_segments (unregisterWorker (worker_this w) (registerWorker (worker_this w) s)) = []
     ∧ totalDownloadedBytes
         (unregisterWorker (worker_this w) (registerWorker (worker_this w) s)) = 0
     ∧ m_completedSegments
         (unregisterWorker (worker_this w) (registerWorker (worker_this w) s))
       = m_completedSegments s).
Proof.
  intros Hsegs Hvalid.
  destruct (no_segments_no_handles s Hsegs Hvalid) as (Hp & Ha & Hf).
  split; [apply isAllComplete_true|]. split; [by apply isAllComplete_true|].
  split; [done|]. split; [done|]. split.
  { intros s0 Hf0. by apply isAllComplete_true. }
  intros Hpaused Hcancelled Hstop Hpause.
  assert (waitForWork (registerWorker (worker_this w) s) = false) as Hwait.
  { unfold waitForWork. cbn. rewrite Hp, Ha, Hpaused, Hcancelled.
    by rewrite !bool_decide_eq_true_2. }
  split; [done|]. split.
  - unfold run. cbn [negb run_loop]. unfold shouldContinue. cbn.
    rewrite Hstop, Hpause. cbn.
    rewrite acquireSegment_nothing by done. rewrite Hwait. cbn.
    assert (isAllComplete (registerWorker (worker_this w) s) = true) as ->
      by (by apply isAllComplete_true).
    done.
  - cbn. rewrite Hsegs. done.
Qed.

Lemma C10_empty_scheduler_witness :
  isAllComplete Scheduler_new = true
  ∧ run true 1 [] (SegmentWorker_new 0 "/dl" "f.bin") Scheduler_new empty_disk
    = Finished
        (w_emit w_finished
           (w_with_curl false (w_with_curl true (SegmentWorker_new 0 "/dl" "f.bin"))))
        (unregisterWorker 0 (registerWorker 0 Scheduler_new)) empty_disk.
Proof.
  assert (m_segments Scheduler_new = []) as Hsegs by reflexivity.
  assert (handles_valid Scheduler_new) as Hvalid.
  { split; [|split]; intros h Hh.
    - by apply elem_of_nil in Hh.
    - by apply elem_of_empty in Hh.
    - by apply elem_of_empty in Hh. }
  pose proof (C10_empty_scheduler_is_complete (SegmentWorker_new 0 "/dl" "f.bin")
                Scheduler_new empty_disk 0 [] Hsegs Hvalid)
    as (_ & Hcomplete & _ & _ & _ & Hrun).
  split; [exact Hcomplete|].
  exact (proj1 (proj2 (Hrun eq_refl eq_refl eq_refl eq_refl))).
Defined.

(* ===================================================================== *)
(** * The manager: session bytes and duplicate URLs *)
(* ===================================================================== *)

Lemma session_fold tasks acc :
  foldl (λ a (e : Z * DownloadTask), a + downloadedSize (snd e)) acc tasks
  = acc + total_downloaded tasks.
Proof.
  revert acc. induction tasks as [|[id t] rest IH]; intros acc; simpl; [lia|].
  rewrite IH. lia.
Qed.

Lemma onSpeedUpdateTimer_sum m :
  m_sessionBytes (onSpeedUpdateTimer m) = total_downloaded (m_tasks m).
Proof. unfold onSpeedUpdateTimer. simpl. rewrite session_fold. lia. Qed.

Lemma total_downloaded_by_state tasks :
  total_downloaded tasks
  = total_downloaded (filter is_completed tasks)
    + total_downloaded (filter (λ e, ¬ is_completed e) tasks).
Proof.
  induction tasks as [|[id t] rest IH]; [done|].
  rewrite !filter_cons. destruct (decide (is_completed (id, t))).
  - rewrite decide_False by tauto. simpl. lia.
  - rewrite decide_True by done. simpl. lia.
Qed.

Lemma tasks_assign_elem id t tasks e :
  e ∈ tasks_assign id t tasks → e = (id, t) ∨ e ∈ tasks.
Proof.
  induction tasks as [|[k x] rest IH]; simpl.
  - intros ->%list_elem_of_singleton. by left.
  - case_bool_decide.
    + intros [-> | He]%elem_of_cons; [by left|]. right. by apply elem_of_cons; right.
    + destruct (id <? k).
      * intros [-> | He]%elem_of_cons; [by left|by right].
      * intros [-> | He]%elem_of_cons.
        -- right. by apply elem_of_cons; left.
        -- destruct (IH He) as [-> | Hin]; [by left|].
           right. by apply elem_of_cons; right.
Qed.

Lemma tasks_assign_new id t tasks : (id, t) ∈ tasks_assign id t tasks.
Proof.
  induction tasks as [|[k x] rest IH]; simpl.
  - by apply list_elem_of_singleton.
  - case_bool_decide; [by apply elem_of_cons; left|].
    destruct (id <? k); [by apply elem_of_cons; left|].
    by apply elem_of_cons; right.
Qed.

Lemma total_downloaded_zero tasks :
  (∀ e, e ∈ tasks → downloadedSize (snd e) = 0) → total_downloaded tasks = 0.
Proof.
  induction tasks as [|[id t] rest IH]; intros Hall; simpl; [done|].
  rewrite IH by (intros e He; apply Hall; by apply elem_of_cons; right).
  pose proof (Hall (id, t) ltac:(by apply elem_of_cons; left)) as Hhead.
  cbn [snd] in Hhead. lia.
Qed.

(** What [loadState] puts into the map is a task as its constructor leaves
    it: Queued, with nothing downloaded. *)
Lemma loadState_tasks saved n m e :
  e ∈ m_tasks (loadState saved n m) →
  e ∈ m_tasks m
  ∨ (downloadedSize (snd e) = 0 ∧ task_state (snd e) = DownloadState.Queued).
Proof.
  unfold loadState. destruct (m_persistence m); [|by left].
  unfold updateCounts. destruct (foldl count_step _ _) as [[a q] c]. cbn [m_tasks mgr_with_counts].
  revert m. induction saved as [|row saved IH]; intros m; cbn [foldl]; [by left|].
  intros He. destruct (IH _ He) as [Hin | Hnew]; [|by right].
  cbn [m_tasks mgr_with_tasks] in Hin.
  apply tasks_assign_elem in Hin as [-> | Hin]; [by right|by left].
Qed.

(** C8, as stated: the store holds one download, completed with 1000 bytes in
    an earlier run.  After start-up, with nothing transferred yet, the
    session bytes are 0: the loaded task is Queued with nothing downloaded,
    the 1000 bytes of the row are not counted. *)
Lemma C8_loaded_completed_task_counts_nothing :
  sessionBytesDownloaded after_start_up = 0
  ∧ ¬ 0 < sessionBytesDownloaded after_start_up
  ∧ td_downloadedSize (fst completed_row) = 1000
  ∧ (downloadedSize <$> task 7 after_start_up) = Some 0
  ∧ (task_state <$> task 7 after_start_up) = Some DownloadState.Queued.
Proof. vm_compute. repeat split; try done. Qed.

(** C8, amended.  The session bytes the timer computes are the sum of
    [downloaded_size] over all tasks of the map, the Completed ones with the
    others; nothing resets a task's counter on completion.  A task loaded
    from the store at start-up is rebuilt Queued with [downloaded_size] 0, so
    right after loading, the session bytes of a new manager are 0 whatever
    the store held. *)
Theorem C8_session_bytes_sum_over_all_tasks
    (m : DownloadManager) (saved : list (TaskData * (string * string)))
    (maxThreadCount : Z) (defaultDir : string) :
  sessionBytesDownloaded (onSpeedUpdateTimer m) = total_downloaded (m_tasks m)
  ∧ total_downloaded (m_tasks m)
    = total_downloaded (filter is_completed (m_tasks m))
      + total_downloaded (filter (λ e, ¬ is_completed e) (m_tasks m))
  ∧ (∀ e, e ∈ m_tasks (loadState saved maxThreadCount m) →
          e ∈ m_tasks m
          ∨ (downloadedSize (snd e) = 0 ∧ task_state (snd e) = DownloadState.Queued))
  ∧ sessionBytesDownloaded
      (onSpeedUpdateTimer (loadState saved maxThreadCount (DownloadManager_new defaultDir)))
    = 0.
Proof.
  split; [apply onSpeedUpdateTimer_sum|]. split; [apply total_downloaded_by_state|].
  split; [apply loadState_tasks|].
  unfold sessionBytesDownloaded. rewrite onSpeedUpdateTimer_sum.
  apply total_downloaded_zero. intros e He.
  apply loadState_tasks in He as [Hin | [Hzero _]]; [|done].
  cbn in Hin. by apply elem_of_nil in Hin.
Qed.

Lemma findByUrl_loop_Some url tasks id :
  findByUrl_loop url tasks = Some id →
  ∃ t, (id, t) ∈ tasks ∧ m_url t = url.
Proof.
  induction tasks as [|[k x] rest IH]; simpl; [done|].
  case_bool_decide as Hurl.
  - intros [= ->]. exists x. split; [by apply elem_of_cons; left|done].
  - intros Hrest. destruct (IH Hrest) as (t & Hin & Ht).
    exists t. split; [by apply elem_of_cons; right|done].
Qed.

Lemma findByUrl_loop_None url tasks :
  findByUrl_loop url tasks = None → ∀ id t, (id, t) ∈ tasks → m_url t ≠ url.
Proof.
  induction tasks as [|[k x] rest IH]; simpl.
  - intros _ id t Hin. by apply elem_of_nil in Hin.
  - case_bool_decide as Hurl; [done|].
    intros Hrest id t [[= -> ->] | Hin]%elem_of_cons; [done|]. by eapply IH.
Qed.

Lemma tasks_find_elem id tasks t : tasks_find id tasks = Some t → (id, t) ∈ tasks.
Proof.
  induction tasks as [|[k x] rest IH]; simpl; [done|].
  case_bool_decide as Hk.
  - intros [= ->]. subst k. by apply elem_of_cons; left.
  - intros Hrest. apply elem_of_cons; right. by apply IH.
Qed.

Lemma start_url t : m_url (start t) = m_url t.
Proof.
  unfold start, startWorkers, probeServer, task_initializeSegments, task_setState.
  repeat case_bool_decide; try done; destruct (caps_isValid _); try done;
    repeat case_bool_decide; done.
Qed.

Lemma slots_tasks id t sigs m :
  m_tasks (foldl (slot_without_queue id t) m sigs) = m_tasks m.
Proof.
  revert m. induction sigs as [|sig sigs IH]; intros m; cbn [foldl]; [done|].
  rewrite IH. destruct sig; try done; cbn [slot_without_queue].
  - unfold updateCounts. destruct (foldl count_step _ _) as [[a q] c].
    by destruct newState.
  - unfold saveTask. by destruct (m_persistence m).
Qed.

Lemma start_task_tasks id m e :
  e ∈ m_tasks (start_task id m) →
  e ∈ m_tasks m ∨ ∃ t, (id, t) ∈ m_tasks m ∧ e = (id, start t).
Proof.
  unfold start_task. destruct (tasks_find id (m_tasks m)) as [t|] eqn:Hfind; [|by left].
  rewrite slots_tasks. cbn [m_tasks mgr_with_tasks].
  intros [-> | Hin]%tasks_assign_elem; [|by left].
  right. exists t. split; [by apply tasks_find_elem|done].
Qed.

Lemma urls_valid_new defaultDir : urls_valid (DownloadManager_new defaultDir).
Proof. constructor. Qed.

Lemma urls_valid_elem m id t :
  urls_valid m → (id, t) ∈ m_tasks m → url_isValid (m_url t) = true.
Proof.
  unfold urls_valid. rewrite Forall_forall. intros Hvalid Hin. by apply (Hvalid (id, t)).
Qed.

(** [addDownload] keeps the URLs of the map valid. *)
Lemma addDownload_urls_valid url destPath startImmediately newId destDir fileName n m :
  urls_valid m →
  urls_valid (snd (addDownload url destPath startImmediately newId destDir fileName n m)).
Proof.
  intros Hvalid. unfold addDownload.
  destruct (url_isValid url) eqn:Hurl; [|done]. cbn [negb].
  destruct (findByUrl url m); [done|]. cbn [snd].
  set (new := DownloadTask_new newId url destDir fileName n).
  assert (∀ id t, (id, t) ∈ tasks_assign (task_id new) new (m_tasks m) →
                  url_isValid (m_url t) = true) as Hassign.
  { intros id t [[= -> ->] | Hin]%tasks_assign_elem; [done|].
    by eapply urls_valid_elem. }
  set (m4 := saveTask new _).
  assert (m_tasks m4 = tasks_assign (task_id new) new (m_tasks m)) as Hm4.
  { unfold m4, saveTask, updateCounts.
    destruct (foldl count_step _ _) as [[a q] c]. cbn.
    by destruct (m_persistence m). }
  unfold urls_valid. apply Forall_forall. intros [id t] Hin. cbn [snd].
  destruct (startImmediately && canStartMore m4).
  - apply start_task_tasks in Hin as [Hin | (t0 & Hin & [= -> ->])].
    + rewrite Hm4 in Hin. by eapply Hassign.
    + rewrite start_url. rewrite Hm4 in Hin. by eapply Hassign.
  - rewrite Hm4 in Hin. by eapply Hassign.
Qed.

(** C9.  When the URL handed to [addDownload] is the URL of a task of the map
    (whose URLs are valid, as [addDownload] keeps them), the call returns the
    id of a task of the map with that URL, the id of that very task when no
    other has the URL, and the manager is as it was: no task is made, the map
    is unchanged, nothing is signalled or persisted.  The state of the task
    plays no part. *)
Theorem C9_addDownload_duplicate_url
    (url : QUrl) (destPath : string) (startImmediately : bool) (newId : Z)
    (destDir fileName : string) (maxThreadCount : Z) (m : DownloadManager)
    (id : Z) (t : DownloadTask) :
  urls_valid m →
  (id, t) ∈ m_tasks m →
  m_url t = url →
  ∃ existing t',
    addDownload url destPath startImmediately newId destDir fileName maxThreadCount m
    = (existing, m)
    ∧ (existing, t') ∈ m_tasks m
    ∧ m_url t' = url
    ∧ ((∀ id2 t2, (id2, t2) ∈ m_tasks m → m_url t2 = url → id2 = id) → existing = id).
Proof.
  intros Hvalid Hin Hurl. unfold addDownload.
  rewrite <- Hurl, (urls_valid_elem _ _ _ Hvalid Hin). cbn [negb].
  unfold findByUrl. destruct (findByUrl_loop (m_url t) (m_tasks m)) as [existing|] eqn:Hfind.
  - destruct (findByUrl_loop_Some _ _ _ Hfind) as (t' & Hin' & Hurl').
    exists existing, t'. repeat split; try done.
    intros Hunique. by eapply Hunique.
  - by destruct (findByUrl_loop_None _ _ Hfind _ _ Hin).
Qed.

Lemma C9_addDownload_witness :
  ∃ existing t',
    addDownload url1 "" true 11 "/dl" "a.iso" 4 manager_two = (existing, manager_two)
    ∧ (existing, t') ∈ m_tasks manager_two
    ∧ m_url t' = url1.
Proof.
  assert (urls_valid manager_two) as Hvalid
    by (apply (bool_decide_unpack _); vm_compute; exact I).
  assert ((7, task_done) ∈ m_tasks manager_two) as Hin
    by (apply elem_of_cons; left; reflexivity).
  assert (m_url task_done = url1) as Hurl by reflexivity.
  destruct (C9_addDownload_duplicate_url url1 "" true 11 "/dl" "a.iso" 4 manager_two
              7 task_done Hvalid Hin Hurl) as (existing & t' & Hadd & Hin' & Hurl' & _).
  exists existing, t'. split; [exact Hadd|]. split; [exact Hin'|exact Hurl'].
Defined.

(* ===================================================================== *)
(** * The collections of the scheduler *)
(* ===================================================================== *)

Lemma accounted_initializeSegments total count s :
  accounted (snd (initializeSegments total count s)).
Proof.
  unfold accounted, initializeSegments. cbn [snd m_pendingQueue m_activeSegments
    m_completedSegments m_failedSegments m_segments].
  split; [apply NoDup_seq|].
  split; [intros h _; repeat split; apply not_elem_of_empty|].
  do 3 (split; [apply disjoint_empty_l|]).
  intros h. rewrite elem_of_seq. split; [intros ?; left; lia|].
  intros [?|[[]%not_elem_of_empty|[[]%not_elem_of_empty|[]%not_elem_of_empty]]]. lia.
Qed.

Lemma accounted_fresh s h :
  accounted s → h = length (m_segments s) →
  (h ∉ m_pendingQueue s) ∧ (h ∉ m_activeSegments s)
  ∧ (h ∉ m_completedSegments s) ∧ (h ∉ m_failedSegments s).
Proof.
  intros (_ & _ & _ & _ & _ & Hall) ->.
  repeat split; intros Hin;
    assert (length (m_segments s) < length (m_segments s))%nat
      by (apply Hall; tauto); lia.
Qed.

Lemma accounted_stealWork worker s :
  accounted s → accounted (snd (stealWork worker s)).
Proof.
  intros Hinv. destruct (m_paused s || m_cancelled s) eqn:Hflags.
  { unfold stealWork. by rewrite Hflags. }
  destruct (findLargestActiveSegment s) as [d|] eqn:Hd.
  - destruct (findLargestActiveSegment_Some _ _ Hd) as (_ & donor & Hdonor & _).
    rewrite (stealWork_split worker s d donor) by done.
    destruct (accounted_fresh s _ Hinv eq_refl) as (Hn1 & Hn2 & Hn3 & Hn4).
    destruct Hinv as (Hnd & Hp & Hac & Haf & Hcf & Hall).
    unfold accounted. cbn [snd m_pendingQueue m_activeSegments
      m_completedSegments m_failedSegments m_segments].
    split; [done|]. split.
    { intros h Hh. destruct (Hp h Hh) as (? & ? & ?). repeat split; try done.
      intros [->%elem_of_singleton|]%elem_of_union; done. }
    split. { apply disjoint_union_l. split; [by apply disjoint_singleton_l|done]. }
    split. { apply disjoint_union_l. split; [by apply disjoint_singleton_l|done]. }
    split; [done|].
    intros h. rewrite length_app, length_insert. cbn [length].
    rewrite elem_of_union, elem_of_singleton. specialize (Hall h).
    split.
    + intros Hlt. destruct (decide (h = length (m_segments s))); [tauto|].
      assert (h < length (m_segments s))%nat as Hh by lia. apply Hall in Hh. tauto.
    + intros [H|[[->|H]|[H|H]]]; try lia;
        (assert (h < length (m_segments s))%nat by (apply Hall; tauto); lia).
  - unfold stealWork. by rewrite Hflags, Hd.
Qed.

Lemma accounted_acquireSegment worker s :
  accounted s → accounted (snd (acquireSegment worker s)).
Proof.
  intros Hinv. unfold acquireSegment.
  destruct (m_paused s || m_cancelled s); [done|].
  destruct (m_pendingQueue s) as [|h q] eqn:Hq; [by apply accounted_stealWork|].
  destruct Hinv as (Hnd & Hp & Hac & Haf & Hcf & Hall). rewrite Hq in *.
  apply NoDup_cons in Hnd as [Hhq Hnd].
  destruct (Hp h) as (Hh1 & Hh2 & Hh3); [left|].
  unfold accounted, on_segment. cbn [snd m_pendingQueue m_activeSegments
    m_completedSegments m_failedSegments m_segments with_segments with_pendingQueue
    with_activeSegments with_workerAssignments].
  split; [done|]. split.
  { intros h' Hh'. destruct (Hp h') as (? & ? & ?); [by right|].
    repeat split; try done.
    intros [->%elem_of_singleton|]%elem_of_union; done. }
  split. { apply disjoint_union_l. split; [by apply disjoint_singleton_l|done]. }
  split. { apply disjoint_union_l. split; [by apply disjoint_singleton_l|done]. }
  split; [done|].
  intros h'. rewrite length_alter, (Hall h'), elem_of_cons, elem_of_union, elem_of_singleton.
  tauto.
Qed.

Lemma accounted_on_segment h f s : accounted s → accounted (on_segment h f s).
Proof.
  intros (Hnd & Hp & Hac & Haf & Hcf & Hall). unfold accounted, on_segment.
  cbn [m_pendingQueue m_activeSegments m_completedSegments m_failedSegments m_segments
       with_segments].
  repeat (split; [done|]). intros h'. by rewrite length_alter.
Qed.

(** What [releaseSegment] does with the collections, by the state of the
    segment. *)
Lemma accounted_move s s' h :
  accounted s → h ∈ m_activeSegments s →
  length (m_segments s') = length (m_segments s) →
  m_activeSegments s' = m_activeSegments s ∖ {[h]} →
  (m_pendingQueue s' = m_pendingQueue s ++ [h] ∨ m_pendingQueue s' = h :: m_pendingQueue s)
  ∧ m_completedSegments s' = m_completedSegments s
  ∧ m_failedSegments s' = m_failedSegments s
  ∨ m_pendingQueue s' = m_pendingQueue s
    ∧ m_completedSegments s' = {[h]} ∪ m_completedSegments s
    ∧ m_failedSegments s' = m_failedSegments s
  ∨ m_pendingQueue s' = m_pendingQueue s
    ∧ m_completedSegments s' = m_completedSegments s
    ∧ m_failedSegments s' = {[h]} ∪ m_failedSegments s →
  accounted s'.
Proof.
  intros (Hnd & Hp & Hac & Haf & Hcf & Hall) Hh Hlen Hact Hcases.
  assert (h ∉ m_pendingQueue s) as Hhp by (intros Hin; by destruct (Hp h Hin)).
  assert (h ∉ m_completedSegments s) as Hhc by (intros Hin; by apply (Hac h)).
  assert (h ∉ m_failedSegments s) as Hhf by (intros Hin; by apply (Haf h)).
  unfold accounted. rewrite Hlen, Hact.
  destruct Hcases as [([Hq|Hq] & -> & ->)|[(-> & -> & ->)|(-> & -> & ->)]]; try rewrite Hq.
  - split. { apply NoDup_app. split; [done|]. split; [|apply NoDup_singleton].
             intros x Hx ->%list_elem_of_singleton. done. }
    split. { intros x [Hx| ->%list_elem_of_singleton]%elem_of_app.
             - destruct (Hp x Hx) as (? & ? & ?). repeat split; try done.
               intros [? _]%elem_of_difference. done.
             - repeat split; try done. intros [_ Hn]%elem_of_difference.
               apply Hn. by apply elem_of_singleton. }
    split. { intros x [? _]%elem_of_difference. by apply Hac. }
    split. { intros x [? _]%elem_of_difference. by apply Haf. }
    split; [done|].
    intros x. rewrite (Hall x), elem_of_app, list_elem_of_singleton, elem_of_difference,
      elem_of_singleton.
    destruct (decide (x = h)) as [->|]; tauto.
  - split. { apply NoDup_cons. done. }
    split. { intros x [->|Hx]%elem_of_cons.
             - repeat split; try done. intros [_ Hn]%elem_of_difference.
               apply Hn. by apply elem_of_singleton.
             - destruct (Hp x Hx) as (? & ? & ?). repeat split; try done.
               intros [? _]%elem_of_difference. done. }
    split. { intros x [? _]%elem_of_difference. by apply Hac. }
    split. { intros x [? _]%elem_of_difference. by apply Haf. }
    split; [done|].
    intros x. rewrite (Hall x), elem_of_cons, elem_of_difference, elem_of_singleton.
    destruct (decide (x = h)) as [->|]; tauto.
  - split; [done|].
    split. { intros x Hx. destruct (Hp x Hx) as (? & ? & ?). repeat split; try done.
             - intros [? _]%elem_of_difference. done.
             - intros [->%elem_of_singleton|]%elem_of_union; done. }
    split. { intros x [? Hn]%elem_of_difference [?|?]%elem_of_union; [done|].
             by apply (Hac x). }
    split. { intros x [? _]%elem_of_difference. by apply Haf. }
    split. { intros x [->%elem_of_singleton|?]%elem_of_union; [done|]. by apply Hcf. }
    intros x. rewrite (Hall x), elem_of_union, elem_of_difference, !elem_of_singleton.
    destruct (decide (x = h)) as [->|]; tauto.
  - split; [done|].
    split. { intros x Hx. destruct (Hp x Hx) as (? & ? & ?). repeat split; try done.
             - intros [? _]%elem_of_difference. done.
             - intros [->%elem_of_singleton|]%elem_of_union; done. }
    split. { intros x [? _]%elem_of_difference. by apply Hac. }
    split. { intros x [? Hn]%elem_of_difference [?|?]%elem_of_union; [done|].
             by apply (Haf x). }
    split. { intros x ? [->%elem_of_singleton|?]%elem_of_union; [done|]. by apply (Hcf x). }
    intros x. rewrite (Hall x), elem_of_union, elem_of_difference, !elem_of_singleton.
    destruct (decide (x = h)) as [->|]; tauto.
Qed.

Lemma accounted_releaseSegment worker h s :
  accounted s → h ∈ m_activeSegments s →
  accounted (releaseSegment worker (Some h) s).
Proof.
  intros Hinv Hh. unfold releaseSegment.
  set (s2 := with_workerAssignments _ _).
  destruct (m_segments s2 !! h) as [sg|] eqn:Hsg.
  2:{ apply lookup_ge_None in Hsg. subst s2. cbn in Hsg.
      destruct Hinv as (_ & _ & _ & _ & _ & Hall).
      assert (h < length (m_segments s))%nat by (apply Hall; tauto). lia. }
  assert (∀ s', length (m_segments s') = length (m_segments s) →
    m_activeSegments s' = m_activeSegments s ∖ {[h]} →
    (m_pendingQueue s' = m_pendingQueue s ++ [h] ∨ m_pendingQueue s' = h :: m_pendingQueue s)
    ∧ m_completedSegments s' = m_completedSegments s
    ∧ m_failedSegments s' = m_failedSegments s
    ∨ m_pendingQueue s' = m_pendingQueue s
      ∧ m_completedSegments s' = {[h]} ∪ m_completedSegments s
      ∧ m_failedSegments s' = m_failedSegments s
    ∨ m_pendingQueue s' = m_pendingQueue s
      ∧ m_completedSegments s' = m_completedSegments s
      ∧ m_failedSegments s' = {[h]} ∪ m_failedSegments s →
    accounted s') as Hgen.
  { intros s'. by apply accounted_move. }
  destruct (m_state sg).
  - apply Hgen; cbn; [by rewrite length_alter|done|]. left. eauto.
  - apply Hgen; cbn; [by rewrite length_alter|done|]. left. eauto.
  - apply Hgen; cbn; [done..|]. left. eauto.
  - unfold checkAllComplete. destruct (isAllComplete _); apply Hgen; cbn; try done;
      right; left; eauto.
  - destruct (canRetry sg).
    + apply Hgen; cbn; [by rewrite length_alter|done|]. left. eauto.
    + apply Hgen; cbn; [done..|]. right. right. eauto.
  - apply Hgen; cbn; [by rewrite length_alter|done|]. left. eauto.
Qed.

Lemma segment_worked_refl h s : segment_worked h s s.
Proof.
  repeat split; try done. exists id. split; [by rewrite list_alter_id|].
  intros x. by left.
Qed.

Lemma segment_worked_trans h s1 s2 s3 :
  segment_worked h s1 s2 → segment_worked h s2 s3 → segment_worked h s1 s3.
Proof.
  intros (? & ? & ? & ? & ? & ? & f & Hf & Hst) (? & ? & ? & ? & ? & ? & g & Hg & Hst').
  unfold segment_worked. repeat (split; [congruence|]). exists (g ∘ f). split.
  - by rewrite Hg, Hf, list_alter_alter_eq.
  - intros x. simpl. destruct (Hst x) as [Hx|[Hx|Hx]], (Hst' (f x)) as [Hx'|[Hx'|Hx']];
      unfold kept_or_stopped; rewrite ?Hx', ?Hx; tauto.
Qed.

Lemma segment_worked_on_segment h f s :
  (∀ x, kept_or_stopped (m_state x) (m_state (f x))) →
  segment_worked h s (on_segment h f s).
Proof. intros Hf. repeat split; try done. by exists f. Qed.

Lemma segment_worked_writeCallback data w s fs h :
  m_currentSegment w = Some h →
  segment_worked h s (snd (fst (writeCallback data w s fs)))
  ∧ m_currentSegment (snd (fst (fst (writeCallback data w s fs)))) = Some h
  ∧ m_shouldStop (snd (fst (fst (writeCallback data w s fs)))) = m_shouldStop w.
Proof.
  intros Hh. unfold writeCallback.
  destruct (m_tempFile w); [|split; [apply segment_worked_refl|done]].
  destruct (QFile_write _ _ _) as [written fs1].
  case_bool_decide; [split; [apply segment_worked_refl|done]|]. cbn [fst snd].
  rewrite Hh. split; [|done]. apply segment_worked_on_segment. intros x. by left.
Qed.

Lemma segment_worked_curl_easy_perform events final w s fs h :
  m_currentSegment w = Some h →
  segment_worked h s (snd (fst (curl_easy_perform events final w s fs))).
Proof.
  revert w s fs. induction events as [|ev events IH]; intros w s fs Hh;
    cbn [curl_easy_perform].
  - case_bool_decide; apply segment_worked_refl.
  - destruct ev as [data| |]; [|by apply IH..].
    case_bool_decide; [|apply segment_worked_refl].
    destruct (segment_worked_writeCallback data w s fs h Hh) as (Hw & Hcur & _).
    destruct (writeCallback data w s fs) as [[[ret w1] s1] fs1]. cbn [fst snd] in *.
    case_bool_decide; [|done].
    eapply segment_worked_trans; [exact Hw|by apply IH].
Qed.

Lemma segment_worked_openTempFile h w s fs :
  segment_worked h s (snd (fst (openTempFile h w s fs)))
  ∧ m_currentSegment (snd (fst (fst (openTempFile h w s fs)))) = m_currentSegment w.
Proof.
  unfold openTempFile.
  destruct (m_segments s !! h) as [sg|]; [|split; [apply segment_worked_refl|done]].
  assert (segment_worked h s
            (if bool_decide (m_tempFilePath sg = "")
             then on_segment h
                    (setTempFilePath
                       (if bool_decide (m_tempFilePath sg = "")
                        then temp_path (m_filePath_dir w) (m_filePath_name w) (m_id sg)
                        else m_tempFilePath sg)) s
             else s)) as H.
  { case_bool_decide; [|apply segment_worked_refl].
    apply segment_worked_on_segment. intros x. by left. }
  by destruct (QFile_open_write _ _ _).
Qed.

(** [downloadSegment] works on its segment only, and reports success only
    for a segment whose position is past its end. *)
Lemma segment_worked_downloadSegment h tr w s fs :
  m_currentSegment w = Some h →
  let r := downloadSegment h tr w s fs in
  segment_worked h s (snd (fst r))
  ∧ (fst (fst (fst r)) = true →
     ∃ sg, m_segments (snd (fst r)) !! h = Some sg ∧ remainingBytes sg ≤ 0).
Proof.
  intros Hh. cbv zeta. unfold downloadSegment.
  destruct (m_curl w); cbn [negb]; [|split; [apply segment_worked_refl|done]].
  destruct (segment_worked_openTempFile h w s fs) as [Hopen Hcur]. rewrite Hh in Hcur.
  destruct (openTempFile h w s fs) as [[[opened w1] s1] fs1]. cbn [fst snd] in *.
  destruct opened; cbn [negb]; [|done].
  pose proof (segment_worked_curl_easy_perform (tr_events tr) (tr_result tr) w1 s1 fs1 h Hcur)
    as Hc.
  destruct (curl_easy_perform _ _ w1 s1 fs1) as [[[result w2] s2] fs2]. cbn [fst snd] in Hc.
  assert (segment_worked h s s2) as H2 by (by eapply segment_worked_trans).
  case_bool_decide.
  - destruct (bool_decide (result = CURLE_ABORTED_BY_CALLBACK) && m_shouldStop _); [done|].
    destruct (bool_decide (result = CURLE_ABORTED_BY_CALLBACK) && m_isPaused _).
    + cbn [fst snd]. split; [|done]. eapply segment_worked_trans; [exact H2|].
      apply segment_worked_on_segment. intros x. right. by left.
    + destruct (m_segments s2 !! h); [|done]. cbn [fst snd]. split; [|done].
      eapply segment_worked_trans; [exact H2|].
      apply segment_worked_on_segment. intros x. right. by right.
  - destruct (m_segments s2 !! h) as [sg|] eqn:Hsg; [|done].
    destruct (Z.ltb_spec (downloadedBytes sg) (m_endByte sg - m_startByte sg + 1)).
    + cbn [fst snd]. split; [|done]. eapply segment_worked_trans; [exact H2|].
      apply segment_worked_on_segment. intros x. right. by right.
    + cbn [fst snd]. split; [done|]. intros _. exists sg. split; [done|].
      unfold downloadedBytes, remainingBytes in *. lia.
Qed.

Lemma segment_worked_lookup h s s' sg :
  segment_worked h s s' → m_segments s !! h = Some sg →
  ∃ sg', m_segments s' !! h = Some sg' ∧ kept_or_stopped (m_state sg) (m_state sg').
Proof.
  intros (_ & _ & _ & _ & _ & _ & f & Hf & Hst) Hsg.
  exists (f sg). rewrite Hf, list_lookup_alter_eq, Hsg. done.
Qed.

Lemma segment_worked_inv h s s' :
  accounted s → completed_done s → h ∈ m_activeSegments s →
  segment_worked h s s' →
  accounted s' ∧ completed_done s' ∧ h ∈ m_activeSegments s'.
Proof.
  intros Hacc Hdone Hh (Hq & Ha & Hc & Hfl & _ & _ & f & Hf & _).
  assert (h ∉ m_completedSegments s) as Hhc.
  { destruct Hacc as (_ & _ & Hac & _). intros Hin. by apply (Hac h). }
  split; [|split].
  - unfold accounted in *. rewrite Hq, Ha, Hc, Hfl, Hf, length_alter. done.
  - intros x sg. rewrite Hc, Hf. intros Hx.
    rewrite list_lookup_alter_ne by (intros ->; done). by apply Hdone.
  - by rewrite Ha.
Qed.

Lemma completed_done_stealWork worker s :
  accounted s → completed_done s → completed_done (snd (stealWork worker s)).
Proof.
  intros Hacc Hdone. destruct (m_paused s || m_cancelled s) eqn:Hflags.
  { unfold stealWork. by rewrite Hflags. }
  destruct (findLargestActiveSegment s) as [d|] eqn:Hd.
  - destruct (findLargestActiveSegment_Some _ _ Hd) as (Hda & donor & Hdonor & _).
    rewrite (stealWork_split worker s d donor) by done.
    destruct (accounted_fresh s _ Hacc eq_refl) as (_ & _ & Hn3 & _).
    destruct Hacc as (_ & _ & Hac & _).
    intros x sg. cbn [snd m_completedSegments m_segments]. intros Hx.
    assert (x ≠ d) by (intros ->; by apply (Hac d)).
    assert (x ≠ length (m_segments s)) by (intros ->; done).
    destruct (decide (x < length (m_segments s))%nat).
    + rewrite lookup_app_l by (by rewrite length_insert).
      rewrite list_lookup_insert_ne by done. by apply Hdone.
    + rewrite lookup_ge_None_2; [done|]. rewrite length_app, length_insert. cbn. lia.
  - unfold stealWork. by rewrite Hflags, Hd.
Qed.

Lemma completed_done_acquireSegment worker s :
  accounted s → completed_done s → completed_done (snd (acquireSegment worker s)).
Proof.
  intros Hacc Hdone. unfold acquireSegment.
  destruct (m_paused s || m_cancelled s); [done|].
  destruct (m_pendingQueue s) as [|h q] eqn:Hq; [by apply completed_done_stealWork|].
  destruct Hacc as (_ & Hp & _). destruct (Hp h) as (_ & Hhc & _); [rewrite Hq; left|].
  intros x sg. cbn. intros Hx. rewrite list_lookup_alter_ne by (intros ->; done).
  by apply Hdone.
Qed.

(** A segment that [acquireSegment] hands out is in the active set, and its
    state is Active. *)
Lemma acquireSegment_Some worker s h :
  accounted s → fst (acquireSegment worker s) = Some h →
  h ∈ m_activeSegments (snd (acquireSegment worker s))
  ∧ ∃ sg, m_segments (snd (acquireSegment worker s)) !! h = Some sg
          ∧ m_state sg = SegmentState.Active.
Proof.
  intros Hacc. unfold acquireSegment.
  destruct (m_paused s || m_cancelled s) eqn:Hflags; [done|].
  destruct (m_pendingQueue s) as [|h' q] eqn:Hq.
  - destruct (findLargestActiveSegment s) as [d|] eqn:Hd.
    + destruct (findLargestActiveSegment_Some _ _ Hd) as (Hda & donor & Hdonor & _).
      rewrite (stealWork_split worker s d donor) by done.
      cbn [fst snd m_activeSegments m_segments]. intros [= <-].
      split; [apply elem_of_union; left; by apply elem_of_singleton|].
      exists (setState SegmentState.Active
                (Segment_new (m_nextSegmentId s)
                   (m_currentByte donor + remainingBytes donor `div` 2) (m_endByte donor))).
      split; [|done].
      rewrite lookup_app_r by (by rewrite length_insert).
      by rewrite length_insert, Nat.sub_diag.
    + unfold stealWork. by rewrite Hflags, Hd.
  - cbn. intros [= <-].
    split; [apply elem_of_union; left; by apply elem_of_singleton|].
    destruct Hacc as (_ & _ & _ & _ & _ & Hall).
    assert (h' < length (m_segments s))%nat as Hlt.
    { apply Hall. left. rewrite Hq. left. }
    destruct (lookup_lt_is_Some_2 _ _ Hlt) as [sg Hsg].
    exists (setState SegmentState.Active sg). by rewrite list_lookup_alter_eq, Hsg.
Qed.

Lemma completed_done_releaseSegment worker h s :
  accounted s → completed_done s → h ∈ m_activeSegments s →
  (∀ sg, m_segments s !! h = Some sg → m_state sg = SegmentState.Completed →
         remainingBytes sg ≤ 0) →
  completed_done (releaseSegment worker (Some h) s).
Proof.
  intros Hacc Hdone Hh Hrem.
  assert (h ∉ m_completedSegments s) as Hhc.
  { destruct Hacc as (_ & _ & Hac & _). intros Hin. by apply (Hac h). }
  unfold releaseSegment. set (s2 := with_workerAssignments _ _).
  assert (∀ s' f, m_completedSegments s' = m_completedSegments s →
                  m_segments s' = alter f h (m_segments s) → completed_done s') as Hgen.
  { intros s' f Hc Hs x sg. rewrite Hc, Hs. intros Hx.
    rewrite list_lookup_alter_ne by (intros ->; done). by apply Hdone. }
  assert (∀ s', m_completedSegments s' = m_completedSegments s →
                m_segments s' = m_segments s → completed_done s') as Hgen'.
  { intros s' Hc Hs. apply (Hgen s' id); [done|]. by rewrite list_alter_id. }
  destruct (m_segments s2 !! h) as [sg|] eqn:Hsg; [|by apply Hgen'].
  destruct (m_state sg) eqn:Hst.
  - by eapply Hgen.
  - by eapply Hgen.
  - by apply Hgen'.
  - assert (completed_done (with_completedSegments ({[h]} ∪ m_completedSegments s2) s2)).
    { intros x sg'. cbn. intros [->%elem_of_singleton|Hx]%elem_of_union Hl.
      - assert (sg' = sg) as -> by (subst s2; cbn in Hsg; congruence).
        split; [done|]. by apply Hrem.
      - by apply (Hdone x). }
    unfold checkAllComplete. by destruct (isAllComplete _).
  - destruct (canRetry sg); [by eapply Hgen|by apply Hgen'].
  - by eapply Hgen.
Qed.

Lemma run_loop_all_done fuel transfers w s fs w' s' fs' :
  accounted s → completed_done s →
  run_loop fuel transfers w s fs = Finished w' s' fs' →
  m_shouldStop w' = false →
  isAllComplete s' = true ∧ accounted s' ∧ completed_done s'.
Proof.
  revert transfers w s fs. induction fuel as [|fuel IH]; intros transfers w s fs Hacc Hdone;
    cbn [run_loop]; [done|].
  unfold shouldContinue at 1.
  destruct (m_shouldStop w) eqn:Hstop; cbn [negb].
  { unfold run_cleanup. intros [= <- <- <-]. cbn. by rewrite Hstop. }
  destruct (m_isPaused w); [done|].
  pose proof (accounted_acquireSegment (worker_this w) s Hacc) as Hacc1.
  pose proof (completed_done_acquireSegment (worker_this w) s Hacc Hdone) as Hdone1.
  pose proof (acquireSegment_Some (worker_this w) s) as Hsome.
  destruct (acquireSegment (worker_this w) s) as [[h|] s1]; cbn [fst snd] in *.
  - destruct (Hsome h Hacc eq_refl) as (Hh & sg & Hsg & Hactive). clear Hsome.
    destruct transfers as [|tr transfers]; [done|].
    set (w2 := w_with_counters _ _ _).
    destruct (segment_worked_downloadSegment h tr w2 s1 fs eq_refl) as [Hworked Hsuccess].
    destruct (downloadSegment h tr w2 s1 fs) as [[[success w3] s2] fs2].
    cbn [fst snd] in Hworked, Hsuccess.
    destruct (segment_worked_inv h s1 s2 Hacc1 Hdone1 Hh Hworked) as (Hacc2 & Hdone2 & Hh2).
    destruct (segment_worked_lookup h s1 s2 sg Hworked Hsg) as (sg2 & Hsg2 & Hst2).
    rewrite Hactive in Hst2.
    set (s3 := if success then _ else s2).
    assert (segment_worked h s2 s3 ∨ success = true) as H3.
    { destruct success; [by right|left; apply segment_worked_refl]. }
    assert (accounted s3 ∧ completed_done s3 ∧ h ∈ m_activeSegments s3) as (Hacc3 & Hdone3 & Hh3).
    { subst s3. destruct success; [|done].
      split; [by apply accounted_on_segment|]. split; [|done].
      intros x sgx. cbn. intros Hx.
      assert (x ≠ h).
      { intros ->. destruct Hacc2 as (_ & _ & Hac & _). by apply (Hac h). }
      rewrite list_lookup_alter_ne by done. by apply Hdone2. }
    assert (∀ sg3, m_segments s3 !! h = Some sg3 →
                   m_state sg3 = SegmentState.Completed → remainingBytes sg3 ≤ 0) as Hrem.
    { subst s3. destruct success.
      - destruct (Hsuccess eq_refl) as (sg' & Hsg' & Hle).
        intros sg3. cbn. rewrite list_lookup_alter_eq, Hsg'. by intros [= <-].
      - intros sg3 Hl Hc. assert (sg3 = sg2) as -> by congruence.
        destruct Hst2 as [H|[H|H]]; congruence. }
    set (w5 := if success then _ else _).
    pose proof (accounted_releaseSegment (worker_this w5) h s3 Hacc3 Hh3) as Hacc4.
    pose proof (completed_done_releaseSegment (worker_this w5) h s3 Hacc3 Hdone3 Hh3 Hrem)
      as Hdone4.
    destruct (negb success && negb (shouldContinue w5)) eqn:Hend.
    + apply andb_true_iff in Hend as [_ Hend]. unfold shouldContinue in Hend.
      apply negb_true_iff, negb_false_iff in Hend.
      unfold run_cleanup. intros [= <- <- <-]. cbn. by rewrite Hend.
    + by apply IH.
  - clear Hsome. destruct (waitForWork s1); cbn [negb]; [by apply IH|].
    destruct (isAllComplete s1) eqn:Hall; [|by apply IH].
    unfold run_cleanup. intros [= <- <- <-] _. done.
Qed.

Lemma completed_done_initializeSegments total count s :
  completed_done (snd (initializeSegments total count s)).
Proof. intros h sg Hh. by apply not_elem_of_empty in Hh. Qed.

(** X1.  The scheduler accounts for every segment: after [initializeSegments],
    and from then on through every [acquireSegment] (work stealing included)
    and every [releaseSegment] of a segment of the active set, each segment
    of the vector is in exactly one of the pending queue, the active set, the
    completed set and the failed set, and the queue holds no segment twice. *)
Theorem X1_every_segment_in_one_collection (s : Scheduler) :
  (∀ total count, accounted (snd (initializeSegments total count s)))
  ∧ (∀ worker, accounted s → accounted (snd (acquireSegment worker s)))
  ∧ (∀ worker, accounted s → accounted (snd (stealWork worker s)))
  ∧ (∀ worker h, accounted s → h ∈ m_activeSegments s →
                 accounted (releaseSegment worker (Some h) s)).
Proof.
  split; [intros; apply accounted_initializeSegments|].
  split; [intros; by apply accounted_acquireSegment|].
  split; [intros; by apply accounted_stealWork|].
  intros. by apply accounted_releaseSegment.
Qed.

(** X2.  A worker that has its curl handle and leaves [run] without having
    been asked to stop has nothing left to do: the scheduler reports all
    complete, and every segment of the vector is in the completed set, in
    state Completed, with its position past its end.  A worker that gets no
    curl handle leaves [run] at once: it is in state Error and has emitted
    [finished], it has not registered with the scheduler and has touched
    neither the scheduler nor the disk, so every segment is as it was. *)
Theorem X2_finished_worker_left_nothing_undone
    (curlInit : bool) (fuel : nat) (transfers : list Transfer)
    (w0 w : SegmentWorker) (s0 s : Scheduler) (fs0 fs : FileSystem) :
  accounted s0 → completed_done s0 →
  run curlInit fuel transfers w0 s0 fs0 = Finished w s fs →
  m_shouldStop w = false →
  (curlInit = true →
     isAllComplete s = true
     ∧ ∀ h sg, m_segments s !! h = Some sg →
               h ∈ m_completedSegments s
               ∧ m_state sg = SegmentState.Completed
               ∧ m_endByte sg < m_currentByte sg)
  ∧ (curlInit = false →
       s = s0 ∧ fs = fs0
       ∧ w = w_emit w_finished (w_with_state WorkerState.Error w0)
       ∧ worker_state w = WorkerState.Error
       ∧ m_curl w = m_curl w0
       ∧ worker_signals w = worker_signals w0 ++ [w_finished]).
Proof.
  intros Hacc Hdone Hrun Hstop. unfold run in Hrun. split; intros ->; cbn [negb] in Hrun.
  - assert (accounted (registerWorker (worker_this w0) s0)) as Hacc0 by done.
    assert (completed_done (registerWorker (worker_this w0) s0)) as Hdone0 by done.
    destruct (run_loop_all_done _ _ _ _ _ _ _ _ Hacc0 Hdone0 Hrun Hstop)
      as (Hall & Hacc' & Hdone').
    split; [done|]. intros h sg Hsg.
    unfold isAllComplete in Hall. apply andb_true_iff in Hall as [Hall Hf].
    apply andb_true_iff in Hall as [Hp Ha].
    apply bool_decide_eq_true in Hp, Ha, Hf.
    destruct Hacc' as (_ & _ & _ & _ & _ & Hin).
    assert (h ∈ m_completedSegments s) as Hh.
    { apply lookup_lt_Some in Hsg. apply Hin in Hsg. rewrite Hp, Ha, Hf in Hsg.
      destruct Hsg as [[]%elem_of_nil|[[]%not_elem_of_empty|[?|[]%not_elem_of_empty]]]. done. }
    destruct (Hdone' h sg Hh Hsg) as [Hst Hrem]. unfold remainingBytes in Hrem.
    repeat split; [done..|lia].
  - injection Hrun as <- <- <-. done.
Qed.

Lemma X2_finished_worker_witness :
  (∃ w s fs,
     run true 2 [ten_bytes_sent] (SegmentWorker_new 0 "/dl" "f.bin")
       ten_byte_download empty_disk = Finished w s fs
     ∧ isAllComplete s = true)
  ∧ (∃ w s fs,
       run false 2 [ten_bytes_sent] (SegmentWorker_new 0 "/dl" "f.bin")
         ten_byte_download empty_disk = Finished w s fs
       ∧ s = ten_byte_download ∧ isAllComplete s = false).
Proof.
  split.
  - eexists _, _, _. split; [vm_compute; reflexivity|].
    refine (proj1 (proj1 (X2_finished_worker_left_nothing_undone true 2 [ten_bytes_sent]
                            (SegmentWorker_new 0 "/dl" "f.bin") _ ten_byte_download _
                            empty_disk _ _ _ _ _) eq_refl)).
    + apply accounted_initializeSegments.
    + apply completed_done_initializeSegments.
    + vm_compute. reflexivity.
    + reflexivity.
  - eexists _, _, _. split; [reflexivity|]. split; [|by vm_compute].
    refine (proj1 (proj2 (X2_finished_worker_left_nothing_undone false 2 [ten_bytes_sent]
                            (SegmentWorker_new 0 "/dl" "f.bin") _ ten_byte_download _
                            empty_disk _ _ _ _ _) eq_refl)).
    + apply accounted_initializeSegments.
    + apply completed_done_initializeSegments.
    + reflexivity.
    + reflexivity.
Defined.

(* ===================================================================== *)
(** * Pausing, and the byte count *)
(* ===================================================================== *)

(** ** Pausing *)

Lemma pauseAll_fold (l : list nat) s :
  let s' := foldl (λ acc segment,
                     with_pendingQueue (segment :: m_pendingQueue acc)
                       (on_segment segment (setState SegmentState.Paused) acc)) s l in
  m_pendingQueue s' = reverse l ++ m_pendingQueue s
  ∧ m_paused s' = m_paused s ∧ m_cancelled s' = m_cancelled s
  ∧ m_completedSegments s' = m_completedSegments s
  ∧ m_failedSegments s' = m_failedSegments s
  ∧ m_nextSegmentId s' = m_nextSegmentId s
  ∧ length (m_segments s') = length (m_segments s)
  ∧ (∀ h sg, m_segments s !! h = Some sg →
       m_segments s' !! h
       = Some (if bool_decide (h ∈ l) then setState SegmentState.Paused sg else sg)).
Proof.
  revert s. induction l as [|x l IH]; intros s; cbn [foldl].
  - repeat split; done.
  - cbv zeta in IH.
    set (s1 := with_pendingQueue _ _).
    destruct (IH s1) as (Hq & Hp & Hc & Hco & Hf & Hn & Hlen & Hsegs).
    assert (m_segments s1 = alter (setState SegmentState.Paused) x (m_segments s)) as Hs1
      by done.
    assert (m_pendingQueue s1 = x :: m_pendingQueue s) as Hq1 by done.
    rewrite Hq, Hp, Hc, Hco, Hf, Hn, Hlen, reverse_cons, <- app_assoc, Hq1, Hs1.
    rewrite Hs1 in Hsegs.
    repeat split; try done.
    { by rewrite length_alter. }
    intros h sg Hsg. destruct (decide (h = x)) as [->|Hne].
    + rewrite (Hsegs x (setState SegmentState.Paused sg))
        by (by rewrite list_lookup_alter_eq, Hsg).
      rewrite (bool_decide_eq_true_2 (x ∈ x :: l)) by left.
      by case_bool_decide.
    + rewrite (Hsegs h sg) by (by rewrite list_lookup_alter_ne).
      rewrite (bool_decide_ext (h ∈ x :: l) (h ∈ l)); [done|].
      rewrite elem_of_cons. tauto.
Qed.

Lemma pauseAll_queue s :
  m_pendingQueue (pauseAll s)
  = reverse (in_address_order (m_address s) (m_activeSegments s)) ++ m_pendingQueue s.
Proof.
  unfold pauseAll. cbn [m_pendingQueue with_workerAssignments with_activeSegments].
  by destruct (pauseAll_fold
                 (in_address_order (m_address (with_paused true s))
                    (m_activeSegments (with_paused true s)))
                 (with_paused true s)) as (-> & _).
Qed.

Lemma pauseAll_flags s :
  m_paused (pauseAll s) = true ∧ m_cancelled (pauseAll s) = m_cancelled s.
Proof.
  unfold pauseAll. cbn [m_paused m_cancelled with_workerAssignments with_activeSegments].
  by destruct (pauseAll_fold
                 (in_address_order (m_address (with_paused true s))
                    (m_activeSegments (with_paused true s)))
                 (with_paused true s)) as (_ & -> & -> & _).
Qed.

Lemma pauseAll_segments s h sg :
  m_segments s !! h = Some sg →
  m_segments (pauseAll s) !! h
  = Some (if bool_decide (h ∈ m_activeSegments s)
          then setState SegmentState.Paused sg else sg).
Proof.
  intros Hsg. unfold pauseAll. cbn [m_segments with_workerAssignments with_activeSegments].
  destruct (pauseAll_fold
              (in_address_order (m_address (with_paused true s))
                 (m_activeSegments (with_paused true s)))
              (with_paused true s)) as (_ & _ & _ & _ & _ & _ & _ & Hsegs).
  rewrite (Hsegs h sg) by done.
  rewrite (bool_decide_ext
             (h ∈ in_address_order (m_address (with_paused true s))
                    (m_activeSegments (with_paused true s)))
             (h ∈ m_activeSegments s)); [done|].
  apply elem_of_in_address_order.
Qed.

Lemma acquireSegment_head worker s h q :
  m_paused s = false → m_cancelled s = false → m_pendingQueue s = h :: q →
  let r := acquireSegment worker s in
  fst r = Some h
  ∧ m_pendingQueue (snd r) = q
  ∧ m_paused (snd r) = false ∧ m_cancelled (snd r) = false
  ∧ m_workerAssignments (snd r) = <[worker := h]> (m_workerAssignments s).
Proof.
  intros Hp Hc Hq. cbv zeta. unfold acquireSegment. rewrite Hp, Hc, Hq. cbn [orb].
  cbn. done.
Qed.

(** X3.  A segment that is active when the task pauses ends up in the
    pending queue twice.  [pauseAll] (task thread) pushes every active
    segment to the front of the queue; the worker of the segment, whose
    transfer the pause aborts, sets the segment Paused and releases it, and
    [releaseSegment] pushes a Paused segment to the front again.  With one
    segment active, the two acquisitions that follow [resumeAll] both hand
    out this segment: two workers download it into the same temp file. *)
Theorem X3_pause_queues_active_segment_twice (worker : nat) (h : nat) (s : Scheduler) :
  h ∈ m_activeSegments s →
  is_Some (m_segments s !! h) →
  let paused := pauseAll s in
  let aborted := on_segment h (setState SegmentState.Paused) paused in
  let released := releaseSegment worker (Some h) aborted in
  (∃ q1 q2, m_pendingQueue released = h :: q1 ++ h :: q2 ++ m_pendingQueue s)
  ∧ (m_activeSegments s = {[h]} → m_cancelled s = false →
     ∀ w1 w2,
       let resumed := resumeAll released in
       let first := acquireSegment w1 resumed in
       let second := acquireSegment w2 (snd first) in
       fst first = Some h ∧ fst second = Some h
       ∧ (w1 ≠ w2 →
          m_workerAssignments (snd second) !! w1 = Some h
          ∧ m_workerAssignments (snd second) !! w2 = Some h)).
Proof.
  intros Hh [sg Hsg]. cbv zeta.
  assert (m_segments (on_segment h (setState SegmentState.Paused) (pauseAll s)) !! h
          = Some (setState SegmentState.Paused sg)) as Hpaused.
  { unfold on_segment. cbn [m_segments with_segments].
    rewrite list_lookup_alter_eq, (pauseAll_segments s h sg Hsg).
    by rewrite bool_decide_eq_true_2. }
  assert (m_pendingQueue
            (releaseSegment worker (Some h)
               (on_segment h (setState SegmentState.Paused) (pauseAll s)))
          = h :: reverse (in_address_order (m_address s) (m_activeSegments s))
                 ++ m_pendingQueue s) as Hq.
  { unfold releaseSegment.
    cbn [m_segments with_workerAssignments with_activeSegments].
    rewrite Hpaused. cbn [m_state setState].
    unfold on_segment.
    cbn [m_pendingQueue with_pendingQueue with_workerAssignments with_activeSegments
         with_segments].
    by rewrite pauseAll_queue. }
  split.
  - rewrite Hq.
    assert (h ∈ reverse (in_address_order (m_address s) (m_activeSegments s))) as Hin.
    { apply elem_of_reverse. by apply elem_of_in_address_order. }
    destruct (list_elem_of_split _ _ Hin) as (q1 & q2 & ->).
    exists q1, q2. by rewrite <- app_assoc.
  - intros Hone Hc w1 w2.
    set (released := releaseSegment _ _ _) in *.
    rewrite Hone, in_address_order_singleton in Hq.
    change (reverse [h] ++ m_pendingQueue s) with (h :: m_pendingQueue s) in Hq.
    assert (m_cancelled released = false) as Hc'.
    { subst released. unfold releaseSegment.
      cbn [m_segments with_workerAssignments with_activeSegments].
      rewrite Hpaused. cbn [m_state setState]. unfold on_segment.
      cbn [m_cancelled with_pendingQueue with_workerAssignments with_activeSegments
           with_segments].
      by rewrite (proj2 (pauseAll_flags s)). }
    clearbody released.
    destruct (acquireSegment_head w1 (resumeAll released) h (h :: m_pendingQueue s))
      as (Hf1 & Hq1 & Hp1 & Hc1 & Ha1); [reflexivity|exact Hc'|exact Hq|].
    destruct (acquireSegment_head w2 (snd (acquireSegment w1 (resumeAll released))) h
                (m_pendingQueue s)) as (Hf2 & Hq2 & Hp2 & Hc2 & Ha2);
      [exact Hp1|exact Hc1|exact Hq1|].
    split; [done|]. split; [done|]. intros Hne. rewrite Ha2, Ha1. split.
    + rewrite lookup_insert_ne by done. by rewrite lookup_insert_eq.
    + by rewrite lookup_insert_eq.
Qed.

Lemma X3_pause_witness :
  ∃ q1 q2,
    m_pendingQueue
      (releaseSegment 0 (Some 0%nat)
         (on_segment 0 (setState SegmentState.Paused) (pauseAll scheduler_0_9)))
    = 0%nat :: q1 ++ 0%nat :: q2 ++ m_pendingQueue scheduler_0_9.
Proof.
  apply (X3_pause_queues_active_segment_twice 0 0 scheduler_0_9).
  - vm_compute. reflexivity.
  - eexists. reflexivity.
Defined.

(** ** A scheduler that is paused or cancelled *)

(** X4.  While the scheduler is paused or cancelled, a worker that is itself
    neither stopped nor paused gets no segment and does not leave its loop:
    [acquireSegment] returns none, [waitForWork] returns true at once, and
    the loop goes round, whatever the number of rounds.  Only [stop] (or
    [pause], which parks the worker) ends this. *)
Theorem X4_flagged_scheduler_keeps_worker_polling
    (fuel : nat) (transfers : list Transfer)
    (w : SegmentWorker) (s : Scheduler) (fs : FileSystem) :
  m_paused s || m_cancelled s = true →
  m_shouldStop w = false → m_isPaused w = false →
  acquireSegment (worker_this w) s = (None, s)
  ∧ waitForWork s = true
  ∧ run_loop fuel transfers w s fs = OutOfScript w s fs.
Proof.
  intros Hflags Hstop Hpause.
  assert (acquireSegment (worker_this w) s = (None, s)) as Hacq.
  { unfold acquireSegment. by rewrite Hflags. }
  assert (waitForWork s = true) as Hwait.
  { unfold waitForWork. destruct (negb _ || negb _); [done|].
    destruct (m_paused s), (m_cancelled s); try done; by rewrite orb_true_r. }
  split; [done|]. split; [done|].
  induction fuel as [|fuel IH]; cbn [run_loop]; [done|].
  unfold shouldContinue. rewrite Hstop, Hpause, Hacq, Hwait. cbn [negb]. exact IH.
Qed.

Lemma X4_flagged_scheduler_witness :
  run_loop 100 [] (SegmentWorker_new 0 "/dl" "f.bin") (cancelAll ten_byte_download)
    empty_disk
  = OutOfScript (SegmentWorker_new 0 "/dl" "f.bin") (cancelAll ten_byte_download)
      empty_disk.
Proof.
  refine (proj2 (proj2 (X4_flagged_scheduler_keeps_worker_polling 100 []
                          (SegmentWorker_new 0 "/dl" "f.bin") (cancelAll ten_byte_download)
                          empty_disk _ _ _))); reflexivity.
Defined.

(** ** The byte count of the scheduler *)

Lemma totalDownloadedBytes_sum s :
  totalDownloadedBytes s = foldr Z.add 0 (downloadedBytes <$> m_segments s).
Proof.
  unfold totalDownloadedBytes.
  assert (∀ l a, foldl (λ total seg, total + downloadedBytes seg) a l
                 = a + foldr Z.add 0 (downloadedBytes <$> l)) as H.
  { induction l as [|x l IH]; intros a; cbn; [lia|]. rewrite IH. lia. }
  rewrite H. lia.
Qed.

Lemma totalDownloadedBytes_on_segment h f s :
  (∀ x, downloadedBytes (f x) = downloadedBytes x) →
  totalDownloadedBytes (on_segment h f s) = totalDownloadedBytes s.
Proof.
  intros Hf. rewrite !totalDownloadedBytes_sum. unfold on_segment.
  cbn [m_segments with_segments].
  rewrite (list_fmap_alter downloadedBytes f id).
  - by rewrite list_alter_id.
  - apply Forall_forall. intros x _. by rewrite Hf.
Qed.

Lemma totalDownloadedBytes_eq s s' :
  m_segments s' = m_segments s → totalDownloadedBytes s' = totalDownloadedBytes s.
Proof. intros H. unfold totalDownloadedBytes. by rewrite H. Qed.

Lemma totalDownloadedBytes_stealWork worker s :
  totalDownloadedBytes (snd (stealWork worker s)) = totalDownloadedBytes s.
Proof.
  destruct (m_paused s || m_cancelled s) eqn:Hflags.
  { unfold stealWork. by rewrite Hflags. }
  destruct (findLargestActiveSegment s) as [d|] eqn:Hd.
  - destruct (findLargestActiveSegment_Some _ _ Hd) as (_ & donor & Hdonor & _).
    rewrite (stealWork_split worker s d donor) by done.
    rewrite !totalDownloadedBytes_sum. cbn [snd m_segments].
    rewrite fmap_app, list_fmap_insert, foldr_app. cbn.
    rewrite (list_insert_id _ _ (downloadedBytes donor))
      by (by rewrite list_lookup_fmap, Hdonor).
    unfold downloadedBytes at 1. cbn. by rewrite Z.sub_diag.
  - unfold stealWork. by rewrite Hflags, Hd.
Qed.

Lemma totalDownloadedBytes_acquireSegment worker s :
  totalDownloadedBytes (snd (acquireSegment worker s)) = totalDownloadedBytes s.
Proof.
  unfold acquireSegment. destruct (m_paused s || m_cancelled s); [done|].
  destruct (m_pendingQueue s) as [|h q]; [apply totalDownloadedBytes_stealWork|].
  cbn [snd].
  transitivity (totalDownloadedBytes
                  (on_segment h (setState SegmentState.Active) (with_pendingQueue q s)));
    [by apply totalDownloadedBytes_eq|].
  rewrite totalDownloadedBytes_on_segment by done. by apply totalDownloadedBytes_eq.
Qed.

Lemma totalDownloadedBytes_releaseSegment worker segment s :
  totalDownloadedBytes (releaseSegment worker segment s) = totalDownloadedBytes s.
Proof.
  destruct segment as [h|]; [|done]. unfold releaseSegment.
  set (s2 := with_workerAssignments _ _).
  assert (totalDownloadedBytes s2 = totalDownloadedBytes s) as <- by done.
  assert (∀ q, totalDownloadedBytes
                 (with_pendingQueue q (on_segment h (setState SegmentState.Pending) s2))
               = totalDownloadedBytes s2) as Hp.
  { intros q. rewrite <- (totalDownloadedBytes_on_segment h (setState SegmentState.Pending) s2)
      by done. by apply totalDownloadedBytes_eq. }
  destruct (m_segments s2 !! h) as [sg|]; [|done].
  destruct (m_state sg); try apply Hp; try done.
  - unfold checkAllComplete. by destruct (isAllComplete _).
  - destruct (canRetry sg); [apply Hp|done].
Qed.

Lemma totalDownloadedBytes_pauseAll s :
  totalDownloadedBytes (pauseAll s) = totalDownloadedBytes s.
Proof.
  rewrite !totalDownloadedBytes_sum. f_equal.
  apply list_eq. intros h. rewrite !list_lookup_fmap.
  destruct (m_segments s !! h) as [sg|] eqn:Hsg.
  - rewrite (pauseAll_segments s h sg Hsg). cbn. by case_bool_decide.
  - assert (m_segments (pauseAll s) !! h = None) as ->; [|done].
    apply lookup_ge_None. apply lookup_ge_None in Hsg.
    unfold pauseAll. cbn [m_segments with_workerAssignments with_activeSegments].
    destruct (pauseAll_fold
                (in_address_order (m_address (with_paused true s))
                   (m_activeSegments (with_paused true s)))
                (with_paused true s)) as (_ & _ & _ & _ & _ & _ & -> & _). done.
Qed.

Lemma totalDownloadedBytes_resumeAll s :
  totalDownloadedBytes (resumeAll s) = totalDownloadedBytes s.
Proof.
  rewrite !totalDownloadedBytes_sum. unfold resumeAll. cbn [m_segments with_segments with_paused].
  rewrite <- list_fmap_compose. f_equal. apply list_fmap_ext. intros i x _. cbn.
  unfold resume_state. by case_bool_decide.
Qed.

Lemma init_loop_nothing_downloaded n i c size rem start id :
  Forall (λ sg, downloadedBytes sg = 0) (init_loop n i c size rem start id).
Proof.
  revert i start id. induction n as [|n IH]; intros i start id; cbn [init_loop].
  - constructor.
  - constructor; [|apply IH]. unfold downloadedBytes. cbn. lia.
Qed.

(** X5.  The byte count that the task reports as its progress
    ([totalDownloadedBytes]) is 0 after [initializeSegments], and handing
    out, stealing, releasing, pausing and resuming segments leave it as it
    is: it changes by received data only, a buffer that the write callback
    accepts adding its length. *)
Theorem X5_progress_changes_by_received_data_only (s : Scheduler) :
  (∀ total count, totalDownloadedBytes (snd (initializeSegments total count s)) = 0)
  ∧ (∀ worker, totalDownloadedBytes (snd (acquireSegment worker s)) = totalDownloadedBytes s)
  ∧ (∀ worker, totalDownloadedBytes (snd (stealWork worker s)) = totalDownloadedBytes s)
  ∧ (∀ worker segment,
       totalDownloadedBytes (releaseSegment worker segment s) = totalDownloadedBytes s)
  ∧ totalDownloadedBytes (pauseAll s) = totalDownloadedBytes s
  ∧ totalDownloadedBytes (resumeAll s) = totalDownloadedBytes s
  ∧ (∀ (data : bytes) w fs file h sg,
       m_tempFile w = Some file → m_currentSegment w = Some h →
       m_segments s !! h = Some sg →
       Z.of_nat (length data) ≤ fs_room fs →
       0 ≤ m_currentByte sg → m_currentByte sg + Z.of_nat (length data) < 2 ^ 63 →
       totalDownloadedBytes (snd (fst (writeCallback data w s fs)))
       = totalDownloadedBytes s + Z.of_nat (length data)).
Proof.
  split.
  { intros total count. rewrite totalDownloadedBytes_sum, initializeSegments_segments.
    cbv zeta.
    match goal with |- context [init_loop ?n ?i ?c ?sz ?r ?st ?id] =>
      pose proof (init_loop_nothing_downloaded n i c sz r st id) as H;
      induction H as [|x l Hx _ IH]; cbn; [done|]; rewrite Hx, IH; done
    end. }
  split; [intros; apply totalDownloadedBytes_acquireSegment|].
  split; [intros; apply totalDownloadedBytes_stealWork|].
  split; [intros; apply totalDownloadedBytes_releaseSegment|].
  split; [apply totalDownloadedBytes_pauseAll|].
  split; [apply totalDownloadedBytes_resumeAll|].
  intros data w fs file h sg Hfile Hcur Hsg Hroom Hlo Hhi.
  assert (Z.of_nat (length data) < 2 ^ 63) as Hlen by lia.
  rewrite (writeCallback_ok data w s fs file Hfile Hlen Hroom). cbn [fst snd].
  rewrite Hcur, !totalDownloadedBytes_sum. unfold on_segment. cbn [m_segments with_segments].
  clear Hfile Hcur. revert h Hsg. generalize (m_segments s).
  induction l as [|x l IH]; intros [|h] Hsg; simplify_eq/=.
  - unfold downloadedBytes. cbn. rewrite to_int64_small by lia. lia.
  - rewrite (IH _ Hsg). lia.
Qed.

(* ===================================================================== *)
(** * Segment ids and temp files *)
(* ===================================================================== *)

Lemma init_loop_ids n i c size rem start id k sg :
  0 ≤ id → id + Z.of_nat n ≤ 2 ^ 32 →
  init_loop n i c size rem start id !! k = Some sg →
  m_id sg = id + Z.of_nat k ∧ m_tempFilePath sg = "" ∧ m_lastError sg = NoMessage.
Proof.
  revert i start id k. induction n as [|n IH]; intros i start id k Hid Hn; cbn [init_loop];
    [done|].
  destruct k as [|k]; cbn [lookup list_lookup].
  - intros [= <-]. cbn. split; [lia|done].
  - intros Hk. destruct n as [|n']; [done|].
    rewrite to_uint32_small in Hk by lia.
    apply IH in Hk as (-> & ? & ?); [|lia..].
    split; [lia|done].
Qed.

Lemma initializeSegments_length total count s :
  let n := clamp count Constants.MIN_SEGMENTS Constants.MAX_SEGMENTS in
  length (m_segments (snd (initializeSegments total count s))) = Z.to_nat n
  ∧ 1 ≤ n ≤ 32.
Proof.
  cbv zeta. rewrite initializeSegments_segments. cbv zeta. rewrite init_loop_length.
  split; [done|]. apply (clamp_range count 1 32). lia.
Qed.

Lemma initializeSegments_ids total count s k sg :
  m_segments (snd (initializeSegments total count s)) !! k = Some sg →
  m_id sg = Z.of_nat k ∧ m_tempFilePath sg = "" ∧ m_lastError sg = NoMessage.
Proof.
  rewrite initializeSegments_segments. cbv zeta. intros Hk.
  pose proof (clamp_range count 1 32 ltac:(lia)) as Hc.
  change Constants.MIN_SEGMENTS with 1 in *. change Constants.MAX_SEGMENTS with 32 in *.
  apply init_loop_ids in Hk as (-> & ? & ?); [|lia..].
  split; [lia|done].
Qed.

Lemma own_temp_files_initializeSegments dir name total count s :
  own_temp_files dir name (snd (initializeSegments total count s)).
Proof.
  destruct (initializeSegments_length total count s) as [Hlen Hn]. cbv zeta in *.
  pose proof (initializeSegments_ids total count s) as Hids.
  set (s' := snd (initializeSegments total count s)) in *.
  assert (m_nextSegmentId s' = Z.of_nat (length (m_segments s'))) as Hnext.
  { subst s'. unfold initializeSegments at 1. cbn [snd m_nextSegmentId].
    rewrite to_uint32_small; [done|].
    unfold initializeSegments. cbn [snd m_segments]. rewrite init_loop_length. lia. }
  split; [lia|]. split; [|split].
  - apply Forall_lookup. intros k sg Hk. destruct (Hids k sg Hk) as (-> & _).
    apply lookup_lt_Some in Hk. lia.
  - apply NoDup_alt. intros i j x. rewrite !list_lookup_fmap.
    destruct (m_segments s' !! i) as [sgi|] eqn:Hi; [|done].
    destruct (m_segments s' !! j) as [sgj|] eqn:Hj; [|done].
    destruct (Hids i sgi Hi) as (Hidi & _). destruct (Hids j sgj Hj) as (Hidj & _).
    cbn. intros [= <-] [= ?]. lia.
  - apply Forall_lookup. intros k sg Hk. left. by destruct (Hids k sg Hk) as (_ & ? & _).
Qed.

Lemma own_temp_files_stealWork dir name worker s :
  own_temp_files dir name s → m_nextSegmentId s < 2 ^ 32 - 1 →
  own_temp_files dir name (snd (stealWork worker s)).
Proof.
  intros (Hnext & Hbelow & Hnd & Hpaths) Hmax.
  unfold ids_below, ids_distinct, paths_from_ids in Hbelow, Hnd, Hpaths.
  destruct (m_paused s || m_cancelled s) eqn:Hflags.
  { unfold stealWork. by rewrite Hflags. }
  destruct (findLargestActiveSegment s) as [d|] eqn:Hd.
  - destruct (findLargestActiveSegment_Some _ _ Hd) as (_ & donor & Hdonor & _).
    rewrite (stealWork_split worker s d donor) by done.
    unfold own_temp_files, ids_below, ids_distinct, paths_from_ids.
    cbn [snd m_nextSegmentId m_segments]. rewrite to_uint32_small by lia.
    assert (<[d := setEndByte (m_currentByte donor + remainingBytes donor `div` 2 - 1) donor]>
              (m_segments s) !! d = Some (setEndByte
                 (m_currentByte donor + remainingBytes donor `div` 2 - 1) donor)) as Hins.
    { rewrite list_lookup_insert_eq; [done|]. by eapply lookup_lt_Some. }
    split; [lia|]. split; [|split].
    + apply Forall_app. split.
      * apply Forall_insert.
        -- eapply Forall_impl; [exact Hbelow|]. intros x Hx. cbn in Hx. lia.
        -- cbn. rewrite Forall_lookup in Hbelow. specialize (Hbelow _ _ Hdonor).
           cbn in Hbelow. lia.
      * constructor; [cbn; lia|constructor].
    + rewrite fmap_app, list_fmap_insert. cbn.
      rewrite (list_insert_id _ _ (m_id donor)) by (by rewrite list_lookup_fmap, Hdonor).
      apply NoDup_app. split; [done|]. split; [|apply NoDup_singleton].
      intros x Hx ->%list_elem_of_singleton.
      apply list_elem_of_fmap in Hx as (sg & Hid & Hsg).
      rewrite Forall_forall in Hbelow. specialize (Hbelow sg Hsg). cbn in Hbelow. lia.
    + apply Forall_app. split.
      * apply Forall_insert; [done|]. cbn. rewrite Forall_lookup in Hpaths.
        apply (Hpaths _ _ Hdonor).
      * constructor; [by left|constructor].
  - unfold stealWork. by rewrite Hflags, Hd.
Qed.

(** A change to one segment that keeps its id and its temp path. *)
Lemma own_temp_files_on_segment dir name h f s :
  (∀ x, m_id (f x) = m_id x) →
  (∀ x, m_tempFilePath (f x) = m_tempFilePath x) →
  own_temp_files dir name s → own_temp_files dir name (on_segment h f s).
Proof.
  intros Hid Hpath (Hnext & Hbelow & Hnd & Hpaths).
  unfold ids_below, ids_distinct, paths_from_ids in Hbelow, Hnd, Hpaths.
  unfold own_temp_files, ids_below, ids_distinct, paths_from_ids, on_segment.
  cbn [m_nextSegmentId m_segments with_segments].
  split; [done|]. split; [|split].
  - apply Forall_alter; [done|]. intros x Hx. by rewrite Hid.
  - rewrite (list_fmap_alter m_id f id); [by rewrite list_alter_id|].
    apply Forall_forall. intros x _. by rewrite Hid.
  - apply Forall_alter; [done|]. intros x Hx. by rewrite Hpath, Hid.
Qed.

Lemma own_temp_files_eq dir name s s' :
  m_segments s' = m_segments s → m_nextSegmentId s' = m_nextSegmentId s →
  own_temp_files dir name s → own_temp_files dir name s'.
Proof.
  unfold own_temp_files, ids_below, ids_distinct, paths_from_ids.
  by intros -> ->.
Qed.

Lemma own_temp_files_acquireSegment dir name worker s :
  own_temp_files dir name s → m_nextSegmentId s < 2 ^ 32 - 1 →
  own_temp_files dir name (snd (acquireSegment worker s)).
Proof.
  intros Hown Hmax. unfold acquireSegment.
  destruct (m_paused s || m_cancelled s); [done|].
  destruct (m_pendingQueue s) as [|h q]; [by apply own_temp_files_stealWork|].
  cbn [snd].
  eapply (own_temp_files_eq _ _
            (on_segment h (setState SegmentState.Active) (with_pendingQueue q s))); [done..|].
  apply own_temp_files_on_segment; [done..|].
  by eapply own_temp_files_eq.
Qed.

Lemma own_temp_files_releaseSegment dir name worker segment s :
  own_temp_files dir name s → own_temp_files dir name (releaseSegment worker segment s).
Proof.
  intros Hown. destruct segment as [h|]; [|done]. unfold releaseSegment.
  set (s2 := with_workerAssignments _ _).
  assert (own_temp_files dir name s2) as H2 by (by eapply own_temp_files_eq).
  assert (∀ q, own_temp_files dir name
                 (with_pendingQueue q (on_segment h (setState SegmentState.Pending) s2)))
    as Hp.
  { intros q. eapply (own_temp_files_eq _ _
                        (on_segment h (setState SegmentState.Pending) s2)); [done..|].
    by apply own_temp_files_on_segment. }
  destruct (m_segments s2 !! h) as [sg|]; [|done].
  destruct (m_state sg); try apply Hp.
  - by eapply own_temp_files_eq.
  - unfold checkAllComplete. destruct (isAllComplete _); by eapply own_temp_files_eq.
  - destruct (canRetry sg); [apply Hp|]. by eapply own_temp_files_eq.
Qed.

Lemma own_temp_files_openTempFile dir name h w s fs :
  m_filePath_dir w = dir → m_filePath_name w = name →
  own_temp_files dir name s →
  own_temp_files dir name (snd (fst (openTempFile h w s fs))).
Proof.
  intros <- <- Hown. unfold openTempFile.
  destruct (m_segments s !! h) as [sg|] eqn:Hsg; [|done].
  assert (own_temp_files (m_filePath_dir w) (m_filePath_name w)
            (if bool_decide (m_tempFilePath sg = "")
             then on_segment h
                    (setTempFilePath
                       (if bool_decide (m_tempFilePath sg = "")
                        then temp_path (m_filePath_dir w) (m_filePath_name w) (m_id sg)
                        else m_tempFilePath sg)) s
             else s)) as H.
  { case_bool_decide; [|done].
    destruct Hown as (Hnext & Hbelow & Hnd & Hpaths).
    unfold ids_below, ids_distinct, paths_from_ids in Hbelow, Hnd, Hpaths.
    unfold own_temp_files, ids_below, ids_distinct, paths_from_ids, on_segment.
    cbn [m_nextSegmentId m_segments with_segments].
    split; [done|]. split; [|split].
    - apply Forall_alter; [done|]. intros x Hx. done.
    - rewrite (list_fmap_alter m_id _ id); [by rewrite list_alter_id|].
      apply Forall_forall. intros x _. done.
    - apply Forall_lookup. intros k x. rewrite list_lookup_alter.
      destruct (decide (h = k)) as [->|].
      + rewrite Hsg. cbn. intros [= <-]. by right.
      + intros Hk. rewrite Forall_lookup in Hpaths. by eapply Hpaths. }
  by destruct (QFile_open_write _ _ _).
Qed.

Lemma temp_path_inj dir name : Inj (=) (=) (temp_path dir name).
Proof.
  intros id1 id2. unfold temp_path. intros H.
  do 4 apply String.app_inj in H. by apply (inj pretty) in H.
Qed.

(** X6.  Segments never share a temp file.  The ids of the segments are
    pairwise different and below the counter (after [initializeSegments],
    and through [acquireSegment] with its work stealing, [releaseSegment]
    and [openTempFile], as long as the 32-bit counter has not run out), and a
    temp path is derived from the id and is different for different ids; so
    two segments with the same temp path are one segment. *)
Theorem X6_segments_never_share_a_temp_file (dir name : string) (s : Scheduler) :
  (∀ total count, own_temp_files dir name (snd (initializeSegments total count s)))
  ∧ (∀ worker, own_temp_files dir name s → m_nextSegmentId s < 2 ^ 32 - 1 →
               own_temp_files dir name (snd (acquireSegment worker s)))
  ∧ (∀ worker segment, own_temp_files dir name s →
                       own_temp_files dir name (releaseSegment worker segment s))
  ∧ (∀ h w fs, own_temp_files dir name s →
               m_filePath_dir w = dir → m_filePath_name w = name →
               own_temp_files dir name (snd (fst (openTempFile h w s fs))))
  ∧ (∀ id1 id2, temp_path dir name id1 = temp_path dir name id2 → id1 = id2)
  ∧ (own_temp_files dir name s →
     ∀ h1 h2 sg1 sg2,
       m_segments s !! h1 = Some sg1 → m_segments s !! h2 = Some sg2 →
       m_tempFilePath sg1 ≠ "" → m_tempFilePath sg1 = m_tempFilePath sg2 →
       h1 = h2).
Proof.
  split; [intros; apply own_temp_files_initializeSegments|].
  split; [intros; by apply own_temp_files_acquireSegment|].
  split; [intros; by apply own_temp_files_releaseSegment|].
  split; [intros; by apply own_temp_files_openTempFile|].
  split; [apply temp_path_inj|].
  intros (_ & _ & Hnd & Hpaths) h1 h2 sg1 sg2 H1 H2 Hne Heq.
  unfold ids_distinct, paths_from_ids in Hnd, Hpaths.
  rewrite Forall_lookup in Hpaths.
  destruct (Hpaths _ _ H1) as [?|Hp1]; [done|].
  destruct (Hpaths _ _ H2) as [?|Hp2]; [congruence|].
  assert (m_id sg1 = m_id sg2) as Hid.
  { apply (temp_path_inj dir name). congruence. }
  eapply NoDup_lookup; [exact Hnd|..].
  - by rewrite list_lookup_fmap, H1.
  - by rewrite list_lookup_fmap, H2, Hid.
Qed.

(** ** The number of segments of a download *)

Lemma calculateOptimalSegmentCount_range total :
  1 ≤ calculateOptimalSegmentCount total ≤ 32.
Proof.
  unfold calculateOptimalSegmentCount. destruct (total <=? 0); [done|].
  apply (clamp_range _ 1 32). lia.
Qed.

Lemma calculateOptimalSegmentCount_pos total :
  0 < total < 2 ^ 63 →
  calculateOptimalSegmentCount total
  = clamp (total `div` Constants.MIN_SEGMENT_SIZE) 1 32.
Proof.
  intros Ht. unfold calculateOptimalSegmentCount.
  destruct (Z.leb_spec total 0); [lia|].
  rewrite Z.quot_div_nonneg by (unfold Constants.MIN_SEGMENT_SIZE; lia).
  rewrite to_uint64_small; [done|].
  unfold Constants.MIN_SEGMENT_SIZE. split; [apply Z.div_pos; lia|].
  apply Z.div_lt_upper_bound; lia.
Qed.

(** X7.  The number of segments the task asks for when the server takes
    ranges is between 1 and 32, and it is the number of whole mebibytes of
    the file within these bounds; so no segment of a file of at least 1 MiB
    is shorter than [MIN_SEGMENT_SIZE], a file below 2 MiB is one segment,
    and a file of 32 MiB or more has 32 segments. *)
Theorem X7_no_segment_below_min_segment_size (total : Z) (s : Scheduler) :
  0 < total < 2 ^ 63 →
  let n := calculateOptimalSegmentCount total in
  let segs := m_segments (snd (initializeSegments total n s)) in
  1 ≤ n ≤ 32
  ∧ Z.of_nat (length segs) = n
  ∧ n = clamp (total `div` Constants.MIN_SEGMENT_SIZE) 1 32
  ∧ (Constants.MIN_SEGMENT_SIZE ≤ total →
     Forall (λ sg, Constants.MIN_SEGMENT_SIZE ≤ totalSize sg) segs)
  ∧ (total < 2 * Constants.MIN_SEGMENT_SIZE → n = 1)
  ∧ (32 * Constants.MIN_SEGMENT_SIZE ≤ total → n = 32).
Proof.
  intros Ht. cbv zeta.
  pose proof (calculateOptimalSegmentCount_range total) as Hn.
  pose proof (calculateOptimalSegmentCount_pos total Ht) as Heq.
  set (n := calculateOptimalSegmentCount total) in *.
  assert (clamp n Constants.MIN_SEGMENTS Constants.MAX_SEGMENTS = n) as Hclamp
    by (by apply clamp_id).
  split; [done|]. split.
  { destruct (initializeSegments_tiles total n s) as (Hlen & _); [lia|].
    cbv zeta in Hlen. by rewrite Hlen. }
  split; [done|]. unfold Constants.MIN_SEGMENT_SIZE in *.
  split; [|split].
  - intros Hbig. apply Forall_lookup. intros k sg Hk.
    rewrite (initializeSegments_sizes total n s k sg) by (done || lia).
    cbv zeta. rewrite Hclamp.
    assert (n ≤ total `div` (1 * 1024 * 1024)) as Hle.
    { rewrite Heq. unfold clamp.
      assert (1 ≤ total `div` (1 * 1024 * 1024)) by (apply Z.div_le_lower_bound; lia).
      destruct (Z.ltb_spec (total `div` (1 * 1024 * 1024)) 1); [lia|].
      destruct (Z.ltb_spec 32 (total `div` (1 * 1024 * 1024))); lia. }
    assert (1 * 1024 * 1024 ≤ total `div` n).
    { apply Z.div_le_lower_bound; [lia|].
      pose proof (Z.mul_div_le total (1 * 1024 * 1024) ltac:(lia)). nia. }
    pose proof (Z.mod_pos_bound total n ltac:(lia)).
    case_bool_decide; lia.
  - intros Hsmall. rewrite Heq. unfold clamp.
    assert (total `div` (1 * 1024 * 1024) < 2) by (apply Z.div_lt_upper_bound; lia).
    assert (0 ≤ total `div` (1 * 1024 * 1024)) by (apply Z.div_pos; lia).
    destruct (Z.ltb_spec (total `div` (1 * 1024 * 1024)) 1); [done|].
    destruct (Z.ltb_spec 32 (total `div` (1 * 1024 * 1024))); lia.
  - intros Hbig. rewrite Heq. unfold clamp.
    assert (32 ≤ total `div` (1 * 1024 * 1024)) by (apply Z.div_le_lower_bound; lia).
    destruct (Z.ltb_spec (total `div` (1 * 1024 * 1024)) 1); [lia|].
    destruct (Z.ltb_spec 32 (total `div` (1 * 1024 * 1024))); lia.
Qed.

Lemma X7_segment_size_witness :
  Forall (λ sg, Constants.MIN_SEGMENT_SIZE ≤ totalSize sg)
    (m_segments
       (snd (initializeSegments 5000000 (calculateOptimalSegmentCount 5000000)
               Scheduler_new))).
Proof.
  refine (proj1 (proj2 (proj2 (proj2
            (X7_no_segment_below_min_segment_size 5000000 Scheduler_new _)))) _).
  - lia.
  - unfold Constants.MIN_SEGMENT_SIZE. lia.
Defined.

(** ** The segments after [initializeSegments] *)

Lemma scheduler_segment_spec id s h :
  scheduler_segment id s = Some h
  ↔ ∃ sg, m_segments s !! h = Some sg ∧ m_id sg = id
          ∧ ∀ j y, m_segments s !! j = Some y → (j < h)%nat → m_id y ≠ id.
Proof.
  unfold scheduler_segment. split.
  - destruct (list_find _ _) as [[i x]|] eqn:Hfind; [|done]. cbn. intros [= <-].
    apply list_find_Some in Hfind. by exists x.
  - intros (sg & Hsg & Hid & Hfirst).
    rewrite (proj2 (list_find_Some (λ sg, m_id sg = id) (m_segments s) h sg)); done.
Qed.

(** X8.  [initializeSegments] drops what the scheduler held and starts
    afresh: whatever segments there were, the new ones are numbered from 0 in
    the order of the vector, so that [segment(id)] finds segment [id] at
    index [id] and nothing for any other number; every segment is Pending at
    its start with no temp file, no retry and no error; the pending queue
    holds them all in order, the other collections are empty, and the
    scheduler is not complete. *)
Theorem X8_initializeSegments_numbers_from_zero (total count : Z) (s : Scheduler) :
  let n := clamp count Constants.MIN_SEGMENTS Constants.MAX_SEGMENTS in
  let s' := snd (initializeSegments total count s) in
  length (m_segments s') = Z.to_nat n
  ∧ 1 ≤ n ≤ 32
  ∧ fst (initializeSegments total count s) = seq 0 (Z.to_nat n)
  ∧ m_pendingQueue s' = seq 0 (Z.to_nat n)
  ∧ m_activeSegments s' = ∅ ∧ m_completedSegments s' = ∅ ∧ m_failedSegments s' = ∅
  ∧ m_nextSegmentId s' = n
  ∧ isAllComplete s' = false
  ∧ (∀ k sg, m_segments s' !! k = Some sg →
       sg = mkSegment (Z.of_nat k) (m_startByte sg) (m_endByte sg) (m_startByte sg)
              SegmentState.Pending "" 0 NoMessage)
  ∧ (∀ id, scheduler_segment id s'
           = if bool_decide (0 ≤ id < n) then Some (Z.to_nat id) else None).
Proof.
  cbv zeta. destruct (initializeSegments_length total count s) as [Hlen Hn].
  cbv zeta in Hlen, Hn.
  set (n := clamp count Constants.MIN_SEGMENTS Constants.MAX_SEGMENTS) in *.
  assert (∀ k sg, m_segments (snd (initializeSegments total count s)) !! k = Some sg →
            sg = mkSegment (Z.of_nat k) (m_startByte sg) (m_endByte sg) (m_startByte sg)
                   SegmentState.Pending "" 0 NoMessage) as Hsegs.
  { intros k sg Hk. destruct (initializeSegments_ids _ _ _ _ _ Hk) as (Hid & Hpath & Herr).
    rewrite initializeSegments_segments in Hk. cbv zeta in Hk.
    apply init_loop_lookup in Hk as (_ & Hcur & Hst & Hretry).
    destruct sg. cbn in *. by subst. }
  split; [done|]. split; [done|].
  unfold initializeSegments at 1 2 3 4 5 6 7.
  cbn [fst snd m_pendingQueue m_activeSegments m_completedSegments m_failedSegments
       m_nextSegmentId].
  rewrite !init_loop_length. fold n.
  split; [done|]. split; [done|]. do 3 (split; [done|]).
  split; [rewrite to_uint32_small; lia|].
  split.
  { unfold isAllComplete. cbn [m_pendingQueue].
    destruct (Z.to_nat n) as [|k] eqn:Hk; [lia|]. done. }
  split; [done|].
  intros id. case_bool_decide as Hid.
  - apply scheduler_segment_spec.
    destruct (lookup_lt_is_Some_2 (m_segments (snd (initializeSegments total count s)))
                (Z.to_nat id)) as [sg Hsg]; [lia|].
    exists sg. split; [done|]. split.
    + rewrite (Hsegs _ _ Hsg). cbn. lia.
    + intros j y Hj Hlt. rewrite (Hsegs _ _ Hj). cbn. lia.
  - destruct (scheduler_segment id _) as [h|] eqn:Hfind; [|done].
    apply scheduler_segment_spec in Hfind as (sg & Hsg & Hsgid & _).
    rewrite (Hsegs _ _ Hsg) in Hsgid. cbn in Hsgid.
    apply lookup_lt_Some in Hsg. lia.
Qed.

(* ===================================================================== *)
(** * Transfers *)
(* ===================================================================== *)

Lemma counters_apart_refl w : counters_apart w w.
Proof. by destruct w. Qed.

Lemma counters_apart_trans w1 w2 w3 :
  counters_apart w1 w2 → counters_apart w2 w3 → counters_apart w1 w3.
Proof. unfold counters_apart. intros -> ->. by destruct w1. Qed.

Lemma counters_apart_fields w w' :
  counters_apart w w' →
  worker_this w' = worker_this w ∧ m_filePath_dir w' = m_filePath_dir w
  ∧ m_filePath_name w' = m_filePath_name w ∧ m_currentSegment w' = m_currentSegment w
  ∧ m_curl w' = m_curl w ∧ m_shouldStop w' = m_shouldStop w
  ∧ m_isPaused w' = m_isPaused w ∧ worker_state w' = worker_state w
  ∧ worker_signals w' = worker_signals w.
Proof. unfold counters_apart. intros ->. by destruct w. Qed.

Lemma insert_over_alter {A} (l : list A) h (f : A → A) x :
  <[h := x]> (alter f h l) = <[h := x]> l.
Proof.
  apply list_eq. intros i. destruct (decide (i = h)) as [->|Hne].
  - destruct (decide (h < length l)%nat).
    + rewrite !list_lookup_insert_eq; [done..|]. by rewrite length_alter.
    + rewrite !lookup_ge_None_2; [done|..]; rewrite length_insert, ?length_alter; lia.
  - rewrite !list_lookup_insert_ne by done. by rewrite list_lookup_alter_ne.
Qed.

(** A transfer that nothing interrupts, on a disk with room for it: every
    buffer goes to the temp file and moves the position on, and libcurl's
    result is the result of the transfer. *)
Lemma curl_easy_perform_received events final w s fs file old h sg :
  Forall is_Recv events →
  m_tempFile w = Some file → m_currentSegment w = Some h →
  m_shouldStop w = false → m_isPaused w = false →
  m_segments s !! h = Some sg →
  fs_files fs !! file = Some old →
  0 ≤ m_currentByte sg →
  m_currentByte sg + Z.of_nat (length (received events)) < 2 ^ 63 →
  Z.of_nat (length (received events)) ≤ fs_room fs →
  ∃ w',
    curl_easy_perform events final w s fs
    = (final, w',
       with_segments
         (<[h := setCurrentByte (m_currentByte sg + Z.of_nat (length (received events))) sg]>
            (m_segments s)) s,
       mkFileSystem (<[file := old ++ received events]> (fs_files fs))
         (fs_room fs - Z.of_nat (length (received events))) (fs_denied fs) (fs_bad_from fs))
    ∧ counters_apart w w'.
Proof.
  intros Hrecv. revert w s fs old sg.
  induction Hrecv as [|ev events Hev _ IH];
    intros w s fs old sg Hfile Hcur Hstop Hpause Hsg Hold Hlo Hhi Hroom;
    cbn [curl_easy_perform received].
  - unfold progressCallback. rewrite Hstop, Hpause.
    rewrite bool_decide_eq_true_2 by done.
    exists w. split; [|apply counters_apart_refl].
    cbn [length]. rewrite Z.add_0_r, Z.sub_0_r, app_nil_r. f_equal; [f_equal|].
    + rewrite list_insert_id; [by destruct s|]. rewrite Hsg. by destruct sg.
    + destruct fs as [files room denied bad]. cbn in *. by rewrite insert_id.
  - destruct ev as [data| |]; [|done..]. cbn [received] in *.
    rewrite length_app, Nat2Z.inj_add in Hhi, Hroom.
    unfold progressCallback. rewrite Hstop, Hpause.
    rewrite bool_decide_eq_true_2 by done.
    rewrite (writeCallback_ok data w s fs file Hfile) by lia.
    rewrite bool_decide_eq_true_2 by done. rewrite Hcur, Hold. cbn [default].
    set (w1 := w_with_counters _ _ w).
    set (s1 := on_segment h (advanceBy (Z.of_nat (length data))) s).
    set (fs1 := mkFileSystem _ _ _ _).
    destruct (IH w1 s1 fs1 (old ++ data) (advanceBy (Z.of_nat (length data)) sg))
      as (w' & Heq & Hw'); try done.
    + subst s1. unfold on_segment. cbn. by rewrite list_lookup_alter_eq, Hsg.
    + subst fs1. cbn. by rewrite lookup_insert_eq.
    + cbn. rewrite to_int64_small by lia. lia.
    + cbn. rewrite to_int64_small by lia. lia.
    + subst fs1. cbn. lia.
    + exists w'. split.
      * rewrite Heq. f_equal; [f_equal|].
        -- subst s1. unfold on_segment, with_segments. cbn. f_equal.
           rewrite insert_over_alter. f_equal. unfold advanceBy, setCurrentByte. cbn.
           rewrite to_int64_small by lia. f_equal. rewrite length_app, Nat2Z.inj_add. lia.
        -- subst fs1. cbn. rewrite insert_insert_eq, <- app_assoc. f_equal.
           rewrite length_app, Nat2Z.inj_add. lia.
      * eapply counters_apart_trans; [|exact Hw']. subst w1. unfold counters_apart.
        by destruct w.
Qed.

Lemma with_segments_twice v v' s :
  with_segments v (with_segments v' s) = with_segments v s.
Proof. by destruct s. Qed.

Lemma with_segments_same s : with_segments (m_segments s) s = s.
Proof. by destruct s. Qed.

Lemma alter_as_insert {A} (l : list A) h (f : A → A) x :
  l !! h = Some x → alter f h l = <[h := f x]> l.
Proof.
  intros Hx. apply list_eq. intros i. rewrite list_lookup_alter.
  destruct (decide (h = i)) as [<-|].
  - rewrite Hx. cbn. rewrite list_lookup_insert_eq; [done|]. by eapply lookup_lt_Some.
  - by rewrite list_lookup_insert_ne.
Qed.

Lemma on_segment_as_insert h f s sg :
  m_segments s !! h = Some sg →
  on_segment h f s = with_segments (<[h := f sg]> (m_segments s)) s.
Proof. intros Hsg. unfold on_segment. by rewrite (alter_as_insert _ _ _ sg). Qed.

Lemma downloadSegment_clean h tr w s fs sg :
  m_curl w = true → m_currentSegment w = Some h →
  m_shouldStop w = false → m_isPaused w = false →
  m_segments s !! h = Some sg →
  Forall is_Recv (tr_events tr) → tr_result tr = CURLE_OK →
  temp_file_of w sg ∉ fs_denied fs →
  0 ≤ m_currentByte sg →
  m_currentByte sg + Z.of_nat (length (received (tr_events tr))) < 2 ^ 63 →
  Z.of_nat (length (received (tr_events tr))) ≤ fs_room fs →
  let path := temp_file_of w sg in
  let kept := if 0 <? downloadedBytes sg then default [] (fs_files fs !! path) else [] in
  let data := received (tr_events tr) in
  ∃ w',
    downloadSegment h tr w s fs
    = (m_endByte sg <? m_currentByte sg + Z.of_nat (length data), w',
       with_segments (<[h := after_transfer w (Z.of_nat (length data)) sg]> (m_segments s)) s,
       mkFileSystem (<[path := kept ++ data]> (fs_files fs))
         (fs_room fs - Z.of_nat (length data)) (fs_denied fs) (fs_bad_from fs))
    ∧ counters_apart w w'.
Proof.
  intros Hcurl Hcur Hstop Hpause Hsg Hrecv Hok Hdenied Hlo Hhi Hroom. cbv zeta.
  assert (h < length (m_segments s))%nat as Hlt by (by eapply lookup_lt_Some).
  unfold downloadSegment. rewrite Hcurl. cbn [negb].
  unfold openTempFile. rewrite Hsg. fold (temp_file_of w sg).
  unfold QFile_open_write. rewrite bool_decide_eq_false_2 by done. cbn [negb].
  set (path := temp_file_of w sg) in *.
  set (kept := if 0 <? downloadedBytes sg then default [] (fs_files fs !! path) else []).
  set (s1 := if bool_decide (m_tempFilePath sg = "") then _ else s).
  assert (s1 = with_segments (<[h := setTempFilePath path sg]> (m_segments s)) s) as Hs1.
  { subst s1. case_bool_decide as Hempty.
    - by apply on_segment_as_insert.
    - assert (setTempFilePath path sg = sg) as ->.
      { subst path. unfold temp_file_of. rewrite bool_decide_eq_false_2 by done.
        by destruct sg. }
      by rewrite list_insert_id, with_segments_same. }
  clearbody s1. subst s1.
  destruct (curl_easy_perform_received (tr_events tr) (tr_result tr)
              (w_with_tempFile (Some path) w)
              (with_segments (<[h := setTempFilePath path sg]> (m_segments s)) s)
              (with_files (<[path := kept]> (fs_files fs)) fs) path kept h
              (setTempFilePath path sg)) as (w2 & Heq & Hw2); try done.
  { cbn. by rewrite list_lookup_insert_eq. }
  { cbn. by rewrite lookup_insert_eq. }
  rewrite Heq, Hok. rewrite bool_decide_eq_false_2 by (intros ?; done).
  cbn [m_segments with_segments]. rewrite list_insert_insert_eq, with_segments_twice.
  rewrite list_lookup_insert_eq by done.
  unfold downloadedBytes at 1.
  cbn [m_endByte m_startByte setCurrentByte setTempFilePath m_currentByte
       fs_files with_files fs_room fs_denied fs_bad_from].
  rewrite insert_insert_eq.
  exists (closeTempFile w2). split.
  2:{ unfold counters_apart in *. rewrite Hw2. by destruct w. }
  unfold after_transfer. cbv zeta. fold path.
  destruct (Z.ltb_spec (m_endByte sg) (m_currentByte sg
                                + Z.of_nat (length (received (tr_events tr)))));
    match goal with |- context [if ?a <? ?b then _ else _] =>
      first [rewrite (proj2 (Z.ltb_lt a b)) by (cbn; lia)
            |rewrite (proj2 (Z.ltb_ge a b)) by (cbn; lia)] end.
  2:{ f_equal. f_equal.
    rewrite (on_segment_as_insert _ _ _
               (setCurrentByte (m_currentByte sg + Z.of_nat (length (received (tr_events tr))))
                  (setTempFilePath path sg)))
      by (cbn; by rewrite list_lookup_insert_eq).
    cbn [m_segments with_segments].
    by rewrite list_insert_insert_eq, with_segments_twice. }
  done.
Qed.

(** X9.  A transfer that nothing interrupts and that libcurl reports as a
    success, on a disk that takes it: the temp file of the segment (the path
    derived from the id when the segment has none yet) ends up holding the
    received bytes in their order, after what it held before when the segment
    had progress (the file is opened for appending), alone when it had none
    (the file is truncated); no other file changes; the position of the
    segment has moved by the number of bytes; and the download of the segment
    is a success exactly when the position is then past the end, else the
    segment is Failed as an incomplete download. *)
Theorem X9_clean_transfer_lands_in_temp_file
    (h : nat) (tr : Transfer) (w : SegmentWorker) (s : Scheduler) (fs : FileSystem)
    (sg : Segment) :
  m_curl w = true → m_currentSegment w = Some h →
  m_shouldStop w = false → m_isPaused w = false →
  m_segments s !! h = Some sg →
  Forall is_Recv (tr_events tr) → tr_result tr = CURLE_OK →
  temp_file_of w sg ∉ fs_denied fs →
  0 ≤ m_currentByte sg →
  m_currentByte sg + Z.of_nat (length (received (tr_events tr))) < 2 ^ 63 →
  Z.of_nat (length (received (tr_events tr))) ≤ fs_room fs →
  let path := temp_file_of w sg in
  let data := received (tr_events tr) in
  let r := downloadSegment h tr w s fs in
  let success := fst (fst (fst r)) in
  success = bool_decide (m_endByte sg < m_currentByte sg + Z.of_nat (length data))
  ∧ fs_files (snd r) !! path
    = Some ((if 0 <? downloadedBytes sg then default [] (fs_files fs !! path) else [])
            ++ data)
  ∧ (∀ p, p ≠ path → fs_files (snd r) !! p = fs_files fs !! p)
  ∧ (∃ sg', m_segments (snd (fst r)) !! h = Some sg'
            ∧ m_currentByte sg' = m_currentByte sg + Z.of_nat (length data)
            ∧ m_tempFilePath sg' = path
            ∧ m_id sg' = m_id sg ∧ m_startByte sg' = m_startByte sg
            ∧ m_endByte sg' = m_endByte sg ∧ m_retryCount sg' = m_retryCount sg
            ∧ m_state sg' = (if success then m_state sg else SegmentState.Failed)
            ∧ m_lastError sg'
              = (if success then m_lastError sg else IncompleteDownloadMsg))
  ∧ (∀ k, k ≠ h → m_segments (snd (fst r)) !! k = m_segments s !! k).
Proof.
  intros Hcurl Hcur Hstop Hpause Hsg Hrecv Hok Hdenied Hlo Hhi Hroom. cbv zeta.
  destruct (downloadSegment_clean h tr w s fs sg) as (w' & -> & _); try done.
  cbn [fst snd fs_files m_segments with_segments].
  assert (h < length (m_segments s))%nat as Hlt by (by eapply lookup_lt_Some).
  split.
  { destruct (Z.ltb_spec (m_endByte sg)
                (m_currentByte sg + Z.of_nat (length (received (tr_events tr)))));
      case_bool_decide; (done || lia). }
  split; [by rewrite lookup_insert_eq|].
  split; [intros p Hp; by rewrite lookup_insert_ne|].
  split; [|intros k Hk; by rewrite list_lookup_insert_ne].
  eexists. split; [by rewrite list_lookup_insert_eq|].
  unfold after_transfer. cbv zeta.
  by destruct (m_endByte sg <? _).
Qed.

Lemma X9_clean_transfer_witness :
  fs_files (snd (downloadSegment 0 ten_bytes_sent worker_0_ready ten_byte_acquired empty_disk))
    !! part0
  = Some (replicate 10 Byte.x78).
Proof.
  refine (proj1 (proj2 (X9_clean_transfer_lands_in_temp_file 0 ten_bytes_sent worker_0_ready
                          ten_byte_acquired empty_disk
                          (mkSegment 0 0 9 0 SegmentState.Active "" 0 NoMessage)
                          _ _ _ _ _ _ _ _ _ _ _))); try reflexivity.
  - repeat constructor.
  - vm_compute. intros H. discriminate H.
  - vm_compute. discriminate.
Defined.

(** ** An answer with an HTTP error status *)

Lemma worker_options_no_failonerror :
  CURLOPT_FAILONERROR ∉ (initCurl_options ++ configureCurl_options).
Proof. apply (bool_decide_unpack _). by vm_compute. Qed.

Lemma http_answer_plain httpCode body :
  http_answer (initCurl_options ++ configureCurl_options) httpCode body
  = mkTransfer (Recv <$> body) CURLE_OK httpCode.
Proof.
  unfold http_answer.
  by rewrite (bool_decide_eq_false_2 _ worker_options_no_failonerror).
Qed.

Lemma received_Recv (body : list bytes) : received (Recv <$> body) = concat body.
Proof. induction body as [|data body IH]; [done|]. cbn. by rewrite IH. Qed.

Lemma Forall_is_Recv (body : list bytes) : Forall is_Recv (Recv <$> body).
Proof. apply Forall_fmap, Forall_forall. by intros data _. Qed.

(** What [curl_easy_perform] reports is the result of the transfer, unless a
    callback ended it. *)
Lemma curl_easy_perform_code events final w s fs :
  let code := fst (fst (fst (curl_easy_perform events final w s fs))) in
  code = final ∨ code = CURLE_ABORTED_BY_CALLBACK ∨ code = CURLE_WRITE_ERROR.
Proof.
  cbv zeta. revert w s fs.
  induction events as [|[data| |] events IH]; intros w s fs; cbn [curl_easy_perform].
  - case_bool_decide; cbn; auto.
  - case_bool_decide; [|cbn; auto].
    destruct (writeCallback data w s fs) as [[[ret w1] s1] fs1].
    case_bool_decide; [apply IH | cbn; auto].
  - apply IH.
  - apply IH.
Qed.

(** [downloadSegment] reads the HTTP status in [handleCurlError] alone, for
    the result [CURLE_HTTP_RETURNED_ERROR]: a transfer that libcurl reports
    as a success goes the same way whatever its status. *)
Lemma downloadSegment_status_unread h events status status' w s fs :
  downloadSegment h (mkTransfer events CURLE_OK status) w s fs
  = downloadSegment h (mkTransfer events CURLE_OK status') w s fs.
Proof.
  unfold downloadSegment. destruct (negb (m_curl w)); [done|].
  destruct (openTempFile h w s fs) as [[[opened w1] s1] fs1].
  destruct (negb opened); [done|].
  cbn [tr_events tr_result tr_httpCode].
  pose proof (curl_easy_perform_code events CURLE_OK w1 s1 fs1) as Hcode.
  destruct (curl_easy_perform events CURLE_OK w1 s1 fs1) as [[[result w2] s2] fs2].
  cbn in Hcode. by destruct Hcode as [-> | [-> | ->]].
Qed.

(** C6.  A server answers the GET of a segment with an HTTP error status and
    a page.  The worker never sets [CURLOPT_FAILONERROR], so libcurl reports
    the transfer as a success and [handleCurlError] is not called: the
    worker emits no [errorOccurred], no error of any category exists, and the
    outcome is the same for every status, 404, 408, 429 and 503 as for 200.
    The page is written to the temp file of the segment as if it were the
    data and moves the position on.  When the page is at least as long as
    the bytes that were missing the download of the segment is a success;
    when it is shorter the segment is Failed as an incomplete download and,
    with retries left, [releaseSegment] puts it back to the end of the queue:
    the segment of a request the server refuses is queued again.  The case of
    [handleCurlError] for [CURLE_HTTP_RETURNED_ERROR], which no transfer of
    the worker reaches, takes the status as the code of the error and gives
    every status the recoverable category ServerError: it sets apart neither
    the 4xx statuses nor 408 and 429. *)
Theorem C6_http_error_answer_not_classified
    (httpCode : Z) (body : list bytes) (h : nat) (sg : Segment)
    (w : SegmentWorker) (s : Scheduler) (fs : FileSystem) :
  400 ≤ httpCode →
  m_curl w = true → m_currentSegment w = Some h →
  m_shouldStop w = false → m_isPaused w = false →
  m_segments s !! h = Some sg →
  temp_file_of w sg ∉ fs_denied fs →
  0 ≤ m_currentByte sg →
  m_currentByte sg + Z.of_nat (length (concat body)) < 2 ^ 63 →
  Z.of_nat (length (concat body)) ≤ fs_room fs →
  let options := initCurl_options ++ configureCurl_options in
  let answer := http_answer options httpCode body in
  let r := downloadSegment h answer w s fs in
  let success := fst (fst (fst r)) in
  let page := concat body in
  let path := temp_file_of w sg in
  (CURLOPT_FAILONERROR ∉ options)
  ∧ answer = mkTransfer (Recv <$> body) CURLE_OK httpCode
  ∧ (∀ status, r = downloadSegment h (http_answer options status body) w s fs)
  ∧ worker_signals (snd (fst (fst r))) = worker_signals w
  ∧ fs_files (snd r) !! path
    = Some ((if 0 <? downloadedBytes sg then default [] (fs_files fs !! path) else [])
            ++ page)
  ∧ success = bool_decide (m_endByte sg < m_currentByte sg + Z.of_nat (length page))
  ∧ (∃ sg', m_segments (snd (fst r)) !! h = Some sg'
            ∧ m_currentByte sg' = m_currentByte sg + Z.of_nat (length page)
            ∧ m_retryCount sg' = m_retryCount sg
            ∧ m_state sg' = (if success then m_state sg else SegmentState.Failed)
            ∧ m_lastError sg'
              = (if success then m_lastError sg else IncompleteDownloadMsg))
  ∧ (success = false → m_retryCount sg < Constants.MAX_RETRIES →
       let released := releaseSegment (worker_this w) (Some h) (snd (fst r)) in
       m_pendingQueue released = m_pendingQueue s ++ [h]
       ∧ m_failedSegments released = m_failedSegments s
       ∧ m_signals released = m_signals s
       ∧ m_state <$> m_segments released !! h = Some SegmentState.Pending)
  ∧ (∀ segment,
       let error := handleCurlError CURLE_HTTP_RETURNED_ERROR httpCode segment in
       errorCode error = httpCode
       ∧ category error = ErrorCategory.ServerError
       ∧ isRecoverable error = true
       ∧ category error ≠ ErrorCategory.ClientError
       ∧ category error ≠ ErrorCategory.Network)
  ∧ (∀ e, category e = ErrorCategory.ClientError → isRecoverable e = false).
Proof.
  intros Hstatus Hcurl Hcur Hstop Hpause Hsg Hdenied Hlo Hhi Hroom. cbv zeta.
  split; [apply worker_options_no_failonerror|].
  split; [apply http_answer_plain|].
  split.
  { intros status. rewrite !http_answer_plain. apply downloadSegment_status_unread. }
  rewrite http_answer_plain.
  destruct (downloadSegment_clean h (mkTransfer (Recv <$> body) CURLE_OK httpCode) w s fs sg)
    as (w' & -> & Hw'); try done.
  { apply Forall_is_Recv. }
  { cbn [tr_events]. by rewrite received_Recv. }
  { cbn [tr_events]. by rewrite received_Recv. }
  cbn [tr_events fst snd fs_files m_segments with_segments]. rewrite received_Recv.
  assert (h < length (m_segments s))%nat as Hlt by (by eapply lookup_lt_Some).
  split; [by destruct (counters_apart_fields w w' Hw') as (_ & _ & _ & _ & _ & _ & _ & _ & ?)|].
  split; [by rewrite lookup_insert_eq|].
  assert ((m_endByte sg <? m_currentByte sg + Z.of_nat (length (concat body)))
          = bool_decide (m_endByte sg < m_currentByte sg + Z.of_nat (length (concat body))))
    as Hsuccess.
  { destruct (Z.ltb_spec (m_endByte sg) (m_currentByte sg + Z.of_nat (length (concat body))));
      case_bool_decide; (done || lia). }
  split; [done|].
  split.
  { eexists. split; [by rewrite list_lookup_insert_eq|].
    unfold after_transfer. cbv zeta.
    by destruct (m_endByte sg <? _). }
  split.
  { intros Hfail Hretry.
    set (s1 := with_segments _ s).
    assert (m_segments s1 !! h
            = Some (after_transfer w (Z.of_nat (length (concat body))) sg)) as Hlook
      by (subst s1; cbn; by rewrite list_lookup_insert_eq).
    assert (m_state (after_transfer w (Z.of_nat (length (concat body))) sg)
            = SegmentState.Failed) as Hstate
      by (unfold after_transfer; cbv zeta; by rewrite Hfail).
    assert (m_retryCount (after_transfer w (Z.of_nat (length (concat body))) sg)
            = m_retryCount sg) as Hcount
      by (unfold after_transfer; cbv zeta; by rewrite Hfail).
    destruct (proj1 (releaseSegment_failed (worker_this w) h _ s1 Hlook Hstate))
      as (Hseg & Hq & Hf & Hsig); [by rewrite Hcount|].
    cbv zeta. rewrite Hseg, Hq, Hf, Hsig. done. }
  split.
  { intros segment. cbv zeta. cbn. repeat split; done. }
  intros e He. unfold isRecoverable. by rewrite He.
Qed.

Lemma C6_http_error_answer_witness :
  (let r := downloadSegment 0
              (http_answer (initCurl_options ++ configureCurl_options) 404 [not_found_page])
              worker_0_ready ten_byte_acquired empty_disk in
   fst (fst (fst r)) = false
   ∧ worker_signals (snd (fst (fst r))) = []
   ∧ fs_files (snd r) !! part0 = Some not_found_page
   ∧ m_pendingQueue (releaseSegment 0 (Some 0%nat) (snd (fst r))) = [0%nat])
  ∧ (let r := downloadSegment 0
                (http_answer (initCurl_options ++ configureCurl_options) 404
                   [not_found_404_page])
                worker_0_ready ten_byte_acquired empty_disk in
     fst (fst (fst r)) = true
     ∧ worker_signals (snd (fst (fst r))) = []
     ∧ fs_files (snd r) !! part0 = Some not_found_404_page).
Proof.
  assert (400 ≤ 404) as Hstatus by lia.
  assert (m_segments ten_byte_acquired !! 0%nat
          = Some (mkSegment 0 0 9 0 SegmentState.Active "" 0 NoMessage)) as Hsg
    by reflexivity.
  assert (temp_file_of worker_0_ready (mkSegment 0 0 9 0 SegmentState.Active "" 0 NoMessage)
          ∉ fs_denied empty_disk) as Hdenied by (vm_compute; intros H; discriminate H).
  assert (0 ≤ m_currentByte (mkSegment 0 0 9 0 SegmentState.Active "" 0 NoMessage)) as Hlo
    by (vm_compute; discriminate).
  split; cbv zeta.
  - destruct (C6_http_error_answer_not_classified 404 [not_found_page] 0
                (mkSegment 0 0 9 0 SegmentState.Active "" 0 NoMessage)
                worker_0_ready ten_byte_acquired empty_disk Hstatus eq_refl eq_refl eq_refl
                eq_refl Hsg Hdenied Hlo)
      as (_ & _ & _ & Hsignals & Hfile & Hsuccess & _ & Hreleased & _).
    { vm_compute. reflexivity. }
    { vm_compute. discriminate. }
    cbv zeta in Hsuccess, Hreleased.
    split; [rewrite Hsuccess; by vm_compute|].
    split; [exact Hsignals|].
    split; [exact Hfile|].
    destruct Hreleased as (Hq & _).
    + rewrite Hsuccess. by vm_compute.
    + vm_compute. reflexivity.
    + exact Hq.
  - destruct (C6_http_error_answer_not_classified 404 [not_found_404_page] 0
                (mkSegment 0 0 9 0 SegmentState.Active "" 0 NoMessage)
                worker_0_ready ten_byte_acquired empty_disk Hstatus eq_refl eq_refl eq_refl
                eq_refl Hsg Hdenied Hlo)
      as (_ & _ & _ & Hsignals & Hfile & Hsuccess & _).
    { vm_compute. reflexivity. }
    { vm_compute. discriminate. }
    cbv zeta in Hsuccess.
    split; [rewrite Hsuccess; by vm_compute|].
    split; [exact Hsignals|]. exact Hfile.
Defined.

(** X10.  A download whose size is not known ([total_size <= 0], the -1 of
    the constructor included) is one segment [[0, total_size - 1]], whose
    end is before its start; the check for an incomplete download compares
    with this range, so any transfer that libcurl reports as a success
    completes the download, whatever number of bytes it delivered, none
    included. *)
Theorem X10_unknown_size_completes_with_whatever_arrives (t : DownloadTask) :
  - 2 ^ 63 ≤ m_totalSize t ≤ 0 →
  m_segments (m_scheduler (task_initializeSegments t))
  = [Segment_new 0 0 (m_totalSize t - 1)]
  ∧ ∀ h tr w s fs sg,
      m_curl w = true → m_currentSegment w = Some h →
      m_shouldStop w = false → m_isPaused w = false →
      m_segments s !! h = Some sg →
      m_startByte sg = 0 → m_currentByte sg = 0 → m_endByte sg = m_totalSize t - 1 →
      Forall is_Recv (tr_events tr) → tr_result tr = CURLE_OK →
      temp_file_of w sg ∉ fs_denied fs →
      Z.of_nat (length (received (tr_events tr))) < 2 ^ 63 →
      Z.of_nat (length (received (tr_events tr))) ≤ fs_room fs →
      fst (fst (fst (downloadSegment h tr w s fs))) = true
      ∧ fs_files (snd (downloadSegment h tr w s fs)) !! temp_file_of w sg
        = Some (received (tr_events tr)).
Proof.
  intros Ht. split; [apply task_initializeSegments_single; [lia|right; lia]|].
  intros h tr w s fs sg Hcurl Hcur Hstop Hpause Hsg Hstart Hpos Hend Hrecv Hok Hdenied
    Hlen Hroom.
  destruct (downloadSegment_clean h tr w s fs sg) as (w' & -> & _); try done; try lia.
  cbn [fst snd fs_files]. rewrite lookup_insert_eq.
  unfold downloadedBytes. rewrite Hstart, Hpos, Hend. cbn [Z.sub Z.ltb Z.compare app].
  split; [|done]. apply Z.ltb_lt. lia.
Qed.

Lemma X10_unknown_size_witness :
  m_segments (m_scheduler (task_initializeSegments task_of_unknown_size))
  = [Segment_new 0 0 (m_totalSize task_of_unknown_size - 1)].
Proof.
  refine (proj1 (X10_unknown_size_completes_with_whatever_arrives task_of_unknown_size _)).
  vm_compute. split; discriminate.
Defined.

(* ===================================================================== *)
(** * Interrupted transfers *)
(* ===================================================================== *)

(** The buffers that arrive before anything interrupts the transfer. *)
Lemma curl_easy_perform_prefix pre rest final w s fs file old h sg :
  Forall is_Recv pre →
  m_tempFile w = Some file → m_currentSegment w = Some h →
  m_shouldStop w = false → m_isPaused w = false →
  m_segments s !! h = Some sg →
  fs_files fs !! file = Some old →
  0 ≤ m_currentByte sg →
  m_currentByte sg + Z.of_nat (length (received pre)) < 2 ^ 63 →
  Z.of_nat (length (received pre)) ≤ fs_room fs →
  ∃ w',
    curl_easy_perform (pre ++ rest) final w s fs
    = curl_easy_perform rest final w'
        (with_segments
           (<[h := setCurrentByte (m_currentByte sg + Z.of_nat (length (received pre))) sg]>
              (m_segments s)) s)
        (mkFileSystem (<[file := old ++ received pre]> (fs_files fs))
           (fs_room fs - Z.of_nat (length (received pre))) (fs_denied fs) (fs_bad_from fs))
    ∧ counters_apart w w' ∧ m_tempFile w' = Some file.
Proof.
  intros Hrecv. revert w s fs old sg.
  induction Hrecv as [|ev events Hev _ IH];
    intros w s fs old sg Hfile Hcur Hstop Hpause Hsg Hold Hlo Hhi Hroom;
    cbn [app curl_easy_perform received].
  - exists w. split; [|split; [apply counters_apart_refl|done]].
    cbn [length]. rewrite Z.add_0_r, Z.sub_0_r, app_nil_r. f_equal.
    + rewrite list_insert_id; [by rewrite with_segments_same|]. rewrite Hsg. by destruct sg.
    + destruct fs as [files room denied bad]. cbn in *. by rewrite insert_id.
  - destruct ev as [data| |]; [|done..]. cbn [received] in *.
    rewrite length_app, Nat2Z.inj_add in Hhi, Hroom.
    rewrite (bool_decide_eq_true_2 (progressCallback w = 0))
      by (unfold progressCallback; by rewrite Hstop, Hpause).
    rewrite (writeCallback_ok data w s fs file Hfile) by lia.
    rewrite bool_decide_eq_true_2 by done. rewrite Hcur, Hold. cbn [default].
    set (w1 := w_with_counters _ _ w).
    set (s1 := on_segment h (advanceBy (Z.of_nat (length data))) s).
    set (fs1 := mkFileSystem _ _ _ _).
    destruct (IH w1 s1 fs1 (old ++ data) (advanceBy (Z.of_nat (length data)) sg))
      as (w' & Heq & Hw' & Hfile'); try done.
    + subst s1. unfold on_segment. cbn. by rewrite list_lookup_alter_eq, Hsg.
    + subst fs1. cbn. by rewrite lookup_insert_eq.
    + cbn. rewrite to_int64_small by lia. lia.
    + cbn. rewrite to_int64_small by lia. lia.
    + subst fs1. cbn. lia.
    + exists w'. split; [|split; [|done]].
      * rewrite Heq. f_equal.
        -- subst s1. unfold on_segment, with_segments. cbn. f_equal.
           rewrite insert_over_alter. f_equal. unfold advanceBy, setCurrentByte. cbn.
           rewrite to_int64_small by lia. f_equal. rewrite length_app, Nat2Z.inj_add. lia.
        -- subst fs1. cbn. rewrite insert_insert_eq, <- app_assoc. f_equal.
           rewrite length_app, Nat2Z.inj_add. lia.
      * eapply counters_apart_trans; [|exact Hw']. subst w1. unfold counters_apart.
        by destruct w.
Qed.

(** Once the worker is asked to stop, the transfer ends as aborted without
    another byte written. *)
Lemma curl_easy_perform_stopped events final w s fs :
  m_shouldStop w = true →
  ∃ w', curl_easy_perform events final w s fs = (CURLE_ABORTED_BY_CALLBACK, w', s, fs)
        ∧ m_shouldStop w' = true ∧ worker_this w' = worker_this w.
Proof.
  revert w. induction events as [|ev events IH]; intros w Hstop; cbn [curl_easy_perform].
  - unfold progressCallback. rewrite Hstop. rewrite bool_decide_eq_false_2 by done.
    by exists w.
  - destruct ev as [data| |].
    + unfold progressCallback. rewrite Hstop. rewrite bool_decide_eq_false_2 by done.
      by exists w.
    + destruct (IH (worker_stop w)) as (w' & -> & ? & ?); [done|]. by exists w'.
    + destruct (IH (worker_pause w)) as (w' & -> & ? & ?); [done|]. by exists w'.
Qed.

(** Once the worker is paused, and as long as it is not asked to stop, the
    transfer ends as aborted without another byte written. *)
Lemma curl_easy_perform_paused events final w s fs :
  m_shouldStop w = false → m_isPaused w = true → StopRequested ∉ events →
  ∃ w', curl_easy_perform events final w s fs = (CURLE_ABORTED_BY_CALLBACK, w', s, fs)
        ∧ m_shouldStop w' = false ∧ m_isPaused w' = true
        ∧ worker_this w' = worker_this w.
Proof.
  revert w. induction events as [|ev events IH]; intros w Hstop Hpause Hno;
    cbn [curl_easy_perform].
  - unfold progressCallback. rewrite Hstop, Hpause. rewrite bool_decide_eq_false_2 by done.
    by exists w.
  - destruct ev as [data| |].
    + unfold progressCallback. rewrite Hstop, Hpause.
      rewrite bool_decide_eq_false_2 by done. by exists w.
    + exfalso. apply Hno. left.
    + destruct (IH (worker_pause w)) as (w' & -> & ? & ? & ?); try done.
      * intros Hin. apply Hno. by right.
      * by exists w'.
Qed.

Lemma openTempFile_ok h w s fs sg :
  m_curl w = true →
  m_segments s !! h = Some sg →
  temp_file_of w sg ∉ fs_denied fs →
  let path := temp_file_of w sg in
  let kept := if 0 <? downloadedBytes sg then default [] (fs_files fs !! path) else [] in
  openTempFile h w s fs
  = (true, w_with_tempFile (Some path) w,
     with_segments (<[h := setTempFilePath path sg]> (m_segments s)) s,
     with_files (<[path := kept]> (fs_files fs)) fs).
Proof.
  intros Hcurl Hsg Hdenied. cbv zeta.
  unfold openTempFile. rewrite Hsg. fold (temp_file_of w sg).
  unfold QFile_open_write. rewrite bool_decide_eq_false_2 by done.
  set (path := temp_file_of w sg) in *.
  f_equal. f_equal.
  case_bool_decide as Hempty.
  - by apply on_segment_as_insert.
  - assert (setTempFilePath path sg = sg) as ->.
    { subst path. unfold temp_file_of. rewrite bool_decide_eq_false_2 by done.
      by destruct sg. }
    by rewrite list_insert_id, with_segments_same.
Qed.

Lemma downloadSegment_stopped h tr w s fs sg pre post :
  m_curl w = true → m_currentSegment w = Some h →
  m_shouldStop w = false → m_isPaused w = false →
  m_segments s !! h = Some sg →
  tr_events tr = pre ++ StopRequested :: post → Forall is_Recv pre →
  temp_file_of w sg ∉ fs_denied fs →
  0 ≤ m_currentByte sg →
  m_currentByte sg + Z.of_nat (length (received pre)) < 2 ^ 63 →
  Z.of_nat (length (received pre)) ≤ fs_room fs →
  let path := temp_file_of w sg in
  let kept := if 0 <? downloadedBytes sg then default [] (fs_files fs !! path) else [] in
  ∃ w',
    downloadSegment h tr w s fs
    = (false, w',
       with_segments (<[h := after_abort w (Z.of_nat (length (received pre))) sg]>
                        (m_segments s)) s,
       mkFileSystem (<[path := kept ++ received pre]> (fs_files fs))
         (fs_room fs - Z.of_nat (length (received pre))) (fs_denied fs) (fs_bad_from fs))
    ∧ m_shouldStop w' = true ∧ worker_this w' = worker_this w.
Proof.
  intros Hcurl Hcur Hstop Hpause Hsg Hev Hrecv Hdenied Hlo Hhi Hroom. cbv zeta.
  assert (h < length (m_segments s))%nat as Hlt by (by eapply lookup_lt_Some).
  unfold downloadSegment. rewrite Hcurl. cbn [negb].
  rewrite (openTempFile_ok h w s fs sg) by done. cbv zeta. cbn [negb].
  set (path := temp_file_of w sg) in *.
  set (kept := if 0 <? downloadedBytes sg then default [] (fs_files fs !! path) else []).
  rewrite Hev.
  destruct (curl_easy_perform_prefix pre (StopRequested :: post) (tr_result tr)
              (w_with_tempFile (Some path) w)
              (with_segments (<[h := setTempFilePath path sg]> (m_segments s)) s)
              (with_files (<[path := kept]> (fs_files fs)) fs) path kept h
              (setTempFilePath path sg)) as (w1 & -> & Hw1 & _); try done.
  { cbn. by rewrite list_lookup_insert_eq. }
  { cbn. by rewrite lookup_insert_eq. }
  cbn [curl_easy_perform].
  destruct (curl_easy_perform_stopped post (tr_result tr) (worker_stop w1)
              (with_segments
                 (<[h := setCurrentByte
                           (m_currentByte (setTempFilePath path sg)
                            + Z.of_nat (length (received pre))) (setTempFilePath path sg)]>
                    (m_segments
                       (with_segments (<[h := setTempFilePath path sg]> (m_segments s)) s)))
                 (with_segments (<[h := setTempFilePath path sg]> (m_segments s)) s))
              (mkFileSystem
                 (<[path := kept ++ received pre]>
                    (fs_files (with_files (<[path := kept]> (fs_files fs)) fs)))
                 (fs_room (with_files (<[path := kept]> (fs_files fs)) fs)
                  - Z.of_nat (length (received pre)))
                 (fs_denied (with_files (<[path := kept]> (fs_files fs)) fs))
                 (fs_bad_from (with_files (<[path := kept]> (fs_files fs)) fs))))
    as (w2 & -> & Hstop2 & Hthis2); [done|].
  rewrite bool_decide_eq_true_2 by done.
  rewrite (bool_decide_eq_true_2 (CURLE_ABORTED_BY_CALLBACK = CURLE_ABORTED_BY_CALLBACK))
    by done.
  assert (m_shouldStop (closeTempFile w2) = true) as -> by done.
  cbn [andb]. exists (closeTempFile w2). split; [|split; [done|]].
  - cbn [m_segments with_segments fs_files with_files fs_room fs_denied fs_bad_from
         m_currentByte setTempFilePath].
    rewrite list_insert_insert_eq, with_segments_twice, insert_insert_eq. done.
  - cbn. rewrite Hthis2. cbn. by destruct (counters_apart_fields _ _ Hw1) as (-> & _).
Qed.

Lemma acquireSegment_pending worker s h q :
  m_paused s || m_cancelled s = false → m_pendingQueue s = h :: q →
  acquireSegment worker s
  = (Some h,
     with_workerAssignments (<[worker := h]> (m_workerAssignments s))
       (with_activeSegments ({[h]} ∪ m_activeSegments s)
          (on_segment h (setState SegmentState.Active) (with_pendingQueue q s)))).
Proof. intros Hflags Hq. unfold acquireSegment. by rewrite Hflags, Hq. Qed.

(** X11.  A worker that is asked to stop in the middle of a transfer gives
    its segment back: the bytes that arrived before are in the temp file and
    counted in the position, the segment is Pending again at the back of the
    queue, it is neither failed nor completed and its retries are not
    counted, no signal goes out, and the worker leaves its loop. *)
Theorem X11_stopped_worker_gives_segment_back
    (fuel : nat) (tr : Transfer) (rest : list Transfer) (pre post : list TransferEvent)
    (w : SegmentWorker) (s : Scheduler) (fs : FileSystem)
    (h : nat) (q : list nat) (sg : Segment) :
  m_curl w = true → m_shouldStop w = false → m_isPaused w = false →
  m_paused s || m_cancelled s = false →
  m_pendingQueue s = h :: q → m_segments s !! h = Some sg →
  tr_events tr = pre ++ StopRequested :: post → Forall is_Recv pre →
  temp_file_of w sg ∉ fs_denied fs →
  0 ≤ m_currentByte sg →
  m_currentByte sg + Z.of_nat (length (received pre)) < 2 ^ 63 →
  Z.of_nat (length (received pre)) ≤ fs_room fs →
  let path := temp_file_of w sg in
  ∃ w' s' fs',
    run_loop (S fuel) (tr :: rest) w s fs = Finished w' s' fs'
    ∧ m_pendingQueue s' = q ++ [h]
    ∧ m_segments s' !! h
      = Some (setState SegmentState.Pending
                (setCurrentByte (m_currentByte sg + Z.of_nat (length (received pre)))
                   (setTempFilePath path sg)))
    ∧ (∀ k, k ≠ h → m_segments s' !! k = m_segments s !! k)
    ∧ m_activeSegments s' = m_activeSegments s ∖ {[h]}
    ∧ m_completedSegments s' = m_completedSegments s
    ∧ m_failedSegments s' = m_failedSegments s
    ∧ m_signals s' = m_signals s
    ∧ fs_files fs' !! path
      = Some ((if 0 <? downloadedBytes sg then default [] (fs_files fs !! path) else [])
              ++ received pre)
    ∧ (∀ p, p ≠ path → fs_files fs' !! p = fs_files fs !! p).
Proof.
  intros Hcurl Hstop Hpause Hflags Hq Hsg Hev Hrecv Hdenied Hlo Hhi Hroom. cbv zeta.
  assert (h < length (m_segments s))%nat as Hlt by (by eapply lookup_lt_Some).
  cbn [run_loop]. unfold shouldContinue at 1. rewrite Hstop, Hpause. cbn [negb].
  rewrite (acquireSegment_pending _ s h q Hflags Hq).
  set (s1 := with_workerAssignments _ _).
  set (w2 := w_with_counters _ _ _).
  assert (m_segments s1 !! h = Some (setState SegmentState.Active sg)) as Hsg1.
  { subst s1. unfold on_segment. cbn. by rewrite list_lookup_alter_eq, Hsg. }
  assert (temp_file_of w2 (setState SegmentState.Active sg) = temp_file_of w sg) as Hpath
    by done.
  destruct (downloadSegment_stopped h tr w2 s1 fs (setState SegmentState.Active sg) pre post)
    as (w3 & Hdl & Hstop3 & Hthis3); try done.
  cbv zeta in Hdl. rewrite Hdl, Hpath. clear Hdl.
  set (s2 := with_segments _ s1).
  set (fs2 := mkFileSystem _ _ _ _).
  assert (m_segments s2 !! h
          = Some (after_abort w2 (Z.of_nat (length (received pre)))
                    (setState SegmentState.Active sg))) as Hsg2.
  { subst s2. cbn. rewrite list_lookup_insert_eq; [done|].
    subst s1. unfold on_segment. cbn. by rewrite length_alter. }
  assert (shouldContinue (w_with_currentSegment None w3) = false) as Hcont.
  { unfold shouldContinue. cbn. by rewrite Hstop3. }
  rewrite Hcont. cbn [negb andb]. unfold run_cleanup.
  eexists _, _, _. split; [reflexivity|].
  unfold releaseSegment. cbn [m_segments with_workerAssignments with_activeSegments].
  rewrite Hsg2. cbn [m_state after_abort setCurrentByte setTempFilePath setState].
  unfold unregisterWorker, on_segment.
  cbn [m_pendingQueue m_segments m_activeSegments m_completedSegments m_failedSegments
       m_signals with_pendingQueue with_segments with_workerAssignments with_workers
       with_activeSegments].
  subst s2 s1 fs2. unfold on_segment.
  cbn [m_pendingQueue m_segments m_activeSegments m_completedSegments m_failedSegments
       m_signals with_pendingQueue with_segments with_workerAssignments with_workers
       with_activeSegments fs_files].
  split; [done|].
  split.
  { rewrite list_lookup_alter_eq, list_lookup_insert_eq by (by rewrite length_alter).
    done. }
  split.
  { intros k Hk. rewrite list_lookup_alter_ne, list_lookup_insert_ne by done.
    by rewrite list_lookup_alter_ne. }
  split.
  { apply set_eq. intros x. rewrite !elem_of_difference, elem_of_union, elem_of_singleton.
    tauto. }
  do 3 (split; [done|]).
  split; [by rewrite lookup_insert_eq|].
  intros p Hp. by rewrite lookup_insert_ne.
Qed.

Lemma downloadSegment_paused h tr w s fs sg pre post :
  m_curl w = true → m_currentSegment w = Some h →
  m_shouldStop w = false → m_isPaused w = false →
  m_segments s !! h = Some sg →
  tr_events tr = pre ++ PauseRequested :: post → Forall is_Recv pre →
  StopRequested ∉ post →
  temp_file_of w sg ∉ fs_denied fs →
  0 ≤ m_currentByte sg →
  m_currentByte sg + Z.of_nat (length (received pre)) < 2 ^ 63 →
  Z.of_nat (length (received pre)) ≤ fs_room fs →
  let path := temp_file_of w sg in
  let kept := if 0 <? downloadedBytes sg then default [] (fs_files fs !! path) else [] in
  ∃ w',
    downloadSegment h tr w s fs
    = (false, w',
       with_segments
         (<[h := setState SegmentState.Paused
                   (after_abort w (Z.of_nat (length (received pre))) sg)]>
            (m_segments s)) s,
       mkFileSystem (<[path := kept ++ received pre]> (fs_files fs))
         (fs_room fs - Z.of_nat (length (received pre))) (fs_denied fs) (fs_bad_from fs))
    ∧ m_shouldStop w' = false ∧ m_isPaused w' = true ∧ worker_this w' = worker_this w.
Proof.
  intros Hcurl Hcur Hstop Hpause Hsg Hev Hrecv Hno Hdenied Hlo Hhi Hroom. cbv zeta.
  assert (h < length (m_segments s))%nat as Hlt by (by eapply lookup_lt_Some).
  unfold downloadSegment. rewrite Hcurl. cbn [negb].
  rewrite (openTempFile_ok h w s fs sg) by done. cbv zeta. cbn [negb].
  set (path := temp_file_of w sg) in *.
  set (kept := if 0 <? downloadedBytes sg then default [] (fs_files fs !! path) else []).
  rewrite Hev.
  destruct (curl_easy_perform_prefix pre (PauseRequested :: post) (tr_result tr)
              (w_with_tempFile (Some path) w)
              (with_segments (<[h := setTempFilePath path sg]> (m_segments s)) s)
              (with_files (<[path := kept]> (fs_files fs)) fs) path kept h
              (setTempFilePath path sg)) as (w1 & -> & Hw1 & _); try done.
  { cbn. by rewrite list_lookup_insert_eq. }
  { cbn. by rewrite lookup_insert_eq. }
  cbn [curl_easy_perform].
  destruct (counters_apart_fields _ _ Hw1) as (Hthis1 & _ & _ & _ & _ & Hstop1 & _).
  destruct (curl_easy_perform_paused post (tr_result tr) (worker_pause w1)
              (with_segments
                 (<[h := setCurrentByte
                           (m_currentByte (setTempFilePath path sg)
                            + Z.of_nat (length (received pre))) (setTempFilePath path sg)]>
                    (m_segments
                       (with_segments (<[h := setTempFilePath path sg]> (m_segments s)) s)))
                 (with_segments (<[h := setTempFilePath path sg]> (m_segments s)) s))
              (mkFileSystem
                 (<[path := kept ++ received pre]>
                    (fs_files (with_files (<[path := kept]> (fs_files fs)) fs)))
                 (fs_room (with_files (<[path := kept]> (fs_files fs)) fs)
                  - Z.of_nat (length (received pre)))
                 (fs_denied (with_files (<[path := kept]> (fs_files fs)) fs))
                 (fs_bad_from (with_files (<[path := kept]> (fs_files fs)) fs))))
    as (w2 & -> & Hstop2 & Hpause2 & Hthis2); [by rewrite <- Hstop|done..|].
  rewrite bool_decide_eq_true_2 by done.
  rewrite (bool_decide_eq_true_2 (CURLE_ABORTED_BY_CALLBACK = CURLE_ABORTED_BY_CALLBACK))
    by done.
  assert (m_shouldStop (closeTempFile w2) = false) as -> by done.
  assert (m_isPaused (closeTempFile w2) = true) as -> by done.
  cbn [andb]. exists (closeTempFile w2). split; [|split; [done|split; [done|]]].
  - cbn [m_segments with_segments fs_files with_files fs_room fs_denied fs_bad_from
         m_currentByte setTempFilePath].
    rewrite list_insert_insert_eq, with_segments_twice, insert_insert_eq.
    rewrite (on_segment_as_insert _ _ _ (after_abort w (Z.of_nat (length (received pre))) sg))
      by (cbn; by rewrite list_lookup_insert_eq).
    cbn [m_segments with_segments].
    by rewrite list_insert_insert_eq, with_segments_twice.
  - cbn. rewrite Hthis2. cbn. done.
Qed.

(** X12.  A worker that is paused in the middle of a transfer parks its
    segment: the bytes that arrived before are in the temp file and counted
    in the position, the segment is Paused at the front of the queue,
    neither failed nor completed, no signal goes out, and the worker waits
    in its loop to be resumed. *)
Theorem X12_paused_worker_parks_segment
    (fuel : nat) (tr : Transfer) (rest : list Transfer) (pre post : list TransferEvent)
    (w : SegmentWorker) (s : Scheduler) (fs : FileSystem)
    (h : nat) (q : list nat) (sg : Segment) :
  m_curl w = true → m_shouldStop w = false → m_isPaused w = false →
  m_paused s || m_cancelled s = false →
  m_pendingQueue s = h :: q → m_segments s !! h = Some sg →
  tr_events tr = pre ++ PauseRequested :: post → Forall is_Recv pre →
  StopRequested ∉ post →
  temp_file_of w sg ∉ fs_denied fs →
  0 ≤ m_currentByte sg →
  m_currentByte sg + Z.of_nat (length (received pre)) < 2 ^ 63 →
  Z.of_nat (length (received pre)) ≤ fs_room fs →
  let path := temp_file_of w sg in
  ∃ w' s' fs',
    run_loop (S (S fuel)) (tr :: rest) w s fs = BlockedOnPause w' s' fs'
    ∧ m_pendingQueue s' = h :: q
    ∧ m_segments s' !! h
      = Some (setState SegmentState.Paused
                (setCurrentByte (m_currentByte sg + Z.of_nat (length (received pre)))
                   (setTempFilePath path sg)))
    ∧ (∀ k, k ≠ h → m_segments s' !! k = m_segments s !! k)
    ∧ m_activeSegments s' = m_activeSegments s ∖ {[h]}
    ∧ m_completedSegments s' = m_completedSegments s
    ∧ m_failedSegments s' = m_failedSegments s
    ∧ m_signals s' = m_signals s
    ∧ fs_files fs' !! path
      = Some ((if 0 <? downloadedBytes sg then default [] (fs_files fs !! path) else [])
              ++ received pre)
    ∧ (∀ p, p ≠ path → fs_files fs' !! p = fs_files fs !! p).
Proof.
  intros Hcurl Hstop Hpause Hflags Hq Hsg Hev Hrecv Hno Hdenied Hlo Hhi Hroom. cbv zeta.
  assert (h < length (m_segments s))%nat as Hlt by (by eapply lookup_lt_Some).
  cbn [run_loop]. unfold shouldContinue at 1. rewrite Hstop, Hpause. cbn [negb].
  rewrite (acquireSegment_pending _ s h q Hflags Hq).
  set (s1 := with_workerAssignments _ _).
  set (w2 := w_with_counters _ _ _).
  assert (m_segments s1 !! h = Some (setState SegmentState.Active sg)) as Hsg1.
  { subst s1. unfold on_segment. cbn. by rewrite list_lookup_alter_eq, Hsg. }
  assert (temp_file_of w2 (setState SegmentState.Active sg) = temp_file_of w sg) as Hpath
    by done.
  destruct (downloadSegment_paused h tr w2 s1 fs (setState SegmentState.Active sg) pre post)
    as (w3 & Hdl & Hstop3 & Hpause3 & Hthis3); try done.
  cbv zeta in Hdl. rewrite Hdl, Hpath. clear Hdl.
  set (s2 := with_segments _ s1).
  set (fs2 := mkFileSystem _ _ _ _).
  assert (m_segments s2 !! h
          = Some (setState SegmentState.Paused
                    (after_abort w2 (Z.of_nat (length (received pre)))
                       (setState SegmentState.Active sg)))) as Hsg2.
  { subst s2. cbn. rewrite list_lookup_insert_eq; [done|].
    subst s1. unfold on_segment. cbn. by rewrite length_alter. }
  assert (shouldContinue (w_with_currentSegment None w3) = true) as Hcont.
  { unfold shouldContinue. cbn. by rewrite Hstop3. }
  rewrite Hcont. cbn [negb andb].
  unfold shouldContinue. cbn [m_shouldStop m_isPaused w_emit w_with_state
    w_with_currentSegment]. rewrite Hstop3, Hpause3. cbn [negb].
  eexists _, _, _. split; [reflexivity|].
  unfold releaseSegment. cbn [m_segments with_workerAssignments with_activeSegments].
  rewrite Hsg2. cbn [m_state after_abort setCurrentByte setTempFilePath setState].
  cbn [m_pendingQueue m_segments m_activeSegments m_completedSegments m_failedSegments
       m_signals with_pendingQueue with_segments with_workerAssignments with_workers
       with_activeSegments].
  subst s2 s1 fs2. unfold on_segment.
  cbn [m_pendingQueue m_segments m_activeSegments m_completedSegments m_failedSegments
       m_signals with_pendingQueue with_segments with_workerAssignments with_workers
       with_activeSegments fs_files].
  split; [done|].
  split. { by rewrite list_lookup_insert_eq by (by rewrite length_alter). }
  split.
  { intros k Hk. rewrite list_lookup_insert_ne by done.
    by rewrite list_lookup_alter_ne. }
  split.
  { apply set_eq. intros x. rewrite !elem_of_difference, elem_of_union, elem_of_singleton.
    tauto. }
  do 3 (split; [done|]).
  split; [by rewrite lookup_insert_eq|].
  intros p Hp. by rewrite lookup_insert_ne.
Qed.

Lemma X11_stopped_worker_witness :
  ∃ w' s' fs',
    run_loop 1 [stopped_after_four] worker_0_in_loop ten_byte_download empty_disk
    = Finished w' s' fs'
    ∧ m_pendingQueue s' = [0%nat]
    ∧ m_segments s' !! 0%nat
      = Some (mkSegment 0 0 9 4 SegmentState.Pending part0 0 NoMessage).
Proof.
  destruct (X11_stopped_worker_gives_segment_back 0 stopped_after_four []
              [Recv (replicate 4 Byte.x78)] [Recv (replicate 6 Byte.x78)]
              worker_0_in_loop ten_byte_download empty_disk 0 []
              (mkSegment 0 0 9 0 SegmentState.Pending "" 0 NoMessage))
    as (w' & s' & fs' & Hrun & Hq & Hsg & _); try reflexivity.
  - repeat constructor.
  - vm_compute. intros H. discriminate H.
  - vm_compute. discriminate.
  - exists w', s', fs'. split; [exact Hrun|]. split; [exact Hq|]. exact Hsg.
Defined.

Lemma X12_paused_worker_witness :
  ∃ w' s' fs',
    run_loop 2 [paused_after_four] worker_0_in_loop ten_byte_download empty_disk
    = BlockedOnPause w' s' fs'
    ∧ m_pendingQueue s' = [0%nat]
    ∧ m_segments s' !! 0%nat
      = Some (mkSegment 0 0 9 4 SegmentState.Paused part0 0 NoMessage).
Proof.
  destruct (X12_paused_worker_parks_segment 0 paused_after_four []
              [Recv (replicate 4 Byte.x78)] [Recv (replicate 6 Byte.x78)]
              worker_0_in_loop ten_byte_download empty_disk 0 []
              (mkSegment 0 0 9 0 SegmentState.Pending "" 0 NoMessage))
    as (w' & s' & fs' & Hrun & Hq & Hsg & _); try reflexivity.
  - repeat constructor.
  - intros H. apply elem_of_cons in H as [H|H]; [discriminate H|].
    by apply elem_of_nil in H.
  - vm_compute. intros H. discriminate H.
  - vm_compute. discriminate.
  - exists w', s', fs'. split; [exact Hrun|]. split; [exact Hq|]. exact Hsg.
Defined.

(* ===================================================================== *)
(** * The actions of a task *)
(* ===================================================================== *)

(** ** The task's actions *)

Lemma task_setState_state st t : task_state (task_setState st t) = st.
Proof. unfold task_setState. by case_bool_decide. Qed.

Lemma task_setState_signals st t :
  task_signals (task_setState st t)
  = task_signals t ++ (if bool_decide (task_state t ≠ st) then [stateChanged st] else []).
Proof. unfold task_setState. case_bool_decide; cbn; [done|]. by rewrite app_nil_r. Qed.

Lemma task_setState_rest st t :
  let t' := task_setState st t in
  m_scheduler t' = m_scheduler t ∧ task_workers t' = task_workers t
  ∧ m_capabilities t' = m_capabilities t ∧ m_totalSize t' = m_totalSize t
  ∧ m_downloadedBytes t' = m_downloadedBytes t ∧ task_lastError t' = task_lastError t
  ∧ m_destDir t' = m_destDir t ∧ m_fileName t' = m_fileName t
  ∧ m_filePath t' = m_filePath t
  ∧ m_threadPool_maxThreadCount t' = m_threadPool_maxThreadCount t
  ∧ m_progressTimer t' = m_progressTimer t.
Proof. cbv zeta. unfold task_setState. by case_bool_decide. Qed.

Lemma resumeAll_pauseAll_segments s h sg :
  m_segments s !! h = Some sg →
  m_segments (resumeAll (pauseAll s)) !! h
  = Some (if bool_decide (h ∈ m_activeSegments s ∨ m_state sg = SegmentState.Paused)
          then setState SegmentState.Pending sg else sg).
Proof.
  intros Hsg. unfold resumeAll. cbn [m_segments with_segments with_paused].
  rewrite list_lookup_fmap.
  rewrite (pauseAll_segments s h sg Hsg). cbn [fmap option_fmap option_map].
  f_equal. unfold resume_state.
  destruct (decide (h ∈ m_activeSegments s)) as [Hin|Hout].
  - rewrite (bool_decide_eq_true_2 (h ∈ m_activeSegments s)) by done.
    rewrite (bool_decide_eq_true_2 (_ ∨ _)) by (by left).
    by rewrite bool_decide_eq_true_2 by done.
  - rewrite (bool_decide_eq_false_2 (h ∈ m_activeSegments s)) by done.
    rewrite (bool_decide_ext (h ∈ m_activeSegments s ∨ m_state sg = SegmentState.Paused)
               (m_state sg = SegmentState.Paused)); [done|]. tauto.
Qed.

(** X13.  [pause] and then [resume] on a Downloading task, as far as these
    two calls go by themselves, that is before any worker has reacted to the
    pause (what a worker then does to its segment is X3 and X12).  The task
    is Downloading again with its timer running and no worker paused; every
    segment keeps its id, range, position and temp file; the segments that
    were active (and those that were Paused) are Pending; the active ones
    are at the front of the queue, the one at the highest address first
    ([pauseAll] walks the set by ascending address and pushes each segment to
    the front); nothing is active and the byte count is what it was. *)
Theorem X13_pause_then_resume_requeues_active_segments (t : DownloadTask) :
  task_state t = DownloadState.Downloading →
  let s := m_scheduler t in
  let t' := task_resume (task_pause t) in
  let s' := m_scheduler t' in
  task_state t' = DownloadState.Downloading
  ∧ m_progressTimer t' = true
  ∧ length (task_workers t') = length (task_workers t)
  ∧ Forall (λ w, m_isPaused w = false) (task_workers t')
  ∧ m_paused s' = false
  ∧ m_activeSegments s' = ∅
  ∧ m_pendingQueue s'
    = reverse (in_address_order (m_address s) (m_activeSegments s)) ++ m_pendingQueue s
  ∧ (∀ h sg, m_segments s !! h = Some sg →
       m_segments s' !! h
       = Some (if bool_decide (h ∈ m_activeSegments s ∨ m_state sg = SegmentState.Paused)
               then setState SegmentState.Pending sg else sg))
  ∧ totalDownloadedBytes s' = totalDownloadedBytes s
  ∧ task_signals t'
    = task_signals t ++ [stateChanged DownloadState.Paused; needsPersistence;
                         stateChanged DownloadState.Downloading].
Proof.
  intros Hstate. cbv zeta.
  unfold task_pause. rewrite bool_decide_eq_false_2 by (intros H; by apply H).
  unfold task_resume.
  rewrite bool_decide_eq_false_2
    by (intros H; apply H; cbn; by rewrite task_setState_state).
  set (t1 := t_emit needsPersistence _).
  assert (task_state t1 = DownloadState.Paused) as Hst1
    by (subst t1; cbn; by rewrite task_setState_state).
  destruct (task_setState_rest DownloadState.Paused t)
    as (Hsch & Hwork & _).
  cbv zeta in Hsch, Hwork.
  assert (m_scheduler t1 = pauseAll (m_scheduler t)) as Hs1
    by (subst t1; cbn; by rewrite Hsch).
  assert (task_workers t1 = worker_pause <$> task_workers t) as Hw1
    by (subst t1; cbn; by rewrite Hwork).
  assert (task_signals t1
          = task_signals t ++ [stateChanged DownloadState.Paused; needsPersistence]) as Hsig1.
  { subst t1. cbn. rewrite task_setState_signals, Hstate.
    rewrite bool_decide_eq_true_2 by done. by rewrite <- app_assoc. }
  destruct (task_setState_rest DownloadState.Downloading t1) as (Hsch2 & Hwork2 & _).
  cbv zeta in Hsch2, Hwork2.
  cbn [task_state m_progressTimer task_workers m_scheduler task_signals
       t_with_progressTimer t_with_workers t_with_scheduler].
  rewrite task_setState_state, Hsch2, Hwork2, Hs1, Hw1, task_setState_signals, Hst1, Hsig1.
  split; [done|]. split; [done|].
  split; [by rewrite !length_fmap|].
  split. { apply Forall_fmap, Forall_fmap, Forall_forall. by intros w _. }
  split; [done|].
  split; [done|].
  split. { unfold resumeAll. cbn [m_pendingQueue with_segments with_paused].
           apply pauseAll_queue. }
  split; [apply resumeAll_pauseAll_segments|].
  split; [by rewrite totalDownloadedBytes_resumeAll, totalDownloadedBytes_pauseAll|].
  rewrite bool_decide_eq_true_2 by done. by rewrite <- app_assoc.
Qed.

Lemma X13_pause_then_resume_witness :
  m_activeSegments (m_scheduler task_two_at_work) = {[0%nat; 1%nat]}
  ∧ m_pendingQueue (m_scheduler task_two_at_work) = [2; 3]%nat
  ∧ task_state (task_resume (task_pause task_two_at_work)) = DownloadState.Downloading
  ∧ m_pendingQueue (m_scheduler (task_resume (task_pause task_two_at_work)))
    = [1; 0; 2; 3]%nat.
Proof.
  destruct (X13_pause_then_resume_requeues_active_segments task_two_at_work eq_refl)
    as (Hstate & _ & _ & _ & _ & _ & Hq & _).
  split; [apply (bool_decide_unpack _); by vm_compute|]. split; [reflexivity|].
  split; [exact Hstate|]. rewrite Hq. vm_compute. reflexivity.
Defined.

(** ** Cancelling *)

Lemma cleanup_fold (segs : list Segment) (fs : FileSystem) :
  let fs' :=
    foldl (λ acc segment,
             let tempPath := m_tempFilePath segment in
             if negb (bool_decide (tempPath = "")) && QFile_exists tempPath acc
             then QFile_remove tempPath acc else acc) fs segs in
  fs_room fs' = fs_room fs ∧ fs_denied fs' = fs_denied fs
  ∧ fs_bad_from fs' = fs_bad_from fs
  ∧ ∀ p, fs_files fs' !! p
         = if bool_decide (p ≠ "" ∧ p ∈ m_tempFilePath <$> segs) then None
           else fs_files fs !! p.
Proof.
  revert fs. induction segs as [|sg segs IH]; intros fs; cbn [foldl]; cbv zeta.
  - repeat split; try done. intros p. rewrite bool_decide_eq_false_2; [done|].
    intros [_ H]. by apply elem_of_nil in H.
  - cbv zeta in IH.
    set (fs1 := if negb (bool_decide (m_tempFilePath sg = "")) && QFile_exists (m_tempFilePath sg) fs
                then QFile_remove (m_tempFilePath sg) fs else fs).
    assert (fs_room fs1 = fs_room fs ∧ fs_denied fs1 = fs_denied fs
            ∧ fs_bad_from fs1 = fs_bad_from fs
            ∧ ∀ p, fs_files fs1 !! p
                   = if bool_decide (p ≠ "" ∧ p = m_tempFilePath sg) then None
                     else fs_files fs !! p) as (Hr & Hd & Hb & Hf).
    { subst fs1. unfold QFile_exists.
      destruct (decide (m_tempFilePath sg = "")) as [Hempty|Hpath].
      - rewrite (bool_decide_eq_true_2 (m_tempFilePath sg = "")) by done. cbn [negb andb].
        repeat split; try done. intros p. rewrite bool_decide_eq_false_2; [done|].
        intros [? ->]. done.
      - rewrite (bool_decide_eq_false_2 (m_tempFilePath sg = "")) by done. cbn [negb andb].
        case_bool_decide as Hex.
        + repeat split; try done. intros p. cbn. case_bool_decide as Hp.
          * destruct Hp as [_ ->]. by rewrite lookup_delete_eq.
          * rewrite lookup_delete_ne; [done|]. intros <-. by apply Hp.
        + repeat split; try done. intros p. case_bool_decide as Hp; [|done].
          destruct Hp as [_ ->].
          destruct (fs_files fs !! m_tempFilePath sg) as [c|]; [|done].
          exfalso. apply Hex. by exists c. }
    destruct (IH fs1) as (Hr' & Hd' & Hb' & Hf').
    rewrite Hr', Hd', Hb'. repeat split; try done.
    intros p. rewrite Hf', Hf, fmap_cons.
    destruct (decide (p = "")) as [->|Hp].
    { rewrite !bool_decide_eq_false_2; [done|by intros [? _]..]. }
    destruct (decide (p ∈ m_tempFilePath <$> segs)) as [Hin|Hout].
    { rewrite !bool_decide_eq_true_2; [done| |done].
      split; [done|]. by right. }
    rewrite (bool_decide_eq_false_2 (p ≠ "" ∧ p ∈ m_tempFilePath <$> segs))
      by (by intros [_ ?]).
    apply (f_equal (λ b : bool, if b then None else fs_files fs !! p)).
    apply bool_decide_ext. rewrite elem_of_cons. tauto.
Qed.

Lemma cleanupTempFiles_files t fs :
  let fs' := cleanupTempFiles t fs in
  fs_room fs' = fs_room fs ∧ fs_denied fs' = fs_denied fs
  ∧ fs_bad_from fs' = fs_bad_from fs
  ∧ ∀ p, fs_files fs' !! p
         = if bool_decide (p ≠ "" ∧ p ∈ m_tempFilePath <$> m_segments (m_scheduler t))
           then None else fs_files fs !! p.
Proof. apply cleanup_fold. Qed.

(** X14.  [cancel] works in every state of the task, a Completed one
    included: the task is Failed with the category Cancelled, has no workers
    and no running timer, its scheduler hands out nothing any more, and every
    temp file of a segment is gone from the disk while every other file,
    the final file among them, is left as it is.  No [failed] signal goes
    out. *)
Theorem X14_cancel_removes_temp_files (t : DownloadTask) (fs : FileSystem) :
  let t' := fst (task_cancel t fs) in
  let fs' := snd (task_cancel t fs) in
  task_state t' = DownloadState.Failed
  ∧ category (task_lastError t') = ErrorCategory.Cancelled
  ∧ task_workers t' = []
  ∧ m_progressTimer t' = false
  ∧ (∀ worker, acquireSegment worker (m_scheduler t') = (None, m_scheduler t'))
  ∧ (∀ sg, sg ∈ m_segments (m_scheduler t) → m_tempFilePath sg ≠ "" →
           fs_files fs' !! m_tempFilePath sg = None)
  ∧ (∀ p, p = "" ∨ p ∉ m_tempFilePath <$> m_segments (m_scheduler t) →
          fs_files fs' !! p = fs_files fs !! p)
  ∧ task_signals t'
    = task_signals t
      ++ (if bool_decide (task_state t ≠ DownloadState.Failed)
          then [stateChanged DownloadState.Failed] else [])
      ++ [errorChanged].
Proof.
  cbv zeta. unfold task_cancel. cbn [fst snd].
  destruct (task_setState_rest DownloadState.Failed t) as (Hsch & _).
  cbv zeta in Hsch.
  cbn [task_state category task_lastError task_workers m_progressTimer m_scheduler
       task_signals t_emit t_with_progressTimer t_with_scheduler stopWorkers
       t_with_workers t_with_lastError].
  rewrite task_setState_state, task_setState_signals, Hsch.
  split; [done|]. split; [done|]. split; [done|]. split; [done|].
  split. { intros worker. by unfold acquireSegment. }
  set (t4 := t_with_progressTimer false _).
  assert (m_segments (m_scheduler t4) = m_segments (m_scheduler t)) as Hsegs
    by (by subst t4).
  destruct (cleanupTempFiles_files t4 fs) as (_ & _ & _ & Hfiles). rewrite Hsegs in Hfiles.
  split.
  { intros sg Hsg Hpath. rewrite Hfiles, bool_decide_eq_true_2; [done|].
    split; [done|]. apply list_elem_of_fmap. by exists sg. }
  split.
  { intros p Hp. rewrite Hfiles, bool_decide_eq_false_2; [done|].
    intros [? ?]. by destruct Hp. }
  by rewrite <- app_assoc.
Qed.

(** ** Starting *)

Lemma initializeSegments_fresh total count s sg :
  sg ∈ m_segments (snd (initializeSegments total count s)) →
  m_currentByte sg = m_startByte sg ∧ m_state sg = SegmentState.Pending.
Proof.
  rewrite initializeSegments_segments. cbv zeta.
  intros Hsg. apply list_elem_of_lookup in Hsg as [k Hk].
  by destruct (init_loop_lookup _ _ _ _ _ _ _ _ _ Hk) as (_ & ? & ? & _).
Qed.

Lemma initializeSegments_nothing_downloaded total count s :
  totalDownloadedBytes (snd (initializeSegments total count s)) = 0.
Proof.
  rewrite totalDownloadedBytes_sum.
  assert (∀ l : list Segment, Forall (λ sg, m_currentByte sg = m_startByte sg) l →
            foldr Z.add 0 (downloadedBytes <$> l) = 0) as H.
  { induction l as [|x l IH]; intros Hl; [done|].
    apply Forall_cons in Hl as [Hx Hl]. cbn. rewrite IH by done.
    unfold downloadedBytes. lia. }
  apply H, Forall_forall. intros sg Hsg.
  by destruct (initializeSegments_fresh _ _ _ _ Hsg).
Qed.

(** X15.  [start] has no guard for a paused task.  Called on a task that
    was paused while downloading (the manager's [startDownload] calls it for
    a task in any state), it builds the segments anew, all Pending at their
    first byte, so the byte count of the scheduler falls to 0; it makes the
    task Downloading but leaves the scheduler paused, so [acquireSegment]
    hands nothing to any worker, and [resume], which wants a Paused task,
    does nothing. *)
Theorem X15_start_on_paused_task_discards_progress (t : DownloadTask) :
  task_state t = DownloadState.Downloading →
  caps_isValid (m_capabilities t) = true →
  let t' := start (task_pause t) in
  task_state t' = DownloadState.Downloading
  ∧ (∀ sg, sg ∈ m_segments (m_scheduler t') →
           m_currentByte sg = m_startByte sg ∧ m_state sg = SegmentState.Pending)
  ∧ totalDownloadedBytes (m_scheduler t') = 0
  ∧ m_paused (m_scheduler t') = true
  ∧ (∀ worker, acquireSegment worker (m_scheduler t') = (None, m_scheduler t'))
  ∧ task_resume t' = t'.
Proof.
  intros Hstate Hcaps. cbv zeta.
  unfold task_pause. rewrite bool_decide_eq_false_2 by (intros H; by apply H).
  set (t1 := t_emit needsPersistence _).
  destruct (task_setState_rest DownloadState.Paused t) as (Hsch & _ & Hc & _).
  cbv zeta in Hsch, Hc.
  assert (task_state t1 = DownloadState.Paused) as Hst1
    by (subst t1; cbn; by rewrite task_setState_state).
  assert (m_capabilities t1 = m_capabilities t) as Hcaps1
    by (subst t1; cbn; by rewrite Hc).
  assert (m_paused (m_scheduler t1) = true) as Hp1.
  { subst t1. cbn. rewrite Hsch. apply pauseAll_flags. }
  unfold start. rewrite Hst1.
  rewrite !bool_decide_eq_false_2 by done. rewrite Hcaps1, Hcaps.
  unfold startWorkers. cbv zeta.
  set (t2 := task_initializeSegments t1).
  destruct (task_setState_rest DownloadState.Downloading t2) as (Hsch2 & _).
  cbv zeta in Hsch2.
  cbn [task_state m_scheduler t_with_progressTimer t_with_workers].
  rewrite task_setState_state, Hsch2.
  assert (m_paused (m_scheduler t2) = true) as Hp2 by (subst t2; cbn; exact Hp1).
  split; [done|].
  split. { intros sg. subst t2. unfold task_initializeSegments. cbn [m_scheduler t_with_scheduler].
           apply initializeSegments_fresh. }
  split. { subst t2. unfold task_initializeSegments. cbn [m_scheduler t_with_scheduler].
           apply initializeSegments_nothing_downloaded. }
  split; [done|].
  split. { intros worker. unfold acquireSegment. by rewrite Hp2. }
  unfold task_resume. rewrite bool_decide_eq_true_2; [done|].
  cbn. by rewrite task_setState_state.
Qed.

Lemma X15_start_on_paused_witness :
  task_state (start (task_pause task_at_work)) = DownloadState.Downloading
  ∧ m_paused (m_scheduler (start (task_pause task_at_work))) = true.
Proof.
  destruct (X15_start_on_paused_task_discards_progress task_at_work eq_refl eq_refl)
    as (Hstate & _ & _ & Hp & _).
  split; [exact Hstate|exact Hp].
Defined.

(** ** After the probe *)

(** X16.  A probe that reports range support and a length [L > 0] sets the
    download up: the task is Downloading with total size [L] and its timer
    running; the segments, as many as [calculateOptimalSegmentCount L],
    partition [[0, L)]; there are never more workers than segments, never
    more than [MAX_SEGMENTS], and at least one when the thread pool allows a
    thread; worker [i] is a fresh worker numbered [i] that writes under the
    task's directory and file name. *)
Theorem X16_probe_result_sets_up_download (caps : ServerCapabilities) (t : DownloadTask) :
  supportsRanges caps = true →
  0 < contentLength caps < 2 ^ 63 →
  let t' := onProbeCompleted caps t in
  let segs := m_segments (m_scheduler t') in
  task_state t' = DownloadState.Downloading
  ∧ m_totalSize t' = contentLength caps
  ∧ m_progressTimer t' = true
  ∧ Z.of_nat (length segs) = calculateOptimalSegmentCount (contentLength caps)
  ∧ partitions (contentLength caps) segs
  ∧ Z.of_nat (length (task_workers t'))
    = Z.min (Z.min (Z.of_nat (length segs)) (to_uint64 (m_threadPool_maxThreadCount t)))
        Constants.MAX_SEGMENTS
  ∧ (length (task_workers t') ≤ length segs)%nat
  ∧ Z.of_nat (length (task_workers t')) ≤ Constants.MAX_SEGMENTS
  ∧ (1 ≤ m_threadPool_maxThreadCount t < 2 ^ 31 → (1 ≤ length (task_workers t'))%nat)
  ∧ (∀ i w, task_workers t' !! i = Some w →
            w = SegmentWorker_new i (m_destDir t') (m_fileName t')).
Proof.
  intros Hranges HL. cbv zeta.
  unfold onProbeCompleted. cbv zeta.
  set (t2 := if negb _ then _ else _).
  set (t3 := if 0 <? _ then _ else _).
  assert (m_capabilities t2 = caps ∧ m_scheduler t2 = m_scheduler t
          ∧ m_threadPool_maxThreadCount t2 = m_threadPool_maxThreadCount t)
    as (Hcaps2 & Hsch2 & Hpool2) by (subst t2; by destruct (negb _)).
  assert (m_capabilities t3 = caps ∧ m_scheduler t3 = m_scheduler t
          ∧ m_threadPool_maxThreadCount t3 = m_threadPool_maxThreadCount t
          ∧ m_totalSize t3 = contentLength caps)
    as (Hcaps3 & Hsch3 & Hpool3 & Hsize3).
  { subst t3. destruct (Z.ltb_spec 0 (contentLength caps)); [done|lia]. }
  unfold startWorkers. cbv zeta.
  set (t4 := task_initializeSegments t3).
  pose proof (calculateOptimalSegmentCount_range (contentLength caps)) as Hcount.
  assert (m_segments (m_scheduler t4)
          = m_segments (snd (initializeSegments (contentLength caps)
                               (calculateOptimalSegmentCount (contentLength caps))
                               (m_scheduler t)))) as Hsegs.
  { subst t4. unfold task_initializeSegments. cbn [m_scheduler t_with_scheduler].
    rewrite Hcaps3, Hranges, Hsize3, Hsch3. cbn [negb orb].
    destruct (Z.leb_spec (contentLength caps) 0); [lia|done]. }
  assert (m_totalSize t4 = contentLength caps
          ∧ m_threadPool_maxThreadCount t4 = m_threadPool_maxThreadCount t)
    as (Hsize4 & Hpool4) by (by subst t4).
  destruct (task_setState_rest DownloadState.Downloading t4)
    as (Hsch5 & _ & _ & Hsize5 & _ & _ & _ & _ & _ & Hpool5 & _).
  cbv zeta in Hsch5, Hsize5, Hpool5.
  cbn [task_state m_totalSize m_progressTimer m_scheduler task_workers m_destDir
       m_fileName t_with_progressTimer t_with_workers].
  rewrite task_setState_state, Hsch5, Hsize5, Hpool5, Hsize4, Hpool4, Hsegs.
  destruct (initializeSegments_tiles (contentLength caps)
              (calculateOptimalSegmentCount (contentLength caps)) (m_scheduler t))
    as (Hlen & _ & Hpart & _); [lia|].
  cbv zeta in Hlen, Hpart. rewrite clamp_id in Hlen by exact Hcount.
  set (segs := m_segments (snd (initializeSegments _ _ _))) in *.
  unfold Constants.MIN_SEGMENTS, Constants.MAX_SEGMENTS in *.
  pose proof (Z.mod_pos_bound (m_threadPool_maxThreadCount t) (2 ^ 64) ltac:(lia)) as Hmod.
  split; [done|]. split; [done|]. split; [done|]. split; [done|]. split; [done|].
  rewrite length_fmap, length_seq.
  split. { unfold to_uint64 in *. lia. }
  split. { unfold to_uint64 in *. lia. }
  split. { unfold to_uint64 in *. lia. }
  split. { intros Hpool. unfold to_uint64. rewrite Z.mod_small by lia. lia. }
  intros i w Hw. rewrite list_lookup_fmap in Hw.
  destruct (seq 0 _ !! i) as [j|] eqn:Hj; [|done].
  apply lookup_seq in Hj as [-> _]. cbn in Hw. by injection Hw as <-.
Qed.

Lemma X16_probe_result_witness :
  task_state task_probed = DownloadState.Downloading
  ∧ length (task_workers task_probed) = 4%nat.
Proof.
  destruct (X16_probe_result_sets_up_download (mkCaps true (4 * 1024 * 1024) "" 200)
              (DownloadTask_new 9 (mkQUrl "http://host/b.iso" true) "/dl" "b.iso" 4)
              eq_refl) as (Hstate & _ & _ & _ & _ & Hworkers & _).
  - vm_compute. split; reflexivity.
  - split; [exact Hstate|]. apply Nat2Z.inj. exact Hworkers.
Defined.

(* ===================================================================== *)
(** * The queue of the manager *)
(* ===================================================================== *)

(** ** The manager's counters *)

Lemma count_step_fold tasks a q c :
  foldl count_step (a, q, c) tasks
  = (a + Z.of_nat (length (filter counted_active tasks)),
     q + Z.of_nat (length (filter is_queued tasks)),
     c + Z.of_nat (length (filter is_completed tasks))).
Proof.
  revert a q c. induction tasks as [|e tasks IH]; intros a q c; cbn [foldl].
  - cbn. by rewrite !Z.add_0_r.
  - rewrite !filter_cons.
    assert (count_step (a, q, c) e
            = (a + (if decide (counted_active e) then 1 else 0),
               q + (if decide (is_queued e) then 1 else 0),
               c + (if decide (is_completed e) then 1 else 0))) as ->.
    { unfold count_step.
      destruct (decide (counted_active e)) as [Ha|Ha], (decide (is_queued e)) as [Hq|Hq],
        (decide (is_completed e)) as [Hc|Hc];
        unfold counted_active, is_queued, is_completed in *;
        destruct (task_state (snd e)); try (exfalso; intuition congruence);
        rewrite ?Z.add_0_r; reflexivity. }
    rewrite IH.
    destruct (decide (counted_active e)), (decide (is_queued e)), (decide (is_completed e));
      cbn [length]; repeat (apply pair_equal_spec; split); lia.
Qed.

Lemma updateCounts_current m : counts_current (updateCounts m).
Proof.
  unfold updateCounts, counts_current. rewrite count_step_fold. cbn. done.
Qed.

Lemma updateCounts_rest m :
  m_tasks (updateCounts m) = m_tasks m
  ∧ m_maxConcurrent (updateCounts m) = m_maxConcurrent m
  ∧ m_persistence (updateCounts m) = m_persistence m
  ∧ manager_signals (updateCounts m) = manager_signals m.
Proof. unfold updateCounts. by destruct (foldl count_step _ _) as [[a q] c]. Qed.

(** ** The task map *)

Lemma tasks_find_assign_eq id t tasks : tasks_find id (tasks_assign id t tasks) = Some t.
Proof.
  induction tasks as [|[k t0] tasks IH]; cbn.
  - by rewrite bool_decide_eq_true_2.
  - case_bool_decide; cbn.
    + by rewrite bool_decide_eq_true_2.
    + destruct (id <? k); cbn.
      * by rewrite bool_decide_eq_true_2.
      * by rewrite bool_decide_eq_false_2.
Qed.

Lemma tasks_find_assign_ne id id' t tasks :
  id' ≠ id → tasks_find id' (tasks_assign id t tasks) = tasks_find id' tasks.
Proof.
  intros Hne. induction tasks as [|[k t0] tasks IH]; cbn.
  - by rewrite bool_decide_eq_false_2.
  - case_bool_decide as Hk; cbn.
    + subst k. by rewrite !bool_decide_eq_false_2.
    + destruct (id <? k); cbn.
      * by rewrite (bool_decide_eq_false_2 (id = id')).
      * by rewrite IH.
Qed.

Lemma tasks_find_None id tasks : tasks_find id tasks = None ↔ id ∉ fst <$> tasks.
Proof.
  induction tasks as [|[k t0] tasks IH]; cbn.
  - split; [|done]. intros _ H. by apply elem_of_nil in H.
  - rewrite not_elem_of_cons. case_bool_decide as Hk; cbn.
    + split; [done|]. by intros [? _].
    + rewrite IH. split; [|by intros [_ ?]]. intros H. split; [by intros ->|done].
Qed.

Lemma keys_above k (tasks : list (Z * DownloadTask)) id :
  Forall (Z.lt k) (fst <$> tasks) → id ≤ k → tasks_find id tasks = None.
Proof.
  intros Hall Hle. apply tasks_find_None. intros Hin.
  rewrite Forall_forall in Hall. specialize (Hall id Hin). lia.
Qed.

Lemma tasks_find_sorted tasks k t :
  StronglySorted Z.lt (fst <$> tasks) → (k, t) ∈ tasks → tasks_find k tasks = Some t.
Proof.
  induction tasks as [|[k0 t0] tasks IH]; cbn; intros Hs Hin.
  - by apply elem_of_nil in Hin.
  - apply StronglySorted_inv in Hs as [Hs Hall].
    apply elem_of_cons in Hin as [[= -> ->]|Hin].
    + by rewrite bool_decide_eq_true_2.
    + rewrite bool_decide_eq_false_2; [by apply IH|].
      intros ->. rewrite Forall_forall in Hall.
      assert (k < k); [|lia]. apply Hall. apply list_elem_of_fmap. by exists (k, t).
Qed.

(** In a map with ascending keys [m_tasks[id] = f t] for the task [t] stored
    under [id] changes this one entry. *)
Lemma tasks_assign_update (f : DownloadTask → DownloadTask) id t tasks :
  StronglySorted Z.lt (fst <$> tasks) → tasks_find id tasks = Some t →
  tasks_assign id (f t) tasks
  = (λ e, if bool_decide (fst e = id) then (fst e, f (snd e)) else e) <$> tasks.
Proof.
  induction tasks as [|[k t0] tasks IH]; cbn; intros Hs Hfind; [done|].
  apply StronglySorted_inv in Hs as [Hs Hall].
  case_bool_decide as Hk.
  - injection Hfind as ->. subst k. f_equal.
    rewrite <- (list_fmap_id tasks) at 1. apply list_fmap_ext.
    intros i [k' t'] Hi. cbn. rewrite bool_decide_eq_false_2; [done|].
    intros ->. rewrite Forall_forall in Hall.
    assert (id < id); [|lia]. apply Hall. apply list_elem_of_fmap.
    exists (id, t'). split; [done|]. by eapply list_elem_of_lookup_2.
  - destruct (Z.ltb_spec id k) as [Hlt|Hge].
    + rewrite (keys_above k tasks id) in Hfind; [done|done|lia].
    + f_equal. by apply IH.
Qed.

Lemma started_tasks_keys ids tasks : fst <$> started_tasks ids tasks = fst <$> tasks.
Proof.
  unfold started_tasks. rewrite <- list_fmap_compose. apply list_fmap_ext.
  intros i e _. cbn. by case_bool_decide.
Qed.

Lemma started_tasks_nil tasks : started_tasks [] tasks = tasks.
Proof.
  unfold started_tasks. rewrite <- (list_fmap_id tasks) at 2. apply list_fmap_ext.
  intros i e _. rewrite bool_decide_eq_false_2; [done|]. intros H. by apply elem_of_nil in H.
Qed.

Lemma started_tasks_cons k ids tasks :
  k ∉ ids → started_tasks ids (started_tasks [k] tasks) = started_tasks (k :: ids) tasks.
Proof.
  intros Hk. unfold started_tasks. rewrite <- list_fmap_compose. apply list_fmap_ext.
  intros i e _. cbn. destruct (decide (fst e = k)) as [He|He].
  - rewrite (bool_decide_eq_true_2 (fst e ∈ [k])) by (rewrite He; left).
    cbn. rewrite bool_decide_eq_false_2 by (by rewrite He).
    by rewrite bool_decide_eq_true_2 by (rewrite He; left).
  - rewrite (bool_decide_eq_false_2 (fst e ∈ [k]))
      by (rewrite list_elem_of_singleton; done).
    apply (f_equal (λ b : bool, if b then (fst e, start (snd e)) else e)).
    apply bool_decide_ext. rewrite elem_of_cons. tauto.
Qed.

(** ** Starting a queued task *)

Lemma start_queued t :
  task_state t = DownloadState.Queued →
  ∃ st, (st = DownloadState.Probing ∨ st = DownloadState.Downloading)
        ∧ task_state (start t) = st
        ∧ task_signals (start t) = task_signals t ++ [stateChanged st].
Proof.
  intros Hst. unfold start. rewrite Hst. rewrite !bool_decide_eq_false_2 by done.
  destruct (caps_isValid (m_capabilities t)).
  - exists DownloadState.Downloading. split; [by right|].
    unfold startWorkers. cbv zeta.
    cbn [task_state task_signals t_with_progressTimer t_with_workers].
    rewrite task_setState_state, task_setState_signals.
    split; [done|].
    assert (task_state (task_initializeSegments t) = DownloadState.Queued) as -> by done.
    by rewrite bool_decide_eq_true_2.
  - exists DownloadState.Probing. split; [by left|].
    unfold probeServer. rewrite task_setState_state, task_setState_signals, Hst.
    by rewrite bool_decide_eq_true_2.
Qed.

Lemma active_after_start tasks id t :
  StronglySorted Z.lt (fst <$> tasks) → tasks_find id tasks = Some t →
  task_state t = DownloadState.Queued →
  length (filter counted_active (started_tasks [id] tasks))
  = S (length (filter counted_active tasks)).
Proof.
  induction tasks as [|[k t0] tasks IH]; intros Hs Hfind Hst; [done|].
  cbn in Hs, Hfind. apply StronglySorted_inv in Hs as [Hs Hall].
  change (started_tasks [id] ((k, t0) :: tasks))
    with ((if bool_decide (k ∈ [id]) then (k, start t0) else (k, t0))
          :: started_tasks [id] tasks).
  rewrite !filter_cons. case_bool_decide as Hk.
  - injection Hfind as ->. subst k.
    rewrite (bool_decide_eq_true_2 (id ∈ [id])) by left.
    assert (started_tasks [id] tasks = tasks) as Hrest.
    { unfold started_tasks. rewrite <- (list_fmap_id tasks) at 2. apply list_fmap_ext.
      intros i [k' t'] Hi. cbn. rewrite bool_decide_eq_false_2; [done|].
      rewrite list_elem_of_singleton. intros ->. rewrite Forall_forall in Hall.
      assert (id < id); [|lia]. apply Hall. apply list_elem_of_fmap.
      exists (id, t'). split; [done|]. by eapply list_elem_of_lookup_2. }
    rewrite Hrest.
    destruct (start_queued t Hst) as (st & Hcases & Hstate & _).
    rewrite decide_True by (unfold counted_active; cbn; rewrite Hstate; tauto).
    rewrite decide_False; [done|].
    unfold counted_active. cbn. rewrite Hst. intuition congruence.
  - destruct (Z.ltb_spec id k) as [Hlt|Hge].
    + rewrite (keys_above k tasks id) in Hfind; [done|done|lia].
    + rewrite (bool_decide_eq_false_2 (k ∈ [id]))
        by (rewrite list_elem_of_singleton; done).
      destruct (decide (counted_active (k, t0))); cbn [length]; by rewrite IH.
Qed.

Lemma start_task_queued id m t :
  keys_sorted m → counts_current m →
  tasks_find id (m_tasks m) = Some t → task_state t = DownloadState.Queued →
  let m' := start_task id m in
  m_tasks m' = tasks_assign id (start t) (m_tasks m)
  ∧ m_tasks m' = started_tasks [id] (m_tasks m)
  ∧ m_activeCount m' = m_activeCount m + 1
  ∧ m_maxConcurrent m' = m_maxConcurrent m
  ∧ m_persistence m' = m_persistence m
  ∧ counts_current m' ∧ keys_sorted m'.
Proof.
  intros Hs Hc Hfind Hst. cbv zeta. unfold start_task. rewrite Hfind.
  destruct (start_queued t Hst) as (st & Hcases & Hstate & Hsig).
  rewrite Hsig, drop_app_length. cbn [foldl slot_without_queue].
  set (m1 := mgr_with_tasks _ m).
  destruct (updateCounts_rest m1) as (Ht & Hmax & Hp & Hsigs).
  pose proof (updateCounts_current m1) as Hcur.
  assert (m_tasks m1 = started_tasks [id] (m_tasks m)) as Hupd.
  { subst m1. cbn [m_tasks mgr_with_tasks]. rewrite (tasks_assign_update start) by done.
    unfold started_tasks. apply list_fmap_ext. intros i e _.
    apply (f_equal (λ b : bool, if b then (fst e, start (snd e)) else e)).
    apply bool_decide_ext. by rewrite list_elem_of_singleton. }
  assert (∀ m2, m_tasks m2 = m_tasks m1 → m_maxConcurrent m2 = m_maxConcurrent m1 →
                m_persistence m2 = m_persistence m1 → counts_current m2 →
                m_tasks m2 = tasks_assign id (start t) (m_tasks m)
                ∧ m_tasks m2 = started_tasks [id] (m_tasks m)
                ∧ m_activeCount m2 = m_activeCount m + 1
                ∧ m_maxConcurrent m2 = m_maxConcurrent m
                ∧ m_persistence m2 = m_persistence m
                ∧ counts_current m2 ∧ keys_sorted m2) as Hall.
  { intros m2 Ht2 Hmax2 Hp2 Hcur2. split; [by rewrite Ht2|].
    split; [by rewrite Ht2|]. split.
    { destruct Hcur2 as (-> & _). destruct Hc as (-> & _). rewrite Ht2, Hupd.
      rewrite (active_after_start _ id t) by done. lia. }
    split; [by rewrite Hmax2|]. split; [by rewrite Hp2|]. split; [done|].
    unfold keys_sorted. by rewrite Ht2, Hupd, started_tasks_keys. }
  destruct Hcases as [-> | ->]; cbn [state_change_signals]; apply Hall; try done.
Qed.

(** ** The queue *)

#[global] Instance priority_ge_total : Total priority_ge.
Proof. intros a b. unfold priority_ge. lia. Qed.

#[global] Instance priority_ge_trans : Transitive priority_ge.
Proof. intros a b c. unfold priority_ge. lia. Qed.

Lemma sorted_keys_NoDup (keys : list Z) : StronglySorted Z.lt keys → NoDup keys.
Proof.
  induction 1 as [|k keys Hs IH Hall]; constructor; [|done].
  intros Hin. rewrite Forall_forall in Hall. specialize (Hall k Hin). lia.
Qed.

Lemma process_fold (q : list (Z * DownloadTask)) (m : DownloadManager) :
  keys_sorted m → counts_current m → NoDup (fst <$> q) →
  (∀ e, e ∈ q → tasks_find (fst e) (m_tasks m) = Some (snd e)
                ∧ task_state (snd e) = DownloadState.Queued) →
  let n := Nat.min (length q) (Z.to_nat (m_maxConcurrent m - m_activeCount m)) in
  let m' := foldl (λ acc e, if negb (canStartMore acc) then acc
                            else start_task (fst e) acc) m q in
  m_tasks m' = started_tasks (fst <$> take n q) (m_tasks m)
  ∧ m_activeCount m' = m_activeCount m + Z.of_nat n
  ∧ m_maxConcurrent m' = m_maxConcurrent m
  ∧ m_persistence m' = m_persistence m
  ∧ counts_current m' ∧ keys_sorted m'.
Proof.
  revert m. induction q as [|e q IH]; intros m Hs Hc Hnd Hq; cbv zeta.
  - cbn. rewrite started_tasks_nil. repeat split; try done; try apply Hc. lia.
  - cbn [foldl].
    apply NoDup_cons in Hnd as [Hne Hnd].
    assert (canStartMore m = (m_activeCount m <? m_maxConcurrent m)) as -> by done.
    destruct (Z.ltb_spec (m_activeCount m) (m_maxConcurrent m)) as [Hfree|Hfull];
      cbn [negb].
    + destruct (Hq e ltac:(left)) as [Hfind Hst].
      destruct (start_task_queued (fst e) m (snd e) Hs Hc Hfind Hst)
        as (Hassign & Hupd & Hact & Hmax & Hp & Hc1 & Hs1).
      cbv zeta in Hassign, Hupd, Hact, Hmax, Hp, Hc1, Hs1.
      destruct (IH (start_task (fst e) m) Hs1 Hc1 Hnd)
        as (Ht' & Hact' & Hmax' & Hp' & Hc' & Hs').
      { intros e' He'. destruct (Hq e' ltac:(by right)) as [Hfind' Hst'].
        split; [|done]. rewrite Hassign, tasks_find_assign_ne; [done|].
        intros Heq. apply Hne. rewrite <- Heq. by apply list_elem_of_fmap_2. }
      cbv zeta in Ht', Hact', Hmax', Hp', Hc', Hs'.
      rewrite Hmax, Hact in Ht', Hact'.
      assert (Nat.min (length (e :: q)) (Z.to_nat (m_maxConcurrent m - m_activeCount m))
              = S (Nat.min (length q)
                     (Z.to_nat (m_maxConcurrent m - (m_activeCount m + 1))))) as ->
        by (cbn [length]; lia).
      rewrite Ht', Hact', Hmax', Hp', Hupd. cbn [take fmap list_fmap].
      rewrite started_tasks_cons.
      * repeat split; try done; try apply Hc'. lia.
      * intros Hin. apply Hne. apply list_elem_of_fmap in Hin as (x & -> & Hx).
        apply list_elem_of_fmap_2. by eapply subseteq_take.
    + destruct (IH m Hs Hc Hnd) as (Ht' & Hact' & Hmax' & Hp' & Hc' & Hs').
      { intros e' He'. apply Hq. by right. }
      cbv zeta in Ht', Hact', Hmax', Hp', Hc', Hs'.
      assert (Z.to_nat (m_maxConcurrent m - m_activeCount m) = 0%nat) as Hzero by lia.
      rewrite Hzero, Nat.min_0_r in *. rewrite take_0 in *.
      rewrite Ht', Hact', Hmax', Hp'. repeat split; try done; apply Hc'.
Qed.

Lemma filter_none {A} (P : A → Prop) `{!∀ x, Decision (P x)} (l : list A) :
  (∀ x, x ∈ l → ¬ P x) → filter P l = [].
Proof.
  induction l as [|x l IH]; intros Hl; [done|].
  rewrite filter_cons, decide_False by (apply Hl; left).
  apply IH. intros y Hy. apply Hl. by right.
Qed.

(** X17.  [processQueue] fills the free slots from the queue, best priority
    first.  In a manager whose counters are current, it calls [start] on
    exactly min(number of Queued tasks, [m_maxConcurrent - m_activeCount])
    tasks, all of them Queued ones, and on no task of lower priority than
    one it leaves queued; every other task is untouched.  The active count
    grows by the number of tasks started and the counters stay current; so
    the limit is not passed, and a slot stays free only when no task is
    Queued any more. *)
Theorem X17_processQueue_fills_free_slots (m : DownloadManager) :
  keys_sorted m → counts_current m →
  let m' := processQueue m in
  let queued := tasksInState DownloadState.Queued m in
  ∃ started : list (Z * DownloadTask),
    (∀ e, e ∈ started → e ∈ queued)
    ∧ NoDup (fst <$> started)
    ∧ length started
      = Nat.min (length queued) (Z.to_nat (m_maxConcurrent m - m_activeCount m))
    ∧ (∀ a b, a ∈ started → b ∈ queued → b ∉ started →
              Priority.rank (m_priority (snd b)) ≤ Priority.rank (m_priority (snd a)))
    ∧ m_tasks m' = started_tasks (fst <$> started) (m_tasks m)
    ∧ m_activeCount m' = m_activeCount m + Z.of_nat (length started)
    ∧ m_maxConcurrent m' = m_maxConcurrent m
    ∧ counts_current m'
    ∧ (m_activeCount m ≤ m_maxConcurrent m → m_activeCount m' ≤ m_maxConcurrent m)
    ∧ (m_activeCount m' < m_maxConcurrent m → tasksInState DownloadState.Queued m' = []).
Proof.
  intros Hs Hc. cbv zeta.
  set (queued := tasksInState DownloadState.Queued m).
  set (q := merge_sort priority_ge queued).
  set (n := Nat.min (length q) (Z.to_nat (m_maxConcurrent m - m_activeCount m))).
  assert (q ≡ₚ queued) as Hperm by apply merge_sort_Permutation.
  assert (∀ e, e ∈ queued ↔ e ∈ m_tasks m ∧ task_state (snd e) = DownloadState.Queued)
    as Hqueued.
  { intros e. unfold queued, tasksInState. rewrite list_elem_of_filter. tauto. }
  assert (NoDup (fst <$> q)) as Hnd.
  { rewrite Hperm. apply (sublist_NoDup _ (fst <$> m_tasks m)).
    - by apply sorted_keys_NoDup.
    - apply fmap_sublist. apply sublist_filter. }
  assert (∀ e, e ∈ q → tasks_find (fst e) (m_tasks m) = Some (snd e)
                       ∧ task_state (snd e) = DownloadState.Queued) as Hq.
  { intros [k t] He. rewrite Hperm in He. apply Hqueued in He as [Hin Hst].
    split; [|done]. by apply tasks_find_sorted. }
  assert (StronglySorted priority_ge (take n q ++ drop n q)) as Hsorted.
  { rewrite take_drop. apply StronglySorted_merge_sort; apply _. }
  exists (take n q).
  assert (m_tasks (processQueue m) = started_tasks (fst <$> take n q) (m_tasks m)
          ∧ m_activeCount (processQueue m) = m_activeCount m + Z.of_nat n
          ∧ m_maxConcurrent (processQueue m) = m_maxConcurrent m
          ∧ counts_current (processQueue m)) as (Ht' & Hact' & Hmax' & Hc').
  { unfold processQueue.
    assert (canStartMore m = (m_activeCount m <? m_maxConcurrent m)) as -> by done.
    destruct (Z.ltb_spec (m_activeCount m) (m_maxConcurrent m)) as [Hfree|Hfull];
      cbn [negb].
    - destruct (process_fold q m Hs Hc Hnd Hq) as (? & ? & ? & _ & ? & _). done.
    - assert (n = 0%nat) as -> by (subst n; lia).
      rewrite take_0. cbn. rewrite started_tasks_nil. repeat split; try done; try apply Hc.
      lia. }
  assert (length (take n q) = n) as Hlen by (rewrite length_take; subst n; lia).
  split. { intros e He. rewrite <- Hperm. by eapply subseteq_take. }
  split. { apply (sublist_NoDup _ (fst <$> q)); [done|]. apply fmap_sublist, sublist_take. }
  split. { rewrite Hlen. subst n. by rewrite Hperm. }
  split.
  { intros a b Ha Hb Hnb. rewrite <- Hperm, <- (take_drop n q) in Hb.
    apply elem_of_app in Hb as [Hb|Hb]; [done|].
    by apply (StronglySorted_app_1_elem_of _ _ _ a b Hsorted). }
  split; [done|]. split; [by rewrite Hlen|]. split; [done|]. split; [done|].
  split. { intros Hle. rewrite Hact'. subst n. lia. }
  intros Hslot. rewrite Hact' in Hslot.
  assert (take n q = q) as Hall by (apply take_ge; subst n; lia).
  unfold tasksInState. apply filter_none. rewrite Ht', Hall.
  intros x Hx. unfold started_tasks in Hx.
  apply list_elem_of_fmap in Hx as (e & -> & He).
  case_bool_decide as Hk.
  - apply list_elem_of_fmap in Hk as (e' & Hkey & He').
    destruct (Hq e' He') as [Hfind Hst].
    rewrite <- Hkey, (tasks_find_sorted (m_tasks m) (fst e) (snd e)) in Hfind;
      [|done|by destruct e].
    injection Hfind as Hsame. rewrite <- Hsame in Hst.
    destruct (start_queued (snd e) Hst) as (st & Hcases & Hstate & _).
    cbn. rewrite Hstate. by destruct Hcases as [-> | ->].
  - intros Hst. apply Hk. apply list_elem_of_fmap_2. rewrite Hperm. by apply Hqueued.
Qed.

Lemma X17_processQueue_witness :
  m_activeCount (processQueue manager_backlog) = 2
  ∧ task_state <$> tasks_find 2 (m_tasks (processQueue manager_backlog))
    = Some DownloadState.Probing.
Proof.
  assert (keys_sorted manager_backlog) as Hs.
  { unfold keys_sorted. cbn. repeat constructor; lia. }
  assert (counts_current manager_backlog) as Hc by (vm_compute; done).
  destruct (X17_processQueue_fills_free_slots manager_backlog Hs Hc)
    as (started & _ & _ & Hlen & _ & _ & Hact & _).
  split; [|vm_compute; reflexivity].
  rewrite Hact, Hlen. vm_compute. reflexivity.
Defined.

Lemma processQueue_frame m :
  keys_sorted m → counts_current m →
  fst <$> m_tasks (processQueue m) = fst <$> m_tasks m
  ∧ m_persistence (processQueue m) = m_persistence m
  ∧ m_maxConcurrent (processQueue m) = m_maxConcurrent m
  ∧ counts_current (processQueue m) ∧ keys_sorted (processQueue m).
Proof.
  intros Hs Hc. unfold processQueue. destruct (canStartMore m); cbn [negb]; [|done].
  set (q := merge_sort priority_ge (tasksInState DownloadState.Queued m)).
  assert (q ≡ₚ tasksInState DownloadState.Queued m) as Hperm
    by apply merge_sort_Permutation.
  destruct (process_fold q m Hs Hc) as (Ht & _ & Hmax & Hp & Hc' & Hs').
  - rewrite Hperm. apply (sublist_NoDup _ (fst <$> m_tasks m)).
    + by apply sorted_keys_NoDup.
    + apply fmap_sublist. apply sublist_filter.
  - intros [k t] He. rewrite Hperm in He. unfold tasksInState in He.
    apply list_elem_of_filter in He as [Hst Hin]. split; [|done].
    by apply tasks_find_sorted.
  - cbv zeta in Ht, Hmax, Hp, Hc', Hs'. rewrite Ht, started_tasks_keys. done.
Qed.

(* ===================================================================== *)
(** * Adding downloads *)
(* ===================================================================== *)

(** ** Adding a download *)

Lemma tasks_assign_twice id t t' tasks :
  tasks_assign id t' (tasks_assign id t tasks) = tasks_assign id t' tasks.
Proof.
  induction tasks as [|[k t0] tasks IH]; cbn.
  - by rewrite bool_decide_eq_true_2.
  - case_bool_decide as Hk; cbn.
    + by rewrite bool_decide_eq_true_2.
    + destruct (id <? k) eqn:Hlt; cbn.
      * by rewrite bool_decide_eq_true_2.
      * rewrite bool_decide_eq_false_2 by done. by rewrite Hlt, IH.
Qed.

Lemma tasks_assign_fresh id t tasks :
  tasks_find id tasks = None → tasks_assign id t tasks ≡ₚ (id, t) :: tasks.
Proof.
  induction tasks as [|[k t0] tasks IH]; cbn; [done|].
  case_bool_decide as Hk; [done|]. intros Hfind.
  destruct (id <? k); [done|]. rewrite IH by done. apply Permutation_swap.
Qed.

Lemma findByUrl_loop_assign url id t tasks :
  findByUrl_loop url tasks = None → m_url t = url →
  findByUrl_loop url (tasks_assign id t tasks) = Some id.
Proof.
  intros Hnone Hurl. induction tasks as [|[k t0] tasks IH]; cbn.
  - by rewrite bool_decide_eq_true_2.
  - cbn in Hnone. case_bool_decide as Hu; [done|].
    case_bool_decide as Hk; cbn.
    + by rewrite bool_decide_eq_true_2.
    + destruct (id <? k); cbn.
      * by rewrite bool_decide_eq_true_2.
      * rewrite bool_decide_eq_false_2 by done. by apply IH.
Qed.

Lemma saveTask_rest t m :
  m_tasks (saveTask t m) = m_tasks m
  ∧ m_maxConcurrent (saveTask t m) = m_maxConcurrent m
  ∧ m_activeCount (saveTask t m) = m_activeCount m
  ∧ m_queuedCount (saveTask t m) = m_queuedCount m
  ∧ m_completedCount (saveTask t m) = m_completedCount m
  ∧ manager_signals (saveTask t m) = manager_signals m
  ∧ m_persistence (saveTask t m)
    = (λ queue, queue ++ [SaveTask (make_TaskData t) (m_segments (m_scheduler t))])
        <$> m_persistence m.
Proof.
  unfold saveTask. destruct (m_persistence m) as [queue|] eqn:Hp; cbn; rewrite ?Hp; done.
Qed.

(** X18.  [addDownload] with a valid URL that no task has yet registers a
    new task under the id that the constructor drew (one that is not in
    use): the id is returned; the task is found under it and, by
    [findByUrl], under its URL; every other task is as before; the signals
    [downloadAdded], [totalCountChanged] and [queueCountChanged] go out in
    this order and the task, as constructed, is handed to the store.  The
    task is started, and is then Probing, when this was asked for and fewer
    tasks than [m_maxConcurrent] are active (the counters are brought up to
    date first); otherwise it is Queued.  Adding the same URL again returns
    the same id and changes nothing. *)
Theorem X18_addDownload_registers_new_task
    (url : QUrl) (destPath : string) (startImmediately : bool) (newId : Z)
    (destDir fileName : string) (maxThreadCount : Z) (m : DownloadManager) :
  url_isValid url = true →
  findByUrl url m = None →
  task newId m = None →
  let r := addDownload url destPath startImmediately newId destDir fileName
             maxThreadCount m in
  let m' := snd r in
  let new := DownloadTask_new newId url destDir fileName maxThreadCount in
  let starts :=
    startImmediately
    && (Z.of_nat (length (filter counted_active (m_tasks m))) <? m_maxConcurrent m) in
  fst r = newId
  ∧ task newId m' = Some (if starts then start new else new)
  ∧ task_state (if starts then start new else new)
    = (if starts then DownloadState.Probing else DownloadState.Queued)
  ∧ findByUrl url m' = Some newId
  ∧ (∀ id, id ≠ newId → task id m' = task id m)
  ∧ manager_signals m'
    = manager_signals m ++ [downloadAdded newId; totalCountChanged; queueCountChanged]
  ∧ m_persistence m'
    = (λ queue, queue ++ [SaveTask (make_TaskData new) []]) <$> m_persistence m
  ∧ counts_current m'
  ∧ (∀ destPath' start' newId' destDir' fileName' maxThreadCount',
       addDownload url destPath' start' newId' destDir' fileName' maxThreadCount' m'
       = (newId, m')).
Proof.
  intros Hvalid Hnone Hfresh. cbv zeta.
  set (new := DownloadTask_new newId url destDir fileName maxThreadCount).
  unfold addDownload. rewrite Hvalid, Hnone. cbn [negb fst snd].
  change (task_id (DownloadTask_new newId url destDir fileName maxThreadCount)) with newId.
  fold new.
  set (m1 := mgr_with_tasks (tasks_assign newId new (m_tasks m)) m).
  set (m3 := mgr_emit queueCountChanged _).
  destruct (updateCounts_rest m1) as (Ht2 & Hmax2 & Hp2 & Hsig2).
  pose proof (updateCounts_current m1) as Hcur2.
  destruct (saveTask_rest new m3) as (Ht4 & Hmax4 & Ha4 & Hq4 & Hc4 & Hsig4 & Hp4).
  set (m4 := saveTask new m3) in *.
  assert (m_tasks m4 = tasks_assign newId new (m_tasks m)) as Htasks4
    by (rewrite Ht4; subst m3; cbn; by rewrite Ht2).
  assert (counts_current m4) as Hcur4.
  { unfold counts_current. rewrite Ha4, Hq4, Hc4, Ht4. exact Hcur2. }
  assert (manager_signals m4
          = manager_signals m ++ [downloadAdded newId; totalCountChanged; queueCountChanged])
    as Hsignals4.
  { rewrite Hsig4. subst m3. cbn. rewrite Hsig2. cbn. by rewrite <- !app_assoc. }
  assert (m_persistence m4
          = (λ queue, queue ++ [SaveTask (make_TaskData new) []]) <$> m_persistence m)
    as Hpers4 by (rewrite Hp4; subst m3; cbn; by rewrite Hp2).
  assert (canStartMore m4
          = (Z.of_nat (length (filter counted_active (m_tasks m))) <? m_maxConcurrent m))
    as Hroom.
  { unfold canStartMore. rewrite Hmax4. destruct Hcur4 as (-> & _). rewrite Htasks4.
    assert (m_maxConcurrent m3 = m_maxConcurrent m) as -> by (subst m3; cbn; by rewrite Hmax2).
    rewrite (tasks_assign_fresh newId new (m_tasks m) Hfresh).
    rewrite filter_cons, decide_False; [done|].
    unfold counted_active. cbn. intuition congruence. }
  rewrite Hroom.
  destruct (startImmediately
            && (Z.of_nat (length (filter counted_active (m_tasks m))) <? m_maxConcurrent m)).
  - assert (start new = t_emit (stateChanged DownloadState.Probing)
                          (t_with_state DownloadState.Probing new)) as Hstart by done.
    unfold start_task. rewrite Htasks4, tasks_find_assign_eq, Hstart.
    cbn [task_signals new DownloadTask_new t_emit t_with_state length drop app foldl
         slot_without_queue state_change_signals].
    rewrite tasks_assign_twice.
    set (t' := t_emit _ _).
    set (m5 := mgr_with_tasks (tasks_assign newId t' (m_tasks m)) m4).
    destruct (updateCounts_rest m5) as (Ht6 & Hmax6 & Hp6 & Hsig6).
    assert (findByUrl url (updateCounts m5) = Some newId) as Hfound.
    { unfold findByUrl. rewrite Ht6. subst m5. cbn [m_tasks mgr_with_tasks].
      by apply findByUrl_loop_assign. }
    split; [done|].
    split. { unfold task. rewrite Ht6. subst m5. cbn [m_tasks mgr_with_tasks].
             apply tasks_find_assign_eq. }
    split; [done|]. split; [done|].
    split. { intros id Hid. unfold task. rewrite Ht6. subst m5. cbn [m_tasks mgr_with_tasks].
             by apply tasks_find_assign_ne. }
    split; [by rewrite Hsig6|]. split; [by rewrite Hp6|].
    split; [apply updateCounts_current|].
    intros ??????. rewrite ?Hvalid, Hfound. done.
  - assert (findByUrl url m4 = Some newId) as Hfound.
    { unfold findByUrl. rewrite Htasks4. by apply findByUrl_loop_assign. }
    split; [done|].
    split. { unfold task. rewrite Htasks4. apply tasks_find_assign_eq. }
    split; [done|]. split; [done|].
    split. { intros id Hid. unfold task. rewrite Htasks4. by apply tasks_find_assign_ne. }
    split; [done|]. split; [done|]. split; [done|].
    intros ??????. rewrite ?Hvalid, Hfound. done.
Qed.

Lemma X18_addDownload_witness :
  fst (addDownload url2 "" true 11 "/dl" "c.iso" 4 manager_two) = 11
  ∧ findByUrl url2 (snd (addDownload url2 "" true 11 "/dl" "c.iso" 4 manager_two))
    = Some 11.
Proof.
  destruct (X18_addDownload_registers_new_task url2 "" true 11 "/dl" "c.iso" 4 manager_two
              eq_refl eq_refl eq_refl) as (Hid & _ & _ & Hfound & _).
  split; [exact Hid|exact Hfound].
Defined.

(* ===================================================================== *)
(** * Removing downloads *)
(* ===================================================================== *)

(** ** Removing downloads *)

Lemma filter_all {A} (P : A → Prop) `{!∀ x, Decision (P x)} (l : list A) :
  (∀ x, x ∈ l → P x) → filter P l = l.
Proof.
  induction l as [|x l IH]; intros Hl; [done|].
  rewrite filter_cons, decide_True by (apply Hl; left).
  f_equal. apply IH. intros y Hy. apply Hl. by right.
Qed.

Lemma tasks_erase_filter id tasks :
  StronglySorted Z.lt (fst <$> tasks) →
  tasks_erase id tasks = filter (λ e, fst e ≠ id) tasks.
Proof.
  induction tasks as [|[k t] tasks IH]; intros Hs; [done|].
  cbn in Hs. apply StronglySorted_inv in Hs as [Hs Hall].
  rewrite filter_cons. cbn [tasks_erase fst]. case_bool_decide as Hk.
  - subst k. rewrite decide_False by (by intros H; apply H).
    symmetry. apply filter_all. intros [k' t'] Hin Heq. cbn in Heq. subst k'.
    rewrite Forall_forall in Hall.
    assert (id < id); [|lia]. apply Hall. apply list_elem_of_fmap. by exists (id, t').
  - rewrite decide_True by done. f_equal. by apply IH.
Qed.

Lemma tasks_find_erase_ne id id' tasks :
  id' ≠ id → tasks_find id' (tasks_erase id tasks) = tasks_find id' tasks.
Proof.
  intros Hne. induction tasks as [|[k t] tasks IH]; cbn; [done|].
  case_bool_decide as Hk.
  - subst k. by rewrite bool_decide_eq_false_2.
  - cbn. by rewrite IH.
Qed.

Lemma tasks_erase_keys id tasks :
  StronglySorted Z.lt (fst <$> tasks) →
  fst <$> tasks_erase id tasks = filter (λ k, k ≠ id) (fst <$> tasks).
Proof.
  intros Hs. rewrite tasks_erase_filter by done.
  induction tasks as [|[k t] tasks IH]; [done|].
  cbn in Hs. apply StronglySorted_inv in Hs as [Hs _].
  rewrite fmap_cons, !filter_cons. cbn [fst].
  destruct (decide (k ≠ id)); rewrite ?fmap_cons; by rewrite IH.
Qed.

Lemma sorted_filter (P : Z → Prop) `{!∀ k, Decision (P k)} (keys : list Z) :
  StronglySorted Z.lt keys → StronglySorted Z.lt (filter P keys).
Proof.
  induction 1 as [|k keys Hs IH Hall]; [constructor|].
  rewrite filter_cons. destruct (decide (P k)); [|done].
  constructor; [done|]. rewrite Forall_forall in *. intros x Hx.
  apply list_elem_of_filter in Hx as [_ Hx]. by apply Hall.
Qed.

Lemma tasks_find_erase_eq id tasks :
  StronglySorted Z.lt (fst <$> tasks) → tasks_find id (tasks_erase id tasks) = None.
Proof.
  intros Hs. apply tasks_find_None. rewrite tasks_erase_keys by done.
  rewrite list_elem_of_filter. by intros [? _].
Qed.

Lemma deleteTask_rest id m :
  m_tasks (deleteTask id m) = m_tasks m
  ∧ m_maxConcurrent (deleteTask id m) = m_maxConcurrent m
  ∧ manager_signals (deleteTask id m) = manager_signals m
  ∧ m_persistence (deleteTask id m)
    = (λ queue, queue ++ [DeleteTask id]) <$> m_persistence m.
Proof.
  unfold deleteTask. destruct (m_persistence m) as [queue|] eqn:Hp; cbn; rewrite ?Hp; done.
Qed.

Lemma task_cancel_rest t fs :
  m_filePath (fst (task_cancel t fs)) = m_filePath t
  ∧ m_segments (m_scheduler (fst (task_cancel t fs))) = m_segments (m_scheduler t)
  ∧ ∀ p, fs_files (snd (task_cancel t fs)) !! p
         = if bool_decide (p ≠ "" ∧ p ∈ m_tempFilePath <$> m_segments (m_scheduler t))
           then None else fs_files fs !! p.
Proof.
  unfold task_cancel. cbn [fst snd].
  destruct (task_setState_rest DownloadState.Failed t)
    as (Hsch & _ & _ & _ & _ & _ & _ & _ & Hpath & _).
  cbv zeta in Hsch, Hpath.
  cbn [m_filePath m_scheduler t_emit t_with_progressTimer t_with_scheduler stopWorkers
       t_with_workers t_with_lastError].
  rewrite Hpath, Hsch. split; [done|]. split; [done|].
  set (t4 := t_with_progressTimer false _).
  destruct (cleanupTempFiles_files t4 fs) as (_ & _ & _ & Hfiles).
  assert (m_segments (m_scheduler t4) = m_segments (m_scheduler t)) as Hsegs by (by subst t4).
  by rewrite Hsegs in Hfiles.
Qed.

Lemma DownloadTask_destroy_files t fs :
  let fs' := DownloadTask_destroy t fs in
  fs_room fs' = fs_room fs ∧ fs_denied fs' = fs_denied fs
  ∧ fs_bad_from fs' = fs_bad_from fs
  ∧ ∀ p, fs_files fs' !! p
         = if bool_decide (p ≠ "" ∧ p ∈ m_tempFilePath <$> m_segments (m_scheduler t))
           then None else fs_files fs !! p.
Proof. apply (cleanupTempFiles_files (stopWorkers t) fs). Qed.

(** [removeDownload] of a task that is not Downloading. *)
Lemma removeDownload_idle id deleteFile m fs t :
  tasks_find id (m_tasks m) = Some t → task_state t ≠ DownloadState.Downloading →
  removeDownload id deleteFile m fs
  = (mgr_emit totalCountChanged
       (mgr_emit (downloadRemoved id)
          (updateCounts (deleteTask id (mgr_with_tasks (tasks_erase id (m_tasks m)) m)))),
     DownloadTask_destroy t
       (if deleteFile && negb (bool_decide (m_filePath t = ""))
        then QFile_remove (m_filePath t) fs else fs)).
Proof.
  intros Hfind Hst. unfold removeDownload. rewrite Hfind.
  unfold task_isActive. by rewrite bool_decide_eq_false_2.
Qed.

(** X19.  [removeDownload] of an id that is not in the map changes nothing.
    For a task of the map, the task is gone from the map and the other keys
    stay; the counters are brought up to date; a [DeleteTask] request for the
    id joins the write queue, and [downloadRemoved] and [totalCountChanged]
    are the last signals.  On the disk the temp files of the task's segments
    are deleted whatever the state of the task was, the final file is
    deleted exactly when this was asked for, and no other file is touched.
    When the task was not Downloading, every other task is as before. *)
Theorem X19_removeDownload_forgets_task
    (id : Z) (deleteFile : bool) (m : DownloadManager) (fs : FileSystem) :
  keys_sorted m →
  let m' := fst (removeDownload id deleteFile m fs) in
  let fs' := snd (removeDownload id deleteFile m fs) in
  match task id m with
  | None => m' = m ∧ fs' = fs
  | Some t =>
      task id m' = None
      ∧ fst <$> m_tasks m' = filter (λ k, k ≠ id) (fst <$> m_tasks m)
      ∧ keys_sorted m'
      ∧ counts_current m'
      ∧ m_persistence m' = (λ queue, queue ++ [DeleteTask id]) <$> m_persistence m
      ∧ (∃ before, manager_signals m' = before ++ [downloadRemoved id; totalCountChanged])
      ∧ (task_state t ≠ DownloadState.Downloading →
           m_tasks m' = tasks_erase id (m_tasks m)
           ∧ (∀ id', id' ≠ id → task id' m' = task id' m)
           ∧ manager_signals m'
             = manager_signals m ++ [downloadRemoved id; totalCountChanged])
      ∧ (∀ p, fs_files fs' !! p
              = if bool_decide
                     ((p ≠ "" ∧ p ∈ m_tempFilePath <$> m_segments (m_scheduler t))
                      ∨ (deleteFile = true ∧ p = m_filePath t ∧ p ≠ ""))
                then None else fs_files fs !! p)
  end.
Proof.
  intros Hs. cbv zeta. unfold task.
  destruct (tasks_find id (m_tasks m)) as [t|] eqn:Hfind;
    [|unfold removeDownload; by rewrite Hfind].
  set (m1 := mgr_with_tasks (tasks_erase id (m_tasks m)) m).
  assert (keys_sorted m1) as Hs1.
  { unfold keys_sorted. subst m1. cbn [m_tasks mgr_with_tasks].
    rewrite tasks_erase_keys by done. by apply sorted_filter. }
  (* the manager and the task after the cancellation, if there is one *)
  assert (∃ t1 m2 fs1,
            removeDownload id deleteFile m fs
            = (mgr_emit totalCountChanged
                 (mgr_emit (downloadRemoved id) (updateCounts (deleteTask id m2))),
               DownloadTask_destroy t1
                 (if deleteFile && negb (bool_decide (m_filePath t1 = ""))
                  then QFile_remove (m_filePath t1) fs1 else fs1))
            ∧ m_filePath t1 = m_filePath t
            ∧ m_segments (m_scheduler t1) = m_segments (m_scheduler t)
            ∧ (∀ p, fs_files fs1 !! p = fs_files fs !! p
                    ∨ (p ≠ "" ∧ p ∈ m_tempFilePath <$> m_segments (m_scheduler t)
                       ∧ fs_files fs1 !! p = None))
            ∧ fst <$> m_tasks m2 = fst <$> m_tasks m1
            ∧ m_persistence m2 = m_persistence m
            ∧ (task_state t ≠ DownloadState.Downloading → m2 = m1))
    as (t1 & m2 & fs1 & Hrun & Hpath1 & Hsegs1 & Hfs1 & Hkeys2 & Hp2 & Hidle).
  { unfold removeDownload. rewrite Hfind. fold m1. unfold task_isActive.
    case_bool_decide as Hact.
    - destruct (task_cancel t fs) as [cancelled fs'] eqn:Hcancel.
      destruct (task_cancel_rest t fs) as (Hp & Hsg & Hfiles). rewrite Hcancel in *.
      cbn [fst snd] in *.
      exists cancelled, (onTaskStateChanged DownloadState.Failed m1), fs'.
      split; [done|]. split; [done|]. split; [done|].
      split.
      { intros p. rewrite Hfiles. case_bool_decide as Hp'; [|by left].
        right. by destruct Hp'. }
      unfold onTaskStateChanged. cbn [state_change_signals].
      destruct (updateCounts_rest m1) as (Ht & Hmax & Hpers & Hsig).
      pose proof (updateCounts_current m1) as Hcur.
      destruct (processQueue_frame (mgr_emit activeCountChanged (updateCounts m1)))
        as (Hk & Hpq & _).
      + unfold keys_sorted. cbn [m_tasks mgr_emit]. by rewrite Ht.
      + exact Hcur.
      + rewrite Hk, Hpq. cbn [m_tasks m_persistence mgr_emit]. rewrite Ht, Hpers.
        split; [done|]. split; [done|]. intros Hne. by destruct Hne.
    - exists t, m1, fs. repeat split; try done. intros p. by left. }
  rewrite Hrun. cbn [fst snd]. clear Hrun.
  destruct (deleteTask_rest id m2) as (Ht3 & Hmax3 & Hsig3 & Hp3).
  destruct (updateCounts_rest (deleteTask id m2)) as (Ht4 & Hmax4 & Hp4 & Hsig4).
  pose proof (updateCounts_current (deleteTask id m2)) as Hcur4.
  cbn [m_tasks m_persistence manager_signals mgr_emit].
  assert (fst <$> m_tasks (updateCounts (deleteTask id m2))
          = filter (λ k, k ≠ id) (fst <$> m_tasks m)) as Hkeys.
  { rewrite Ht4, Ht3, Hkeys2. subst m1. cbn [m_tasks mgr_with_tasks].
    by apply tasks_erase_keys. }
  split.
  { apply tasks_find_None. rewrite Hkeys, list_elem_of_filter. by intros [? _]. }
  split; [done|].
  split. { unfold keys_sorted. cbn [m_tasks mgr_emit]. rewrite Hkeys. by apply sorted_filter. }
  split; [exact Hcur4|].
  split. { by rewrite Hp4, Hp3, Hp2. }
  split. { eexists. rewrite <- app_assoc. reflexivity. }
  split.
  { intros Hne. rewrite Ht4, Hsig4, Ht3, Hsig3, (Hidle Hne).
    subst m1. cbn [m_tasks manager_signals mgr_with_tasks].
    split; [done|]. split; [|by rewrite <- app_assoc].
    intros id' Hid'. by apply tasks_find_erase_ne. }
  intros p.
  destruct (DownloadTask_destroy_files t1
              (if deleteFile && negb (bool_decide (m_filePath t1 = ""))
               then QFile_remove (m_filePath t1) fs1 else fs1)) as (_ & _ & _ & ->).
  rewrite Hsegs1, Hpath1.
  destruct (decide (p ≠ "" ∧ p ∈ m_tempFilePath <$> m_segments (m_scheduler t)))
    as [Htemp|Htemp].
  { rewrite !bool_decide_eq_true_2; [done|by left|done]. }
  rewrite (bool_decide_eq_false_2 (p ≠ "" ∧ _)) by done.
  destruct (Hfs1 p) as [Hsame|(? & ? & _)]; [|by destruct Htemp].
  destruct deleteFile; cbn [andb].
  - case_bool_decide as Hempty; cbn [negb].
    + rewrite Hsame, bool_decide_eq_false_2; [done|].
      intros [[? ?]|(_ & -> & ?)]; [by apply Htemp|done].
    + cbn. destruct (decide (p = m_filePath t)) as [->|Hp].
      * rewrite lookup_delete_eq. rewrite bool_decide_eq_true_2; [done|]. by right.
      * rewrite lookup_delete_ne by done. rewrite Hsame.
        rewrite bool_decide_eq_false_2; [done|].
        intros [[? ?]|(_ & ? & _)]; [by apply Htemp|done].
  - rewrite Hsame, bool_decide_eq_false_2; [done|].
    intros [[? ?]|(? & _)]; [by apply Htemp|done].
Qed.

Lemma X19_removeDownload_witness :
  task 9 (fst (removeDownload 9 true manager_at_work disk_at_work)) = None
  ∧ fs_files (snd (removeDownload 9 true manager_at_work disk_at_work))
      !! "/dl/.b.iso.part0" = None.
Proof.
  assert (keys_sorted manager_at_work) as Hs.
  { unfold keys_sorted. cbn. repeat constructor; lia. }
  pose proof (X19_removeDownload_forgets_task 9 true manager_at_work disk_at_work Hs) as H.
  cbv zeta in H.
  change (task 9 manager_at_work) with (Some task_running_segments) in H.
  destruct H as (Hgone & _ & _ & _ & _ & _ & _ & Hfiles).
  split; [exact Hgone|]. rewrite Hfiles. vm_compute. reflexivity.
Defined.

(* ===================================================================== *)
(** * Destroying and clearing *)
(* ===================================================================== *)

(** ** Destroying tasks *)

Lemma destroy_fold (tasks : list (Z * DownloadTask)) (fs : FileSystem) :
  let fs' := foldl (λ acc e, DownloadTask_destroy (snd e) acc) fs tasks in
  fs_room fs' = fs_room fs ∧ fs_denied fs' = fs_denied fs
  ∧ fs_bad_from fs' = fs_bad_from fs
  ∧ ∀ p, fs_files fs' !! p
         = if bool_decide (p ≠ "" ∧ p ∈ temp_paths tasks) then None
           else fs_files fs !! p.
Proof.
  revert fs. induction tasks as [|e tasks IH]; intros fs; cbn [foldl]; cbv zeta.
  - repeat split; try done. intros p. rewrite bool_decide_eq_false_2; [done|].
    intros [_ H]. by apply elem_of_nil in H.
  - destruct (IH (DownloadTask_destroy (snd e) fs)) as (Hr & Hd & Hb & Hf).
    destruct (DownloadTask_destroy_files (snd e) fs) as (Hr1 & Hd1 & Hb1 & Hf1).
    cbv zeta in Hr, Hd, Hb, Hf, Hr1, Hd1, Hb1, Hf1.
    rewrite Hr, Hd, Hb, Hr1, Hd1, Hb1. repeat split; try done.
    intros p. rewrite Hf, Hf1. unfold temp_paths. rewrite bind_cons. fold (temp_paths tasks).
    destruct (decide (p = "")) as [->|Hp].
    { rewrite !bool_decide_eq_false_2; [done|by intros [? _]..]. }
    destruct (decide (p ∈ temp_paths tasks)) as [Hin|Hout].
    { rewrite !bool_decide_eq_true_2; [done| |done].
      split; [done|]. apply elem_of_app. by right. }
    rewrite (bool_decide_eq_false_2 (p ≠ "" ∧ p ∈ temp_paths tasks)) by (by intros [_ ?]).
    apply (f_equal (λ b : bool, if b then None else fs_files fs !! p)).
    apply bool_decide_ext. rewrite elem_of_app. tauto.
Qed.

Lemma elem_of_temp_paths p tasks :
  p ∈ temp_paths tasks
  ↔ ∃ e sg, e ∈ tasks ∧ sg ∈ m_segments (m_scheduler (snd e)) ∧ p = m_tempFilePath sg.
Proof.
  unfold temp_paths. rewrite list_elem_of_bind. split.
  - intros (e & Hp & He). apply list_elem_of_fmap in Hp as (sg & -> & Hsg). by exists e, sg.
  - intros (e & sg & He & Hsg & ->). exists e. split; [|done]. by apply list_elem_of_fmap_2.
Qed.

(** X21.  When the manager is destroyed, as at the end of [shutdown], its
    tasks are destroyed, and the destructor of a task deletes the temp files
    of its segments.  So afterwards no temp file of any segment of any task
    is on the disk, whatever the task's state, a Paused one included: what
    was downloaded of an unfinished file does not outlast the manager.  No
    other file is touched. *)
Theorem X21_destroying_manager_deletes_temp_files (m : DownloadManager) (fs : FileSystem) :
  let fs' := DownloadManager_destroy m fs in
  (∀ id t sg, (id, t) ∈ m_tasks m → sg ∈ m_segments (m_scheduler t) →
              m_tempFilePath sg ≠ "" → fs_files fs' !! m_tempFilePath sg = None)
  ∧ (∀ p, p = "" ∨ p ∉ temp_paths (m_tasks m) → fs_files fs' !! p = fs_files fs !! p)
  ∧ fs_room fs' = fs_room fs
  ∧ (∀ order, order ≡ₚ m_tasks m →
       ∀ p, fs_files (foldl (λ acc e, DownloadTask_destroy (snd e) acc) fs order) !! p
            = fs_files fs' !! p).
Proof.
  cbv zeta. unfold DownloadManager_destroy.
  destruct (destroy_fold (m_tasks m) fs) as (Hr & _ & _ & Hf). cbv zeta in Hr, Hf.
  split.
  { intros id t sg Hin Hsg Hpath. rewrite Hf, bool_decide_eq_true_2; [done|].
    split; [done|]. apply elem_of_temp_paths. by exists (id, t), sg. }
  split.
  { intros p Hp. rewrite Hf, bool_decide_eq_false_2; [done|].
    intros [? ?]. by destruct Hp. }
  split; [done|].
  intros order Hperm p.
  destruct (destroy_fold order fs) as (_ & _ & _ & Hf'). cbv zeta in Hf'.
  rewrite Hf, Hf'.
  apply (f_equal (λ b : bool, if b then None else fs_files fs !! p)).
  apply bool_decide_ext. unfold temp_paths. by rewrite Hperm.
Qed.

(** ** Clearing the completed downloads *)

Lemma filter_ext_in {A} (P Q : A → Prop) `{!∀ x, Decision (P x)} `{!∀ x, Decision (Q x)}
    (l : list A) :
  (∀ x, x ∈ l → P x ↔ Q x) → filter P l = filter Q l.
Proof.
  induction l as [|x l IH]; intros Hl; [done|].
  rewrite !filter_cons.
  destruct (decide (P x)) as [HP|HP], (decide (Q x)) as [HQ|HQ].
  - f_equal. apply IH. intros y Hy. apply Hl. by right.
  - destruct HQ. apply (Hl x); [left|done].
  - destruct HP. apply (Hl x); [left|done].
  - apply IH. intros y Hy. apply Hl. by right.
Qed.

Lemma clear_fold (gone : list (Z * DownloadTask)) (m : DownloadManager) (fs : FileSystem) :
  keys_sorted m → NoDup (fst <$> gone) →
  (∀ e, e ∈ gone → tasks_find (fst e) (m_tasks m) = Some (snd e)
                   ∧ task_state (snd e) ≠ DownloadState.Downloading) →
  let r := foldl (λ acc id, removeDownload id false (fst acc) (snd acc)) (m, fs)
             (fst <$> gone) in
  m_tasks (fst r) = filter (λ e, fst e ∉ fst <$> gone) (m_tasks m)
  ∧ m_persistence (fst r)
    = (λ queue, queue ++ (DeleteTask <$> (fst <$> gone))) <$> m_persistence m
  ∧ manager_signals (fst r)
    = manager_signals m
      ++ ((fst <$> gone) ≫= λ id, [downloadRemoved id; totalCountChanged])
  ∧ m_maxConcurrent (fst r) = m_maxConcurrent m
  ∧ (gone ≠ [] ∨ counts_current m → counts_current (fst r))
  ∧ (∀ p, fs_files (snd r) !! p
          = if bool_decide (p ≠ "" ∧ p ∈ temp_paths gone) then None
            else fs_files fs !! p).
Proof.
  revert m fs. induction gone as [|[id t] gone IH]; intros m fs Hs Hnd Hgone; cbv zeta.
  - cbn. split.
    { symmetry. apply filter_all. intros x _ H. by apply elem_of_nil in H. }
    split. { destruct (m_persistence m) as [queue|]; cbn; [|done]. by rewrite app_nil_r. }
    split; [by rewrite app_nil_r|]. split; [done|].
    split. { by intros [?|?]. }
    intros p. rewrite bool_decide_eq_false_2; [done|].
    intros [_ H]. by apply elem_of_nil in H.
  - rewrite fmap_cons in Hnd. apply NoDup_cons in Hnd as [Hne Hnd]. cbn [fst] in Hne.
    destruct (Hgone (id, t) ltac:(left)) as [Hfind Hst]. cbn [fst snd] in Hfind, Hst.
    rewrite fmap_cons. cbn [foldl fst snd].
    rewrite (removeDownload_idle id false m fs t Hfind Hst). cbn [andb fst snd].
    set (m1 := mgr_with_tasks (tasks_erase id (m_tasks m)) m).
    destruct (deleteTask_rest id m1) as (Ht3 & Hmax3 & Hsig3 & Hp3).
    destruct (updateCounts_rest (deleteTask id m1)) as (Ht4 & Hmax4 & Hp4 & Hsig4).
    pose proof (updateCounts_current (deleteTask id m1)) as Hcur4.
    set (m4 := mgr_emit totalCountChanged _).
    assert (m_tasks m4 = filter (λ e, fst e ≠ id) (m_tasks m)) as Htasks4.
    { subst m4. cbn [m_tasks mgr_emit]. rewrite Ht4, Ht3. subst m1.
      cbn [m_tasks mgr_with_tasks]. by apply tasks_erase_filter. }
    assert (m_tasks m4 = tasks_erase id (m_tasks m)) as Herase4.
    { subst m4. cbn [m_tasks mgr_emit]. by rewrite Ht4, Ht3. }
    destruct (IH m4 (DownloadTask_destroy t fs)) as (Ht' & Hp' & Hsig' & Hmax' & Hc' & Hf').
    { unfold keys_sorted. rewrite Herase4, tasks_erase_keys by done. by apply sorted_filter. }
    { done. }
    { intros e He. destruct (Hgone e ltac:(by right)) as [Hfind' Hst']. split; [|done].
      rewrite Herase4, tasks_find_erase_ne; [done|].
      intros Heq. apply Hne. rewrite <- Heq. by apply list_elem_of_fmap_2. }
    cbv zeta in Ht', Hp', Hsig', Hmax', Hc', Hf'.
    rewrite Ht', Hp', Hsig', Hmax'.
    split.
    { rewrite Htasks4, list_filter_filter. apply filter_ext_in.
      intros x _. rewrite not_elem_of_cons. tauto. }
    split.
    { subst m4. cbn [m_persistence mgr_emit]. rewrite Hp4, Hp3. subst m1.
      cbn [m_persistence mgr_with_persistence mgr_with_tasks].
      destruct (m_persistence m); cbn; [|done]. by rewrite <- app_assoc. }
    split.
    { subst m4. cbn [manager_signals mgr_emit]. rewrite Hsig4, Hsig3. subst m1.
      cbn [manager_signals mgr_with_tasks]. rewrite bind_cons.
      by rewrite <- !app_assoc. }
    split. { subst m4. cbn [m_maxConcurrent mgr_emit]. rewrite Hmax4, Hmax3. by subst m1. }
    split. { intros _. apply Hc'. by right. }
    intros p. rewrite Hf'.
    destruct (DownloadTask_destroy_files t fs) as (_ & _ & _ & ->).
    unfold temp_paths. rewrite bind_cons. fold (temp_paths gone). cbn [snd].
    destruct (decide (p = "")) as [->|Hp].
    { rewrite !bool_decide_eq_false_2; [done|by intros [? _]..]. }
    destruct (decide (p ∈ temp_paths gone)) as [Hin|Hout].
    { rewrite !bool_decide_eq_true_2; [done| |done].
      split; [done|]. apply elem_of_app. by right. }
    rewrite (bool_decide_eq_false_2 (p ≠ "" ∧ p ∈ temp_paths gone)) by (by intros [_ ?]).
    apply (f_equal (λ b : bool, if b then None else fs_files fs !! p)).
    apply bool_decide_ext. rewrite elem_of_app. tauto.
Qed.

(** X20.  [clearCompleted] removes exactly the Completed tasks: the map
    keeps the other tasks, unchanged and in their order; for every removed
    id, in key order, a [DeleteTask] request joins the write queue and
    [downloadRemoved] and [totalCountChanged] are signalled; no task is
    started.  The final files stay on the disk: only temp files that
    segments of the removed tasks still name are deleted.  If something was
    removed the counters are current afterwards and the completed count
    is 0. *)
Theorem X20_clearCompleted_removes_completed_only (m : DownloadManager) (fs : FileSystem) :
  keys_sorted m →
  let m' := fst (clearCompleted m fs) in
  let fs' := snd (clearCompleted m fs) in
  let gone := filter is_completed (m_tasks m) in
  m_tasks m' = filter (λ e, ¬ is_completed e) (m_tasks m)
  ∧ m_persistence m'
    = (λ queue, queue ++ (DeleteTask <$> (fst <$> gone))) <$> m_persistence m
  ∧ manager_signals m'
    = manager_signals m
      ++ ((fst <$> gone) ≫= λ id, [downloadRemoved id; totalCountChanged])
  ∧ (gone ≠ [] ∨ counts_current m → counts_current m' ∧ m_completedCount m' = 0)
  ∧ (∀ p, fs_files fs' !! p
          = if bool_decide (p ≠ "" ∧ p ∈ temp_paths gone) then None
            else fs_files fs !! p).
Proof.
  intros Hs. cbv zeta. unfold clearCompleted. cbv zeta.
  change (filter (λ e, task_state (snd e) = DownloadState.Completed) (m_tasks m))
    with (filter is_completed (m_tasks m)).
  set (gone := filter is_completed (m_tasks m)).
  assert (∀ e, e ∈ gone ↔ is_completed e ∧ e ∈ m_tasks m) as Hgone
    by (intros e; apply list_elem_of_filter).
  destruct (clear_fold gone m fs Hs) as (Ht & Hp & Hsig & _ & Hc & Hf).
  { apply (sublist_NoDup _ (fst <$> m_tasks m)).
    - by apply sorted_keys_NoDup.
    - apply fmap_sublist. apply sublist_filter. }
  { intros [k t] He. apply Hgone in He as [Hdone Hin]. split; [by apply tasks_find_sorted|].
    unfold is_completed in Hdone. cbn in *. by rewrite Hdone. }
  cbv zeta in Ht, Hp, Hsig, Hc, Hf.
  assert (m_tasks (fst (foldl (λ acc id, removeDownload id false (fst acc) (snd acc))
                          (m, fs) (fst <$> gone)))
          = filter (λ e, ¬ is_completed e) (m_tasks m)) as Htasks.
  { rewrite Ht. apply filter_ext_in. intros [k t] Hin. split.
    - intros Hk Hdone. apply Hk. apply list_elem_of_fmap. exists (k, t).
      split; [done|]. by apply Hgone.
    - intros Hnot Hk. apply list_elem_of_fmap in Hk as ([k' t'] & Hkey & He').
      cbn in Hkey. subst k'. apply Hgone in He' as [Hdone' Hin'].
      pose proof (tasks_find_sorted _ _ _ Hs Hin) as H1.
      pose proof (tasks_find_sorted _ _ _ Hs Hin') as H2.
      rewrite H1 in H2. injection H2 as ->. done. }
  split; [done|]. split; [done|]. split; [done|]. split; [|done].
  intros Hsome. specialize (Hc Hsome). split; [done|].
  destruct Hc as (_ & _ & ->). rewrite Htasks, list_filter_filter.
  rewrite filter_none; [done|]. intros x _ [? ?]. done.
Qed.

Lemma X20_clearCompleted_witness :
  fst <$> m_tasks (fst (clearCompleted manager_at_work disk_at_work)) = [9]
  ∧ fs_files (snd (clearCompleted manager_at_work disk_at_work)) !! "/dl/a.iso"
    = Some (replicate 1000 Byte.x78).
Proof.
  assert (keys_sorted manager_at_work) as Hs.
  { unfold keys_sorted. cbn. repeat constructor; lia. }
  destruct (X20_clearCompleted_removes_completed_only manager_at_work disk_at_work Hs)
    as (Htasks & _ & _ & _ & Hfiles).
  split; [rewrite Htasks|rewrite Hfiles]; vm_compute; reflexivity.
Defined.

(* ===================================================================== *)
(** * A whole download by one worker *)
(* ===================================================================== *)

(** ** A whole download by one worker *)

Lemma run_loop_clean_step fuel tr trs w s fs h q sg :
  m_curl w = true → m_shouldStop w = false → m_isPaused w = false →
  m_paused s || m_cancelled s = false →
  m_pendingQueue s = h :: q → m_activeSegments s = ∅ → m_failedSegments s = ∅ →
  m_segments s !! h = Some sg → completes tr sg →
  temp_file_of w sg ∉ fs_denied fs →
  Z.of_nat (length (received (tr_events tr))) ≤ fs_room fs →
  let path := temp_file_of w sg in
  let kept := if 0 <? downloadedBytes sg then default [] (fs_files fs !! path) else [] in
  let data := received (tr_events tr) in
  ∃ w' s',
    run_loop (S fuel) (tr :: trs) w s fs
    = run_loop fuel trs w' s'
        (mkFileSystem (<[path := kept ++ data]> (fs_files fs))
           (fs_room fs - Z.of_nat (length data)) (fs_denied fs) (fs_bad_from fs))
    ∧ m_curl w' = true ∧ m_shouldStop w' = false ∧ m_isPaused w' = false
    ∧ m_filePath_dir w' = m_filePath_dir w ∧ m_filePath_name w' = m_filePath_name w
    ∧ m_paused s' || m_cancelled s' = false
    ∧ m_pendingQueue s' = q ∧ m_activeSegments s' = ∅ ∧ m_failedSegments s' = ∅
    ∧ m_completedSegments s' = {[h]} ∪ m_completedSegments s
    ∧ m_segments s' = <[h := after_success w (Z.of_nat (length data)) sg]> (m_segments s)
    ∧ m_signals s'
      = m_signals s ++ segmentCompleted (m_id sg)
                       :: (if bool_decide (q = []) then [allSegmentsCompleted] else []).
Proof.
  intros Hcurl Hstop Hpause Hflags Hq Hactive Hfailed Hsg (Hrecv & Hok & Hlo & Hend & Hhi)
    Hdenied Hroom. cbv zeta.
  assert (h < length (m_segments s))%nat as Hlt by (by eapply lookup_lt_Some).
  cbn [run_loop]. unfold shouldContinue at 1. rewrite Hstop, Hpause. cbn [negb].
  rewrite (acquireSegment_pending _ s h q Hflags Hq).
  set (s1 := with_workerAssignments _ _).
  set (w2 := w_with_counters _ _ _).
  assert (m_segments s1 !! h = Some (setState SegmentState.Active sg)) as Hsg1.
  { subst s1. unfold on_segment. cbn. by rewrite list_lookup_alter_eq, Hsg. }
  assert (temp_file_of w2 (setState SegmentState.Active sg) = temp_file_of w sg) as Hpath
    by done.
  destruct (downloadSegment_clean h tr w2 s1 fs (setState SegmentState.Active sg))
    as (w3 & Hdl & Hw3); try done.
  cbv zeta in Hdl. rewrite Hdl, Hpath. clear Hdl.
  cbn [m_endByte m_currentByte setState].
  rewrite (proj2 (Z.ltb_lt _ _) Hend). cbn [negb andb].
  destruct (counters_apart_fields _ _ Hw3)
    as (Hthis3 & Hdir3 & Hname3 & _ & Hcurl3 & Hstop3 & Hpause3 & _).
  eexists _, _. split; [reflexivity|].
  split; [cbn; by rewrite Hcurl3|]. split; [cbn; by rewrite Hstop3|].
  split; [cbn; by rewrite Hpause3|]. split; [cbn; by rewrite Hdir3|].
  split; [cbn; by rewrite Hname3|].
  set (s2 := with_segments _ s1).
  assert (after_transfer w2 (Z.of_nat (length (received (tr_events tr))))
            (setState SegmentState.Active sg)
          = setCurrentByte (m_currentByte sg + Z.of_nat (length (received (tr_events tr))))
              (setTempFilePath (temp_file_of w sg) (setState SegmentState.Active sg)))
    as Hafter.
  { unfold after_transfer. cbv zeta. cbn [m_endByte m_currentByte setState].
    rewrite (proj2 (Z.ltb_lt _ _) Hend). by rewrite Hpath. }
  set (s3 := on_segment h (setState SegmentState.Completed) s2).
  assert (length (m_segments s1) = length (m_segments s)) as Hlen1.
  { subst s1. unfold on_segment. cbn. by rewrite length_alter. }
  assert (m_segments s3 = <[h := after_success w (Z.of_nat (length (received (tr_events tr)))) sg]>
                            (m_segments s)) as Hsegs3.
  { subst s3 s2. unfold on_segment. cbn [m_segments with_segments].
    rewrite (alter_as_insert _ _ _ (after_transfer w2 _ (setState SegmentState.Active sg)))
      by (rewrite list_lookup_insert_eq; [done|by rewrite Hlen1]).
    rewrite list_insert_insert_eq, Hafter.
    subst s1. unfold on_segment. cbn [m_segments with_segments with_workerAssignments
      with_activeSegments with_pendingQueue].
    rewrite (alter_as_insert _ _ _ sg) by done. by rewrite list_insert_insert_eq. }
  assert (m_pendingQueue s3 = q ∧ m_activeSegments s3 = {[h]} ∪ m_activeSegments s
          ∧ m_failedSegments s3 = m_failedSegments s
          ∧ m_completedSegments s3 = m_completedSegments s
          ∧ m_paused s3 = m_paused s ∧ m_cancelled s3 = m_cancelled s
          ∧ m_signals s3 = m_signals s) as (Hq3 & Ha3 & Hf3 & Hc3 & Hp3 & Hcc3 & Hsig3)
    by done.
  clearbody s3. clear s2 Hlen1 Hsg1 s1.
  unfold releaseSegment.
  cbn [m_segments with_workerAssignments with_activeSegments].
  rewrite Hsegs3, list_lookup_insert_eq by done.
  cbn [m_state after_success setState m_id setCurrentByte setTempFilePath].
  assert (m_activeSegments s3 ∖ {[h]} = ∅) as Hempty.
  { rewrite Ha3, Hactive. apply set_eq. intros x.
    rewrite elem_of_difference, elem_of_union, elem_of_singleton.
    split; [|by intros []%not_elem_of_empty].
    intros [[?|[]%not_elem_of_empty] ?]. done. }
  rewrite Hempty.
  unfold checkAllComplete, isAllComplete.
  cbn [m_pendingQueue m_activeSegments m_failedSegments emit with_completedSegments
       with_workerAssignments with_activeSegments].
  rewrite Hq3, Hf3, Hfailed.
  rewrite (bool_decide_eq_true_2 (∅ = ∅)) by done. rewrite !andb_true_r.
  case_bool_decide as Hlast;
    cbn [m_paused m_cancelled m_pendingQueue m_activeSegments m_failedSegments
         m_completedSegments m_segments m_signals emit with_completedSegments
         with_workerAssignments with_activeSegments];
    rewrite ?Hp3, ?Hcc3, ?Hq3, ?Hf3, ?Hc3, ?Hsig3, ?Hsegs3, ?Hfailed;
    repeat split; try done; by rewrite <- app_assoc.
Qed.

Lemma temp_file_of_worker w w' sg :
  m_filePath_dir w' = m_filePath_dir w → m_filePath_name w' = m_filePath_name w →
  temp_file_of w' sg = temp_file_of w sg.
Proof. intros Hd Hn. unfold temp_file_of. by rewrite Hd, Hn. Qed.

Lemma run_loop_completes (q : list nat) :
  ∀ (transfers : list Transfer) (w : SegmentWorker) (s : Scheduler) (fs : FileSystem)
    (fuel : nat),
  m_curl w = true → m_shouldStop w = false → m_isPaused w = false →
  m_paused s || m_cancelled s = false →
  m_activeSegments s = ∅ → m_failedSegments s = ∅ →
  m_pendingQueue s = q → NoDup q →
  (∀ h1 h2 sg1 sg2, h1 ∈ q → h2 ∈ q →
     m_segments s !! h1 = Some sg1 → m_segments s !! h2 = Some sg2 →
     temp_file_of w sg1 = temp_file_of w sg2 → h1 = h2) →
  Forall2 (λ h tr, ∃ sg, m_segments s !! h = Some sg ∧ completes tr sg
                         ∧ temp_file_of w sg ∉ fs_denied fs) q transfers →
  total_received transfers ≤ fs_room fs →
  (length q < fuel)%nat →
  ∃ w' s' fs',
    run_loop fuel transfers w s fs = Finished w' s' fs'
    ∧ isAllComplete s' = true
    ∧ m_completedSegments s' = list_to_set q ∪ m_completedSegments s
    ∧ m_signals s'
      = m_signals s
        ++ ((λ h, segmentCompleted (default 0 (m_id <$> m_segments s !! h))) <$> q)
        ++ (if bool_decide (q = []) then [] else [allSegmentsCompleted])
    ∧ (∀ i h tr sg, q !! i = Some h → transfers !! i = Some tr →
         m_segments s !! h = Some sg →
         m_segments s' !! h
         = Some (after_success w (Z.of_nat (length (received (tr_events tr)))) sg)
         ∧ fs_files fs' !! temp_file_of w sg
           = Some ((if 0 <? downloadedBytes sg
                    then default [] (fs_files fs !! temp_file_of w sg) else [])
                   ++ received (tr_events tr)))
    ∧ (∀ k, k ∉ q → m_segments s' !! k = m_segments s !! k)
    ∧ (∀ p, (∀ h sg, h ∈ q → m_segments s !! h = Some sg → p ≠ temp_file_of w sg) →
            fs_files fs' !! p = fs_files fs !! p)
    ∧ fs_room fs' = fs_room fs - total_received transfers.
Proof.
  induction q as [|h q IH];
    intros transfers w s fs fuel Hcurl Hstop Hpause Hflags Hactive Hfailed Hq Hnd Hpaths
      Hall Hroom Hfuel.
  - apply Forall2_nil_inv_l in Hall as ->.
    destruct fuel as [|fuel]; [cbn in Hfuel; lia|].
    cbn [run_loop]. unfold shouldContinue. rewrite Hstop, Hpause. cbn [negb].
    rewrite (acquireSegment_nothing _ s Hq Hactive).
    apply orb_false_iff in Hflags as [Hp Hc].
    assert (waitForWork s = false) as ->.
    { unfold waitForWork. rewrite Hq, Hactive, Hp, Hc.
      by rewrite !bool_decide_eq_true_2 by done. }
    cbn [negb].
    assert (isAllComplete s = true) as Hdone by (by apply isAllComplete_true).
    rewrite Hdone. unfold run_cleanup. eexists _, _, _. split; [reflexivity|].
    unfold unregisterWorker. cbn. rewrite app_nil_r.
    split; [exact Hdone|]. split. { by rewrite union_empty_l_L. }
    split; [done|]. split; [done|]. split; [done|]. split; [done|]. lia.
  - apply Forall2_cons_inv_l in Hall as (tr & trs & (sg & Hsg & Hclean & Hdenied) & Hall & ->).
    destruct fuel as [|fuel]; [cbn in Hfuel; lia|].
    apply NoDup_cons in Hnd as [Hnotin Hnd].
    cbn [total_received foldr] in Hroom. fold (total_received trs) in Hroom.
    assert (0 ≤ total_received trs) as Hpos.
    { clear. induction trs as [|x trs IHtrs]; cbn; [done|].
      fold (total_received trs). lia. }
    destruct (run_loop_clean_step fuel tr trs w s fs h q sg)
      as (w1 & s1 & Hrun & Hcurl1 & Hstop1 & Hpause1 & Hdir1 & Hname1 & Hflags1 & Hq1 & Ha1
          & Hf1 & Hc1 & Hsegs1 & Hsig1); try done; [lia|].
    cbv zeta in Hrun. rewrite Hrun. clear Hrun.
    set (path := temp_file_of w sg) in *.
    set (data := received (tr_events tr)) in *.
    set (kept := if 0 <? downloadedBytes sg then default [] (fs_files fs !! path) else []).
    set (fs1 := mkFileSystem _ _ _ _).
    assert (∀ k, k ≠ h → m_segments s1 !! k = m_segments s !! k) as Hother.
    { intros k Hk. rewrite Hsegs1. by rewrite list_lookup_insert_ne. }
    assert (∀ h', h' ∈ q → h' ≠ h) as Hrest by (intros h' Hin ->; done).
    assert (∀ sg', temp_file_of w1 sg' = temp_file_of w sg') as Hsame
      by (intros sg'; by apply temp_file_of_worker).
    destruct (IH trs w1 s1 fs1 fuel) as (w' & s' & fs' & Hrun & Hdone & Hc' & Hsig' & Hsegs'
                                         & Hframe' & Hfiles' & Hroom'); try done.
    { intros h1 h2 sg1 sg2 H1 H2 Hs1 Hs2. rewrite !Hsame.
      rewrite Hother in Hs1 by (by apply Hrest). rewrite Hother in Hs2 by (by apply Hrest).
      apply Hpaths; by (right || idtac). }
    { apply Forall2_same_length_lookup. apply Forall2_same_length_lookup in Hall as [Hlen Hall].
      split; [done|]. intros i h' tr' Hh' Htr'.
      destruct (Hall i h' tr' Hh' Htr') as (sg' & Hsg' & Hclean' & Hdenied').
      exists sg'. rewrite Hsame. split; [|done].
      rewrite Hother; [done|]. apply Hrest. by eapply list_elem_of_lookup_2. }
    { subst fs1. cbn [fs_room]. lia. }
    { cbn [length] in Hfuel. lia. }
    exists w', s', fs'. split; [exact Hrun|]. split; [exact Hdone|].
    split.
    { rewrite Hc', Hc1. cbn [list_to_set]. apply set_eq. intros x.
      rewrite !elem_of_union. tauto. }
    split.
    { rewrite Hsig', Hsig1. rewrite fmap_cons, Hsg. cbn [fmap option_fmap option_map default].
      rewrite (bool_decide_eq_false_2 (h :: q = [])) by done.
      assert ((λ h0, segmentCompleted (default 0 (m_id <$> m_segments s1 !! h0))) <$> q
              = (λ h0, segmentCompleted (default 0 (m_id <$> m_segments s !! h0))) <$> q)
        as ->.
      { apply list_fmap_ext. intros i h' Hh'. rewrite Hother; [done|].
        apply Hrest. by eapply list_elem_of_lookup_2. }
      destruct q as [|h2 q2].
      - rewrite !bool_decide_eq_true_2 by done. cbn. by rewrite <- !app_assoc.
      - rewrite !bool_decide_eq_false_2 by done. cbn. by rewrite <- !app_assoc. }
    split.
    { intros i h' tr' sg' Hh' Htr' Hsg'. destruct i as [|i]; cbn in Hh', Htr'.
      - injection Hh' as <-. injection Htr' as <-. rewrite Hsg in Hsg'. injection Hsg' as <-.
        split.
        + rewrite Hframe' by done. rewrite Hsegs1. by rewrite list_lookup_insert_eq
            by (by eapply lookup_lt_Some).
        + rewrite Hfiles'.
          * subst fs1. cbn [fs_files]. by rewrite lookup_insert_eq.
          * intros h2 sg2 Hin2 Hsg2. rewrite Hsame. intros Heq.
            rewrite Hother in Hsg2 by (by apply Hrest).
            assert (h = h2) as <-; [|done].
            apply (Hpaths h h2 sg sg2); try done; [left|by right].
      - assert (h' ∈ q) as Hin by (by eapply list_elem_of_lookup_2).
        assert (temp_file_of w sg' ≠ path) as Hne.
        { intros Heq. apply (Hrest h' Hin).
          apply (Hpaths h' h sg' sg); try done; [by right|left]. }
        destruct (Hsegs' i h' tr' sg' Hh' Htr') as [Hs' Hf'];
          [by rewrite Hother by (by apply Hrest)|].
        assert (after_success w1 (Z.of_nat (length (received (tr_events tr')))) sg'
                = after_success w (Z.of_nat (length (received (tr_events tr')))) sg') as Hsucc
          by (unfold after_success; by rewrite Hsame).
        rewrite Hsucc in Hs'. rewrite !Hsame in Hf'. split; [exact Hs'|].
        rewrite Hf'. subst fs1. cbn [fs_files]. by rewrite lookup_insert_ne. }
    split.
    { intros k Hk. apply not_elem_of_cons in Hk as [Hk1 Hk2].
      rewrite Hframe' by done. by apply Hother. }
    split.
    { intros p Hp. rewrite Hfiles'.
      - subst fs1. cbn [fs_files]. rewrite lookup_insert_ne; [done|].
        intros <-. apply (Hp h sg); [left|done|done].
      - intros h2 sg2 Hin2 Hsg2. rewrite Hsame.
        rewrite Hother in Hsg2 by (by apply Hrest). apply (Hp h2 sg2); [by right|done]. }
    rewrite Hroom'. subst fs1 data. cbn [fs_room total_received foldr].
    fold (total_received trs). lia.
Qed.

(** X22.  One worker alone brings a download to its end.  The scheduler is
    neither paused nor cancelled, has nothing active and nothing failed, and
    the segments of its queue have temp files of their own; the transfers
    the worker meets, one for each queued segment in the order of the queue,
    are not interrupted, succeed and deliver at least the bytes the segment
    lacks; the disk takes them.  Then [run] returns (one iteration more than
    there are segments does): every queued segment is Completed, in the
    completed set, with its position advanced by what arrived and its temp
    file holding these bytes after what it had; [isAllComplete] holds;
    [segmentCompleted] went out for every segment in the order of the queue
    and, if there was a segment, [allSegmentsCompleted] once, as the last
    signal; no other segment and no other file has changed. *)
Theorem X22_single_worker_completes_download
    (transfers : list Transfer) (w : SegmentWorker) (s : Scheduler) (fs : FileSystem)
    (fuel : nat) :
  m_shouldStop w = false → m_isPaused w = false →
  m_paused s || m_cancelled s = false →
  m_activeSegments s = ∅ → m_failedSegments s = ∅ →
  NoDup (m_pendingQueue s) →
  own_temp_files (m_filePath_dir w) (m_filePath_name w) s →
  Forall2 (λ h tr, ∃ sg, m_segments s !! h = Some sg ∧ completes tr sg
                         ∧ temp_file_of w sg ∉ fs_denied fs)
    (m_pendingQueue s) transfers →
  total_received transfers ≤ fs_room fs →
  (length (m_pendingQueue s) < fuel)%nat →
  let q := m_pendingQueue s in
  ∃ w' s' fs',
    run true fuel transfers w s fs = Finished w' s' fs'
    ∧ isAllComplete s' = true
    ∧ m_completedSegments s' = list_to_set q ∪ m_completedSegments s
    ∧ m_signals s'
      = m_signals s
        ++ ((λ h, segmentCompleted (default 0 (m_id <$> m_segments s !! h))) <$> q)
        ++ (if bool_decide (q = []) then [] else [allSegmentsCompleted])
    ∧ (∀ i h tr sg, q !! i = Some h → transfers !! i = Some tr →
         m_segments s !! h = Some sg →
         m_segments s' !! h
         = Some (after_success w (Z.of_nat (length (received (tr_events tr)))) sg)
         ∧ fs_files fs' !! temp_file_of w sg
           = Some ((if 0 <? downloadedBytes sg
                    then default [] (fs_files fs !! temp_file_of w sg) else [])
                   ++ received (tr_events tr)))
    ∧ (∀ k, k ∉ q → m_segments s' !! k = m_segments s !! k)
    ∧ (∀ p, (∀ h sg, h ∈ q → m_segments s !! h = Some sg → p ≠ temp_file_of w sg) →
            fs_files fs' !! p = fs_files fs !! p)
    ∧ fs_room fs' = fs_room fs - total_received transfers.
Proof.
  intros Hstop Hpause Hflags Hactive Hfailed Hnd (_ & _ & Hids & Hpaths) Hall Hroom Hfuel.
  cbv zeta. unfold run. cbn [negb].
  unfold ids_distinct, paths_from_ids in Hids, Hpaths. rewrite Forall_lookup in Hpaths.
  assert (∀ h sg, m_segments s !! h = Some sg →
            temp_file_of w sg = temp_path (m_filePath_dir w) (m_filePath_name w) (m_id sg))
    as Hderived.
  { intros h sg Hsg. unfold temp_file_of. case_bool_decide as Hempty; [done|].
    by destruct (Hpaths h sg Hsg). }
  destruct (run_loop_completes (m_pendingQueue s) transfers (w_with_curl true w)
              (registerWorker (worker_this w) s) fs fuel)
    as (w' & s' & fs' & Hrun & Hrest); try done.
  { intros h1 h2 sg1 sg2 _ _ Hs1 Hs2 Heq.
    change (temp_file_of (w_with_curl true w) sg1) with (temp_file_of w sg1) in Heq.
    change (temp_file_of (w_with_curl true w) sg2) with (temp_file_of w sg2) in Heq.
    cbn in Hs1, Hs2. rewrite (Hderived h1 sg1 Hs1), (Hderived h2 sg2 Hs2) in Heq.
    apply temp_path_inj in Heq.
    eapply NoDup_lookup; [exact Hids|..].
    - by rewrite list_lookup_fmap, Hs1.
    - by rewrite list_lookup_fmap, Hs2, Heq. }
  exists w', s', fs'. split; [exact Hrun|]. exact Hrest.
Qed.

Lemma X22_single_worker_witness :
  ∃ w' s' fs',
    run true 3 [ten_bytes_sent; ten_bytes_sent] (SegmentWorker_new 0 "/dl" "f.bin")
      twenty_byte_download empty_disk
    = Finished w' s' fs'
    ∧ isAllComplete s' = true
    ∧ m_signals s' = [segmentCompleted 0; segmentCompleted 1; allSegmentsCompleted].
Proof.
  destruct (X22_single_worker_completes_download [ten_bytes_sent; ten_bytes_sent]
              (SegmentWorker_new 0 "/dl" "f.bin") twenty_byte_download empty_disk 3)
    as (w' & s' & fs' & Hrun & Hdone & _ & Hsig & _); try reflexivity.
  - apply NoDup_seq.
  - apply own_temp_files_initializeSegments.
  - apply Forall2_cons. split.
    { cbv beta. exists (Segment_new 0 0 9). split; [reflexivity|]. split.
      - split; [repeat constructor|]. split; [reflexivity|]. vm_compute.
        split; [discriminate|]. split; reflexivity.
      - vm_compute. intros H. discriminate H. }
    apply Forall2_cons. split; [|constructor].
    cbv beta. exists (Segment_new 1 10 19). split; [reflexivity|]. split.
    + split; [repeat constructor|]. split; [reflexivity|]. vm_compute.
      split; [discriminate|]. split; reflexivity.
    + vm_compute. intros H. discriminate H.
  - vm_compute. discriminate.
  - vm_compute. lia.
  - exists w', s', fs'. split; [exact Hrun|]. split; [exact Hdone|]. exact Hsig.
Defined.

(* ===================================================================== *)
(** * Retry and completion *)
(* ===================================================================== *)

(** ** Retrying *)

(** X23.  [retry] does nothing to a task that is not Failed.  On a Failed
    task, a cancelled one included, it starts the download from scratch: the
    error is cleared and the scheduler is reset, so it is neither cancelled
    nor paused and has nothing completed or failed.  With the capabilities
    of an earlier probe the task is Downloading again, its segments are
    built anew, all Pending at their first byte with nothing downloaded,
    they are all queued, and [acquireSegment] hands out the first of them;
    without, the task is Probing and has no segments yet. *)
Theorem X23_retry_starts_from_scratch (t : DownloadTask) :
  (task_state t ≠ DownloadState.Failed → task_retry t = t)
  ∧ (task_state t = DownloadState.Failed →
     let t' := task_retry t in
     let s' := m_scheduler t' in
     task_lastError t' = DownloadError_default
     ∧ m_paused s' = false ∧ m_cancelled s' = false
     ∧ m_activeSegments s' = ∅ ∧ m_completedSegments s' = ∅ ∧ m_failedSegments s' = ∅
     ∧ totalDownloadedBytes s' = 0
     ∧ (caps_isValid (m_capabilities t) = true →
          task_state t' = DownloadState.Downloading
          ∧ (∀ sg, sg ∈ m_segments s' →
                   m_currentByte sg = m_startByte sg ∧ m_state sg = SegmentState.Pending)
          ∧ (1 ≤ length (m_segments s'))%nat
          ∧ m_pendingQueue s' = seq 0 (length (m_segments s'))
          ∧ ∀ worker, fst (acquireSegment worker s') = Some 0%nat)
     ∧ (caps_isValid (m_capabilities t) = false →
          task_state t' = DownloadState.Probing ∧ m_segments s' = [])).
Proof.
  split.
  { intros Hst. unfold task_retry. by rewrite bool_decide_eq_true_2. }
  intros Hst. cbv zeta. unfold task_retry.
  rewrite bool_decide_eq_false_2 by (intros H; by apply H).
  set (t2 := t_with_scheduler _ _).
  destruct (task_setState_rest DownloadState.Queued t2)
    as (Hsch & _ & Hcaps & Hsize & _ & Herr & _).
  cbv zeta in Hsch, Hcaps, Hsize, Herr.
  set (t3 := task_setState DownloadState.Queued t2) in *.
  assert (task_state t3 = DownloadState.Queued) as Hst3 by apply task_setState_state.
  unfold start. rewrite Hst3. rewrite !bool_decide_eq_false_2 by done.
  rewrite Hcaps. assert (m_capabilities t2 = m_capabilities t) as -> by done.
  destruct (caps_isValid (m_capabilities t)) eqn:Hvalid.
  - unfold startWorkers. cbv zeta.
    set (t4 := task_initializeSegments t3).
    destruct (task_setState_rest DownloadState.Downloading t4)
      as (Hsch5 & _ & _ & _ & _ & Herr5 & _).
    cbv zeta in Hsch5, Herr5.
    cbn [task_state task_lastError m_scheduler t_with_progressTimer t_with_workers].
    rewrite task_setState_state, Hsch5, Herr5.
    assert (∃ total count,
              m_scheduler t4 = snd (initializeSegments total count (reset (m_scheduler t))))
      as (total & count & Hs4).
    { eexists _, _. subst t4. unfold task_initializeSegments.
      cbn [m_scheduler t_with_scheduler]. rewrite Hsch. reflexivity. }
    assert (task_lastError t4 = DownloadError_default) as ->
      by (subst t4; cbn; by rewrite Herr).
    rewrite Hs4.
    destruct (initializeSegments_length total count (reset (m_scheduler t))) as [Hlen Hn].
    cbv zeta in Hlen, Hn.
    split; [done|]. split; [done|]. split; [done|]. split; [done|]. split; [done|].
    split; [done|]. split; [apply initializeSegments_nothing_downloaded|].
    split; [|done]. intros _. split; [done|].
    split; [intros sg; apply initializeSegments_fresh|].
    split; [rewrite Hlen; lia|]. split; [done|].
    intros worker. unfold acquireSegment.
    cbn [m_paused m_cancelled initializeSegments snd reset orb m_pendingQueue].
    rewrite init_loop_length.
    destruct (Z.to_nat (clamp count Constants.MIN_SEGMENTS Constants.MAX_SEGMENTS))
      as [|n] eqn:Hz; [lia|]. done.
  - unfold probeServer.
    destruct (task_setState_rest DownloadState.Probing t3)
      as (Hsch5 & _ & _ & _ & _ & Herr5 & _).
    cbv zeta in Hsch5, Herr5.
    rewrite task_setState_state, Hsch5, Herr5, Hsch, Herr.
    subst t2. cbn [m_scheduler task_lastError t_with_scheduler t_with_lastError].
    repeat split; done.
Qed.

Lemma X23_retry_after_cancel_witness :
  task_state (task_retry task_cancelled) = DownloadState.Downloading
  ∧ fst (acquireSegment 0 (m_scheduler (task_retry task_cancelled))) = Some 0%nat.
Proof.
  destruct (X23_retry_starts_from_scratch task_cancelled) as [_ H].
  destruct (H eq_refl) as (_ & _ & _ & _ & _ & _ & _ & Hvalid & _).
  destruct (Hvalid eq_refl) as (Hstate & _ & _ & _ & Hacquire).
  split; [exact Hstate|exact (Hacquire 0%nat)].
Defined.

(** ** Completion *)

Lemma merge_loop_files_frame segments output fs p :
  p ≠ output →
  fs_files (snd (merge_loop segments output fs)) !! p = fs_files fs !! p.
Proof.
  intros Hp. revert fs. induction segments as [|segment rest IH]; intros fs; [done|].
  cbn [merge_loop]. destruct (QFile_open_read _ fs) as [input|].
  - destruct (copy_loop_frame (length input) input output fs) as (Hframe & _).
    cbv zeta in Hframe.
    destruct (copy_loop (length input) input output fs) as [[] fs1]; cbn [snd] in *.
    + by rewrite IH, Hframe.
    + cbn. by rewrite lookup_delete_ne, Hframe.
  - cbn. by rewrite lookup_delete_ne.
Qed.

Lemma mergeSegments_files_frame t fs p :
  p ≠ m_filePath t →
  fs_files (snd (mergeSegments t fs)) !! p = fs_files fs !! p.
Proof.
  intros Hp. unfold mergeSegments, QFile_open_write.
  case_bool_decide; [done|]. rewrite merge_loop_files_frame by done.
  cbn. by rewrite lookup_insert_ne.
Qed.

(** X24.  When the merge succeeds the download is finished for good: the
    task is Completed and its timer stopped, whatever [verifyFile] finds;
    the final file holds the merged bytes; the temp files of the segments
    are deleted and no other file has changed; and the task has signalled,
    in this order, its states Merging, Verifying and Completed, [completed]
    and [needsPersistence].  (The temp files are other files than the final
    file.) *)
Theorem X24_completed_download_cleans_up (t : DownloadTask) (fs : FileSystem) :
  Forall (λ segment, m_tempFilePath segment ≠ m_filePath t) (m_segments (m_scheduler t)) →
  fst (mergeSegments t fs) = true →
  let t' := fst (onAllSegmentsCompleted t fs) in
  let fs' := snd (onAllSegmentsCompleted t fs) in
  task_state t' = DownloadState.Completed
  ∧ m_progressTimer t' = false
  ∧ fs_files fs' !! m_filePath t = Some (merged_content t fs)
  ∧ (∀ sg, sg ∈ m_segments (m_scheduler t) → m_tempFilePath sg ≠ "" →
           fs_files fs' !! m_tempFilePath sg = None)
  ∧ (∀ p, p ≠ m_filePath t →
          p = "" ∨ p ∉ m_tempFilePath <$> m_segments (m_scheduler t) →
          fs_files fs' !! p = fs_files fs !! p)
  ∧ task_signals t'
    = task_signals t
      ++ (if bool_decide (task_state t ≠ DownloadState.Merging)
          then [stateChanged DownloadState.Merging] else [])
      ++ [stateChanged DownloadState.Verifying; stateChanged DownloadState.Completed;
          completed; needsPersistence].
Proof.
  intros Hne Hmerged. cbv zeta.
  pose proof (mergeSegments_content t fs Hne Hmerged) as Hcontent.
  unfold onAllSegmentsCompleted.
  set (t1 := t_with_progressTimer false (task_setState DownloadState.Merging t)).
  assert (mergeSegments t1 fs = mergeSegments t fs) as Hsame.
  { unfold mergeSegments, t1, task_setState. by case_bool_decide. }
  rewrite Hsame. destruct (mergeSegments t fs) as [merged fs1] eqn:Hrun.
  cbn [fst snd] in Hmerged, Hcontent. subst merged. cbn [negb fst snd].
  set (t2 := task_setState DownloadState.Verifying t1).
  destruct (task_setState_rest DownloadState.Completed t2)
    as (_ & _ & _ & _ & _ & _ & _ & _ & _ & _ & Htimer3).
  destruct (task_setState_rest DownloadState.Verifying t1)
    as (Hsch2 & _ & _ & _ & _ & _ & _ & _ & _ & _ & Htimer2).
  destruct (task_setState_rest DownloadState.Merging t) as (Hsch1 & _).
  cbv zeta in Htimer3, Hsch2, Htimer2, Hsch1. fold t2 in Hsch2, Htimer2.
  cbn [task_state m_progressTimer task_signals t_emit].
  rewrite (task_setState_state DownloadState.Completed t2), Htimer3, Htimer2.
  assert (m_segments (m_scheduler t2) = m_segments (m_scheduler t)) as Hsegs
    by (rewrite Hsch2; subst t1; cbn; by rewrite Hsch1).
  destruct (cleanupTempFiles_files t2 fs1) as (_ & _ & _ & Hfiles). cbv zeta in Hfiles.
  rewrite Hsegs in Hfiles.
  split; [done|]. split; [done|].
  split.
  { rewrite Hfiles, bool_decide_eq_false_2; [done|].
    intros [_ Hin]. apply list_elem_of_fmap in Hin as (sg & Heq & Hsg).
    rewrite Forall_forall in Hne. by apply (Hne sg Hsg). }
  split.
  { intros sg Hsg Hpath. rewrite Hfiles, bool_decide_eq_true_2; [done|].
    split; [done|]. by apply list_elem_of_fmap_2. }
  split.
  { intros p Hp Hp'. rewrite Hfiles, bool_decide_eq_false_2 by (intros [? ?]; by destruct Hp').
    pose proof (mergeSegments_files_frame t fs p Hp) as Hframe.
    by rewrite Hrun in Hframe. }
  assert (task_state t1 = DownloadState.Merging) as Hst1
    by (subst t1; cbn; apply task_setState_state).
  assert (task_signals t1
          = task_signals t ++ (if bool_decide (task_state t ≠ DownloadState.Merging)
                               then [stateChanged DownloadState.Merging] else [])) as Hsig1
    by (subst t1; cbn; apply task_setState_signals).
  assert (task_state t2 = DownloadState.Verifying) as Hst2 by apply task_setState_state.
  assert (task_signals t2 = task_signals t1 ++ [stateChanged DownloadState.Verifying])
    as Hsig2.
  { subst t2. rewrite task_setState_signals, Hst1. by rewrite bool_decide_eq_true_2. }
  rewrite task_setState_signals, Hst2, Hsig2, Hsig1.
  rewrite (bool_decide_eq_true_2 (DownloadState.Verifying ≠ DownloadState.Completed))
    by done.
  by rewrite <- !app_assoc.
Qed.

Lemma X24_completed_download_witness :
  task_state (fst (onAllSegmentsCompleted damaged_task healthy_disk))
  = DownloadState.Completed
  ∧ fs_files (snd (onAllSegmentsCompleted damaged_task healthy_disk)) !! part0 = None.
Proof.
  assert (Forall (λ segment, m_tempFilePath segment ≠ m_filePath damaged_task)
            (m_segments (m_scheduler damaged_task))) as Hne
    by (repeat constructor; discriminate).
  destruct (X24_completed_download_cleans_up damaged_task healthy_disk Hne eq_refl)
    as (Hstate & _ & _ & Hgone & _).
  split; [exact Hstate|].
  apply (Hgone (mkSegment 0 0 4 5 SegmentState.Completed part0 0 NoMessage)).
  - left.
  - discriminate.
Defined.
